(** * ImmersiveAI-Engine: the state layer, embedded and verified

    A shallow embedding of the state layer of the engine:

    - [DatabaseManager]  (core/database.js, with the constraints of core/schema.sql),
    - [StateManager]     (state/manager.js: typed operations, cache, snapshots),
    - [StateValidator]   (state/validator.js),
    - [StateExtractor]   (state/extractor.js, with a small backtracking
                          matcher for its regular expressions),
    - [StateIntegrator]  (state/integrator.js: [processMessage]),
    - [Conversation]     (conversation/manager.js: the session class).

    JavaScript values are JSON documents, database rows hold SQLite scalars,
    and the effects of the code (the database, the caches, the clock, the
    UUID generator, thrown errors) are threaded through a state-and-exception
    monad.  The logger has no influence on any state or result and is left
    out. *)

From Stdlib Require Import ZArith NArith List String Ascii Bool Lia DecimalString.
From Stdlib Require Import Permutation Sorted.
From Stdlib Require OrderedTypeEx.
Import ListNotations.

Set Warnings "-register-all".

Open Scope string_scope.
Open Scope Z_scope.

(** ** JavaScript values *)

(** The values that flow through the state layer: everything the code reads
    from the store, receives from callers or gets out of [JSON.parse].
    Numbers are the integers ([Z]) and [NaN]; a property that is absent
    reads as [undefined]. *)
Inductive json : Type :=
| JUndefined
| JNull
| JBool (b : bool)
| JNum (n : Z)
| JNaN
| JStr (s : string)
| JArr (items : list json)
| JObj (fields : list (string * json)).

(** An object literal: properties in insertion order. *)
Definition jsobject := list (string * json).

Fixpoint prop {V : Type} (o : list (string * V)) (k : string) : option V :=
  match o with
  | [] => None
  | (k', v) :: o' => if String.eqb k' k then Some v else prop o' k
  end.

Definition has_prop {V : Type} (o : list (string * V)) (k : string) : bool :=
  match prop o k with Some _ => true | None => false end.

(** [{ ...o, k: v }]: an existing property keeps its place, a new one goes last. *)
Fixpoint set_prop {V : Type} (o : list (string * V)) (k : string) (v : V)
  : list (string * V) :=
  match o with
  | [] => [(k, v)]
  | (k', v') :: o' =>
      if String.eqb k' k then (k, v) :: o' else (k', v') :: set_prop o' k v
  end.

(** [{ ...o, ...o2 }] *)
Definition spread {V : Type} (o o2 : list (string * V)) : list (string * V) :=
  fold_left (fun acc kv => set_prop acc (fst kv) (snd kv)) o2 o.

Definition keys {V : Type} (o : list (string * V)) : list string := map fst o.

(** [o.k] *)
Definition jget (o : jsobject) (k : string) : json :=
  match prop o k with
  | Some v => v
  | None => JUndefined
  end.

(** JavaScript truthiness, as used by [||], [!], [?:] and [if]. *)
Definition truthy (v : json) : bool :=
  match v with
  | JUndefined => false
  | JNull => false
  | JBool b => b
  | JNum n => negb (n =? 0)
  | JNaN => false
  | JStr s => negb (String.eqb s "")
  | JArr _ => true
  | JObj _ => true
  end.

(** [a || b] *)
Definition js_or (a b : json) : json := if truthy a then a else b.

(** [v !== undefined] *)
Definition defined (v : json) : bool :=
  match v with JUndefined => false | _ => true end.

(** ** SQLite scalars and rows *)

(** The storage classes the schema uses.  A row lists its columns in the
    order of the table definition, which is the order [SELECT *] returns. *)
Inductive sqlval : Type :=
| SNull
| SInt (n : Z)
| SText (s : string).

Definition row := list (string * sqlval).

Definition sqlval_eqb (a b : sqlval) : bool :=
  match a, b with
  | SNull, SNull => true
  | SInt x, SInt y => x =? y
  | SText x, SText y => String.eqb x y
  | _, _ => false
  end.

(** What better-sqlite3 accepts as a bound parameter: numbers, strings,
    [null] and [undefined] (which it binds as NULL); anything else is a
    [TypeError].  SQLite stores [NaN] as NULL.  The value is the one the
    driver hands over: the conversion a column applies to a value of another
    type than its own is not part of this development, and the statements
    below that speak of a stored value are about values of the declared type
    of their column. *)
Definition bind_value (v : json) : option sqlval :=
  match v with
  | JNull => Some SNull
  | JUndefined => Some SNull
  | JNaN => Some SNull
  | JNum n => Some (SInt n)
  | JStr s => Some (SText s)
  | JBool _ | JArr _ | JObj _ => None
  end.

Fixpoint bind_object (o : jsobject) : option row :=
  match o with
  | [] => Some []
  | (k, v) :: o' =>
      match bind_value v, bind_object o' with
      | Some x, Some r => Some ((k, x) :: r)
      | _, _ => None
      end
  end.

(** A row as the JavaScript object a query returns. *)
Definition unbind_value (x : sqlval) : json :=
  match x with
  | SNull => JNull
  | SInt n => JNum n
  | SText s => JStr s
  end.

Definition row_object (r : row) : jsobject :=
  map (fun kv => (fst kv, unbind_value (snd kv))) r.

(** SQL comparison: [None] when an operand is NULL (the comparison is then
    neither true nor false); integers sort before texts, texts by their bytes. *)
Definition sql_compare (a b : sqlval) : option comparison :=
  match a, b with
  | SNull, _ | _, SNull => None
  | SInt x, SInt y => Some (x ?= y)
  | SInt _, SText _ => Some Lt
  | SText _, SInt _ => Some Gt
  | SText x, SText y => Some (String.compare x y)
  end.

Definition sql_eq (a b : sqlval) : bool :=
  match sql_compare a b with Some Eq => true | _ => false end.
Definition sql_lt (a b : sqlval) : bool :=
  match sql_compare a b with Some Lt => true | _ => false end.
Definition sql_gt (a b : sqlval) : bool :=
  match sql_compare a b with Some Gt => true | _ => false end.
Definition sql_le (a b : sqlval) : bool :=
  match sql_compare a b with Some Lt | Some Eq => true | _ => false end.
Definition sql_ge (a b : sqlval) : bool :=
  match sql_compare a b with Some Gt | Some Eq => true | _ => false end.

(** A CHECK constraint fails only when its expression is false: NULL passes. *)
Definition check_range (lo : Z) (hi : option Z) (v : sqlval) : bool :=
  match v with
  | SNull => true
  | _ => sql_ge v (SInt lo)
         && match hi with Some h => sql_le v (SInt h) | None => true end
  end.

(** ** The host environment *)

(** What the code takes from its JavaScript host and never defines: the JSON
    codec ([None] is a [SyntaxError]), the clock behind [Date.now()], the
    generator behind [randomUUID()] and the date formatter
    [new Date(t).toISOString()] ([None] is its [RangeError]).  The k-th
    reading of the clock and the k-th UUID drawn are arbitrary, so every run
    of the host is covered. *)
Class Host : Type := {
  JSON_stringify : json -> string;
  JSON_parse : string -> option json;
  clock : nat -> Z;
  uuid : nat -> string;
  toISOString : Z -> option string
}.

(** ** The store and the world *)

Inductive table : Type :=
| Characters | Timeline | Locations | Inventory | Memories
| StateSnapshots | ValidationLogs.

Definition table_name (t : table) : string :=
  match t with
  | Characters => "characters"
  | Timeline => "timeline"
  | Locations => "locations"
  | Inventory => "inventory"
  | Memories => "memories"
  | StateSnapshots => "state_snapshots"
  | ValidationLogs => "validation_logs"
  end.

(** The five tables a snapshot covers. *)
Definition state_tables : list table :=
  [Characters; Timeline; Locations; Inventory; Memories].

Record Database : Type := {
  characters : list row;
  timeline : list row;
  locations : list row;
  inventory : list row;
  memories : list row;
  state_snapshots : list row;
  validation_logs : list row
}.

Definition rows (t : table) (d : Database) : list row :=
  match t with
  | Characters => characters d
  | Timeline => timeline d
  | Locations => locations d
  | Inventory => inventory d
  | Memories => memories d
  | StateSnapshots => state_snapshots d
  | ValidationLogs => validation_logs d
  end.

Definition set_rows (t : table) (l : list row) (d : Database) : Database :=
  match t with
  | Characters =>
      Build_Database l (timeline d) (locations d) (inventory d) (memories d)
        (state_snapshots d) (validation_logs d)
  | Timeline =>
      Build_Database (characters d) l (locations d) (inventory d) (memories d)
        (state_snapshots d) (validation_logs d)
  | Locations =>
      Build_Database (characters d) (timeline d) l (inventory d) (memories d)
        (state_snapshots d) (validation_logs d)
  | Inventory =>
      Build_Database (characters d) (timeline d) (locations d) l (memories d)
        (state_snapshots d) (validation_logs d)
  | Memories =>
      Build_Database (characters d) (timeline d) (locations d) (inventory d) l
        (state_snapshots d) (validation_logs d)
  | StateSnapshots =>
      Build_Database (characters d) (timeline d) (locations d) (inventory d)
        (memories d) l (validation_logs d)
  | ValidationLogs =>
      Build_Database (characters d) (timeline d) (locations d) (inventory d)
        (memories d) (state_snapshots d) l
  end.

Definition empty_database : Database :=
  Build_Database [] [] [] [] [] [] [].

(** A cache entry of the state manager: [{ data, timestamp }]. *)
Record CacheEntry : Type := {
  data : jsobject;
  timestamp : Z
}.

(** A JavaScript [Map] with string keys: insertion order, one entry per key. *)
Definition jsmap (V : Type) := list (string * V).

Definition map_has {V} (m : jsmap V) (k : string) : bool := has_prop m k.
Definition map_get {V} (m : jsmap V) (k : string) : option V := prop m k.
Definition map_set {V} (m : jsmap V) (k : string) (v : V) : jsmap V :=
  set_prop m k v.
Fixpoint map_delete {V} (m : jsmap V) (k : string) : jsmap V :=
  match m with
  | [] => []
  | (k', v) :: m' =>
      if String.eqb k' k then map_delete m' k else (k', v) :: map_delete m' k
  end.
Definition map_size {V} (m : jsmap V) : Z := Z.of_nat (List.length m).
(** [m.keys().next().value] *)
Definition map_first_key {V} (m : jsmap V) : option string :=
  match m with
  | [] => None
  | (k, _) :: _ => Some k
  end.

Record Cache : Type := {
  cache_characters : jsmap CacheEntry;
  cache_locations : jsmap CacheEntry;
  cache_inventory : jsmap CacheEntry
}.

Definition empty_cache : Cache := Build_Cache [] [] [].

(** Everything a call can read or change: the database, the caches of the
    state manager, and how many clock readings and UUIDs were consumed. *)
Record World : Type := {
  db : Database;
  cache : Cache;
  ticks : nat;
  draws : nat
}.

Definition with_db (d : Database) (w : World) : World :=
  Build_World d (cache w) (ticks w) (draws w).
Definition with_cache (c : Cache) (w : World) : World :=
  Build_World (db w) c (ticks w) (draws w).

(** ** The monad of the code: state and exceptions *)

Inductive outcome (A : Type) : Type :=
| Ok (a : A)
| Throw (message : string).
Arguments Ok {A} a.
Arguments Throw {A} message.

Definition M (A : Type) : Type := World -> outcome A * World.

Definition ret {A} (a : A) : M A := fun w => (Ok a, w).
Definition throw {A} (message : string) : M A := fun w => (Throw message, w).
Definition bind {A B} (m : M A) (k : A -> M B) : M B :=
  fun w =>
    match m w with
    | (Ok a, w') => k a w'
    | (Throw e, w') => (Throw e, w')
    end.
(** [try { m } catch (error) { handler(error.message) }] *)
Definition try_catch {A} (m : M A) (handler : string -> M A) : M A :=
  fun w =>
    match m w with
    | (Ok a, w') => (Ok a, w')
    | (Throw e, w') => handler e w'
    end.

Declare Scope monad_scope.
Delimit Scope monad_scope with monad.
Notation "x <- c ;; k" := (bind c (fun x => k))
  (at level 61, c at next level, right associativity) : monad_scope.
Notation "c ;;; k" := (bind c (fun _ => k))
  (at level 61, right associativity) : monad_scope.
Open Scope monad_scope.

Definition get_db : M Database := fun w => (Ok (db w), w).
Definition put_db (d : Database) : M unit := fun w => (Ok tt, with_db d w).
Definition get_cache : M Cache := fun w => (Ok (cache w), w).
Definition put_cache (c : Cache) : M unit := fun w => (Ok tt, with_cache c w).

(** A value an option must hold, or the given error. *)
Definition or_throw {A} (o : option A) (message : string) : M A :=
  match o with
  | Some a => ret a
  | None => throw message
  end.

Fixpoint for_each {A} (l : list A) (body : A -> M unit) : M unit :=
  match l with
  | [] => ret tt
  | a :: l' => body a ;;; for_each l' body
  end.

Section HostEffects.
Context {H : Host}.

(** [Date.now()] *)
Definition Date_now : M Z :=
  fun w => (Ok (clock (ticks w)),
            Build_World (db w) (cache w) (S (ticks w)) (draws w)).

(** [randomUUID()] *)
Definition randomUUID : M string :=
  fun w => (Ok (uuid (draws w)),
            Build_World (db w) (cache w) (ticks w) (S (draws w))).
End HostEffects.

(** ** The schema (core/schema.sql) *)

Record column : Type := {
  col_name : string;
  col_notnull : bool;
  col_default : sqlval
}.

Definition col (name : string) : column := Build_column name false SNull.
Definition col_nn (name : string) : column := Build_column name true SNull.
Definition col_def (name : string) (v : sqlval) : column :=
  Build_column name false v.

Definition columns (t : table) : list column :=
  match t with
  | Characters =>
      [col "id"; col_nn "name"; col_def "affection" (SInt 0);
       col_def "emotion" (SText "neutral"); col "personality";
       col "current_location"; col "metadata";
       col_nn "created_at"; col_nn "updated_at"]
  | Timeline =>
      [col "id"; col_nn "timestamp"; col_nn "event_type"; col_nn "description";
       col "participants"; col "location"; col_def "importance" (SInt 1);
       col "metadata"; col_nn "created_at"; col_nn "updated_at"]
  | Locations =>
      [col "id"; col_nn "name"; col "type"; col "parent_location";
       col "connected_to"; col "description"; col "metadata";
       col_nn "created_at"; col_nn "updated_at"]
  | Inventory =>
      [col "id"; col_nn "character_id"; col_nn "item_name"; col "item_type";
       col_def "quantity" (SInt 1); col_def "equipped" (SInt 0);
       col "properties"; col_nn "created_at"; col_nn "updated_at"]
  | Memories =>
      [col "id"; col_nn "character_id"; col_nn "content";
       col_def "importance" (SInt 1); col_nn "timestamp"; col "tags";
       col "metadata"; col_nn "created_at"; col_nn "updated_at"]
  | StateSnapshots =>
      [col "id"; col_nn "snapshot_time"; col_nn "state_data";
       col "description"; col_nn "created_at"; col_nn "updated_at"]
  | ValidationLogs =>
      [col "id"; col_nn "timestamp"; col_nn "validation_type"; col_nn "passed";
       col "details"; col_nn "created_at"; col_nn "updated_at"]
  end.

Definition column_names (t : table) : list string := map col_name (columns t).

Definition mem_string (k : string) (l : list string) : bool :=
  existsb (String.eqb k) l.

Definition is_column (t : table) (k : string) : bool :=
  mem_string k (column_names t).

(** The value of a column in a row; a column the row lacks reads as NULL. *)
Definition field (r : row) (k : string) : sqlval :=
  match prop r k with
  | Some v => v
  | None => SNull
  end.

Definition is_null (v : sqlval) : bool :=
  match v with SNull => true | _ => false end.

(** [v] equals (in SQL) one of [l]; NULL equals nothing. *)
Definition mem_val (v : sqlval) (l : list sqlval) : bool := existsb (sql_eq v) l.

Definition column_values (k : string) (l : list row) : list sqlval :=
  map (fun r => field r k) l.

Definition ids (l : list row) : list sqlval := column_values "id" l.

(** No two of the values are equal in SQL (NULLs never count as equal). *)
Fixpoint distinct_vals (l : list sqlval) : bool :=
  match l with
  | [] => true
  | v :: l' => negb (mem_val v l') && distinct_vals l'
  end.

(** The row an INSERT stores: every column of the table, omitted ones at
    their DEFAULT (NULL when none is declared). *)
Definition complete (t : table) (r : row) : row :=
  map (fun c => (col_name c,
                 match prop r (col_name c) with
                 | Some v => v
                 | None => col_default c
                 end))
      (columns t).

Definition known_columns (t : table) (names : list string) : bool :=
  forallb (is_column t) names.

(** NOT NULL *)
Definition not_null_ok (t : table) (r : row) : bool :=
  forallb (fun c => negb (col_notnull c) || negb (is_null (field r (col_name c))))
          (columns t).

(** CHECK *)
Definition checks_ok (t : table) (r : row) : bool :=
  match t with
  | Characters => check_range 0 (Some 100) (field r "affection")
  | Timeline => check_range 1 (Some 5) (field r "importance")
  | Inventory => check_range 0 None (field r "quantity")
  | Memories => check_range 1 (Some 5) (field r "importance")
  | Locations | StateSnapshots | ValidationLogs => true
  end.

(** PRIMARY KEY and UNIQUE, against the rows already stored. *)
Definition keys_free (t : table) (d : Database) (r : row) : bool :=
  negb (mem_val (field r "id") (ids (rows t d)))
  && match t with
     | Locations =>
         negb (mem_val (field r "name") (column_values "name" (locations d)))
     | _ => true
     end.

(** FOREIGN KEY (checked at once, [foreign_keys = ON]); a NULL reference is
    none, and a location may name itself as its parent. *)
Definition references_ok (t : table) (d : Database) (r : row) : bool :=
  match t with
  | Inventory | Memories =>
      is_null (field r "character_id")
      || mem_val (field r "character_id") (ids (characters d))
  | Locations =>
      is_null (field r "parent_location")
      || mem_val (field r "parent_location") (ids (locations d))
      || sql_eq (field r "parent_location") (field r "id")
  | Characters | Timeline | StateSnapshots | ValidationLogs => true
  end.

Definition row_ok (t : table) (r : row) : bool :=
  not_null_ok t r && checks_ok t r.

(** Whether the engine takes the INSERT of the bound record [r]. *)
Definition accepts (t : table) (d : Database) (r : row) : bool :=
  known_columns t (keys r)
  && row_ok t (complete t r)
  && keys_free t d (complete t r)
  && references_ok t d (complete t r).

Definition engine_insert (t : table) (r : row) (d : Database) : option Database :=
  if accepts t d r
  then Some (set_rows t (rows t d ++ [complete t r]) d)
  else None.

(** DELETE of the rows [sel] picks.  Deleting characters cascades to their
    inventory and memories; a location that remains the parent of a location
    that stays cannot go. *)
Definition engine_delete (t : table) (sel : row -> bool) (d : Database)
  : option (Database * Z) :=
  let gone := filter sel (rows t d) in
  let kept := filter (fun r => negb (sel r)) (rows t d) in
  let d1 := set_rows t kept d in
  let changes := Z.of_nat (List.length gone) in
  match t with
  | Characters =>
      let orphan := fun r => mem_val (field r "character_id") (ids gone) in
      Some (set_rows Memories (filter (fun r => negb (orphan r)) (memories d1))
              (set_rows Inventory
                 (filter (fun r => negb (orphan r)) (inventory d1)) d1),
            changes)
  | Locations =>
      if existsb (fun r => mem_val (field r "parent_location") (ids gone)) kept
      then None
      else Some (d1, changes)
  | _ => Some (d1, changes)
  end.

(** [SET k = v, ...] on one row. *)
Definition assign (r : row) (sets : row) : row :=
  map (fun kv => (fst kv,
                  match prop sets (fst kv) with
                  | Some v => v
                  | None => snd kv
                  end)) r.

(** UPDATE of the rows [sel] picks.  Every changed row must keep NOT NULL and
    CHECK; keys and references are checked when the statement assigns them. *)
Definition engine_update (t : table) (sets : row) (sel : row -> bool)
    (d : Database) : option (Database * Z) :=
  let old := rows t d in
  let new := map (fun r => if sel r then assign r sets else r) old in
  let changed := map (fun r => assign r sets) (filter sel old) in
  let d1 := set_rows t new d in
  let sets_col := fun k => has_prop sets k in
  if negb (known_columns t (keys sets)) then None
  else if negb (forallb (row_ok t) changed) then None
  else if sets_col "id" && negb (distinct_vals (ids new)) then None
  else if sets_col "id"
          && match t with
             | Characters =>
                 negb (forallb (fun r => mem_val (field r "character_id") (ids new))
                         (inventory d ++ memories d))
             | Locations =>
                 negb (forallb (fun r => is_null (field r "parent_location")
                                      || mem_val (field r "parent_location") (ids new))
                         new)
             | _ => false
             end then None
  else if match t with
          | Locations =>
              sets_col "name" && negb (distinct_vals (column_values "name" new))
          | _ => false
          end then None
  else if match t with
          | Inventory | Memories => sets_col "character_id"
          | Locations => sets_col "parent_location"
          | _ => false
          end && negb (forallb (references_ok t d1) changed) then None
  else Some (d1, Z.of_nat (List.length changed)).

(** ** Strings as JavaScript sees them *)

(** A JavaScript string is a sequence of UTF-16 code units; the texts of the
    model are UTF-8 byte strings.  [units] and [text_of] convert between the
    two, so that lengths, slices and regular expressions count code units as
    the code does. *)
Module Text.

Definition unit := N.

Definition bytes (s : string) : list N := map N_of_ascii (list_ascii_of_string s).
Definition of_bytes (l : list N) : string :=
  string_of_list_ascii (map ascii_of_N l).

Definition is_cont (b : N) : bool := (128 <=? b)%N && (b <? 192)%N.
Definition low6 (b : N) : N := N.land b 63.

Fixpoint decode (l : list N) : list unit :=
  match l with
  | [] => []
  | b :: l1 =>
      if (b <? 128)%N then b :: decode l1
      else
        match l1 with
        | b1 :: l2 =>
            if (192 <=? b)%N && (b <? 224)%N && is_cont b1
            then (N.shiftl (N.land b 31) 6 + low6 b1)%N :: decode l2
            else
              match l2 with
              | b2 :: l3 =>
                  if (224 <=? b)%N && (b <? 240)%N && is_cont b1 && is_cont b2
                  then (N.shiftl (N.land b 15) 12 + N.shiftl (low6 b1) 6
                        + low6 b2)%N :: decode l3
                  else
                    match l3 with
                    | b3 :: l4 =>
                        if (240 <=? b)%N && (b <? 248)%N
                           && is_cont b1 && is_cont b2 && is_cont b3
                        then
                          let cp := (N.shiftl (N.land b 7) 18
                                     + N.shiftl (low6 b1) 12
                                     + N.shiftl (low6 b2) 6 + low6 b3)%N in
                          let c := (cp - 65536)%N in
                          (55296 + N.shiftr c 10)%N
                            :: (56320 + N.land c 1023)%N :: decode l4
                        else 65533%N :: decode l1
                    | [] => 65533%N :: decode l1
                    end
              | [] => 65533%N :: decode l1
              end
        | [] => [65533%N]
        end
  end.

Definition is_high (u : unit) : bool := (55296 <=? u)%N && (u <? 56320)%N.
Definition is_low (u : unit) : bool := (56320 <=? u)%N && (u <? 57344)%N.

Definition encode_point (cp : N) : list N :=
  if (cp <? 128)%N then [cp]
  else if (cp <? 2048)%N
  then [(192 + N.shiftr cp 6)%N; (128 + low6 cp)%N]
  else if (cp <? 65536)%N
  then [(224 + N.shiftr cp 12)%N; (128 + low6 (N.shiftr cp 6))%N;
        (128 + low6 cp)%N]
  else [(240 + N.shiftr cp 18)%N; (128 + low6 (N.shiftr cp 12))%N;
        (128 + low6 (N.shiftr cp 6))%N; (128 + low6 cp)%N].

Fixpoint encode (l : list unit) : list N :=
  match l with
  | [] => []
  | u :: l1 =>
      match l1 with
      | v :: l2 =>
          if is_high u && is_low v
          then encode_point (65536 + N.shiftl (u - 55296) 10 + (v - 56320))%N
                 ++ encode l2
          else encode_point u ++ encode l1
      | [] => encode_point u
      end
  end.

Definition units (s : string) : list unit := decode (bytes s).
Definition text_of (l : list unit) : string := of_bytes (encode l).

(** [s.length] *)
Definition length (s : string) : nat := List.length (units s).

(** [s.slice(0, n)] *)
Definition slice0 (n : nat) (s : string) : string := text_of (firstn n (units s)).

(** ASCII case mapping; the keywords and patterns of the code have no
    other cased letters. *)
Definition lower (u : unit) : unit :=
  if (65 <=? u)%N && (u <=? 90)%N then (u + 32)%N else u.
Definition upper (u : unit) : unit :=
  if (97 <=? u)%N && (u <=? 122)%N then (u - 32)%N else u.

(** The white space of [\s] and of [trim]. *)
Definition is_space (u : unit) : bool :=
  existsb (N.eqb u)
    [9; 10; 11; 12; 13; 32; 160; 5760; 8232; 8233; 8239; 8287; 12288; 65279]%N
  || ((8192 <=? u)%N && (u <=? 8202)%N).

(** The line terminators, which [.] does not match. *)
Definition is_line_end (u : unit) : bool :=
  existsb (N.eqb u) [10; 13; 8232; 8233]%N.

Definition is_digit (u : unit) : bool := (48 <=? u)%N && (u <=? 57)%N.

Fixpoint drop_while (p : unit -> bool) (l : list unit) : list unit :=
  match l with
  | [] => []
  | u :: l' => if p u then drop_while p l' else l
  end.

(** [s.trim()] on code units. *)
Definition trim (l : list unit) : list unit :=
  rev (drop_while is_space (rev (drop_while is_space l))).

(** [n] as a decimal numeral. *)
Definition of_nat (n : nat) : string := NilEmpty.string_of_uint (Nat.to_uint n).
Definition of_Z (z : Z) : string := NilZero.string_of_int (Z.to_int z).

(** [parseInt] of a run of decimal digits. *)
Definition digits_value (l : list unit) : Z :=
  fold_left (fun acc u => acc * 10 + Z.of_N (u - 48)) l 0.

End Text.

(** ** DatabaseManager (core/database.js) *)

Module DatabaseManager.

(** One condition of a WHERE clause: a column, an operator and its operands. *)
Inductive operator : Type := OpEq | OpGt | OpGte | OpLt | OpLte | OpLike | OpIn.

Record condition : Type := {
  cond_column : string;
  cond_op : operator;
  cond_values : list json
}.

(** [Object.entries] of a value used as an operator object: an array lists
    its indices as keys. *)
Fixpoint indexed (i : nat) (l : list json) : jsobject :=
  match l with
  | [] => []
  | v :: l' => (Text.of_nat i, v) :: indexed (S i) l'
  end.

(** The conditions one operator object contributes to column [key]. *)
Fixpoint operator_conditions (key : string) (ops : jsobject)
  : outcome (list condition) :=
  match ops with
  | [] => Ok []
  | (op, val) :: ops' =>
      let one (o : operator) (vals : list json) :=
        match operator_conditions key ops' with
        | Ok l => Ok (Build_condition key o vals :: l)
        | Throw e => Throw e
        end in
      if String.eqb op "gt" then one OpGt [val]
      else if String.eqb op "gte" then one OpGte [val]
      else if String.eqb op "lt" then one OpLt [val]
      else if String.eqb op "lte" then one OpLte [val]
      else if String.eqb op "like" then one OpLike [val]
      else if String.eqb op "in" then
        match val with
        | JArr items => one OpIn items
        | _ => Throw "val.map is not a function"
        end
      else Throw ("Unknown operator: " ++ op)
  end.

(** [_buildWhereClause]: an object or array value holds operators, any
    other value stands for equality. *)
Fixpoint _buildWhereClause (where_ : jsobject) : outcome (list condition) :=
  match where_ with
  | [] => Ok []
  | (key, value) :: rest =>
      let here :=
        match value with
        | JObj ops => operator_conditions key ops
        | JArr items => operator_conditions key (indexed 0 items)
        | _ => Ok [Build_condition key OpEq [value]]
        end in
      match here, _buildWhereClause rest with
      | Ok l, Ok l' => Ok (l ++ l')%list
      | Throw e, _ => Throw e
      | _, Throw e => Throw e
      end
  end.

(** SQL [LIKE] on bytes: [%] is any run, [_] one character (a lead byte
    with its continuation bytes), letters of ASCII compare without case. *)
Fixpoint like (p s : list N) {struct p} : bool :=
  match p with
  | [] => match s with [] => true | _ => false end
  | c :: p' =>
      if (c =? 37)%N then
        (fix any (s : list N) : bool :=
           like p' s || match s with [] => false | _ :: s' => any s' end) s
      else
        match s with
        | [] => false
        | x :: s' =>
            if (c =? 95)%N then like p' (Text.drop_while Text.is_cont s')
            else (Text.upper c =? Text.upper x)%N && like p' s'
        end
  end.

Definition sql_text (v : sqlval) : option string :=
  match v with
  | SNull => None
  | SInt n => Some (Text.of_Z n)
  | SText s => Some s
  end.

Definition sql_like (v pattern : sqlval) : bool :=
  match sql_text v, sql_text pattern with
  | Some s, Some p => like (Text.bytes p) (Text.bytes s)
  | _, _ => false
  end.

(** A condition with its operands bound. *)
Definition holds (c : condition) (operands : list sqlval) (r : row) : bool :=
  let v := field r (cond_column c) in
  match cond_op c, operands with
  | OpEq, [x] => sql_eq v x
  | OpGt, [x] => sql_gt v x
  | OpGte, [x] => sql_ge v x
  | OpLt, [x] => sql_lt v x
  | OpLte, [x] => sql_le v x
  | OpLike, [x] => sql_like v x
  | OpIn, xs => mem_val v xs
  | _, _ => false
  end.

Fixpoint bind_values (l : list json) : option (list sqlval) :=
  match l with
  | [] => Some []
  | v :: l' =>
      match bind_value v, bind_values l' with
      | Some x, Some xs => Some (x :: xs)
      | _, _ => None
      end
  end.

(** Preparing and binding a WHERE clause over table [t]: the row filter,
    or the error of the statement (an unknown column, an empty [IN ()]
    list is fine, a value that cannot be bound). *)
Fixpoint selector (t : table) (conds : list condition)
  : outcome (row -> bool) :=
  match conds with
  | [] => Ok (fun _ => true)
  | c :: conds' =>
      if negb (is_column t (cond_column c))
      then Throw ("no such column: " ++ cond_column c)
      else
        match bind_values (cond_values c), selector t conds' with
        | Some xs, Ok f => Ok (fun r => holds c xs r && f r)
        | None, _ =>
            Throw "SQLite3 can only bind numbers, strings, bigints, buffers, and null"
        | _, Throw e => Throw e
        end
  end.

Definition lift {A} (o : outcome A) : M A :=
  match o with
  | Ok a => ret a
  | Throw e => throw e
  end.

(** The filter of [SELECT * FROM t] with the optional WHERE of
    [_buildSelectQuery]: no clause at all for an empty [where]. *)
Definition select_filter (t : table) (where_ : jsobject) : outcome (row -> bool) :=
  match where_ with
  | [] => Ok (fun _ => true)
  | _ =>
      match _buildWhereClause where_ with
      | Ok [] => Throw "incomplete input"
      | Ok conds => selector t conds
      | Throw e => Throw e
      end
  end.

(** The filter of [UPDATE] and [DELETE], whose WHERE is always written:
    no condition is a syntax error. *)
Definition write_filter (t : table) (where_ : jsobject) : outcome (row -> bool) :=
  match _buildWhereClause where_ with
  | Ok [] => Throw "incomplete input"
  | Ok conds => selector t conds
  | Throw e => Throw e
  end.

(** [get(table, where_)]: the first matching row, or [null]. *)
Definition get (t : table) (where_ : jsobject) : M (option jsobject) :=
  sel <- lift (select_filter t where_) ;;
  d <- get_db ;;
  ret (option_map row_object (find sel (rows t d))).

(** The options of [getAll]. *)
Record query : Type := {
  q_where : option jsobject;
  q_orderBy : option string;
  q_order : option string;
  q_limit : option Z;
  q_offset : option Z
}.

Definition all_rows : query := Build_query None None None None None.
Definition where_only (where_ : jsobject) : query :=
  Build_query (Some where_) None None None None.

(** The order of [ORDER BY]: NULL first, then integers, then texts. *)
Definition sort_le (a b : sqlval) : bool :=
  match a, b with
  | SNull, _ => true
  | _, SNull => false
  | _, _ => sql_le a b
  end.

Fixpoint insert_sorted (le : row -> row -> bool) (r : row) (l : list row)
  : list row :=
  match l with
  | [] => [r]
  | x :: l' => if le r x then r :: l else x :: insert_sorted le r l'
  end.

(** A stable sort: rows that compare equal keep their order. *)
Definition sort_rows (le : row -> row -> bool) (l : list row) : list row :=
  fold_right
    (fun r acc => insert_sorted (fun a b => le a b) r acc) [] l.

Definition order_rows (t : table) (orderBy order : option string)
    (l : list row) : outcome (list row) :=
  match orderBy with
  | None => Ok l
  | Some "" => Ok l
  | Some c =>
      if negb (is_column t c) then Throw ("no such column: " ++ c)
      else
        let dir := match order with
                   | None | Some "" => "ASC"
                   | Some o => o
                   end in
        let dir := Text.text_of (map Text.upper (Text.units dir)) in
        if String.eqb dir "ASC"
        then Ok (sort_rows (fun a b => sort_le (field a c) (field b c)) l)
        else if String.eqb dir "DESC"
        then Ok (sort_rows (fun a b => sort_le (field b c) (field a c)) l)
        else Throw "syntax error"
  end.

(** [LIMIT n OFFSET m]; a negative limit is no limit, and the offset is
    only written next to a limit. *)
Definition limit_rows (limit offset : option Z) (l : list row) : list row :=
  match limit with
  | None | Some 0 => l
  | Some n =>
      let l' := match offset with
                | None | Some 0 => l
                | Some m => skipn (Z.to_nat m) l
                end in
      if n <? 0 then l' else firstn (Z.to_nat n) l'
  end.

(** [getAll(table, options)] *)
Definition getAll (t : table) (q : query) : M (list jsobject) :=
  sel <- lift (select_filter t (match q_where q with
                                | Some w => w
                                | None => []
                                end)) ;;
  d <- get_db ;;
  sorted <- lift (order_rows t (q_orderBy q) (q_order q)
                    (filter sel (rows t d))) ;;
  ret (map row_object (limit_rows (q_limit q) (q_offset q) sorted)).

(** The own enumerable properties of a value, as [{ ...data }] copies them. *)
Definition own_props (v : json) : jsobject :=
  match v with
  | JObj fields => fields
  | JArr items => indexed 0 items
  | JStr s => indexed 0 (map (fun u => JStr (Text.text_of [u])) (Text.units s))
  | JUndefined | JNull | JBool _ | JNum _ | JNaN => []
  end.

(** [data.id]: a [TypeError] on [null] and [undefined]. *)
Definition read_id (v : json) : outcome json :=
  match v with
  | JNull => Throw "Cannot read properties of null (reading 'id')"
  | JUndefined => Throw "Cannot read properties of undefined (reading 'id')"
  | JObj fields => Ok (jget fields "id")
  | _ => Ok JUndefined
  end.

(** The result of a write: [{ id, changes }] or [{ changes }]. *)
Record inserted : Type := { inserted_id : json; inserted_changes : Z }.

Section WithHost.
Context {H : Host}.

(** The record [insert] builds:
    [{ ...data, id: data.id || randomUUID(), created_at: now, updated_at: now }] *)
Definition insert_record (data : json) (now : Z) (id : json) : jsobject :=
  set_prop (set_prop (set_prop (own_props data) "id" id)
              "created_at" (JNum now)) "updated_at" (JNum now).

(** [insert(table, data)] *)
Definition insert (t : table) (data : json) : M inserted :=
  now <- Date_now ;;
  given <- lift (read_id data) ;;
  id <- (if truthy given then ret given
         else (u <- randomUUID ;; ret (JStr u))) ;;
  let record := insert_record data now id in
  r <- or_throw (bind_object record)
         "SQLite3 can only bind numbers, strings, bigints, buffers, and null" ;;
  d <- get_db ;;
  d' <- or_throw (engine_insert t r d) "constraint failed" ;;
  put_db d' ;;;
  ret (Build_inserted id 1).

(** [update(table, where_, data)]: [{ ...data, updated_at: Date.now() }] is
    written to every matching row. *)
Definition update (t : table) (where_ : jsobject) (data : jsobject) : M Z :=
  now <- Date_now ;;
  let updateData := set_prop data "updated_at" (JNum now) in
  conds <- lift (_buildWhereClause where_) ;;
  sets <- or_throw (bind_object updateData)
            "SQLite3 can only bind numbers, strings, bigints, buffers, and null" ;;
  sel <- lift (match conds with
               | [] => Throw "incomplete input"
               | _ => selector t conds
               end) ;;
  d <- get_db ;;
  res <- or_throw (engine_update t sets sel d) "constraint failed" ;;
  put_db (fst res) ;;;
  ret (snd res).
End WithHost.

(** [delete(table, where_)] *)
Definition delete (t : table) (where_ : jsobject) : M Z :=
  sel <- lift (write_filter t where_) ;;
  d <- get_db ;;
  res <- or_throw (engine_delete t sel d) "FOREIGN KEY constraint failed" ;;
  put_db (fst res) ;;;
  ret (snd res).

(** [transaction(callback)]: the callback runs inside BEGIN ... COMMIT; an
    error thrown inside rolls the database back and is thrown again. *)
Definition transaction {A} (callback : M A) : M A :=
  fun w =>
    match callback w with
    | (Ok a, w') => (Ok a, w')
    | (Throw e, w') => (Throw e, with_db (db w) w')
    end.

(** The statements the code hands to [raw]: [DELETE FROM <table>]. *)
Inductive statement : Type := DeleteFrom (t : table).

(** [raw(sql)] *)
Definition raw (s : statement) : M Z :=
  match s with
  | DeleteFrom t =>
      d <- get_db ;;
      res <- or_throw (engine_delete t (fun _ => true) d)
               "FOREIGN KEY constraint failed" ;;
      put_db (fst res) ;;;
      ret (snd res)
  end.

End DatabaseManager.

(** ** StateManager (state/manager.js) *)

Module StateManager.

(** [this.options] of a state manager (the database is the one of the world). *)
Record options : Type := {
  enableCache : bool;
  cacheSize : Z;
  cacheTTL : Z
}.

(** The constructor's defaults: [enableCache !== false],
    [cacheSize || 100], [cacheTTL || 60000]. *)
Definition new_options (enable : option bool) (size ttl : option Z) : options :=
  {| enableCache := match enable with Some false => false | _ => true end;
     cacheSize := match size with
                  | Some n => if n =? 0 then 100 else n
                  | None => 100
                  end;
     cacheTTL := match ttl with
                 | Some n => if n =? 0 then 60000 else n
                 | None => 60000
                 end |}.

Definition default_options : options := new_options None None None.

Definition set_characters (m : jsmap CacheEntry) (c : Cache) : Cache :=
  Build_Cache m (cache_locations c) (cache_inventory c).
Definition set_locations (m : jsmap CacheEntry) (c : Cache) : Cache :=
  Build_Cache (cache_characters c) m (cache_inventory c).

(** [this.cache.characters.delete(id)]; the keys in use are strings. *)
Definition forget_character (id : json) : M unit :=
  c <- get_cache ;;
  match id with
  | JStr k => put_cache (set_characters (map_delete (cache_characters c) k) c)
  | _ => ret tt
  end.

(** [clearCache()] *)
Definition clearCache : M unit := put_cache empty_cache.

Section WithHost.
Context {H : Host}.

(** [v ? JSON.stringify(v) : null] *)
Definition stringify_or_null (v : json) : json :=
  if truthy v then JStr (JSON_stringify v) else JNull.

(** [JSON.parse(v)] of a stored value: the argument is read as a string. *)
Definition parse_value (v : json) : M json :=
  match v with
  | JStr s => or_throw (JSON_parse s) "Unexpected token in JSON"
  | JNum n => ret (JNum n)
  | JBool b => ret (JBool b)
  | JNull => ret JNull
  | JNaN | JUndefined | JArr _ | JObj _ => throw "Unexpected token in JSON"
  end.

(** [v ? JSON.parse(v) : fallback] *)
Definition parse_or (v fallback : json) : M json :=
  if truthy v then parse_value v else ret fallback.

(** The fresh entry of a cache lookup, if there is one:
    [has(id)] and [Date.now() - cached.timestamp < cacheTTL]. *)
Definition cached (o : options) (m : jsmap CacheEntry) (id : string)
  : M (option jsobject) :=
  if enableCache o && map_has m id then
    match map_get m id with
    | Some entry =>
        now <- Date_now ;;
        if now - timestamp entry <? cacheTTL o
        then ret (Some (data entry))
        else ret None
    | None => ret None
    end
  else ret None.

(** [getCharacterState(characterId)] *)
Definition getCharacterState (o : options) (characterId : string)
  : M (option jsobject) :=
  c <- get_cache ;;
  hit <- cached o (cache_characters c) characterId ;;
  match hit with
  | Some d => ret (Some d)
  | None =>
      character <- DatabaseManager.get Characters [("id", JStr characterId)] ;;
      match character with
      | Some ch =>
          if enableCache o then
            now <- Date_now ;;
            c <- get_cache ;;
            let m := map_set (cache_characters c) characterId
                       {| data := ch; timestamp := now |} in
            let m := if cacheSize o <? map_size m
                     then match map_first_key m with
                          | Some firstKey => map_delete m firstKey
                          | None => m
                          end
                     else m in
            put_cache (set_characters m c) ;;;
            ret character
          else ret character
      | None => ret character
      end
  end.

(** [data.id || randomUUID()] *)
Definition id_or_fresh (v : json) : M json :=
  if truthy v then ret v else (u <- randomUUID ;; ret (JStr u)).

(** [createCharacter(data)] *)
Definition createCharacter (data : jsobject) : M DatabaseManager.inserted :=
  id <- id_or_fresh (jget data "id") ;;
  let characterData :=
    [("id", id);
     ("name", jget data "name");
     ("affection", js_or (jget data "affection") (JNum 0));
     ("emotion", js_or (jget data "emotion") (JStr "neutral"));
     ("personality", stringify_or_null (jget data "personality"));
     ("current_location", js_or (jget data "current_location") JNull);
     ("metadata", stringify_or_null (jget data "metadata"))] in
  result <- DatabaseManager.insert Characters (JObj characterData) ;;
  forget_character id ;;;
  ret result.

(** The [updateData] of [updateCharacterState]: the updates, with the
    structured fields serialized. *)
Definition character_updateData (updates : jsobject) : jsobject :=
  let updateData := updates in
  let updateData :=
    if truthy (jget updates "personality")
    then set_prop updateData "personality"
           (JStr (JSON_stringify (jget updates "personality")))
    else updateData in
  if truthy (jget updates "metadata")
  then set_prop updateData "metadata"
         (JStr (JSON_stringify (jget updates "metadata")))
  else updateData.

(** [updateCharacterState(characterId, updates)] *)
Definition updateCharacterState (characterId : string) (updates : jsobject)
  : M Z :=
  result <- DatabaseManager.update Characters [("id", JStr characterId)]
              (character_updateData updates) ;;
  forget_character (JStr characterId) ;;;
  ret result.

(** [deleteCharacter(characterId)] *)
Definition deleteCharacter (characterId : string) : M Z :=
  result <- DatabaseManager.delete Characters [("id", JStr characterId)] ;;
  forget_character (JStr characterId) ;;;
  ret result.

(** [addTimelineEvent(event)] *)
Definition addTimelineEvent (event : jsobject) : M DatabaseManager.inserted :=
  id <- id_or_fresh (jget event "id") ;;
  ts <- (if truthy (jget event "timestamp") then ret (jget event "timestamp")
         else (now <- Date_now ;; ret (JNum now))) ;;
  let eventData :=
    [("id", id);
     ("timestamp", ts);
     ("event_type", jget event "event_type");
     ("description", jget event "description");
     ("participants", stringify_or_null (jget event "participants"));
     ("location", js_or (jget event "location") JNull);
     ("importance", js_or (jget event "importance") (JNum 1));
     ("metadata", stringify_or_null (jget event "metadata"))] in
  DatabaseManager.insert Timeline (JObj eventData).

(** [getLocation(locationId)] *)
Definition getLocation (o : options) (locationId : string)
  : M (option jsobject) :=
  c <- get_cache ;;
  hit <- cached o (cache_locations c) locationId ;;
  match hit with
  | Some d => ret (Some d)
  | None =>
      location <- DatabaseManager.get Locations [("id", JStr locationId)] ;;
      match location with
      | Some loc =>
          connected <- parse_or (jget loc "connected_to") (JArr []) ;;
          metadata <- parse_or (jget loc "metadata") (JObj []) ;;
          let parsedLocation :=
            set_prop (set_prop loc "connected_to" connected)
              "metadata" metadata in
          (if enableCache o then
             now <- Date_now ;;
             c <- get_cache ;;
             put_cache (set_locations
                          (map_set (cache_locations c) locationId
                             {| data := parsedLocation; timestamp := now |}) c)
           else ret tt) ;;;
          ret (Some parsedLocation)
      | None => ret None
      end
  end.

(** [createLocation(data)] *)
Definition createLocation (data : jsobject) : M DatabaseManager.inserted :=
  id <- id_or_fresh (jget data "id") ;;
  let locationData :=
    [("id", id);
     ("name", jget data "name");
     ("type", js_or (jget data "type") JNull);
     ("parent_location", js_or (jget data "parent_location") JNull);
     ("connected_to", stringify_or_null (jget data "connected_to"));
     ("description", js_or (jget data "description") JNull);
     ("metadata", stringify_or_null (jget data "metadata"))] in
  DatabaseManager.insert Locations (JObj locationData).

(** [getInventory(characterId, options)] *)
Definition getInventory (characterId : string) (opts : jsobject)
  : M (list jsobject) :=
  let where_ := [("character_id", JStr characterId)] in
  let where_ := if truthy (jget opts "itemType")
                then set_prop where_ "item_type" (jget opts "itemType")
                else where_ in
  let where_ := if defined (jget opts "equipped")
                then set_prop where_ "equipped"
                       (JNum (if truthy (jget opts "equipped") then 1 else 0))
                else where_ in
  items <- DatabaseManager.getAll Inventory (DatabaseManager.where_only where_) ;;
  (fix parse_all (l : list jsobject) : M (list jsobject) :=
     match l with
     | [] => ret []
     | item :: l' =>
         properties <- parse_or (jget item "properties") (JObj []) ;;
         rest <- parse_all l' ;;
         ret (set_prop item "properties" properties :: rest)
     end) items.

(** [addInventoryItem(characterId, item)] *)
Definition addInventoryItem (characterId : string) (item : jsobject)
  : M DatabaseManager.inserted :=
  id <- id_or_fresh (jget item "id") ;;
  let itemData :=
    [("id", id);
     ("character_id", JStr characterId);
     ("item_name", jget item "item_name");
     ("item_type", js_or (jget item "item_type") JNull);
     ("quantity", js_or (jget item "quantity") (JNum 1));
     ("equipped", JNum (if truthy (jget item "equipped") then 1 else 0));
     ("properties", stringify_or_null (jget item "properties"))] in
  DatabaseManager.insert Inventory (JObj itemData).

(** [updateInventoryItem(itemId, updates)] *)
Definition updateInventoryItem (itemId : json) (updates : jsobject) : M Z :=
  let updateData := updates in
  let updateData :=
    if truthy (jget updates "properties")
    then set_prop updateData "properties"
           (JStr (JSON_stringify (jget updates "properties")))
    else updateData in
  let updateData :=
    if defined (jget updates "equipped")
    then set_prop updateData "equipped"
           (JNum (if truthy (jget updates "equipped") then 1 else 0))
    else updateData in
  DatabaseManager.update Inventory [("id", itemId)] updateData.

(** [addMemory(characterId, memory)] *)
Definition addMemory (characterId : string) (memory : jsobject)
  : M DatabaseManager.inserted :=
  id <- id_or_fresh (jget memory "id") ;;
  ts <- (if truthy (jget memory "timestamp") then ret (jget memory "timestamp")
         else (now <- Date_now ;; ret (JNum now))) ;;
  let memoryData :=
    [("id", id);
     ("character_id", JStr characterId);
     ("content", jget memory "content");
     ("importance", js_or (jget memory "importance") (JNum 1));
     ("timestamp", ts);
     ("tags", stringify_or_null (jget memory "tags"));
     ("metadata", stringify_or_null (jget memory "metadata"))] in
  DatabaseManager.insert Memories (JObj memoryData).

(** [rows.map(row => ({ ...row, a: row.a ? JSON.parse(row.a) : [], b: row.b ? JSON.parse(row.b) : {} }))] *)
Fixpoint parse_columns (a b : string) (l : list jsobject) : M (list jsobject) :=
  match l with
  | [] => ret []
  | item :: l' =>
      first <- parse_or (jget item a) (JArr []) ;;
      second <- parse_or (jget item b) (JObj []) ;;
      rest <- parse_columns a b l' ;;
      ret (set_prop (set_prop item a first) b second :: rest)
  end.

(** The options of [getTimeline]; [order] and [limit] are the string and the
    number the documentation asks for, [None] when they are not given. *)
Record timeline_options : Type := {
  startTime : json;
  endTime : json;
  eventType : json;
  minImportance : json;
  timeline_order : option string;
  timeline_limit : option Z
}.

(** [options.order || fallback] *)
Definition order_or (order : option string) (fallback : string) : string :=
  match order with
  | None | Some "" => fallback
  | Some o => o
  end.

(** The [where] object [getTimeline] builds. *)
Definition timeline_where (opts : timeline_options) : jsobject :=
  let where_ : jsobject := [] in
  let where_ :=
    if truthy (startTime opts) && truthy (endTime opts)
    then set_prop where_ "timestamp"
           (JObj [("gte", startTime opts); ("lte", endTime opts)])
    else if truthy (startTime opts)
    then set_prop where_ "timestamp" (JObj [("gte", startTime opts)])
    else if truthy (endTime opts)
    then set_prop where_ "timestamp" (JObj [("lte", endTime opts)])
    else where_ in
  let where_ :=
    if truthy (eventType opts)
    then set_prop where_ "event_type" (eventType opts)
    else where_ in
  if truthy (minImportance opts)
  then set_prop where_ "importance" (JObj [("gte", minImportance opts)])
  else where_.

(** [getTimeline(options)] *)
Definition getTimeline (opts : timeline_options) : M (list jsobject) :=
  events <- DatabaseManager.getAll Timeline
              {| DatabaseManager.q_where := Some (timeline_where opts);
                 DatabaseManager.q_orderBy := Some "timestamp";
                 DatabaseManager.q_order :=
                   Some (order_or (timeline_order opts) "ASC");
                 DatabaseManager.q_limit := timeline_limit opts;
                 DatabaseManager.q_offset := None |} ;;
  parse_columns "participants" "metadata" events.

(** The options of [getMemories]. *)
Record memory_options : Type := {
  memory_minImportance : json;
  memory_orderBy : option string;
  memory_order : option string;
  memory_limit : option Z
}.

(** [getMemories(characterId, options)] *)
Definition getMemories (characterId : string) (opts : memory_options)
  : M (list jsobject) :=
  let where_ := [("character_id", JStr characterId)] in
  let where_ :=
    if truthy (memory_minImportance opts)
    then set_prop where_ "importance"
           (JObj [("gte", memory_minImportance opts)])
    else where_ in
  memories <- DatabaseManager.getAll Memories
                {| DatabaseManager.q_where := Some where_;
                   DatabaseManager.q_orderBy :=
                     Some (order_or (memory_orderBy opts) "importance");
                   DatabaseManager.q_order :=
                     Some (order_or (memory_order opts) "DESC");
                   DatabaseManager.q_limit := memory_limit opts;
                   DatabaseManager.q_offset := None |} ;;
  parse_columns "tags" "metadata" memories.

End WithHost.

(** [listSnapshots(limit = 10)]: the newest snapshots first, without their
    documents. *)
Definition listSnapshots (limit : option Z) : M (list jsobject) :=
  let limit := match limit with Some n => n | None => 10 end in
  snapshots <- DatabaseManager.getAll StateSnapshots
                 {| DatabaseManager.q_where := None;
                    DatabaseManager.q_orderBy := Some "snapshot_time";
                    DatabaseManager.q_order := Some "DESC";
                    DatabaseManager.q_limit := Some limit;
                    DatabaseManager.q_offset := None |} ;;
  ret (map (fun snapshot =>
              [("id", jget snapshot "id");
               ("snapshot_time", jget snapshot "snapshot_time");
               ("description", jget snapshot "description");
               ("created_at", jget snapshot "created_at")])
           snapshots).

(** [deleteInventoryItem(itemId)] *)
Definition deleteInventoryItem (itemId : json) : M Z :=
  DatabaseManager.delete Inventory [("id", itemId)].

(** *** Snapshots *)

(** [state.key]: reading a property of [null] or [undefined] throws. *)
Definition member (state : json) (key : string) : outcome json :=
  match state with
  | JNull | JUndefined =>
      Throw ("Cannot read properties of null (reading '" ++ key ++ "')")
  | JObj fields => Ok (jget fields key)
  | _ => Ok JUndefined
  end.

(** What [for (const x of v)] runs through: the items of an array, the
    characters of a string; nothing else is iterable. *)
Definition iterate (v : json) : outcome (list json) :=
  match v with
  | JArr items => Ok items
  | JStr s => Ok (map (fun u => JStr (Text.text_of [u])) (Text.units s))
  | _ => Throw "state[table] is not iterable"
  end.

(** The document a snapshot stores: the full dump of the five tables. *)
Definition dump (cs tl ls inv ms : list jsobject) : json :=
  JObj [("characters", JArr (map JObj cs));
        ("timeline", JArr (map JObj tl));
        ("locations", JArr (map JObj ls));
        ("inventory", JArr (map JObj inv));
        ("memories", JArr (map JObj ms))].

Section Snapshots.
Context {H : Host}.

(** [createSnapshot(description = '')]; returns the id of [{ id }]. *)
Definition createSnapshot (description : json) : M string :=
  let description := match description with
                     | JUndefined => JStr ""
                     | _ => description
                     end in
  snapshotId <- randomUUID ;;
  cs <- DatabaseManager.getAll Characters DatabaseManager.all_rows ;;
  tl <- DatabaseManager.getAll Timeline DatabaseManager.all_rows ;;
  ls <- DatabaseManager.getAll Locations DatabaseManager.all_rows ;;
  inv <- DatabaseManager.getAll Inventory DatabaseManager.all_rows ;;
  ms <- DatabaseManager.getAll Memories DatabaseManager.all_rows ;;
  let state := dump cs tl ls inv ms in
  now <- Date_now ;;
  let snapshotData :=
    [("id", JStr snapshotId);
     ("snapshot_time", JNum now);
     ("state_data", JStr (JSON_stringify state));
     ("description", description)] in
  DatabaseManager.insert StateSnapshots (JObj snapshotData) ;;;
  ret snapshotId.

(** [for (const x of state[key]) this.db.insert(table, x)] *)
Definition reinsert (t : table) (state : json) (key : string) : M unit :=
  items <- DatabaseManager.lift
             (match member state key with
              | Ok v => iterate v
              | Throw e => Throw e
              end) ;;
  for_each items (fun x => DatabaseManager.insert t x ;;; ret tt).

(** The callback of the restoring transaction. *)
Definition replace_state (state : json) : M unit :=
  DatabaseManager.raw (DatabaseManager.DeleteFrom Characters) ;;;
  DatabaseManager.raw (DatabaseManager.DeleteFrom Timeline) ;;;
  DatabaseManager.raw (DatabaseManager.DeleteFrom Locations) ;;;
  DatabaseManager.raw (DatabaseManager.DeleteFrom Inventory) ;;;
  DatabaseManager.raw (DatabaseManager.DeleteFrom Memories) ;;;
  reinsert Characters state "characters" ;;;
  reinsert Timeline state "timeline" ;;;
  reinsert Locations state "locations" ;;;
  reinsert Inventory state "inventory" ;;;
  reinsert Memories state "memories".

(** [restoreSnapshot(snapshotId)]; returns the [success] of
    [{ success: true }]. *)
Definition restoreSnapshot (snapshotId : string) : M bool :=
  snapshot <- DatabaseManager.get StateSnapshots [("id", JStr snapshotId)] ;;
  match snapshot with
  | None => throw ("Snapshot not found: " ++ snapshotId)
  | Some snap =>
      state <- parse_value (jget snap "state_data") ;;
      DatabaseManager.transaction (replace_state state) ;;;
      clearCache ;;;
      ret true
  end.
End Snapshots.

End StateManager.

(** ** JavaScript numbers and equality, as far as the validators use them *)

(** [Number(v)] of a primitive: [None] is [NaN].  A string reads as a number
    when it is a decimal integer numeral (with white space around it and an
    optional sign) or empty. *)
Definition parse_integer (s : string) : option Z :=
  let l := Text.trim (Text.units s) in
  let digits := fun (d : list N) =>
    match d with
    | [] => None
    | _ => if forallb Text.is_digit d then Some (Text.digits_value d) else None
    end in
  match l with
  | [] => Some 0
  | 45%N :: d => option_map Z.opp (digits d)
  | 43%N :: d => digits d
  | _ => digits l
  end.

Definition to_number (v : json) : option Z :=
  match v with
  | JNum n => Some n
  | JNull => Some 0
  | JBool b => Some (if b then 1 else 0)
  | JStr s => parse_integer s
  | JUndefined | JNaN | JArr _ | JObj _ => None
  end.

Definition of_number (n : option Z) : json :=
  match n with Some x => JNum x | None => JNaN end.

(** [a - b] *)
Definition js_sub (a b : json) : json :=
  match to_number a, to_number b with
  | Some x, Some y => JNum (x - y)
  | _, _ => JNaN
  end.

(** [v < n] and [v > n] against a number: false on [NaN]. *)
Definition num_lt (v : json) (n : Z) : bool :=
  match to_number v with Some x => x <? n | None => false end.
Definition num_gt (v : json) (n : Z) : bool :=
  match to_number v with Some x => n <? x | None => false end.

(** [a === b]: by value on primitives; two objects or arrays met here are
    never the same object. *)
Definition strict_eq (a b : json) : bool :=
  match a, b with
  | JUndefined, JUndefined => true
  | JNull, JNull => true
  | JBool x, JBool y => Bool.eqb x y
  | JNum x, JNum y => x =? y
  | JStr x, JStr y => String.eqb x y
  | _, _ => false
  end.

(** [`${v}`] of a primitive. *)
Definition to_text (v : json) : string :=
  match v with
  | JUndefined => "undefined"
  | JNull => "null"
  | JBool true => "true"
  | JBool false => "false"
  | JNum n => Text.of_Z n
  | JNaN => "NaN"
  | JStr s => s
  | JArr _ => ""
  | JObj _ => "[object Object]"
  end.

(** [a + b]: concatenation as soon as one side is a string. *)
Definition js_add (a b : json) : json :=
  match a, b with
  | JStr _, _ | _, JStr _ => JStr (to_text a ++ to_text b)
  | _, _ =>
      match to_number a, to_number b with
      | Some x, Some y => JNum (x + y)
      | _, _ => JNaN
      end
  end.

(** ** StateValidator (state/validator.js) *)

Module StateValidator.

(** [SEVERITY] *)
Inductive severity : Type := ERROR | WARNING | INFO.

Definition severity_eqb (a b : severity) : bool :=
  match a, b with
  | ERROR, ERROR | WARNING, WARNING | INFO, INFO => true
  | _, _ => false
  end.

(** One entry of a validator's list: [{ field, message, severity, ... }],
    the further properties (current and new value, delta, ...) in [details]. *)
Record finding : Type := {
  field_name : string;
  message : string;
  level : severity;
  details : jsobject
}.

(** [{ passed, errors, warnings, info }] *)
Record result : Type := {
  passed : bool;
  errors : list finding;
  warnings : list finding;
  info : list finding
}.

Definition of_level (s : severity) (l : list finding) : list finding :=
  filter (fun e => severity_eqb (level e) s) l.

(** [_buildResult(passed, errors, warnings)] *)
Definition _buildResult (passed : bool) (errors warnings : list finding)
  : result :=
  {| passed := passed;
     errors := of_level ERROR errors;
     warnings := warnings ++ of_level WARNING errors;
     info := of_level INFO errors |}.

(** [_validateAffection(currentValue, newValue)] *)
Definition _validateAffection (currentValue newValue : json) : list finding :=
  let range :=
    if num_lt newValue 0 || num_gt newValue 100
    then [{| field_name := "affection";
             message := "Affection must be between 0-100, got "
                          ++ to_text newValue;
             level := ERROR;
             details := [("currentValue", currentValue);
                         ("newValue", newValue)] |}]
    else [] in
  let jump :=
    match currentValue with
    | JNull | JUndefined => []
    | _ =>
        (* Math.abs(newValue - currentValue) > 20 *)
        match to_number newValue, to_number currentValue with
        | Some new, Some current =>
            let delta := Z.abs (new - current) in
            if 20 <? delta
            then [{| field_name := "affection";
                     message := "Affection change too large: "
                                  ++ Text.of_Z delta ++ " (max 20 per update)";
                     level := WARNING;
                     details := [("currentValue", currentValue);
                                 ("newValue", newValue);
                                 ("delta", JNum delta)] |}]
            else []
        | _, _ => []
        end
    end in
  (range ++ jump)%list.

Definition validEmotions : list string :=
  ["neutral"; "happy"; "sad"; "angry"; "excited";
   "scared"; "confused"; "calm"; "anxious"; "loving"].

Definition invalidTransitions : list (string * list string) :=
  [("happy", ["sad"; "angry"; "scared"]);
   ("sad", ["happy"; "excited"]);
   ("angry", ["happy"; "loving"]);
   ("calm", ["angry"; "anxious"])].

(** The properties every object literal inherits; looking one of them up in
    [invalidTransitions] finds a value without an [includes] method. *)
Definition inherited_keys : list string :=
  ["constructor"; "hasOwnProperty"; "isPrototypeOf"; "propertyIsEnumerable";
   "toLocaleString"; "toString"; "valueOf"; "__proto__";
   "__defineGetter__"; "__defineSetter__"; "__lookupGetter__";
   "__lookupSetter__"].

(** [list.includes(v)] on a list of strings *)
Definition includes (l : list string) (v : json) : bool :=
  match v with
  | JStr s => mem_string s l
  | _ => false
  end.

(** [invalidTransitions[currentEmotion]?.includes(newEmotion)] *)
Definition unlikely (currentEmotion newEmotion : json) : outcome bool :=
  let key := to_text currentEmotion in
  match prop invalidTransitions key with
  | Some l => Ok (includes l newEmotion)
  | None =>
      if mem_string key inherited_keys
      then Throw "invalidTransitions[currentEmotion]?.includes is not a function"
      else Ok false
  end.

(** [_validateEmotion(currentEmotion, newEmotion)] *)
Definition _validateEmotion (currentEmotion newEmotion : json)
  : outcome (list finding) :=
  let invalid :=
    if negb (includes validEmotions newEmotion)
    then [{| field_name := "emotion";
             message := "Invalid emotion: " ++ to_text newEmotion;
             level := ERROR;
             details := [("validEmotions", JArr (map JStr validEmotions))] |}]
    else [] in
  if truthy currentEmotion then
    match unlikely currentEmotion newEmotion with
    | Ok true =>
        Ok (invalid ++
            [{| field_name := "emotion";
                message := "Unlikely emotion transition: "
                             ++ to_text currentEmotion ++ " → "
                             ++ to_text newEmotion;
                level := WARNING;
                details := [("currentEmotion", currentEmotion);
                            ("newEmotion", newEmotion)] |}])%list
    | Ok false => Ok invalid
    | Throw e => Throw e
    end
  else Ok invalid.

(** [connectedLocations.some(loc => loc.id === newLocation)]; [None] when
    the expression throws (not an array, or a [null] item met before a hit). *)
Fixpoint some_has_id (items : list json) (newLocation : json) : option bool :=
  match items with
  | [] => Some false
  | loc :: items' =>
      match loc with
      | JNull | JUndefined => None
      | JObj fields =>
          if strict_eq (jget fields "id") newLocation then Some true
          else some_has_id items' newLocation
      | _ => some_has_id items' newLocation
      end
  end.

Section WithHost.
Context {H : Host}.

(** [_validateLocationChange(currentLocation, newLocation)] *)
Definition _validateLocationChange (currentLocation newLocation : json)
  : M (list finding) :=
  if negb (truthy currentLocation) || negb (truthy newLocation)
  then ret []
  else
    locationExists <- DatabaseManager.get Locations [("id", newLocation)] ;;
    match locationExists with
    | None =>
        ret [{| field_name := "current_location";
                message := "Location does not exist: " ++ to_text newLocation;
                level := ERROR;
                details := [] |}]
    | Some _ =>
        currentLocationData <-
          DatabaseManager.get Locations [("id", currentLocation)] ;;
        let connected_to :=
          match currentLocationData with
          | Some loc => jget loc "connected_to"
          | None => JUndefined
          end in
        if truthy connected_to then
          (* try { ... } catch (e) { } *)
          let isReachable :=
            match connected_to with
            | JStr s =>
                match JSON_parse s with
                | Some (JArr items) => some_has_id items newLocation
                | _ => None
                end
            | _ => None
            end in
          match isReachable with
          | Some false =>
              if negb (strict_eq currentLocation newLocation)
              then ret [{| field_name := "current_location";
                           message := "Location " ++ to_text newLocation
                                      ++ " is not reachable from "
                                      ++ to_text currentLocation;
                           level := WARNING;
                           details := [("currentLocation", currentLocation);
                                       ("newLocation", newLocation)] |}]
              else ret []
          | _ => ret []
          end
        else ret []
    end.

(** [validateCharacterUpdate(characterId, updates)] *)
Definition validateCharacterUpdate (characterId : string)
    (updates : jsobject) : M result :=
  currentState <- DatabaseManager.get Characters [("id", JStr characterId)] ;;
  match currentState with
  | None =>
      ret (_buildResult false
             [{| field_name := "id";
                 message := "Character not found: " ++ characterId;
                 level := ERROR;
                 details := [] |}] [])
  | Some current =>
      let affectionErrors :=
        if defined (jget updates "affection")
        then _validateAffection (jget current "affection")
               (jget updates "affection")
        else [] in
      emotionErrors <-
        (if defined (jget updates "emotion")
         then DatabaseManager.lift
                (_validateEmotion (jget current "emotion")
                   (jget updates "emotion"))
         else ret []) ;;
      locationErrors <-
        (if defined (jget updates "current_location")
         then _validateLocationChange (jget current "current_location")
                (jget updates "current_location")
         else ret []) ;;
      let errors := (affectionErrors ++ emotionErrors ++ locationErrors)%list in
      ret (_buildResult (Nat.eqb (List.length errors) 0) errors [])
  end.

(** [_validateTimestamp(timestamp)] *)
Definition _validateTimestamp (timestamp : json) : M (list finding) :=
  let negative :=
    if num_lt timestamp 0
    then [{| field_name := "timestamp";
             message := "Invalid timestamp: " ++ to_text timestamp;
             level := ERROR;
             details := [] |}]
    else [] in
  now <- Date_now ;;
  if num_gt timestamp (now + 86400000) then
    iso <- or_throw (match to_number timestamp with
                     | Some t => toISOString t
                     | None => None
                     end) "Invalid time value" ;;
    ret (negative ++
         [{| field_name := "timestamp";
             message := "Timestamp is too far in the future: " ++ iso;
             level := WARNING;
             details := [("timestamp", timestamp)] |}])%list
  else ret negative.

(** [_validateParticipants(participants)] *)
Definition _validateParticipants (participants : json) : list finding :=
  match participants with
  | JArr items =>
      if (10 <? List.length items)%nat
      then [{| field_name := "participants";
               message := "Too many participants: "
                            ++ Text.of_nat (List.length items) ++ " (max 10)";
               level := WARNING;
               details := [] |}]
      else []
  | _ =>
      [{| field_name := "participants";
          message := "Participants must be an array";
          level := ERROR;
          details := [] |}]
  end.

(** [validateTimelineEvent(event)] *)
Definition validateTimelineEvent (event : jsobject) : M result :=
  let type_missing :=
    if negb (truthy (jget event "event_type"))
    then [{| field_name := "event_type";
             message := "Event type is required";
             level := ERROR; details := [] |}]
    else [] in
  let description_missing :=
    if negb (truthy (jget event "description"))
    then [{| field_name := "description";
             message := "Event description is required";
             level := ERROR; details := [] |}]
    else [] in
  timestampErrors <-
    (if defined (jget event "timestamp")
     then _validateTimestamp (jget event "timestamp")
     else ret []) ;;
  let importance :=
    if defined (jget event "importance")
       && (num_lt (jget event "importance") 1
           || num_gt (jget event "importance") 5)
    then [{| field_name := "importance";
             message := "Importance must be between 1-5, got "
                          ++ to_text (jget event "importance");
             level := ERROR; details := [] |}]
    else [] in
  let participantErrors :=
    if truthy (jget event "participants")
    then _validateParticipants (jget event "participants")
    else [] in
  let errors := (type_missing ++ description_missing ++ timestampErrors
                 ++ importance ++ participantErrors)%list in
  ret (_buildResult (Nat.eqb (List.length errors) 0) errors []).

(** [_validateEquipmentConflict(characterId, itemType, currentItemId)] *)
Definition _validateEquipmentConflict (characterId : string)
    (itemType currentItemId : json) : M (list finding) :=
  let slotTypes := ["weapon"; "armor"; "accessory"] in
  match itemType with
  | JStr ty =>
      if mem_string ty slotTypes then
        equippedItems <-
          DatabaseManager.getAll Inventory
            (DatabaseManager.where_only
               [("character_id", JStr characterId);
                ("item_type", itemType);
                ("equipped", JNum 1)]) ;;
        let conflictingItems :=
          filter (fun item => negb (strict_eq (jget item "id") currentItemId))
                 equippedItems in
        match conflictingItems with
        | first :: _ =>
            ret [{| field_name := "equipped";
                    message := "Already has equipped " ++ ty ++ ": "
                                 ++ to_text (jget first "item_name");
                    level := WARNING;
                    details := [("conflictingItem", jget first "item_name")] |}]
        | [] => ret []
        end
      else ret []
  | _ => ret []
  end.

(** [validateInventoryItem(characterId, item)] *)
Definition validateInventoryItem (characterId : string) (item : jsobject)
  : M result :=
  let name_missing :=
    if negb (truthy (jget item "item_name"))
    then [{| field_name := "item_name";
             message := "Item name is required";
             level := ERROR; details := [] |}]
    else [] in
  let quantity := jget item "quantity" in
  let negative :=
    if defined quantity && num_lt quantity 0
    then [{| field_name := "quantity";
             message := "Quantity cannot be negative: " ++ to_text quantity;
             level := ERROR; details := [] |}]
    else [] in
  let large :=
    if defined quantity && num_gt quantity 999
    then [{| field_name := "quantity";
             message := "Quantity too large: " ++ to_text quantity
                          ++ " (max 999)";
             level := WARNING; details := [] |}]
    else [] in
  equippedErrors <-
    (if truthy (jget item "equipped") && truthy (jget item "item_type")
     then _validateEquipmentConflict characterId (jget item "item_type")
            (jget item "id")
     else ret []) ;;
  let errors := (name_missing ++ negative ++ large ++ equippedErrors)%list in
  ret (_buildResult (Nat.eqb (List.length errors) 0) errors []).

(** [logValidation(validationType, passed, details = {})]: a failure to
    write the log is caught and only logged. *)
Definition logValidation (validationType passed details : json) : M unit :=
  let details := match details with
                 | JUndefined => JObj []
                 | _ => details
                 end in
  try_catch
    (now <- Date_now ;;
     DatabaseManager.insert ValidationLogs
       (JObj [("timestamp", JNum now);
              ("validation_type", validationType);
              ("passed", JNum (if truthy passed then 1 else 0));
              ("details", JStr (JSON_stringify details))]) ;;;
     ret tt)
    (fun _ => ret tt).

End WithHost.

End StateValidator.

(** ** Regular expressions *)

(** The fragment of JavaScript's regular expressions that the extractor's
    patterns use, with the backtracking semantics of the language: choices
    are tried left to right, quantifiers are greedy unless marked lazy, an
    iteration of a star must consume input, and captures travel with the
    state that backtracking restores. *)
Module Regex.

Inductive item : Type :=
| Lit (u : N)
| Range (lo hi : N)
| Digit                       (* \d *)
| Space.                      (* \s *)

Inductive regex : Type :=
| Empty
| Any                         (* .   *)
| Class (items : list item)   (* [...] or a single character *)
| Seq (a b : regex)
| Alt (a b : regex)           (* a|b *)
| Star (a : regex)            (* a*  *)
| Lazy (a : regex)            (* a*? *)
| Group (n : nat) (a : regex) (* the n-th capturing group *)
| Start.                      (* ^   *)

Definition captures := list (nat * (nat * nat)).

(** A match: where it starts, where it ends, and what was captured. *)
Record found : Type := {
  first : nat;
  last : nat;
  caps : captures
}.

Definition in_range (lo hi u : N) : bool := (lo <=? u)%N && (u <=? hi)%N.

(** Membership in a class; with the [i] flag a character also matches
    through its other case. *)
Definition item_has (icase : bool) (it : item) (u : N) : bool :=
  match it with
  | Lit c => if icase then (Text.upper c =? Text.upper u)%N else (c =? u)%N
  | Range lo hi =>
      in_range lo hi u
      || (icase && (in_range lo hi (Text.upper u) || in_range lo hi (Text.lower u)))
  | Digit => Text.is_digit u
  | Space => Text.is_space u
  end.

Definition class_has (icase : bool) (items : list item) (u : N) : bool :=
  existsb (fun it => item_has icase it u) items.

Section Matching.
Variable icase : bool.
Variable input : list N.

Fixpoint run (r : regex) (i : nat) (c : captures)
    (k : nat -> captures -> option (nat * captures)) {struct r}
  : option (nat * captures) :=
  match r with
  | Empty => k i c
  | Any =>
      match nth_error input i with
      | Some u => if Text.is_line_end u then None else k (S i) c
      | None => None
      end
  | Class items =>
      match nth_error input i with
      | Some u => if class_has icase items u then k (S i) c else None
      | None => None
      end
  | Seq a b => run a i c (fun j c' => run b j c' k)
  | Alt a b =>
      match run a i c k with
      | Some res => Some res
      | None => run b i c k
      end
  | Star a =>
      (fix loop (fuel : nat) (i : nat) (c : captures)
         : option (nat * captures) :=
         match fuel with
         | O => k i c
         | S fuel' =>
             match run a i c
                     (fun j c' => if (i <? j)%nat then loop fuel' j c' else None)
             with
             | Some res => Some res
             | None => k i c
             end
         end) (S (List.length input - i)) i c
  | Lazy a =>
      (fix loop (fuel : nat) (i : nat) (c : captures)
         : option (nat * captures) :=
         match k i c with
         | Some res => Some res
         | None =>
             match fuel with
             | O => None
             | S fuel' =>
                 run a i c
                   (fun j c' => if (i <? j)%nat then loop fuel' j c' else None)
             end
         end) (S (List.length input - i)) i c
  | Group n a => run a i c (fun j c' => k j ((n, (i, j)) :: c'))
  | Start => if (i =? 0)%nat then k i c else None
  end.

(** The leftmost match that starts at [i] or later. *)
Fixpoint search (r : regex) (fuel i : nat) : option found :=
  match run r i [] (fun j c => Some (j, c)) with
  | Some (j, c) => Some {| first := i; last := j; caps := c |}
  | None =>
      match fuel with
      | O => None
      | S fuel' => search r fuel' (S i)
      end
  end.

(** [regex.exec] from [lastIndex = from] *)
Definition exec (r : regex) (from : nat) : option found :=
  if (from <=? List.length input)%nat
  then search r (List.length input - from) from
  else None.

(** The matches of a global regular expression, left to right. *)
Fixpoint all_from (r : regex) (fuel from : nat) : list found :=
  match fuel with
  | O => []
  | S fuel' =>
      match exec r from with
      | None => []
      | Some m =>
          m :: all_from r fuel'
                 (if (last m =? first m)%nat then S (last m) else last m)
      end
  end.

Definition matchAll (r : regex) : list found :=
  all_from r (S (List.length input)) 0.

Definition slice (i j : nat) : list N := firstn (j - i) (skipn i input).

(** [match[0]] *)
Definition whole (m : found) : list N := slice (first m) (last m).

(** [match[n]]; [None] is [undefined]: the group took no part. *)
Definition capture (m : found) (n : nat) : option (list N) :=
  match find (fun e => (fst e =? n)%nat) (caps m) with
  | Some (_, (i, j)) => Some (slice i j)
  | None => None
  end.

End Matching.

End Regex.

(** ** StateExtractor (state/extractor.js) *)

Module StateExtractor.
Import Regex.

(** *** Writing the patterns *)

Definition chr (u : N) : regex := Class [Lit u].
Definition str (s : string) : regex :=
  fold_right (fun u r => Seq (chr u) r) Empty (Text.units s).
Definition one_of (s : string) : list item := map Lit (Text.units s).
Definition plus (a : regex) : regex := Seq a (Star a).
Definition opt (a : regex) : regex := Alt a Empty.
Fixpoint seq (l : list regex) : regex :=
  match l with
  | [] => Empty
  | a :: l' => Seq a (seq l')
  end.
Fixpoint any_of (l : list regex) : regex :=
  match l with
  | [] => Class []
  | [a] => a
  | a :: l' => Alt a (any_of l')
  end.
Fixpoint times (n : nat) (a : regex) : regex :=
  match n with
  | O => Empty
  | S n' => Seq a (times n' a)
  end.
Fixpoint at_most (n : nat) (a : regex) : regex :=
  match n with
  | O => Empty
  | S n' => Alt (Seq a (at_most n' a)) Empty
  end.
(** [a{lo,hi}] *)
Definition between (lo hi : nat) (a : regex) : regex :=
  Seq (times lo a) (at_most (hi - lo) a).

Definition spaces : regex := Star (Class [Space]).       (* \s* *)
Definition spaces1 : regex := plus (Class [Space]).      (* \s+ *)
Definition digits : regex := plus (Class [Digit]).       (* \d+ *)
Definition words (l : list string) : regex := any_of (map str l).

(** [/[。，！？；、,!?;].*/]: a punctuation mark and the rest of the line. *)
Definition from_punctuation : regex :=
  Seq (Class (one_of "。，！？；、,!?;")) (Star Any).

(** [s.replace(r, '')] for a regular expression without the [g] flag. *)
Definition remove_first (icase : bool) (r : regex) (s : list N) : list N :=
  match exec icase s r 0 with
  | Some m => (firstn (first m) s ++ skipn (last m) s)%list
  | None => s
  end.

(** [s.includes(t)] *)
Fixpoint starts_with (t s : list N) : bool :=
  match t, s with
  | [], _ => true
  | _ :: _, [] => false
  | x :: t', y :: s' => (x =? y)%N && starts_with t' s'
  end.
Fixpoint includes (s t : list N) : bool :=
  starts_with t s
  || match s with
     | [] => false
     | _ :: s' => includes s' t
     end.

(** [parseInt(s)]: the integer a string starts with, or [NaN]. *)
Fixpoint take_while (p : N -> bool) (l : list N) : list N :=
  match l with
  | [] => []
  | u :: l' => if p u then u :: take_while p l' else []
  end.
Definition parseInt (s : list N) : json :=
  let s := Text.drop_while Text.is_space s in
  let number := fun (l : list N) =>
    match take_while Text.is_digit l with
    | [] => None
    | d => Some (Text.digits_value d)
    end in
  of_number
    match s with
    | 45%N :: l => option_map Z.opp (number l)
    | 43%N :: l => number l
    | _ => number s
    end.

(** *** The built-in patterns ([_initializePatterns]) *)

Inductive pattern_type : Type := delta | absolute.

Record affection_pattern : Type := {
  regex_of : regex;
  type_of : pattern_type;
  negative : bool
}.

Definition affectionPatterns : list affection_pattern :=
  [ (* /好感度[增加提升上升]+了?\s*(\d+)\s*点/i *)
    {| regex_of := seq [str "好感度"; plus (Class (one_of "增加提升上升"));
                        opt (str "了"); spaces; Group 1 digits; spaces;
                        str "点"];
       type_of := delta; negative := false |};
    (* /好感度[减少降低下降]+了?\s*(\d+)\s*点/i *)
    {| regex_of := seq [str "好感度"; plus (Class (one_of "减少降低下降"));
                        opt (str "了"); spaces; Group 1 digits; spaces;
                        str "点"];
       type_of := delta; negative := true |};
    (* /好感度(?:变成|现在是|达到|为)\s*(\d+)/i *)
    {| regex_of := seq [str "好感度"; words ["变成"; "现在是"; "达到"; "为"];
                        spaces; Group 1 digits];
       type_of := absolute; negative := false |};
    (* /对.*?好感度现在是\s*(\d+)/i *)
    {| regex_of := seq [str "对"; Lazy Any; str "好感度现在是"; spaces;
                        Group 1 digits];
       type_of := absolute; negative := false |};
    (* /好感度?\s*[+＋]\s*(\d+)/i *)
    {| regex_of := seq [str "好感"; opt (str "度"); spaces;
                        Class (one_of "+＋"); spaces; Group 1 digits];
       type_of := delta; negative := false |};
    (* /好感度?\s*[-－]\s*(\d+)/i *)
    {| regex_of := seq [str "好感"; opt (str "度"); spaces;
                        Class (one_of "-－"); spaces; Group 1 digits];
       type_of := delta; negative := true |};
    (* /affection\s+increased\s+by\s+(\d+)/i *)
    {| regex_of := seq [str "affection"; spaces1; str "increased"; spaces1;
                        str "by"; spaces1; Group 1 digits];
       type_of := delta; negative := false |};
    (* /affection\s+decreased\s+by\s+(\d+)/i *)
    {| regex_of := seq [str "affection"; spaces1; str "decreased"; spaces1;
                        str "by"; spaces1; Group 1 digits];
       type_of := delta; negative := true |};
    (* /affection\s+is\s+now\s+(\d+)/i *)
    {| regex_of := seq [str "affection"; spaces1; str "is"; spaces1;
                        str "now"; spaces1; Group 1 digits];
       type_of := absolute; negative := false |};
    (* /affection\s*[+＋]\s*(\d+)/i *)
    {| regex_of := seq [str "affection"; spaces; Class (one_of "+＋");
                        spaces; Group 1 digits];
       type_of := delta; negative := false |} ].

Definition emotionKeywords : list (string * list string) :=
  [("happy", ["高兴"; "开心"; "愉快"; "快乐"; "欢喜"; "兴奋"; "微笑"; "太好了";
              "happy"; "cheerful"; "joyful"; "smile"]);
   ("sad", ["难过"; "伤心"; "悲伤"; "沮丧"; "失落"; "哭泣"; "太糟糕"; "不敢相信";
            "sad"; "depressed"; "cry"; "terrible"]);
   ("angry", ["生气"; "愤怒"; "恼火"; "火大"; "怒"; "皱眉";
              "angry"; "furious"; "mad"; "frown"]);
   ("excited", ["激动"; "兴奋"; "振奋"; "热情"; "excited"; "enthusiastic"]);
   ("scared", ["害怕"; "恐惧"; "惊恐"; "惧怕"; "scared"; "afraid"; "fearful"]);
   ("confused", ["困惑"; "迷惑"; "疑惑"; "不解"; "confused"; "puzzled"]);
   ("calm", ["平静"; "冷静"; "淡定"; "安静"; "calm"; "peaceful"]);
   ("anxious", ["焦虑"; "不安"; "紧张"; "担心"; "anxious"; "worried"; "nervous"]);
   ("loving", ["爱"; "深情"; "温柔"; "亲密"; "loving"; "affectionate"; "tender"])].

Definition locationKeywords : list string :=
  ["走进"; "来到"; "到达"; "进入"; "抵达"; "前往"; "去了";
   "entered"; "arrived at"; "went to"; "moved to"].

(** [([一两三四五六七八九十\d]+)?] *)
Definition numeral : regex :=
  opt (Group 1 (plus (Class (Digit :: one_of "一两三四五六七八九十")))).
(** [(?:个|把|件|张|本)?] *)
Definition measure : regex := opt (words ["个"; "把"; "件"; "张"; "本"]).
(** [(.+)] as the second group *)
Definition rest_of_line : regex := Group 2 (plus Any).

Definition inventoryPatterns_add : list regex :=
  [ (* /(?:给|递给|交给)(?:了)?(?:你|我)\s*(...)?\s*(?:个|把|件|张|本)?\s*(.+)/i *)
    seq [words ["给"; "递给"; "交给"]; opt (str "了"); words ["你"; "我"];
         spaces; numeral; spaces; measure; spaces; rest_of_line];
    (* /(?:获得|得到|拿到|收到)了?\s*(...)?\s*(?:个|把|件|张|本)?\s*(.+)/i *)
    seq [words ["获得"; "得到"; "拿到"; "收到"]; opt (str "了");
         spaces; numeral; spaces; measure; spaces; rest_of_line];
    (* /gave\s+(?:you|me)\s+(\d+)?\s*(.+)/i *)
    seq [str "gave"; spaces1; words ["you"; "me"]; spaces1;
         opt (Group 1 digits); spaces; rest_of_line] ].

Definition inventoryPatterns_remove : list regex :=
  [ (* /(?:拿走|取走|没收)了?(?:你|我的)?\s*(...)?\s*(?:个|把|件|张|本)?\s*(.+)/i *)
    seq [words ["拿走"; "取走"; "没收"]; opt (str "了");
         opt (words ["你"; "我的"]);
         spaces; numeral; spaces; measure; spaces; rest_of_line];
    (* /(?:失去|丢失|遗失)了?\s*(...)?\s*(?:个|把|件|张|本)?\s*(.+)/i *)
    seq [words ["失去"; "丢失"; "遗失"]; opt (str "了");
         spaces; numeral; spaces; measure; spaces; rest_of_line];
    (* /took\s+(?:your|my)\s+(.+)/i *)
    seq [str "took"; spaces1; words ["your"; "my"]; spaces1;
         Group 1 (plus Any)] ].

(** *** What the extractors return *)

(** [{ delta, newValue, currentValue }] *)
Record affection_change : Type := {
  delta_of : json;
  newValue : json;
  currentValue : json
}.

(** A score over three, capped at one: [Math.min(score / 3, 1)]. *)
Record ratio : Type := { numerator : Z; denominator : Z }.
Definition confidence_of (score : Z) : ratio :=
  if 3 <=? score then {| numerator := 1; denominator := 1 |}
  else {| numerator := score; denominator := 3 |}.

(** [{ emotion, confidence, alternatives }] *)
Record emotion_found : Type := {
  emotion : string;
  confidence : ratio;
  alternatives : list (string * ratio)
}.

(** [{ location, keyword }] *)
Record location_change : Type := {
  location : string;
  keyword : string
}.

Inductive inventory_action : Type := add | remove.

(** [{ action, item_name, quantity, character_id }] *)
Record inventory_change : Type := {
  action : inventory_action;
  item_name : string;
  quantity : json;
  character_id : string
}.

(** [{ event_type, description, timestamp, importance, participants }] *)
Record event : Type := {
  event_type : string;
  description : string;
  event_timestamp : Z;
  importance : Z;
  participants : list string
}.

(** The result of [extractAllStates]. *)
Record extracted : Type := {
  affection : option affection_change;
  emotion_of : option emotion_found;
  location_of : option location_change;
  inventory_of : list inventory_change;
  events : list event
}.

(** *** The extractors *)

(** The first pattern of [affectionPatterns] that matches, with
    [parseInt(match[1])]. *)
Fixpoint first_affection (text : list N) (patterns : list affection_pattern)
  : option (affection_pattern * json) :=
  match patterns with
  | [] => None
  | p :: patterns' =>
      match exec true text (regex_of p) 0 with
      | Some m =>
          Some (p, match capture text m 1 with
                   | Some s => parseInt s
                   | None => JNaN
                   end)
      | None => first_affection text patterns'
      end
  end.

Definition affection_of (currentAffection : json) (text : list N)
  : option affection_change :=
  match first_affection text affectionPatterns with
  | Some (p, value) =>
      match type_of p with
      | absolute =>
          Some {| delta_of := js_sub value currentAffection;
                  newValue := value;
                  currentValue := currentAffection |}
      | delta =>
          let d := if negative p then js_sub (JNum 0) value else value in
          Some {| delta_of := d;
                  newValue := js_add currentAffection d;
                  currentValue := currentAffection |}
      end
  | None => None
  end.

(** [extractEmotion(text)] *)
Definition keyword_score (text : list N) (keywords : list string) : Z :=
  fold_left
    (fun score keyword =>
       score + Z.of_nat (List.length (matchAll true text (str keyword))))
    keywords 0.

Definition emotionScores (text : list N) : list (string * Z) :=
  filter (fun e => 0 <? snd e)
    (map (fun e => (fst e, keyword_score text (snd e))) emotionKeywords).

(** [sort((a, b) => b[1] - a[1])]: by falling score, equal scores in the
    order they had. *)
Fixpoint insert_by_score (e : string * Z) (l : list (string * Z))
  : list (string * Z) :=
  match l with
  | [] => [e]
  | x :: l' => if snd x <? snd e then e :: l else x :: insert_by_score e l'
  end.
Definition sort_by_score (l : list (string * Z)) : list (string * Z) :=
  fold_left (fun acc e => insert_by_score e acc) l [].

Definition extractEmotion (text : string) : option emotion_found :=
  match sort_by_score (emotionScores (Text.units text)) with
  | [] => None
  | (e, score) :: others =>
      Some {| emotion := e;
              confidence := confidence_of score;
              alternatives :=
                map (fun a => (fst a, confidence_of (snd a))) (firstn 2 others) |}
  end.

(** [extractLocationChange(text)] *)
Fixpoint location_from (text : list N) (keywords : list string)
  : option location_change :=
  match keywords with
  | [] => None
  | kw :: keywords' =>
      (* new RegExp(`${keyword}[了]?(.{2,10})`, 'i') *)
      let r := seq [str kw; opt (str "了"); Group 1 (between 2 10 Any)] in
      let found_here :=
        match exec true text r 0 with
        | Some m =>
            match capture text m 1 with
            | Some s =>
                let loc := remove_first false from_punctuation (Text.trim s) in
                match loc with
                | [] => None
                | _ => Some {| location := Text.text_of loc; keyword := kw |}
                end
            | None => None
            end
        | None => None
        end in
      match found_here with
      | Some l => Some l
      | None => location_from text keywords'
      end
  end.

Definition extractLocationChange (text : string) : option location_change :=
  location_from (Text.units text) locationKeywords.

(** [_parseChineseNumber(str)] *)
Definition chineseNumbers : list (string * Z) :=
  [("一", 1); ("两", 2); ("二", 2); ("三", 3); ("四", 4);
   ("五", 5); ("六", 6); ("七", 7); ("八", 8); ("九", 9); ("十", 10)].

Definition _parseChineseNumber (s : list N) : json :=
  match s with
  | _ :: _ =>
      if forallb Text.is_digit s then parseInt s
      else match prop chineseNumbers (Text.text_of s) with
           | Some n => JNum n
           | None => JNum 1
           end
  | [] => JNum 1
  end.

(** A capture that is defined and not empty: [match[n]] as a condition. *)
Definition captured (text : list N) (m : found) (n : nat) : option (list N) :=
  match capture text m n with
  | Some (u :: s) => Some (u :: s)
  | _ => None
  end.

Definition clean_name (s : list N) : string :=
  Text.text_of (remove_first false from_punctuation (Text.trim s)).

(** One match of an adding pattern. *)
Definition added (characterId : string) (text : list N) (m : found)
  : option inventory_change :=
  let english :=
    match exec true (whole text m) (str "gave") 0 with
    | Some _ => true
    | None => false
    end in
  let quantity :=
    match captured text m 1 with
    | Some s => if english then parseInt s else _parseChineseNumber s
    | None => JNum 1
    end in
  match captured text m 2 with
  | Some name =>
      Some {| action := add; item_name := clean_name name;
              quantity := quantity; character_id := characterId |}
  | None => None
  end.

(** One match of a removing pattern. *)
Definition removed (characterId : string) (text : list N) (m : found)
  : option inventory_change :=
  let english :=
    match exec true (whole text m) (str "took") 0 with
    | Some _ => true
    | None => false
    end in
  let name := if english then captured text m 1 else captured text m 2 in
  let quantity :=
    if english then JNum 1
    else match captured text m 1 with
         | Some s => _parseChineseNumber s
         | None => JNum 1
         end in
  match name with
  | Some name =>
      Some {| action := remove; item_name := clean_name name;
              quantity := quantity; character_id := characterId |}
  | None => None
  end.

Definition changes_of (one : list N -> found -> option inventory_change)
    (text : list N) (patterns : list regex) : list inventory_change :=
  flat_map
    (fun r =>
       flat_map (fun m => match one text m with Some c => [c] | None => [] end)
                (matchAll true text r))
    patterns.

(** [extractInventoryChanges(characterId, text)] *)
Definition extractInventoryChanges (characterId : string) (text : string)
  : list inventory_change :=
  let t := Text.units text in
  (changes_of (added characterId) t inventoryPatterns_add
   ++ changes_of (removed characterId) t inventoryPatterns_remove)%list.

(** [extractEvents(text)] *)
Definition importanceKeywords : list (Z * list string) :=
  [(1, ["说"; "做"; "去"; "said"; "did"]);
   (2, ["发现"; "找到"; "遇到"; "found"; "discovered"]);
   (3, ["坦白"; "承认"; "告诉"; "透露"; "confessed"; "revealed"]);
   (4, ["完成"; "成功"; "达成"; "实现"; "completed"; "achieved"]);
   (5, ["第一次"; "首次"; "终于"; "史无前例"; "first time"; "finally"])].

Definition lower_units (s : string) : list N := map Text.lower (Text.units s).

Definition importance_of (text : string) : Z :=
  let lowered := lower_units text in
  fold_left
    (fun importance level =>
       if existsb (fun kw => includes lowered (lower_units kw)) (snd level)
       then Z.max importance (fst level)
       else importance)
    importanceKeywords 1.

(** [[A-Z][a-z]+|[一-龥]{2,4}] and [[A-Z][a-z]{2,}|[一-龥]{2,4}] *)
Definition han : regex := Class [Range 19968 40869].
Definition capital : regex := Class [Range 65 90].
Definition small : regex := Class [Range 97 122].
Definition name_in_pair : regex :=
  Alt (Seq capital (plus small)) (between 2 4 han).
Definition name_alone : regex :=
  Alt (Seq capital (Seq (times 2 small) (Star small))) (between 2 4 han).

(** [/(name)\s*(?:和|与|跟|,|and)\s*(name)/gi] *)
Definition namePattern : regex :=
  seq [Group 1 name_in_pair; spaces; words ["和"; "与"; "跟"; ","; "and"];
       spaces; Group 2 name_in_pair].

(** [/(?:^|\s)(name)(?:\s|[：:说做])/g] *)
Definition singleNamePattern : regex :=
  seq [Alt Start (Class [Space]); Group 1 name_alone;
       Alt (Class [Space]) (Class (one_of "：:说做"))].

Definition group_text (text : list N) (m : found) (n : nat) : list string :=
  match capture text m n with
  | Some s => [Text.text_of s]
  | None => []
  end.

(** [[...new Set(l)]]: the first occurrence of each name is kept. *)
Fixpoint dedupe (l : list string) (seen : list string) : list string :=
  match l with
  | [] => []
  | x :: l' =>
      if mem_string x seen then dedupe l' seen else x :: dedupe l' (x :: seen)
  end.

Definition participants_of (text : string) : list string :=
  let t := Text.units text in
  (flat_map (fun m => group_text t m 1 ++ group_text t m 2)
     (matchAll true t namePattern)
   ++ flat_map (fun m => group_text t m 1) (matchAll false t singleNamePattern))%list.

Section WithHost.
Context {H : Host}.

(** [extractAffectionChange(characterId, text)] *)
Definition extractAffectionChange (o : StateManager.options)
    (characterId : string) (text : string) : M (option affection_change) :=
  try_catch
    (character <- StateManager.getCharacterState o characterId ;;
     match character with
     | None => ret None
     | Some ch =>
         let currentAffection := js_or (jget ch "affection") (JNum 0) in
         ret (affection_of currentAffection (Text.units text))
     end)
    (fun _ => ret None).

Definition extractEvents (text : string) : M (list event) :=
  let importance := importance_of text in
  let participants := participants_of text in
  if (2 <=? importance) || negb (Nat.eqb (List.length participants) 0)
  then
    now <- Date_now ;;
    ret [{| event_type := "general";
            description := Text.slice0 200 text;
            event_timestamp := now;
            importance := importance;
            participants := dedupe participants [] |}]
  else ret [].

(** [extractAllStates(characterId, text)] *)
Definition extractAllStates (o : StateManager.options)
    (characterId : string) (text : string) : M extracted :=
  a <- extractAffectionChange o characterId text ;;
  evs <- extractEvents text ;;
  ret {| affection := a;
         emotion_of := extractEmotion text;
         location_of := extractLocationChange text;
         inventory_of := extractInventoryChanges characterId text;
         events := evs |}.
End WithHost.

End StateExtractor.

(** ** StateIntegrator (state/integrator.js) *)

Module StateIntegrator.

(** [this.options], with the options of the state manager it drives. *)
Record options : Type := {
  autoApply : bool;
  strictMode : bool;
  manager : StateManager.options
}.

(** The constructor:
    [{ autoApply: o.autoApply !== false, strictMode: o.strictMode !== false, ...o }],
    so a key that is given wins with the value it has. *)
Definition flag (given : jsobject) (key : string) : bool :=
  if has_prop given key then truthy (jget given key) else true.

Definition new_options (given : jsobject) (m : StateManager.options) : options :=
  {| autoApply := flag given "autoApply";
     strictMode := flag given "strictMode";
     manager := m |}.

(** An entry of [errors]: a finding of the validator, or the
    [{ field, message }] pushed when a step threw. *)
Inductive issue : Type :=
| Reported (f : StateValidator.finding)
| Caught (field message : string).

Inductive payload : Type :=
| AffectionData (d : StateExtractor.affection_change)
| EmotionData (d : StateExtractor.emotion_found)
| LocationData (d : StateExtractor.location_change)
| InventoryData (d : StateExtractor.inventory_change)
| EventData (d : StateExtractor.event).

(** What a [_process...] step returns: [{ applied, errors, warnings, data }]. *)
Record step : Type := {
  applied : bool;
  errors : list issue;
  warnings : list StateValidator.finding;
  data : payload
}.

(** An entry of [updates]: [{ type, ...step }]. *)
Record update : Type := {
  type : string;
  outcome_of : step
}.

(** The result of [processMessage]. *)
Record processed : Type := {
  extracted : StateExtractor.extracted;
  updates : list update;
  all_errors : list issue;
  all_warnings : list StateValidator.finding
}.

(** Running a computation and looking at how it ended. *)
Definition attempt {A} (m : M A) : M (outcome A) :=
  fun w => let (r, w') := m w in (Ok r, w').

Definition reported (v : StateValidator.result) : list issue :=
  map Reported (StateValidator.errors v).

(** The [catch] of a step that threw before a validation was recorded. *)
Definition thrown (field message : string) (d : payload) : step :=
  {| applied := false; errors := [Caught field message]; warnings := [];
     data := d |}.

(** A step whose validation is recorded; [caught] is what a later [catch]
    pushed onto the same list of errors. *)
Definition validated (is_applied : bool) (v : StateValidator.result)
    (caught : list issue) (d : payload) : step :=
  {| applied := is_applied;
     errors := (reported v ++ caught)%list;
     warnings := StateValidator.warnings v;
     data := d |}.

(** The object of an event, as the validator and the state manager get it. *)
Definition event_object (e : StateExtractor.event) : jsobject :=
  [("event_type", JStr (StateExtractor.event_type e));
   ("description", JStr (StateExtractor.description e));
   ("timestamp", JNum (StateExtractor.event_timestamp e));
   ("importance", JNum (StateExtractor.importance e));
   ("participants", JArr (map JStr (StateExtractor.participants e)))].

(** [i.item_name.includes(name) || name.includes(i.item_name)]; only a
    string has [includes]. *)
Definition names_overlap (item : jsobject) (name : string) : outcome bool :=
  match jget item "item_name" with
  | JStr s =>
      Ok (StateExtractor.includes (Text.units s) (Text.units name)
          || StateExtractor.includes (Text.units name) (Text.units s))
  | JNull | JUndefined =>
      Throw "Cannot read properties of null (reading 'includes')"
  | _ => Throw "i.item_name.includes is not a function"
  end.

(** [items.find(i => ...)] *)
Fixpoint find_item (items : list jsobject) (name : string)
  : outcome (option jsobject) :=
  match items with
  | [] => Ok None
  | i :: items' =>
      match names_overlap i name with
      | Ok true => Ok (Some i)
      | Ok false => find_item items' name
      | Throw e => Throw e
      end
  end.

Section WithHost.
Context {H : Host}.
Variable o : options.

(** [_processAffection(characterId, affectionData, dryRun)] *)
Definition _processAffection (characterId : string)
    (affectionData : StateExtractor.affection_change) (dryRun : bool)
  : M step :=
  let d := AffectionData affectionData in
  checked <- attempt
               (StateValidator.validateCharacterUpdate characterId
                  [("affection", StateExtractor.newValue affectionData)]) ;;
  match checked with
  | Throw e => ret (thrown "affection" e d)
  | Ok validation =>
      if StateValidator.passed validation && negb dryRun && autoApply o then
        done <- attempt
                  (StateManager.updateCharacterState characterId
                     [("affection", StateExtractor.newValue affectionData)]) ;;
        match done with
        | Ok _ => ret (validated true validation [] d)
        | Throw e => ret (validated false validation [Caught "affection" e] d)
        end
      else if negb (StateValidator.passed validation) && strictMode o then
        ret (validated false validation [] d)
      else ret (validated false validation [] d)
  end.

(** [_processEmotion(characterId, emotionData, dryRun)] *)
Definition _processEmotion (characterId : string)
    (emotionData : StateExtractor.emotion_found) (dryRun : bool) : M step :=
  let d := EmotionData emotionData in
  let updates := [("emotion", JStr (StateExtractor.emotion emotionData))] in
  checked <- attempt
               (StateValidator.validateCharacterUpdate characterId updates) ;;
  match checked with
  | Throw e => ret (thrown "emotion" e d)
  | Ok validation =>
      if StateValidator.passed validation && negb dryRun && autoApply o then
        done <- attempt (StateManager.updateCharacterState characterId updates) ;;
        match done with
        | Ok _ => ret (validated true validation [] d)
        | Throw e => ret (validated false validation [Caught "emotion" e] d)
        end
      else ret (validated false validation [] d)
  end.

(** The first half of [_processLocation]: the id of the named location,
    which is created when it is missing and updates are being applied. *)
Definition find_or_create (name : string) (dryRun : bool) : M json :=
  existingLocation <- DatabaseManager.get Locations [("name", JStr name)] ;;
  match existingLocation with
  | Some loc => ret (jget loc "id")
  | None =>
      if negb dryRun && autoApply o then
        created <- StateManager.createLocation
                     [("name", JStr name); ("type", JStr "unknown")] ;;
        ret (DatabaseManager.inserted_id created)
      else ret JNull
  end.

(** [_processLocation(characterId, locationData, dryRun)] *)
Definition _processLocation (characterId : string)
    (locationData : StateExtractor.location_change) (dryRun : bool)
  : M step :=
  let d := LocationData locationData in
  located <- attempt
               (find_or_create (StateExtractor.location locationData) dryRun) ;;
  match located with
  | Throw e => ret (thrown "location" e d)
  | Ok locationId =>
      if truthy locationId then
        let updates := [("current_location", locationId)] in
        checked <- attempt
                     (StateValidator.validateCharacterUpdate characterId
                        updates) ;;
        match checked with
        | Throw e => ret (thrown "location" e d)
        | Ok validation =>
            if StateValidator.passed validation && negb dryRun && autoApply o
            then
              done <- attempt
                        (StateManager.updateCharacterState characterId
                           updates) ;;
              match done with
              | Ok _ => ret (validated true validation [] d)
              | Throw e =>
                  ret (validated false validation [Caught "location" e] d)
              end
            else ret (validated false validation [] d)
        end
      else ret {| applied := false; errors := []; warnings := []; data := d |}
  end.

(** The application of an inventory change that passed validation;
    returns whether it was applied. *)
Definition apply_inventory (characterId : string)
    (inventoryData : StateExtractor.inventory_change) : M bool :=
  match StateExtractor.action inventoryData with
  | StateExtractor.add =>
      StateManager.addInventoryItem characterId
        [("item_name", JStr (StateExtractor.item_name inventoryData));
         ("quantity", StateExtractor.quantity inventoryData)] ;;;
      ret true
  | StateExtractor.remove =>
      items <- StateManager.getInventory characterId [] ;;
      item <- DatabaseManager.lift
                (find_item items (StateExtractor.item_name inventoryData)) ;;
      match item with
      | Some i =>
          StateManager.deleteInventoryItem (jget i "id") ;;;
          ret true
      | None => ret false
      end
  end.

(** [_processInventory(characterId, inventoryData, dryRun)] *)
Definition _processInventory (characterId : string)
    (inventoryData : StateExtractor.inventory_change) (dryRun : bool)
  : M step :=
  let d := InventoryData inventoryData in
  checked <- attempt
               (StateValidator.validateInventoryItem characterId
                  [("item_name", JStr (StateExtractor.item_name inventoryData));
                   ("quantity", StateExtractor.quantity inventoryData)]) ;;
  match checked with
  | Throw e => ret (thrown "inventory" e d)
  | Ok validation =>
      if StateValidator.passed validation && negb dryRun && autoApply o then
        done <- attempt (apply_inventory characterId inventoryData) ;;
        match done with
        | Ok is_applied => ret (validated is_applied validation [] d)
        | Throw e => ret (validated false validation [Caught "inventory" e] d)
        end
      else ret (validated false validation [] d)
  end.

(** [_processEvent(eventData, dryRun)] *)
Definition _processEvent (eventData : StateExtractor.event) (dryRun : bool)
  : M step :=
  let d := EventData eventData in
  checked <- attempt
               (StateValidator.validateTimelineEvent (event_object eventData)) ;;
  match checked with
  | Throw e => ret (thrown "event" e d)
  | Ok validation =>
      if StateValidator.passed validation && negb dryRun && autoApply o then
        done <- attempt (StateManager.addTimelineEvent (event_object eventData)) ;;
        match done with
        | Ok _ => ret (validated true validation [] d)
        | Throw e => ret (validated false validation [Caught "event" e] d)
        end
      else ret (validated false validation [] d)
  end.

(** Recording a step in the result: an update when it was applied, its
    errors and warnings in any case. *)
Definition record (kind : string) (s : step) (r : processed) : processed :=
  {| extracted := extracted r;
     updates := if applied s
                then (updates r ++ [{| type := kind; outcome_of := s |}])%list
                else updates r;
     all_errors := (all_errors r ++ errors s)%list;
     all_warnings := (all_warnings r ++ warnings s)%list |}.

Fixpoint process_each {A} (kind : string) (run : A -> M step)
    (l : list A) (r : processed) : M processed :=
  match l with
  | [] => ret r
  | x :: l' =>
      s <- run x ;;
      process_each kind run l' (record kind s r)
  end.

(** [processMessage(characterId, messageText, { dryRun })] *)
Definition processMessage (characterId : string) (messageText : string)
    (dryRun : bool) : M processed :=
  ex <- StateExtractor.extractAllStates (manager o) characterId messageText ;;
  let result := {| extracted := ex; updates := []; all_errors := [];
                   all_warnings := [] |} in
  result <- match StateExtractor.affection ex with
            | Some a =>
                s <- _processAffection characterId a dryRun ;;
                ret (record "affection" s result)
            | None => ret result
            end ;;
  result <- match StateExtractor.emotion_of ex with
            | Some e =>
                s <- _processEmotion characterId e dryRun ;;
                ret (record "emotion" s result)
            | None => ret result
            end ;;
  result <- match StateExtractor.location_of ex with
            | Some l =>
                s <- _processLocation characterId l dryRun ;;
                ret (record "location" s result)
            | None => ret result
            end ;;
  result <- process_each "inventory"
              (fun c => _processInventory characterId c dryRun)
              (StateExtractor.inventory_of ex) result ;;
  process_each "event" (fun e => _processEvent e dryRun)
    (StateExtractor.events ex) result.

End WithHost.

End StateIntegrator.

(** ** Conversation (conversation/manager.js) *)

(** A conversation session.  The class mutates its object in place; here a
    method takes the object and returns the object it leaves behind, and a
    method that throws has changed nothing (every [throw] of the class comes
    before its first assignment).  Numbers are integers or [NaN], as
    everywhere in this development. *)
Module Conversation.

Record conversation : Type := {
  id : json;
  title : json;
  characterName : json;
  customData : json;
  createdAt : json;
  updatedAt : json;
  messages : json;
  estimatedTokens : json
}.

(** [v.key], for the keys of messages and conversations (which arrays and
    strings do not have). *)
Definition member (v : json) (key : string) : outcome json :=
  match v with
  | JNull =>
      Throw ("Cannot read properties of null (reading '" ++ key ++ "')")
  | JUndefined =>
      Throw ("Cannot read properties of undefined (reading '" ++ key ++ "')")
  | JObj fields => Ok (jget fields key)
  | _ => Ok JUndefined
  end.

(** [`${v}`]: an array prints its elements joined by commas, [null] and
    [undefined] among them as nothing. *)
Fixpoint text (v : json) : string :=
  match v with
  | JArr items =>
      (fix join (l : list json) : string :=
         match l with
         | [] => ""
         | x :: l' =>
             let here := match x with
                         | JNull | JUndefined => ""
                         | _ => text x
                         end in
             match l' with
             | [] => here
             | _ => here ++ "," ++ join l'
             end
         end) items
  | _ => to_text v
  end.

(** [Number(v)]: an array or object counts through its text. *)
Definition number_of (v : json) : option Z :=
  match v with
  | JArr _ | JObj _ => parse_integer (text v)
  | _ => to_number v
  end.

(** [v.length] *)
Definition length_of (v : json) : outcome json :=
  match v with
  | JNull => Throw "Cannot read properties of null (reading 'length')"
  | JUndefined => Throw "Cannot read properties of undefined (reading 'length')"
  | JStr s => Ok (JNum (Z.of_nat (Text.length s)))
  | JArr items => Ok (JNum (Z.of_nat (List.length items)))
  | JObj fields => Ok (jget fields "length")
  | JBool _ | JNum _ | JNaN => Ok JUndefined
  end.

(** [Math.ceil(n / 4)] *)
Definition quarter (n : json) : json :=
  match number_of n with
  | Some x => JNum (- ((- x) / 4))
  | None => JNaN
  end.

(** [a > b] where [a] is a number *)
Definition exceeds (a b : json) : bool :=
  match a, number_of b with
  | JNum x, Some y => y <? x
  | _, _ => false
  end.

(** [a - b] *)
Definition minus (a b : json) : json :=
  match number_of a, number_of b with
  | Some x, Some y => JNum (x - y)
  | _, _ => JNaN
  end.

(** The code points of a string, as iterating over it yields them: a high
    surrogate followed by a low one is one element. *)
Fixpoint code_points (l : list Text.unit) : list (list Text.unit) :=
  match l with
  | [] => []
  | u :: l1 =>
      match l1 with
      | v :: l2 =>
          if Text.is_high u && Text.is_low v
          then [u; v] :: code_points l2
          else [u] :: code_points l1
      | [] => [[u]]
      end
  end.

(** [[...v]] *)
Definition spread_items (v : json) : outcome (list json) :=
  match v with
  | JArr items => Ok items
  | JStr s => Ok (map (fun p => JStr (Text.text_of p)) (code_points (Text.units s)))
  | _ => Throw "this.messages is not iterable"
  end.

(** [l.slice(start)]; [None] is [NaN], which counts as 0. *)
Definition slice_from {A} (start : option Z) (l : list A) : list A :=
  match start with
  | None => l
  | Some s =>
      if s <? 0
      then skipn (Z.to_nat (Z.of_nat (List.length l) + s)) l
      else skipn (Z.to_nat s) l
  end.

(** [Math.ceil(msg.content.length / 4)] *)
Definition tokens_of (msg : json) : outcome json :=
  match member msg "content" with
  | Ok content =>
      match length_of content with
      | Ok len => Ok (quarter len)
      | Throw e => Throw e
      end
  | Throw e => Throw e
  end.

(** The loop of [getMessages] that keeps the newest messages whose
    estimated tokens fit in [maxTokens]; it runs from the newest message to
    the oldest and stops at the first one that does not fit. *)
Fixpoint within_budget (newest_first : list json) (maxTokens : json)
    (tokenCount : json) (filtered : list json) : outcome (list json) :=
  match newest_first with
  | [] => Ok filtered
  | msg :: older =>
      match tokens_of msg with
      | Ok msgTokens =>
          if exceeds (js_add tokenCount msgTokens) maxTokens
          then Ok filtered
          else within_budget older maxTokens (js_add tokenCount msgTokens)
                 (msg :: filtered)
      | Throw e => Throw e
      end
  end.

(** [messages.map(msg => ({ role: msg.role, content: msg.content }))] *)
Fixpoint api_format (l : list json) : outcome (list jsobject) :=
  match l with
  | [] => Ok []
  | msg :: l' =>
      match member msg "role", member msg "content", api_format l' with
      | Ok role, Ok content, Ok rest =>
          Ok ([("role", role); ("content", content)] :: rest)
      | Throw e, _, _ => Throw e
      | _, Throw e, _ => Throw e
      | _, _, Throw e => Throw e
      end
  end.

(** [getMessages(options)] *)
Definition getMessages (options : jsobject) (c : conversation)
  : outcome (list jsobject) :=
  match spread_items (messages c) with
  | Ok all =>
      let maxMessages := jget options "maxMessages" in
      let maxTokens := jget options "maxTokens" in
      let limited :=
        if truthy maxMessages
        then slice_from (option_map Z.opp (number_of maxMessages)) all
        else all in
      let chosen :=
        if truthy maxTokens
        then within_budget (rev limited) maxTokens (JNum 0) []
        else Ok limited in
      match chosen with
      | Ok l => api_format l
      | Throw e => Throw e
      end
  | Throw e => Throw e
  end.

(** [getLastMessages(count)] *)
Definition getLastMessages (count : json) (c : conversation) : outcome json :=
  let start := option_map Z.opp (number_of count) in
  match messages c with
  | JArr items => Ok (JArr (slice_from start items))
  | JStr s => Ok (JStr (Text.text_of (slice_from start (Text.units s))))
  | JNull | JUndefined =>
      Throw "Cannot read properties of undefined (reading 'slice')"
  | _ => Throw "this.messages.slice is not a function"
  end.

(** [this.messages.filter(m => m.role === role).length] *)
Fixpoint count_role (role : string) (l : list json) : outcome Z :=
  match l with
  | [] => Ok 0
  | msg :: l' =>
      match member msg "role", count_role role l' with
      | Ok r, Ok n => Ok (if strict_eq r (JStr role) then n + 1 else n)
      | Throw e, _ => Throw e
      | _, Throw e => Throw e
      end
  end.

(** The result of [getStats]. *)
Record stats : Type := {
  totalMessages : Z;
  userMessages : Z;
  assistantMessages : Z;
  stats_estimatedTokens : json;
  duration : json
}.

(** [getStats()] *)
Definition getStats (c : conversation) : outcome stats :=
  match messages c with
  | JArr items =>
      match count_role "user" items, count_role "assistant" items with
      | Ok users, Ok assistants =>
          Ok {| totalMessages := Z.of_nat (List.length items);
                userMessages := users;
                assistantMessages := assistants;
                stats_estimatedTokens := estimatedTokens c;
                duration := minus (updatedAt c) (createdAt c) |}
      | Throw e, _ => Throw e
      | _, Throw e => Throw e
      end
  | JNull | JUndefined =>
      Throw "Cannot read properties of undefined (reading 'filter')"
  | _ => Throw "this.messages.filter is not a function"
  end.

(** [toJSON()] *)
Definition toJSON (c : conversation) : jsobject :=
  [("id", id c);
   ("title", title c);
   ("characterName", characterName c);
   ("customData", customData c);
   ("createdAt", createdAt c);
   ("updatedAt", updatedAt c);
   ("messages", messages c);
   ("estimatedTokens", estimatedTokens c)].

Section WithHost.
Context {H : Host}.

(** [new Conversation(options)] *)
Definition constructor (options : jsobject) : M conversation :=
  updated <- (if truthy (jget options "updatedAt")
              then ret (jget options "updatedAt")
              else (now <- Date_now ;; ret (JNum now))) ;;
  ret {| id := jget options "id";
         title := jget options "title";
         characterName := jget options "characterName";
         customData := js_or (jget options "customData") (JObj []);
         createdAt := jget options "createdAt";
         updatedAt := updated;
         messages := js_or (jget options "messages") (JArr []);
         estimatedTokens := JNum 0 |}.

(** [Conversation.fromJSON(json)] *)
Definition fromJSON (json_ : json) : M conversation :=
  match json_ with
  | JNull => throw "Cannot read properties of null (reading 'id')"
  | JUndefined => throw "Cannot read properties of undefined (reading 'id')"
  | _ =>
      let read := fun key => match json_ with
                             | JObj fields => jget fields key
                             | _ => JUndefined
                             end in
      constructor [("id", read "id");
                   ("title", read "title");
                   ("characterName", read "characterName");
                   ("customData", read "customData");
                   ("createdAt", read "createdAt");
                   ("updatedAt", read "updatedAt");
                   ("messages", read "messages")]
  end.

(** [addMessage(message)]; returns the stored message and the conversation
    as it is afterwards. *)
Definition addMessage (message : json) (c : conversation)
  : M (jsobject * conversation) :=
  role <- DatabaseManager.lift (member message "role") ;;
  content <- (if truthy role
              then DatabaseManager.lift (member message "content")
              else ret JUndefined) ;;
  if negb (truthy role) || negb (truthy content)
  then throw "Message must have role and content"
  else if negb (StateValidator.includes ["user"; "assistant"] role)
  then throw ("Invalid role: " ++ text role)
  else
    fresh <- randomUUID ;;
    metadata <- DatabaseManager.lift (member message "metadata") ;;
    now <- Date_now ;;
    let msg := [("id", JStr fresh);
                ("role", role);
                ("content", content);
                ("metadata", js_or metadata (JObj []));
                ("timestamp", JNum now)] in
    items <- match messages c with
             | JArr items => ret items
             | _ => throw "this.messages.push is not a function"
             end ;;
    updated <- Date_now ;;
    len <- DatabaseManager.lift (length_of content) ;;
    ret (msg,
         {| id := id c;
            title := title c;
            characterName := characterName c;
            customData := customData c;
            createdAt := createdAt c;
            updatedAt := JNum updated;
            messages := JArr (items ++ [JObj msg]);
            estimatedTokens := js_add (estimatedTokens c) (quarter len) |}).

(** [clear()] *)
Definition clear (c : conversation) : M conversation :=
  now <- Date_now ;;
  ret {| id := id c;
         title := title c;
         characterName := characterName c;
         customData := customData c;
         createdAt := createdAt c;
         updatedAt := JNum now;
         messages := JArr [];
         estimatedTokens := JNum 0 |}.

End WithHost.

End Conversation.

(** ** A concrete host *)

(** A small JSON codec, a ticking clock and numbered UUIDs: enough of a host
    to run the model on concrete worlds. *)
Module Demo.

Definition quote : ascii := ascii_of_nat 34.
Definition backslash : ascii := "\"%char.

Fixpoint escape (s : string) : string :=
  match s with
  | EmptyString => EmptyString
  | String c s' =>
      if Ascii.eqb c quote || Ascii.eqb c backslash
      then String backslash (String c (escape s'))
      else String c (escape s')
  end.

Definition quoted (s : string) : string :=
  String quote (escape s ++ String quote EmptyString).

(** [JSON.stringify]; what JSON cannot say ([undefined], [NaN]) prints as
    [null]. *)
Fixpoint stringify (j : json) : string :=
  match j with
  | JUndefined | JNull | JNaN => "null"
  | JBool true => "true"
  | JBool false => "false"
  | JNum n => Text.of_Z n
  | JStr s => quoted s
  | JArr items =>
      "[" ++ (fix list (l : list json) : string :=
                match l with
                | [] => ""
                | [x] => stringify x
                | x :: l' => stringify x ++ "," ++ list l'
                end) items ++ "]"
  | JObj fields =>
      "{" ++ (fix list (l : list (string * json)) : string :=
                match l with
                | [] => ""
                | [(k, x)] => quoted k ++ ":" ++ stringify x
                | (k, x) :: l' => quoted k ++ ":" ++ stringify x ++ "," ++ list l'
                end) fields ++ "}"
  end.

Definition chars := list ascii.

Fixpoint skip_spaces (l : chars) : chars :=
  match l with
  | c :: l' => if Ascii.eqb c " "%char then skip_spaces l' else l
  | [] => []
  end.

(** The rest of a string literal after its opening quote. *)
Fixpoint read_string (l : chars) (acc : string) : option (string * chars) :=
  match l with
  | [] => None
  | c :: l' =>
      if Ascii.eqb c quote then Some (acc, l')
      else if Ascii.eqb c backslash then
        match l' with
        | e :: l'' => read_string l'' (acc ++ String e EmptyString)
        | [] => None
        end
      else read_string l' (acc ++ String c EmptyString)
  end.

Definition is_digit (c : ascii) : bool := Text.is_digit (N_of_ascii c).

Fixpoint read_digits (l : chars) (acc : list N) : list N * chars :=
  match l with
  | c :: l' =>
      if is_digit c then read_digits l' (acc ++ [N_of_ascii c])%list else (acc, l)
  | [] => (acc, [])
  end.

Definition read_number (l : chars) : option (Z * chars) :=
  let negative := match l with c :: _ => Ascii.eqb c "-"%char | [] => false end in
  let (d, rest) := read_digits (if negative then tl l else l) [] in
  match d with
  | [] => None
  | _ => Some (if negative then - Text.digits_value d else Text.digits_value d,
               rest)
  end.

Definition literal (word : string) (l : chars) : option chars :=
  let w := list_ascii_of_string word in
  if String.eqb (string_of_list_ascii (firstn (List.length w) l)) word
  then Some (skipn (List.length w) l)
  else None.

Fixpoint read_value (fuel : nat) (l : chars) : option (json * chars) :=
  match fuel with
  | O => None
  | S fuel' =>
      match skip_spaces l with
      | [] => None
      | c :: l' =>
          if Ascii.eqb c quote then
            option_map (fun r => (JStr (fst r), snd r)) (read_string l' "")
          else if Ascii.eqb c "["%char then
            match skip_spaces l' with
            | c' :: l'' =>
                if Ascii.eqb c' "]"%char then Some (JArr [], l'')
                else
                  (fix items (n : nat) (l : chars) (acc : list json)
                     : option (json * chars) :=
                     match n with
                     | O => None
                     | S n' =>
                         match read_value fuel' l with
                         | Some (v, rest) =>
                             match skip_spaces rest with
                             | s :: rest' =>
                                 if Ascii.eqb s ","%char
                                 then items n' rest' (acc ++ [v])%list
                                 else if Ascii.eqb s "]"%char
                                 then Some (JArr (acc ++ [v])%list, rest')
                                 else None
                             | [] => None
                             end
                         | None => None
                         end
                     end) (List.length l') l' []
            | [] => None
            end
          else if Ascii.eqb c "{"%char then
            match skip_spaces l' with
            | c' :: l'' =>
                if Ascii.eqb c' "}"%char then Some (JObj [], l'')
                else
                  (fix members (n : nat) (l : chars) (acc : jsobject)
                     : option (json * chars) :=
                     match n with
                     | O => None
                     | S n' =>
                         match skip_spaces l with
                         | q :: l1 =>
                             if Ascii.eqb q quote then
                               match read_string l1 "" with
                               | Some (k, l2) =>
                                   match skip_spaces l2 with
                                   | colon :: l3 =>
                                       if Ascii.eqb colon ":"%char then
                                         match read_value fuel' l3 with
                                         | Some (v, rest) =>
                                             match skip_spaces rest with
                                             | s :: rest' =>
                                                 if Ascii.eqb s ","%char
                                                 then members n' rest'
                                                        (set_prop acc k v)
                                                 else if Ascii.eqb s "}"%char
                                                 then Some (JObj (set_prop acc k v),
                                                            rest')
                                                 else None
                                             | [] => None
                                             end
                                         | None => None
                                         end
                                       else None
                                   | [] => None
                                   end
                               | None => None
                               end
                             else None
                         | [] => None
                         end
                     end) (List.length l') l' []
            | [] => None
            end
          else
            match literal "null" (c :: l'), literal "true" (c :: l'),
                  literal "false" (c :: l') with
            | Some rest, _, _ => Some (JNull, rest)
            | _, Some rest, _ => Some (JBool true, rest)
            | _, _, Some rest => Some (JBool false, rest)
            | _, _, _ =>
                option_map (fun r => (JNum (fst r), snd r)) (read_number (c :: l'))
            end
      end
  end.

(** [JSON.parse] *)
Definition parse (s : string) : option json :=
  let l := list_ascii_of_string s in
  match read_value (S (List.length l)) l with
  | Some (v, rest) =>
      match skip_spaces rest with
      | [] => Some v
      | _ => None
      end
  | None => None
  end.

#[export] Instance host : Host := {
  JSON_stringify := stringify;
  JSON_parse := parse;
  clock := fun k => 1700000000000 + Z.of_nat k;
  uuid := fun k => "uuid-" ++ Text.of_nat k;
  toISOString := fun t => Some ("t=" ++ Text.of_Z t)
}.

Definition world_of (d : Database) : World :=
  {| db := d; cache := empty_cache; ticks := 0; draws := 0 |}.

(** Alice, as [createCharacter({ id: 'alice', name: 'Alice', affection: 50,
    emotion })] stored her at time 1. *)
Definition alice (emotion : string) : row :=
  [("id", SText "alice"); ("name", SText "Alice"); ("affection", SInt 50);
   ("emotion", SText emotion); ("personality", SNull);
   ("current_location", SNull); ("metadata", SNull);
   ("created_at", SInt 1); ("updated_at", SInt 1)].

Definition place (id name : string) : row :=
  [("id", SText id); ("name", SText name); ("type", SNull);
   ("parent_location", SNull); ("connected_to", SNull);
   ("description", SNull); ("metadata", SNull);
   ("created_at", SInt 1); ("updated_at", SInt 1)].

Definition key_item : row :=
  [("id", SText "item-1"); ("character_id", SText "alice");
   ("item_name", SText "钥匙"); ("item_type", SNull); ("quantity", SInt 1);
   ("equipped", SInt 0); ("properties", SNull);
   ("created_at", SInt 2); ("updated_at", SInt 2)].

(** A world with Alice (neutral), and one with Alice happy. *)
Definition alice_world : World :=
  world_of (set_rows Characters [alice "neutral"] empty_database).
Definition happy_world : World :=
  world_of (set_rows Characters [alice "happy"] empty_database).

(** Alice, her key, and two places. *)
Definition town_world : World :=
  world_of
    (set_rows Inventory [key_item]
       (set_rows Locations [place "loc-1" "Town Square"; place "loc-2" "Market"]
          (set_rows Characters [alice "neutral"] empty_database))).

End Demo.

(** ** The vocabulary of the statements *)

Definition table_eqb (a b : table) : bool :=
  match a, b with
  | Characters, Characters | Timeline, Timeline | Locations, Locations
  | Inventory, Inventory | Memories, Memories
  | StateSnapshots, StateSnapshots | ValidationLogs, ValidationLogs => true
  | _, _ => false
  end.

Fixpoint same_names (a b : list string) : bool :=
  match a, b with
  | [], [] => true
  | x :: a', y :: b' => String.eqb x y && same_names a' b'
  | _, _ => false
  end.

Fixpoint distinct_names (l : list string) : bool :=
  match l with
  | [] => true
  | k :: l' => negb (mem_string k l') && distinct_names l'
  end.

(** A row with exactly the columns of its table, in their order: what the
    store holds and [SELECT *] returns. *)
Definition shaped (t : table) (r : row) : bool :=
  same_names (keys r) (column_names t).

(** The row with both of its stamps set to [now]. *)
Definition restamp (now : Z) (r : row) : row :=
  set_prop (set_prop r "created_at" (SInt now)) "updated_at" (SInt now).

Section Restamping.
Context {H : Host}.

(** The rows stamped with successive readings of the clock, from the k-th. *)
Fixpoint restamp_from (k : nat) (l : list row) : list row :=
  match l with
  | [] => []
  | r :: l' => restamp (clock k) r :: restamp_from (S k) l'
  end.
End Restamping.

(** Every row of table [t] has the table's columns and meets its NOT NULL
    and CHECK constraints. *)
Definition well_stored (t : table) (d : Database) : bool :=
  forallb (fun r => shaped t r && row_ok t r) (rows t d).

(** A row that the schema lets follow the rows of [d]: it has the table's
    columns and an id the code keeps, and meets NOT NULL, CHECK, PRIMARY KEY,
    UNIQUE and FOREIGN KEY. *)
Definition admissible (t : table) (d : Database) (r : row) : bool :=
  shaped t r
  && truthy (unbind_value (field r "id"))
  && row_ok t r
  && keys_free t d r
  && references_ok t d r.

(** Rows that can be stored one after the other on top of [d]. *)
Fixpoint insertable (t : table) (d : Database) (l : list row) : bool :=
  match l with
  | [] => true
  | r :: l' => admissible t d r && insertable t (set_rows t (rows t d ++ [r]) d) l'
  end.

(** The five state tables of [d] obey the schema, table after table in the
    order a restore refills them. *)
Definition consistent (d : Database) : bool :=
  let d1 := set_rows Characters (characters d) empty_database in
  let d2 := set_rows Timeline (timeline d) d1 in
  let d3 := set_rows Locations (locations d) d2 in
  let d4 := set_rows Inventory (inventory d) d3 in
  insertable Characters empty_database (characters d)
  && insertable Timeline d1 (timeline d)
  && insertable Locations d2 (locations d)
  && insertable Inventory d3 (inventory d)
  && insertable Memories d4 (memories d).

(** Two databases that agree, in each state table, on the ids and names of
    their rows: the engine cannot tell them apart when it checks keys and
    references. *)
Definition same_keys (d d' : Database) : Prop :=
  forall t, In t state_tables ->
    ids (rows t d) = ids (rows t d')
    /\ column_values "name" (rows t d) = column_values "name" (rows t d').

(** The document [createSnapshot] serializes for database [d]. *)
Definition snapshot_of (d : Database) : json :=
  StateManager.dump (map row_object (characters d)) (map row_object (timeline d))
    (map row_object (locations d)) (map row_object (inventory d))
    (map row_object (memories d)).

(** The items a restore takes from the document for table [t]:
    [state[name of t]], run through by [for ... of]. *)
Definition snapshot_items (state : json) (t : table) : outcome (list json) :=
  match StateManager.member state (table_name t) with
  | Ok v => StateManager.iterate v
  | Throw e => Throw e
  end.

(** The database with its five state tables emptied. *)
Definition cleared (d : Database) : Database :=
  Build_Database [] [] [] [] [] (state_snapshots d) (validation_logs d).

(** The row [createSnapshot] stores for the database of [w] under the id
    it draws: the document, the time of the snapshot and the stamps of the
    insertion. *)
Definition snapshot_row {H : Host} (description : string) (w : World) : row :=
  [("id", SText (uuid (draws w)));
   ("snapshot_time", SInt (clock (ticks w)));
   ("state_data", SText (JSON_stringify (snapshot_of (db w))));
   ("description", SText description);
   ("created_at", SInt (clock (S (ticks w))));
   ("updated_at", SInt (clock (S (ticks w))))].

(** The stored row of a snapshot: the one [get('state_snapshots', { id })]
    returns. *)
Definition stored_snapshot (id : string) (d : Database) : option row :=
  find (fun r => sql_eq (field r "id") (SText id)) (state_snapshots d).

(** The stored row of a character: the one [get('characters', { id })] returns. *)
Definition stored_character (id : string) (d : Database) : option row :=
  find (fun r => sql_eq (field r "id") (SText id)) (characters d).

(** The id [insert] gives a record: the caller's when it is truthy, a fresh
    UUID otherwise ([data.id || randomUUID()]). *)
Definition chosen_id {H : Host} (data : jsobject) (w : World) : json :=
  if truthy (jget data "id") then jget data "id" else JStr (uuid (draws w)).

(** The stored form of an item of a snapshot, for some stamp and id. *)
Definition stored_as {H : Host} (t : table) (item : json) (r : row) : Prop :=
  exists now id rec,
    bind_object (DatabaseManager.insert_record item now id) = Some rec
    /\ r = complete t rec.

(** A computation that leaves the database as it is, however it ends. *)
Definition keeps_db {A} (m : M A) : Prop :=
  forall w, db (snd (m w)) = db w.

(** The stored row with a given id: the one [get(table, { id })] returns. *)
Definition stored_row (t : table) (id : string) (d : Database) : option row :=
  find (fun r => sql_eq (field r "id") (SText id)) (rows t d).

(** Whether the validator's table of unlikely transitions lists the step
    from [current] to [new]. *)
Definition discouraged (current new : string) : bool :=
  match prop StateValidator.invalidTransitions current with
  | Some l => mem_string new l
  | None => false
  end.

(** Further concrete worlds. *)
Module Examples.

(** Alice standing at the location with the given id. *)
Definition alice_at (location : string) : row :=
  [("id", SText "alice"); ("name", SText "Alice"); ("affection", SInt 50);
   ("emotion", SText "neutral"); ("personality", SNull);
   ("current_location", SText location); ("metadata", SNull);
   ("created_at", SInt 1); ("updated_at", SInt 1)].

(** The town square, from which the market can be reached. *)
Definition square : row :=
  [("id", SText "loc-1"); ("name", SText "Town Square"); ("type", SNull);
   ("parent_location", SNull);
   ("connected_to",
    SText (Demo.stringify (JArr [JObj [("id", JStr "loc-2")]])));
   ("description", SNull); ("metadata", SNull);
   ("created_at", SInt 1); ("updated_at", SInt 1)].

(** Alice on the square of a town with a market and a harbour. *)
Definition square_world : World :=
  Demo.world_of
    (set_rows Locations
       [square; Demo.place "loc-2" "Market"; Demo.place "loc-3" "Harbour"]
       (set_rows Characters [alice_at "loc-1"] empty_database)).

End Examples.

(** The columns the schema declares INTEGER or BOOLEAN; the others are TEXT. *)
Definition integer_column (k : string) : bool :=
  mem_string k ["affection"; "timestamp"; "importance"; "quantity"; "equipped";
                "snapshot_time"; "passed"; "created_at"; "updated_at"].

(** A value of the declared type of column [k] (or [null]): what the engine
    stores as it is, without converting it. *)
Definition fits (k : string) (v : json) : bool :=
  match v with
  | JNull => true
  | JNum _ => integer_column k
  | JStr _ => negb (integer_column k)
  | _ => false
  end.

(** *** Relations between the world before a call and the world after it *)

(** A computation whose final world is related by [R] to the world it
    starts in, however it ends. *)
Definition preserves {A} (R : World -> World -> Prop) (m : M A) : Prop :=
  forall w, R w (snd (m w)).

(** Relations that hold of no step and compose along steps. *)
Class Stepwise (R : World -> World -> Prop) : Prop := {
  stepwise_refl : forall w, R w w;
  stepwise_trans : forall a b c, R a b -> R b c -> R a c
}.

(** The caches are as they were. *)
Definition same_cache (w w' : World) : Prop := cache w' = cache w.

(** The database is as it was. *)
Definition same_db (w w' : World) : Prop := db w' = db w.

(** Every table outside [ts] is as it was. *)
Definition only_tables (ts : list table) (w w' : World) : Prop :=
  forall t, ~ In t ts -> rows t (db w') = rows t (db w).

(** The characters bucket of the cache holds at most [cacheSize] entries. *)
Definition characters_bounded (o : StateManager.options) (w : World) : Prop :=
  map_size (cache_characters (cache w)) <= StateManager.cacheSize o.

Definition keeps_bound (o : StateManager.options) (w w' : World) : Prop :=
  characters_bounded o w -> characters_bounded o w'.

(** The characters bucket of the cache has not grown. *)
Definition bucket_not_grown (w w' : World) : Prop :=
  map_size (cache_characters (cache w')) <= map_size (cache_characters (cache w)).

(** The calls of the state manager. *)
Inductive call : Type :=
| GetCharacterState (characterId : string)
| CreateCharacter (data : jsobject)
| UpdateCharacterState (characterId : string) (updates : jsobject)
| DeleteCharacter (characterId : string)
| GetTimeline (options : StateManager.timeline_options)
| AddTimelineEvent (event : jsobject)
| GetLocation (locationId : string)
| CreateLocation (data : jsobject)
| GetInventory (characterId : string) (options : jsobject)
| AddInventoryItem (characterId : string) (item : jsobject)
| UpdateInventoryItem (itemId : json) (updates : jsobject)
| DeleteInventoryItem (itemId : json)
| GetMemories (characterId : string) (options : StateManager.memory_options)
| AddMemory (characterId : string) (memory : jsobject)
| CreateSnapshot (description : json)
| RestoreSnapshot (snapshotId : string)
| ListSnapshots (limit : option Z)
| ClearCache.

(** The world a call of the state manager leaves, whether it returns or
    throws. *)
Definition after {H : Host} (o : StateManager.options) (c : call) (w : World)
  : World :=
  match c with
  | GetCharacterState id => snd (StateManager.getCharacterState o id w)
  | CreateCharacter data => snd (StateManager.createCharacter data w)
  | UpdateCharacterState id updates =>
      snd (StateManager.updateCharacterState id updates w)
  | DeleteCharacter id => snd (StateManager.deleteCharacter id w)
  | GetTimeline options => snd (StateManager.getTimeline options w)
  | AddTimelineEvent event => snd (StateManager.addTimelineEvent event w)
  | GetLocation id => snd (StateManager.getLocation o id w)
  | CreateLocation data => snd (StateManager.createLocation data w)
  | GetInventory id options => snd (StateManager.getInventory id options w)
  | AddInventoryItem id item => snd (StateManager.addInventoryItem id item w)
  | UpdateInventoryItem id updates =>
      snd (StateManager.updateInventoryItem id updates w)
  | DeleteInventoryItem id => snd (StateManager.deleteInventoryItem id w)
  | GetMemories id options => snd (StateManager.getMemories id options w)
  | AddMemory id memory => snd (StateManager.addMemory id memory w)
  | CreateSnapshot description => snd (StateManager.createSnapshot description w)
  | RestoreSnapshot id => snd (StateManager.restoreSnapshot id w)
  | ListSnapshots limit => snd (StateManager.listSnapshots limit w)
  | ClearCache => snd (StateManager.clearCache w)
  end.

(** The world after a sequence of calls. *)
Definition after_all {H : Host} (o : StateManager.options) (cs : list call)
    (w : World) : World :=
  fold_left (fun w c => after o c w) cs w.

(** ** Vocabulary for conversations *)

(** A message whose content is text, as [addMessage] documents it. *)
Definition textual (m : json) : Prop :=
  exists fields s, m = JObj fields /\ jget fields "content" = JStr s.

(** The tokens [getMessages] counts for a message. *)
Definition cost (m : json) : Z :=
  match Conversation.tokens_of m with
  | Ok (JNum n) => n
  | _ => 0
  end.

Definition total_cost (l : list json) : Z :=
  fold_right (fun m acc => cost m + acc) 0 l.

(** The [n] newest messages of a list (all of them when it has fewer). *)
Definition newest {A} (n : nat) (l : list A) : list A :=
  skipn (List.length l - n) l.

(** A stored message as [getMessages] hands it out: role and content only. *)
Definition sent (m : json) : jsobject :=
  match m with
  | JObj fields => [("role", jget fields "role"); ("content", jget fields "content")]
  | _ => []
  end.

(** The calls that change a conversation. *)
Inductive conversation_call : Type :=
| AddMessage (message : json)
| Clear.

(** The conversation and the world a call leaves; a call that throws leaves
    the conversation as it was. *)
Definition conversation_after {H : Host} (k : conversation_call)
    (s : Conversation.conversation * World)
  : Conversation.conversation * World :=
  match k with
  | AddMessage message =>
      match Conversation.addMessage message (fst s) (snd s) with
      | (Ok (_, c'), w') => (c', w')
      | (Throw _, w') => (fst s, w')
      end
  | Clear =>
      match Conversation.clear (fst s) (snd s) with
      | (Ok c', w') => (c', w')
      | (Throw _, w') => (fst s, w')
      end
  end.

(** A call that passes an object whose content, if any, is text. *)
Definition says_text (k : conversation_call) : Prop :=
  match k with
  | AddMessage (JObj fields) =>
      jget fields "content" = JUndefined \/ exists s, jget fields "content" = JStr s
  | AddMessage _ => False
  | Clear => True
  end.

(** A stored message: from the user or the assistant, with content. *)
Definition well_formed (m : json) : Prop :=
  exists fields role s,
    m = JObj fields /\ jget fields "role" = JStr role
    /\ (role = "user" \/ role = "assistant")
    /\ jget fields "content" = JStr s /\ s <> "".

(** The messages of a conversation are well formed and its token estimate
    is their total. *)
Definition tallied (c : Conversation.conversation) : Prop :=
  exists items,
    Conversation.messages c = JArr items
    /\ Forall well_formed items
    /\ Conversation.estimatedTokens c = JNum (total_cost items).

(** The conversation after a sequence of calls. *)
Definition conversation_after_all {H : Host} (calls : list conversation_call)
    (s : Conversation.conversation * World)
  : Conversation.conversation * World :=
  fold_left (fun s k => conversation_after k s) calls s.

(** A conversation with no token estimate, as [fromJSON] rebuilds it. *)
Definition without_estimate (c : Conversation.conversation)
  : Conversation.conversation :=
  {| Conversation.id := Conversation.id c;
     Conversation.title := Conversation.title c;
     Conversation.characterName := Conversation.characterName c;
     Conversation.customData := Conversation.customData c;
     Conversation.createdAt := Conversation.createdAt c;
     Conversation.updatedAt := Conversation.updatedAt c;
     Conversation.messages := Conversation.messages c;
     Conversation.estimatedTokens := JNum 0 |}.

(** Three stored messages, of 3, 1 and 5 estimated tokens. *)
Definition exchange : list json :=
  [JObj [("id", JStr "m1"); ("role", JStr "user");
         ("content", JStr "Hello there"); ("metadata", JObj []);
         ("timestamp", JNum 1)];
   JObj [("id", JStr "m2"); ("role", JStr "assistant");
         ("content", JStr "Hi"); ("metadata", JObj []);
         ("timestamp", JNum 2)];
   JObj [("id", JStr "m3"); ("role", JStr "user");
         ("content", JStr "How are you today?"); ("metadata", JObj []);
         ("timestamp", JNum 3)]].

Definition chat : Conversation.conversation :=
  {| Conversation.id := JStr "conv-1";
     Conversation.title := JStr "Chat";
     Conversation.characterName := JStr "Alice";
     Conversation.customData := JObj [];
     Conversation.createdAt := JNum 1;
     Conversation.updatedAt := JNum 3;
     Conversation.messages := JArr exchange;
     Conversation.estimatedTokens := JNum 9 |}.

(** Two accepted messages around one with a role the class refuses. *)
Definition greetings : list conversation_call :=
  [AddMessage (JObj [("role", JStr "user"); ("content", JStr "Hello there")]);
   AddMessage (JObj [("role", JStr "system"); ("content", JStr "Be kind")]);
   AddMessage (JObj [("role", JStr "assistant"); ("content", JStr "Hi")])].

Definition new_chat : jsobject :=
  [("id", JStr "conv-1"); ("title", JStr "Chat");
   ("characterName", JStr "Alice"); ("createdAt", JNum 1)].

(** ** Vocabulary for the list of snapshots *)



(** ** Vocabulary for the orchestrator *)

(** A step that returns and that, unless updates may be applied, applies
    nothing and leaves the database as it is. *)
Definition settles (may_apply : bool) (m : M StateIntegrator.step) : Prop :=
  forall w,
    exists s,
      fst (m w) = Ok s
      /\ (may_apply = false ->
          StateIntegrator.applied s = false /\ db (snd (m w)) = db w).

(** Whether [processMessage] may write: not in a dry run, and only with
    [autoApply]. *)
Definition may_apply (o : StateIntegrator.options) (dryRun : bool) : bool :=
  negb dryRun && StateIntegrator.autoApply o.

(** An update that is listed was applied. *)
Definition was_applied (u : StateIntegrator.update) : Prop :=
  StateIntegrator.applied (StateIntegrator.outcome_of u) = true.

(** A stage of [processMessage] that returns, lists only applied updates
    after those of [r] and, unless updates may be applied, lists none and
    leaves the database as it is. *)
Definition grows (may_apply : bool) (r : StateIntegrator.processed)
    (c : M StateIntegrator.processed) : Prop :=
  forall w,
    exists r' extra,
      fst (c w) = Ok r'
      /\ StateIntegrator.updates r' = (StateIntegrator.updates r ++ extra)%list
      /\ Forall was_applied extra
      /\ (may_apply = false -> extra = [] /\ db (snd (c w)) = db w).

(** ** Vocabulary for the extractor *)

(** The keyword hits of an emotion of the table in a text (0 for an emotion
    the table does not have). *)
Definition emotion_score (text : string) (e : string) : Z :=
  match prop StateExtractor.emotionKeywords e with
  | Some keywords => StateExtractor.keyword_score (Text.units text) keywords
  | None => 0
  end.

(** [a <= b] on confidences. *)
Definition ratio_le (a b : StateExtractor.ratio) : Prop :=
  StateExtractor.numerator a * StateExtractor.denominator b
  <= StateExtractor.numerator b * StateExtractor.denominator a.

(** A confidence in the interval (0, 1]. *)
Definition proper (a : StateExtractor.ratio) : Prop :=
  0 < StateExtractor.numerator a <= StateExtractor.denominator a.

(** Scores in falling order. *)
Definition falling (a b : string * Z) : Prop := snd b <= snd a.

(** ** Vocabulary for a character that does not exist *)

(** No character has this id, and no item is held in its name. *)
Definition stranger (id : string) (d : Database) : Prop :=
  stored_character id d = None
  /\ forall r, In r (inventory d) ->
               sql_eq (field r "character_id") (SText id) = false.

(** A step that returns and changes at most the locations and the
    timeline; outside the timeline it applies nothing. *)
Definition step_aside (id : string) (on_timeline : bool)
    (m : M StateIntegrator.step) : Prop :=
  forall w,
    stranger id (db w) ->
    exists s w',
      m w = (Ok s, w')
      /\ (on_timeline = false -> StateIntegrator.applied s = false)
      /\ only_tables [Locations; Timeline] w w'.

(** A stage of [processMessage] that returns, lists only events after the
    updates of [r] and changes at most the locations and the timeline. *)
Definition aside (id : string) (r : StateIntegrator.processed)
    (c : M StateIntegrator.processed) : Prop :=
  forall w,
    stranger id (db w) ->
    exists r' w' extra,
      c w = (Ok r', w')
      /\ StateIntegrator.updates r' = (StateIntegrator.updates r ++ extra)%list
      /\ Forall (fun u => StateIntegrator.type u = "event") extra
      /\ only_tables [Locations; Timeline] w w'.

(** ** Vocabulary for the queries of the state manager *)

(** What a query shows of a stored row, apart from the two columns it
    parses. *)
Definition shows (a b : string) (m : jsobject) (r : row) : Prop :=
  forall k, k <> a -> k <> b -> jget m k = jget (row_object r) k.

(** Memories of Alice and of Bob, and three events. *)
Definition memory (id owner content : string) (importance : Z) : row :=
  [("id", SText id); ("character_id", SText owner); ("content", SText content);
   ("importance", SInt importance); ("timestamp", SInt 10); ("tags", SNull);
   ("metadata", SNull); ("created_at", SInt 10); ("updated_at", SInt 10)].

Definition happening (id kind : string) (time importance : Z) : row :=
  [("id", SText id); ("timestamp", SInt time); ("event_type", SText kind);
   ("description", SText "something happened"); ("participants", SNull);
   ("location", SNull); ("importance", SInt importance); ("metadata", SNull);
   ("created_at", SInt time); ("updated_at", SInt time)].

Definition diary_world : World :=
  Demo.world_of
    (set_rows Timeline
       [happening "e1" "general" 100 1; happening "e2" "battle" 200 4;
        happening "e3" "general" 300 5]
       (set_rows Memories
          [memory "m1" "alice" "met Bob" 2; memory "m2" "bob" "met Alice" 5;
           memory "m3" "alice" "won the duel" 5]
          (db Demo.alice_world))).

(** ** Basic facts: properties, rows, tables *)

Lemma prop_set_prop_same {V} (o : list (string * V)) k v :
  prop (set_prop o k v) k = Some v.
Proof.
  induction o as [|[k' v'] o IH]; simpl.
  - now rewrite String.eqb_refl.
  - destruct (String.eqb k' k) eqn:E; simpl.
    + now rewrite String.eqb_refl.
    + now rewrite E.
Qed.

Lemma prop_set_prop_other {V} (o : list (string * V)) k k' v :
  k <> k' -> prop (set_prop o k v) k' = prop o k'.
Proof.
  intros Hne. induction o as [|[k0 v0] o IH]; simpl.
  - destruct (String.eqb k k') eqn:E; [apply String.eqb_eq in E; contradiction | reflexivity].
  - destruct (String.eqb k0 k) eqn:E; simpl.
    + apply String.eqb_eq in E. subst k0.
      destruct (String.eqb k k') eqn:E'; [apply String.eqb_eq in E'; contradiction | reflexivity].
    + destruct (String.eqb k0 k'); [reflexivity | exact IH].
Qed.

Lemma keys_set_prop_present {V} (o : list (string * V)) k v :
  has_prop o k = true -> keys (set_prop o k v) = keys o.
Proof.
  unfold has_prop, keys. induction o as [|[k' v'] o IH]; simpl; [discriminate|].
  destruct (String.eqb k' k) eqn:E; simpl.
  - apply String.eqb_eq in E. now subst.
  - intros Hp. now rewrite IH.
Qed.

Lemma has_prop_set_prop {V} (o : list (string * V)) k k' v :
  has_prop o k' = true -> has_prop (set_prop o k v) k' = true.
Proof.
  unfold has_prop. intros Hp.
  destruct (string_dec k k') as [->|Hne].
  - now rewrite prop_set_prop_same.
  - now rewrite prop_set_prop_other.
Qed.

Lemma set_prop_same_value {V} (o : list (string * V)) k v :
  prop o k = Some v -> set_prop o k v = o.
Proof.
  induction o as [|[k' v'] o IH]; simpl; [discriminate|].
  destruct (String.eqb k' k) eqn:E.
  - apply String.eqb_eq in E. subst. now intros [= ->].
  - intros Hp. now rewrite IH.
Qed.

Lemma field_set_prop_same (r : row) k v : field (set_prop r k v) k = v.
Proof. unfold field. now rewrite prop_set_prop_same. Qed.

Lemma field_set_prop_other (r : row) k k' v :
  k <> k' -> field (set_prop r k v) k' = field r k'.
Proof. intros. unfold field. now rewrite prop_set_prop_other. Qed.

Lemma mem_string_In k l : mem_string k l = true <-> In k l.
Proof.
  unfold mem_string. rewrite existsb_exists. split.
  - intros [x [Hin Heq]]. apply String.eqb_eq in Heq. now subst.
  - intros Hin. exists k. split; [assumption | apply String.eqb_refl].
Qed.

Lemma same_names_eq a b : same_names a b = true <-> a = b.
Proof.
  revert b. induction a as [|x a IH]; intros [|y b]; simpl; split;
    try discriminate; try reflexivity.
  - intros Hb. apply andb_true_iff in Hb as [Hx Hab].
    apply String.eqb_eq in Hx. apply IH in Hab. now subst.
  - intros [= -> ->]. rewrite String.eqb_refl. now apply IH.
Qed.

Lemma has_prop_keys {V} (o : list (string * V)) k :
  has_prop o k = true <-> In k (keys o).
Proof.
  unfold has_prop, keys. induction o as [|[k' v'] o IH]; simpl.
  - split; [discriminate | contradiction].
  - destruct (String.eqb k' k) eqn:E.
    + apply String.eqb_eq in E. subst. split; auto.
    + rewrite IH. split; [auto | intros [Heq|Hin]; [|assumption]].
      subst. rewrite String.eqb_refl in E. discriminate.
Qed.

(** The rows of a table after one table was rewritten. *)
Lemma rows_set_rows_same t l d : rows t (set_rows t l d) = l.
Proof. now destruct t. Qed.

Lemma rows_set_rows_other t t' l d :
  t <> t' -> rows t' (set_rows t l d) = rows t' d.
Proof. destruct t, t'; intros Hne; try reflexivity; now contradiction Hne. Qed.

Lemma set_rows_rows t d : set_rows t (rows t d) d = d.
Proof. now destruct t, d. Qed.

Lemma set_rows_twice t l l' d : set_rows t l (set_rows t l' d) = set_rows t l d.
Proof. now destruct t. Qed.

Lemma table_eq_dec (a b : table) : {a = b} + {a <> b}.
Proof. decide equality. Defined.

(** ** Reading the store *)

Lemma find_ext {A} (f g : A -> bool) l :
  (forall x, f x = g x) -> find f l = find g l.
Proof.
  intros E. induction l as [|x l IH]; simpl; [reflexivity|].
  now rewrite E, IH.
Qed.

Lemma jget_row_object (r : row) k :
  jget (row_object r) k =
  match prop r k with
  | Some v => unbind_value v
  | None => JUndefined
  end.
Proof.
  unfold jget, row_object. induction r as [|[k' v'] r IH]; simpl; [reflexivity|].
  destruct (String.eqb k' k); [reflexivity | exact IH].
Qed.

Section Reading.
Context {H : Host}.

(** A read never changes the world. *)
Lemma get_pure t where_ w : snd (DatabaseManager.get t where_ w) = w.
Proof.
  unfold DatabaseManager.get, bind, DatabaseManager.lift, get_db, ret, throw.
  destruct (DatabaseManager.select_filter t where_); reflexivity.
Qed.

Lemma getAll_pure t q w : snd (DatabaseManager.getAll t q w) = w.
Proof.
  unfold DatabaseManager.getAll, bind, DatabaseManager.lift, get_db, ret, throw.
  destruct (DatabaseManager.select_filter t _); [|reflexivity].
  destruct (DatabaseManager.order_rows _ _ _ _); reflexivity.
Qed.

(** [get('characters', { id })] returns the stored row of the character. *)
Lemma get_character id w :
  DatabaseManager.get Characters [("id", JStr id)] w
  = (Ok (option_map row_object (stored_character id (db w))), w).
Proof.
  unfold DatabaseManager.get, bind, DatabaseManager.lift, get_db, ret.
  simpl. unfold stored_character. f_equal. f_equal. f_equal.
  apply find_ext. intros r. unfold DatabaseManager.holds. simpl.
  apply andb_true_r.
Qed.

(** [getAll(table)] returns every row, in stored order. *)
Lemma getAll_all t w :
  DatabaseManager.getAll t DatabaseManager.all_rows w
  = (Ok (map row_object (rows t (db w))), w).
Proof.
  unfold DatabaseManager.getAll, bind, DatabaseManager.lift, get_db, ret.
  simpl. f_equal. f_equal. f_equal.
  induction (rows t (db w)) as [|r l IH]; simpl; [reflexivity | now rewrite IH].
Qed.
End Reading.

(** ** The validator: what passes *)

Section Validation.
Context {H : Host}.

(** What the validator answers to a proposed affection [v] for a character
    whose stored affection is the number [c]: a finding for the range, a
    finding for the jump, and [passed] only when there is neither. *)
Lemma validate_affection cid w r c v :
  stored_character cid (db w) = Some r ->
  prop r "affection" = Some (SInt c) ->
  exists res,
    StateValidator.validateCharacterUpdate cid [("affection", JNum v)] w
    = (Ok res, w)
    /\ StateValidator.passed res
       = ((0 <=? v) && (v <=? 100) && (Z.abs (v - c) <=? 20))
    /\ List.length (StateValidator.errors res)
       = (if (0 <=? v) && (v <=? 100) then 0%nat else 1%nat)
    /\ List.length (StateValidator.warnings res)
       = (if Z.abs (v - c) <=? 20 then 0%nat else 1%nat)
    /\ (forall f, In f (StateValidator.errors res
                        ++ StateValidator.warnings res
                        ++ StateValidator.info res) ->
                  StateValidator.field_name f = "affection").
Proof.
  intros Hrow Haff.
  unfold StateValidator.validateCharacterUpdate, bind.
  rewrite get_character, Hrow. simpl.
  rewrite jget_row_object, Haff. simpl.
  unfold StateValidator._validateAffection, num_lt, num_gt. simpl.
  unfold ret. eexists. split; [reflexivity|].
  destruct (v <? 0) eqn:E0; destruct (100 <? v) eqn:E1;
    destruct (20 <? Z.abs (v - c)) eqn:E2;
    destruct (0 <=? v) eqn:E3; destruct (v <=? 100) eqn:E4;
    destruct (Z.abs (v - c) <=? 20) eqn:E5; try lia;
    simpl; repeat split; try reflexivity;
    intros f Hf; simpl in Hf;
    repeat (destruct Hf as [<-|Hf]; [reflexivity|]); contradiction.
Qed.

End Validation.

(** ** C1, C2: a WARNING makes a validation fail *)

(** C1 (the code at its failing inputs).  For a character whose stored
    affection is [c], a proposed affection [v] that lies inside [0,100] but
    more than 20 away from [c] does not pass: the validator reports no ERROR
    at all, one WARNING on the field [affection], and [passed = false],
    because [passed] is computed from the list that also holds the warnings. *)
Theorem C1_in_range_jump_does_not_pass :
  forall {H : Host} (cid : string) (w : World) (r : row) (c v : Z),
    stored_character cid (db w) = Some r ->
    prop r "affection" = Some (SInt c) ->
    0 <= v <= 100 ->
    20 < Z.abs (v - c) ->
    exists res,
      StateValidator.validateCharacterUpdate cid [("affection", JNum v)] w
      = (Ok res, w)
      /\ StateValidator.passed res = false
      /\ StateValidator.errors res = []
      /\ exists f, StateValidator.warnings res = [f]
                   /\ StateValidator.field_name f = "affection".
Proof.
  intros H cid w r c v Hrow Haff Hrange Hjump.
  destruct (validate_affection cid w r c v Hrow Haff)
    as [res [Hrun [Hpass [Herr [Hwarn Hfield]]]]].
  exists res. split; [exact Hrun|].
  replace ((0 <=? v) && (v <=? 100)) with true in * by (symmetry; apply andb_true_iff; split; lia).
  replace (Z.abs (v - c) <=? 20) with false in * by (symmetry; apply Z.leb_gt; lia).
  simpl in Hpass. split; [exact Hpass|].
  destruct (StateValidator.errors res) as [|e es]; [|discriminate].
  split; [reflexivity|].
  destruct (StateValidator.warnings res) as [|f [|f' fs]]; try discriminate.
  exists f. split; [reflexivity|].
  apply Hfield. simpl. now left.
Qed.

Lemma C1_in_range_jump_does_not_pass_witness :
  exists res,
    StateValidator.validateCharacterUpdate (H := Demo.host) "alice"
      [("affection", JNum 90)] Demo.alice_world
    = (Ok res, Demo.alice_world)
    /\ StateValidator.passed res = false
    /\ StateValidator.errors res = []
    /\ exists f, StateValidator.warnings res = [f]
                 /\ StateValidator.field_name f = "affection".
Proof.
  apply (C1_in_range_jump_does_not_pass (H := Demo.host) "alice" Demo.alice_world
           (Demo.alice "neutral") 50 90).
  - reflexivity.
  - reflexivity.
  - lia.
  - simpl. lia.
Defined.

(** The parts of C1 the code does meet: a value outside [0,100] is refused
    with an ERROR on [affection], and a step of at most 20 inside the range
    passes without any finding. *)
Lemma affection_out_of_range_is_refused :
  forall {H : Host} (cid : string) (w : World) (r : row) (c v : Z),
    stored_character cid (db w) = Some r ->
    prop r "affection" = Some (SInt c) ->
    v < 0 \/ 100 < v ->
    exists res e,
      StateValidator.validateCharacterUpdate cid [("affection", JNum v)] w
      = (Ok res, w)
      /\ StateValidator.passed res = false
      /\ StateValidator.errors res = [e]
      /\ StateValidator.field_name e = "affection"
      /\ StateValidator.level e = StateValidator.ERROR.
Proof.
  intros H cid w r c v Hrow Haff Hout.
  unfold StateValidator.validateCharacterUpdate, bind.
  rewrite get_character, Hrow. simpl.
  rewrite jget_row_object, Haff. simpl.
  unfold StateValidator._validateAffection, num_lt, num_gt, ret. simpl.
  assert (E : (v <? 0) || (100 <? v) = true).
  { apply orb_true_iff. destruct Hout; [left; apply Z.ltb_lt | right; apply Z.ltb_lt]; lia. }
  rewrite E. destruct (20 <? Z.abs (v - c)); simpl;
    eexists; eexists; repeat split; reflexivity.
Qed.

Lemma affection_small_step_passes :
  forall {H : Host} (cid : string) (w : World) (r : row) (c v : Z),
    stored_character cid (db w) = Some r ->
    prop r "affection" = Some (SInt c) ->
    0 <= v <= 100 ->
    Z.abs (v - c) <= 20 ->
    StateValidator.validateCharacterUpdate cid [("affection", JNum v)] w
    = (Ok (StateValidator.Build_result true [] [] []), w).
Proof.
  intros H cid w r c v Hrow Haff Hrange Hstep.
  unfold StateValidator.validateCharacterUpdate, bind.
  rewrite get_character, Hrow. simpl.
  rewrite jget_row_object, Haff. simpl.
  unfold StateValidator._validateAffection, num_lt, num_gt, ret. simpl.
  replace (v <? 0) with false by (symmetry; apply Z.ltb_ge; lia).
  replace (100 <? v) with false by (symmetry; apply Z.ltb_ge; lia).
  replace (20 <? Z.abs (v - c)) with false by (symmetry; apply Z.ltb_ge; lia).
  reflexivity.
Qed.


(** C2 (the code at its failing inputs).  For a character whose stored
    emotion is [cur] and a new emotion [new] that the table of unlikely
    transitions lists for [cur], the validation reports no ERROR and one
    WARNING, yet has [passed = false]; and the orchestrator, with [autoApply]
    on and no dry run, leaves the update unapplied and the database as it was. *)
Theorem C2_warned_transition_is_not_applied :
  forall {H : Host} (m : StateManager.options) (strict : bool)
         (cid : string) (w : World) (r : row) (cur new : string)
         (l : list string) (found : StateExtractor.emotion_found),
    stored_character cid (db w) = Some r ->
    prop r "emotion" = Some (SText cur) ->
    prop StateValidator.invalidTransitions cur = Some l ->
    In new l ->
    StateExtractor.emotion found = new ->
    (exists res f,
       StateValidator.validateCharacterUpdate cid [("emotion", JStr new)] w
       = (Ok res, w)
       /\ StateValidator.passed res = false
       /\ StateValidator.errors res = []
       /\ StateValidator.warnings res = [f]
       /\ StateValidator.level f = StateValidator.WARNING)
    /\ (exists s,
          StateIntegrator._processEmotion
            {| StateIntegrator.autoApply := true;
               StateIntegrator.strictMode := strict;
               StateIntegrator.manager := m |} cid found false w
          = (Ok s, w)
          /\ StateIntegrator.applied s = false
          /\ StateIntegrator.errors s = []).
Proof.
  intros H m strict cid w r cur new l found Hrow Hemo Hl Hin Hfound.
  assert (Hval : exists f,
    StateValidator.validateCharacterUpdate cid [("emotion", JStr new)] w
    = (Ok (StateValidator.Build_result false [] [f] []), w)
    /\ StateValidator.level f = StateValidator.WARNING).
  { unfold StateValidator.validateCharacterUpdate, bind.
    rewrite get_character, Hrow. simpl.
    rewrite jget_row_object, Hemo. simpl.
    unfold StateValidator.invalidTransitions in Hl. cbn -[String.eqb] in Hl.
    repeat match type of Hl with
           | (if String.eqb ?a cur then _ else _) = _ =>
               destruct (String.eqb a cur) eqn:E;
               [apply String.eqb_eq in E; subst cur; injection Hl as <- | clear E]
           end; try discriminate;
      simpl in Hin;
      repeat (destruct Hin as [<-|Hin];
              [eexists; split; reflexivity|]);
      contradiction. }
  destruct Hval as [f [Hrun Hlevel]].
  split.
  - exists (StateValidator.Build_result false [] [f] []), f.
    repeat split; assumption || reflexivity.
  - unfold StateIntegrator._processEmotion, StateIntegrator.attempt, bind.
    rewrite Hfound, Hrun. simpl.
    eexists. repeat split; reflexivity.
Qed.

Lemma C2_warned_transition_is_not_applied_witness :
  (exists res f,
     StateValidator.validateCharacterUpdate (H := Demo.host) "alice"
       [("emotion", JStr "sad")] Demo.happy_world
     = (Ok res, Demo.happy_world)
     /\ StateValidator.passed res = false
     /\ StateValidator.errors res = []
     /\ StateValidator.warnings res = [f]
     /\ StateValidator.level f = StateValidator.WARNING)
  /\ (exists s,
        StateIntegrator._processEmotion (H := Demo.host)
          {| StateIntegrator.autoApply := true;
             StateIntegrator.strictMode := true;
             StateIntegrator.manager := StateManager.default_options |}
          "alice"
          {| StateExtractor.emotion := "sad";
             StateExtractor.confidence := StateExtractor.confidence_of 1;
             StateExtractor.alternatives := [] |} false Demo.happy_world
        = (Ok s, Demo.happy_world)
        /\ StateIntegrator.applied s = false
        /\ StateIntegrator.errors s = []).
Proof.
  apply (C2_warned_transition_is_not_applied (H := Demo.host)
           StateManager.default_options true
           "alice" Demo.happy_world (Demo.alice "happy") "happy" "sad"
           ["sad"; "angry"; "scared"]).
  - reflexivity.
  - reflexivity.
  - reflexivity.
  - simpl. now left.
  - reflexivity.
Defined.

(** ** C7: the cache buckets and the capacity bound *)

Lemma length_set_prop {V} (m : list (string * V)) k v :
  (List.length (set_prop m k v) <= S (List.length m))%nat.
Proof.
  induction m as [|[k' v'] m IH]; simpl; [lia|].
  destruct (String.eqb k' k); simpl; lia.
Qed.

Lemma length_map_delete {V} (m : jsmap V) k :
  (List.length (map_delete m k) <= List.length m)%nat.
Proof.
  induction m as [|[k' v'] m IH]; simpl; [lia|].
  destruct (String.eqb k' k); simpl; lia.
Qed.

Lemma length_delete_first_key {V} (m : jsmap V) k :
  map_first_key m = Some k ->
  (S (List.length (map_delete m k)) <= List.length m)%nat.
Proof.
  destruct m as [|[k' v'] m]; simpl; [discriminate|].
  intros [= ->]. rewrite String.eqb_refl.
  pose proof (length_map_delete m k). lia.
Qed.

Section CharacterBucket.
Context {H : Host}.

Lemma cached_keeps_store o m id w :
  db (snd (StateManager.cached o m id w)) = db w
  /\ cache (snd (StateManager.cached o m id w)) = cache w.
Proof.
  unfold StateManager.cached.
  destruct (StateManager.enableCache o && map_has m id); [|now split].
  destruct (map_get m id); [|now split].
  unfold bind, Date_now. simpl.
  destruct (_ <? _); now split.
Qed.

(** The sibling path: [getCharacterState] evicts the first key whenever an
    insertion takes the characters bucket past [cacheSize]. *)
Lemma character_bucket_stays_bounded o cid w :
  map_size (cache_characters (cache w)) <= StateManager.cacheSize o ->
  map_size (cache_characters
              (cache (snd (StateManager.getCharacterState o cid w))))
  <= StateManager.cacheSize o.
Proof.
  intros Hb. unfold StateManager.getCharacterState, bind, get_cache.
  cbv beta iota.
  destruct (StateManager.cached o _ cid w) as [[hit|e] w1] eqn:Ec;
    pose proof (cached_keeps_store o (cache_characters (cache w)) cid w) as [_ Hc];
    rewrite Ec in Hc; cbn [snd] in Hc.
  2: { cbn [snd]. now rewrite Hc. }
  destruct hit as [d|]; [cbn [snd ret]; now rewrite Hc|].
  rewrite get_character.
  destruct (stored_character cid (db w1)) as [r|]; cbn [option_map];
    [|cbn [snd ret]; now rewrite Hc].
  destruct (StateManager.enableCache o); [|cbn [snd ret]; now rewrite Hc].
  unfold Date_now, put_cache, ret, with_cache, StateManager.set_characters.
  cbn [snd cache cache_characters]. rewrite Hc.
  set (m := map_set (cache_characters (cache w)) cid _).
  assert (Hm : map_size m <= map_size (cache_characters (cache w)) + 1).
  { unfold map_size, m, map_set.
    pose proof (length_set_prop (cache_characters (cache w)) cid
                  {| data := row_object r; timestamp := clock (ticks w1) |}).
    lia. }
  destruct (StateManager.cacheSize o <? map_size m) eqn:E.
  - destruct (map_first_key m) as [k|] eqn:Ek.
    + pose proof (length_delete_first_key m k Ek). unfold map_size in *. lia.
    + destruct m; [unfold map_size in *; simpl in *; lia | destruct p; discriminate].
  - apply Z.ltb_ge in E. exact E.
Qed.
End CharacterBucket.

(** C7 (the code at its failing input).  With the capacity bound set to 1 and
    two locations in the store, reading both through [getLocation] leaves two
    entries in the locations bucket: [getLocation] inserts into its bucket
    and never evicts, unlike [getCharacterState]. *)
Theorem C7_locations_bucket_exceeds_capacity :
  let o := StateManager.new_options (Some true) (Some 1) None in
  let first_read := StateManager.getLocation (H := Demo.host) o "loc-1" Demo.town_world in
  let second_read := StateManager.getLocation (H := Demo.host) o "loc-2" (snd first_read) in
  StateManager.cacheSize o = 1
  /\ option_map (fun loc => jget loc "name")
       (match fst first_read with Ok x => x | Throw _ => None end)
     = Some (JStr "Town Square")
  /\ option_map (fun loc => jget loc "name")
       (match fst second_read with Ok x => x | Throw _ => None end)
     = Some (JStr "Market")
  /\ map_size (cache_locations (cache (snd second_read))) = 2.
Proof. vm_compute. repeat split; reflexivity. Qed.

(** ** Computations that leave the database alone *)

Lemma keeps_ret {A} (a : A) : keeps_db (ret a).
Proof. intros w. reflexivity. Qed.

Lemma keeps_throw {A} e : keeps_db (@throw A e).
Proof. intros w. reflexivity. Qed.

Lemma keeps_bind {A B} (m : M A) (k : A -> M B) :
  keeps_db m -> (forall a, keeps_db (k a)) -> keeps_db (bind m k).
Proof.
  intros Hm Hk w. unfold bind. specialize (Hm w).
  destruct (m w) as [[a|e] w1]; simpl in *.
  - now rewrite Hk.
  - exact Hm.
Qed.

Lemma keeps_try_catch {A} (m : M A) handler :
  keeps_db m -> (forall e, keeps_db (handler e)) -> keeps_db (try_catch m handler).
Proof.
  intros Hm Hh w. unfold try_catch. specialize (Hm w).
  destruct (m w) as [[a|e] w1]; simpl in *.
  - exact Hm.
  - now rewrite Hh.
Qed.

Lemma keeps_attempt {A} (m : M A) :
  keeps_db m -> keeps_db (StateIntegrator.attempt m).
Proof.
  intros Hm w. unfold StateIntegrator.attempt. specialize (Hm w).
  now destruct (m w).
Qed.

Lemma keeps_lift {A} (o : outcome A) : keeps_db (DatabaseManager.lift o).
Proof. destruct o; [apply keeps_ret | apply keeps_throw]. Qed.

Lemma keeps_or_throw {A} (o : option A) e : keeps_db (or_throw o e).
Proof. destruct o; [apply keeps_ret | apply keeps_throw]. Qed.

Lemma keeps_get_cache : keeps_db get_cache.
Proof. intros w. reflexivity. Qed.

Lemma keeps_put_cache c : keeps_db (put_cache c).
Proof. intros w. reflexivity. Qed.

Lemma keeps_get_db : keeps_db get_db.
Proof. intros w. reflexivity. Qed.

Create HintDb keeps.
#[export] Hint Resolve keeps_ret keeps_throw keeps_lift keeps_or_throw
  keeps_get_cache keeps_put_cache keeps_get_db : keeps.

(** Splits a computation along its binds, branches and matches, and closes
    the leaves with the facts of the [keeps] database. *)
Ltac keeps :=
  repeat first
    [ solve [auto with keeps]
    | apply keeps_bind; [|intros ?]
    | apply keeps_try_catch; [|intros ?]
    | apply keeps_attempt
    | match goal with
      | |- keeps_db (if ?b then _ else _) => destruct b
      | |- keeps_db (match ?x with _ => _ end) => destruct x
      | |- keeps_db (let (_, _) := ?x in _) => destruct x
      end ].

Section DryRun.
Context {H : Host}.

Lemma keeps_Date_now : keeps_db Date_now.
Proof. intros w. reflexivity. Qed.

Lemma keeps_randomUUID : keeps_db randomUUID.
Proof. intros w. reflexivity. Qed.

Lemma keeps_get t where_ : keeps_db (DatabaseManager.get t where_).
Proof. intros w. now rewrite get_pure. Qed.

Lemma keeps_getAll t q : keeps_db (DatabaseManager.getAll t q).
Proof. intros w. now rewrite getAll_pure. Qed.

Hint Resolve keeps_Date_now keeps_randomUUID keeps_get keeps_getAll : keeps.

Lemma keeps_cached o m id : keeps_db (StateManager.cached o m id).
Proof. unfold StateManager.cached. keeps. Qed.

Hint Resolve keeps_cached : keeps.

(** Reading a character touches the cache and the clock only. *)
Lemma keeps_getCharacterState o id :
  keeps_db (StateManager.getCharacterState o id).
Proof. unfold StateManager.getCharacterState. keeps. Qed.

Lemma keeps_parse_or v fallback : keeps_db (StateManager.parse_or v fallback).
Proof. unfold StateManager.parse_or, StateManager.parse_value. keeps. Qed.

Hint Resolve keeps_getCharacterState keeps_parse_or : keeps.

Lemma keeps_getInventory id opts : keeps_db (StateManager.getInventory id opts).
Proof.
  unfold StateManager.getInventory. apply keeps_bind; [auto with keeps|].
  intros items. induction items as [|item items IH]; keeps.
Qed.

(** The validators only read. *)
Lemma keeps__validateLocationChange cur new :
  keeps_db (StateValidator._validateLocationChange cur new).
Proof. unfold StateValidator._validateLocationChange. keeps. Qed.

Hint Resolve keeps__validateLocationChange : keeps.

Lemma keeps_validateCharacterUpdate id updates :
  keeps_db (StateValidator.validateCharacterUpdate id updates).
Proof. unfold StateValidator.validateCharacterUpdate. keeps. Qed.

Lemma keeps__validateTimestamp t : keeps_db (StateValidator._validateTimestamp t).
Proof. unfold StateValidator._validateTimestamp. keeps. Qed.

Hint Resolve keeps__validateTimestamp : keeps.

Lemma keeps_validateTimelineEvent e :
  keeps_db (StateValidator.validateTimelineEvent e).
Proof. unfold StateValidator.validateTimelineEvent. keeps. Qed.

Lemma keeps__validateEquipmentConflict id ty cur :
  keeps_db (StateValidator._validateEquipmentConflict id ty cur).
Proof. unfold StateValidator._validateEquipmentConflict. keeps. Qed.

Hint Resolve keeps__validateEquipmentConflict : keeps.

Lemma keeps_validateInventoryItem id item :
  keeps_db (StateValidator.validateInventoryItem id item).
Proof. unfold StateValidator.validateInventoryItem. keeps. Qed.

Hint Resolve keeps_validateCharacterUpdate keeps_validateTimelineEvent
  keeps_validateInventoryItem : keeps.

(** Extraction only reads (and may fill the characters cache). *)
Lemma keeps_extractAllStates o id text :
  keeps_db (StateExtractor.extractAllStates o id text).
Proof.
  unfold StateExtractor.extractAllStates, StateExtractor.extractAffectionChange,
    StateExtractor.extractEvents.
  keeps.
Qed.

Hint Resolve keeps_extractAllStates : keeps.

(** In a dry run no step writes. *)
Lemma keeps__processAffection o id a :
  keeps_db (StateIntegrator._processAffection o id a true).
Proof.
  unfold StateIntegrator._processAffection. cbn [negb].
  apply keeps_bind; [keeps|]. intros [v|e]; [|keeps].
  rewrite andb_false_r. cbn [andb]. keeps.
Qed.

Lemma keeps__processEmotion o id e :
  keeps_db (StateIntegrator._processEmotion o id e true).
Proof.
  unfold StateIntegrator._processEmotion. cbn [negb].
  apply keeps_bind; [keeps|]. intros [v|err]; [|keeps].
  rewrite andb_false_r. cbn [andb]. keeps.
Qed.

Lemma keeps_find_or_create o name :
  keeps_db (StateIntegrator.find_or_create o name true).
Proof. unfold StateIntegrator.find_or_create. cbn [negb andb]. keeps. Qed.

Hint Resolve keeps_find_or_create : keeps.

Lemma keeps__processLocation o id l :
  keeps_db (StateIntegrator._processLocation o id l true).
Proof.
  unfold StateIntegrator._processLocation. cbn [negb].
  apply keeps_bind; [keeps|]. intros [locationId|err]; [|keeps].
  destruct (truthy locationId); [|keeps].
  apply keeps_bind; [keeps|]. intros [v|err]; [|keeps].
  rewrite andb_false_r. cbn [andb]. keeps.
Qed.

Lemma keeps__processInventory o id c :
  keeps_db (StateIntegrator._processInventory o id c true).
Proof.
  unfold StateIntegrator._processInventory. cbn [negb].
  apply keeps_bind; [keeps|]. intros [v|err]; [|keeps].
  rewrite andb_false_r. cbn [andb]. keeps.
Qed.

Lemma keeps__processEvent o e :
  keeps_db (StateIntegrator._processEvent o e true).
Proof.
  unfold StateIntegrator._processEvent. cbn [negb].
  apply keeps_bind; [keeps|]. intros [v|err]; [|keeps].
  rewrite andb_false_r. cbn [andb]. keeps.
Qed.

Lemma keeps_process_each {A} kind (run : A -> M StateIntegrator.step) l r :
  (forall x, keeps_db (run x)) ->
  keeps_db (StateIntegrator.process_each kind run l r).
Proof.
  intros Hrun. revert r. induction l as [|x l IH]; intros r; simpl.
  - apply keeps_ret.
  - apply keeps_bind; [apply Hrun | intros s; apply IH].
Qed.

Lemma keeps_processMessage o id text :
  keeps_db (StateIntegrator.processMessage o id text true).
Proof.
  unfold StateIntegrator.processMessage.
  apply keeps_bind; [auto with keeps|]. intros ex.
  apply keeps_bind.
  { destruct (StateExtractor.affection ex); [|keeps].
    apply keeps_bind; [apply keeps__processAffection | intros; keeps]. }
  intros r1. apply keeps_bind.
  { destruct (StateExtractor.emotion_of ex); [|keeps].
    apply keeps_bind; [apply keeps__processEmotion | intros; keeps]. }
  intros r2. apply keeps_bind.
  { destruct (StateExtractor.location_of ex); [|keeps].
    apply keeps_bind; [apply keeps__processLocation | intros; keeps]. }
  intros r3. apply keeps_bind.
  { apply keeps_process_each. intros c. apply keeps__processInventory. }
  intros r4. apply keeps_process_each. intros e. apply keeps__processEvent.
Qed.
End DryRun.

(** ** C5: a dry run persists nothing *)

(** C5.  For every host, every configuration of the orchestrator, every
    character id, every message text and every starting world,
    [processMessage] with [dryRun = true] leaves the database, that is every
    persisted table, exactly as it was: no character update, no inventory
    change, no timeline event and no auto-created location. *)
Theorem C5_dry_run_leaves_every_table_unchanged :
  forall {H : Host} (o : StateIntegrator.options) (characterId text : string)
         (w : World),
    db (snd (StateIntegrator.processMessage o characterId text true w)) = db w
    /\ forall t,
         rows t (db (snd (StateIntegrator.processMessage o characterId text true w)))
         = rows t (db w).
Proof.
  intros H o characterId text w.
  pose proof (keeps_processMessage o characterId text w) as E.
  split; [exact E | intros t; now rewrite E].
Qed.

(** ** C9: strictMode changes nothing *)

Lemma bind_ext {A B} (m : M A) (f g : A -> M B) w :
  (forall a w', f a w' = g a w') -> bind m f w = bind m g w.
Proof.
  intros E. unfold bind. destruct (m w) as [[a|e] w']; [apply E | reflexivity].
Qed.

Section StrictMode.
Context {H : Host}.

(** The only place that reads [strictMode]: both of its branches return
    the same step. *)
Lemma _processAffection_ignores_strictMode a m cid d dry w :
  StateIntegrator._processAffection
    {| StateIntegrator.autoApply := a; StateIntegrator.strictMode := true;
       StateIntegrator.manager := m |} cid d dry w
  = StateIntegrator._processAffection
      {| StateIntegrator.autoApply := a; StateIntegrator.strictMode := false;
         StateIntegrator.manager := m |} cid d dry w.
Proof.
  unfold StateIntegrator._processAffection.
  cbn [StateIntegrator.autoApply StateIntegrator.strictMode].
  apply bind_ext. intros [v|e] w'; [|reflexivity].
  destruct (StateValidator.passed v && negb dry && a); [reflexivity|].
  destruct (negb (StateValidator.passed v)); reflexivity.
Qed.

Lemma processMessage_ignores_strictMode a m characterId text dryRun w :
  StateIntegrator.processMessage
    {| StateIntegrator.autoApply := a; StateIntegrator.strictMode := true;
       StateIntegrator.manager := m |} characterId text dryRun w
  = StateIntegrator.processMessage
      {| StateIntegrator.autoApply := a; StateIntegrator.strictMode := false;
         StateIntegrator.manager := m |} characterId text dryRun w.
Proof.
  unfold StateIntegrator.processMessage.
  cbn [StateIntegrator.manager].
  apply bind_ext. intros ex w1.
  destruct (StateExtractor.affection ex) as [d|]; [|reflexivity].
  unfold bind.
  rewrite _processAffection_ignores_strictMode.
  reflexivity.
Qed.

(** The same through the constructor: whatever else the caller configures,
    passing [strictMode: true] or [strictMode: false] gives orchestrators
    that behave alike. *)
Lemma constructed_strictMode_has_no_observable_effect
    (given : jsobject) m characterId text dryRun w :
  StateIntegrator.processMessage
    (StateIntegrator.new_options (set_prop given "strictMode" (JBool true)) m)
    characterId text dryRun w
  = StateIntegrator.processMessage
      (StateIntegrator.new_options (set_prop given "strictMode" (JBool false)) m)
      characterId text dryRun w.
Proof.
  unfold StateIntegrator.new_options, StateIntegrator.flag, has_prop, jget.
  rewrite !prop_set_prop_same.
  destruct (string_dec "strictMode" "autoApply") as [E|E]; [discriminate|].
  rewrite !(prop_set_prop_other given "strictMode" "autoApply" _ E).
  cbn [truthy].
  apply processMessage_ignores_strictMode.
Qed.
End StrictMode.

(** C9.  For every host, every [autoApply], every state manager
    configuration, every character id, message text, [dryRun] flag and
    starting world, the orchestrator with [strictMode = true] and the one with
    [strictMode = false] return the same result (extracted, updates, errors,
    warnings, or the same thrown error) and leave the same world behind (the
    same database, caches and consumed clock readings and UUIDs). *)
Theorem C9_strictMode_has_no_observable_effect :
  forall {H : Host} (a : bool) (m : StateManager.options)
         (characterId text : string) (dryRun : bool) (w : World),
    StateIntegrator.processMessage
      {| StateIntegrator.autoApply := a; StateIntegrator.strictMode := true;
         StateIntegrator.manager := m |} characterId text dryRun w
    = StateIntegrator.processMessage
        {| StateIntegrator.autoApply := a; StateIntegrator.strictMode := false;
           StateIntegrator.manager := m |} characterId text dryRun w.
Proof.
  intros H a m characterId text dryRun w.
  apply processMessage_ignores_strictMode.
Qed.

(** ** C10: what [insert] stores *)

Lemma bind_object_prop (o : jsobject) (r : row) k :
  bind_object o = Some r ->
  prop r k = match prop o k with
             | Some v => bind_value v
             | None => None
             end.
Proof.
  revert r. induction o as [|[k' v'] o IH]; intros r; simpl.
  - now intros [= <-].
  - destruct (bind_value v') as [x|] eqn:Ev; [|discriminate].
    destruct (bind_object o) as [r'|]; [|discriminate].
    intros [= <-]. simpl.
    destruct (String.eqb k' k); [now rewrite Ev | now apply IH].
Qed.

Lemma bind_object_keys (o : jsobject) (r : row) :
  bind_object o = Some r -> keys r = keys o.
Proof.
  revert r. induction o as [|[k' v'] o IH]; intros r; simpl.
  - now intros [= <-].
  - destruct (bind_value v'); [|discriminate].
    destruct (bind_object o) as [r'|]; [|discriminate].
    intros [= <-]. simpl. f_equal. now apply IH.
Qed.

(** A column that the bound record sets is stored with the value bound. *)
Lemma prop_complete t (rec : row) k x :
  is_column t k = true ->
  prop rec k = Some x ->
  prop (complete t rec) k = Some x.
Proof.
  unfold is_column, column_names, complete. intros Hcol Hk.
  induction (columns t) as [|c cs IH]; simpl in *; [discriminate|].
  destruct (String.eqb (col_name c) k) eqn:E.
  - apply String.eqb_eq in E. subst k. now rewrite Hk.
  - rewrite String.eqb_sym, E in Hcol. simpl in Hcol. now apply IH.
Qed.

Lemma known_column t (names : list string) k :
  known_columns t names = true -> In k names -> is_column t k = true.
Proof.
  unfold known_columns. rewrite forallb_forall. auto.
Qed.

Lemma field_complete t (rec : row) k x :
  known_columns t (keys rec) = true ->
  prop rec k = Some x ->
  field (complete t rec) k = x.
Proof.
  intros Hknown Hk. unfold field.
  rewrite (prop_complete t rec k x); [reflexivity | | exact Hk].
  apply (known_column t (keys rec)); [exact Hknown|].
  apply has_prop_keys. unfold has_prop. now rewrite Hk.
Qed.

Section Insert.
Context {H : Host}.

(** [insert] on an object, when the driver binds the record and the engine
    accepts it. *)
Lemma insert_object t (data : jsobject) w rec :
  bind_object (DatabaseManager.insert_record (JObj data) (clock (ticks w))
                 (chosen_id data w)) = Some rec ->
  accepts t (db w) rec = true ->
  DatabaseManager.insert t (JObj data) w
  = (Ok {| DatabaseManager.inserted_id := chosen_id data w;
           DatabaseManager.inserted_changes := 1 |},
     {| db := set_rows t (rows t (db w) ++ [complete t rec]) (db w);
        cache := cache w;
        ticks := S (ticks w);
        draws := if truthy (jget data "id") then draws w else S (draws w) |}).
Proof.
  unfold chosen_id. intros Hbind Hacc.
  unfold DatabaseManager.insert, bind, Date_now, DatabaseManager.lift,
    DatabaseManager.read_id, ret, randomUUID.
  cbn [db cache ticks draws].
  destruct (truthy (jget data "id")); cbn [db cache ticks draws];
    rewrite Hbind; unfold or_throw, ret, get_db; cbn [db cache ticks draws];
    unfold engine_insert; rewrite Hacc; reflexivity.
Qed.

(** Conversely, an [insert] that returned bound its record and had it
    accepted. *)
Lemma insert_inversion t (data : jsobject) w res w' :
  DatabaseManager.insert t (JObj data) w = (Ok res, w') ->
  exists rec,
    bind_object (DatabaseManager.insert_record (JObj data) (clock (ticks w))
                   (chosen_id data w)) = Some rec
    /\ accepts t (db w) rec = true
    /\ res = {| DatabaseManager.inserted_id := chosen_id data w;
                DatabaseManager.inserted_changes := 1 |}
    /\ w' = {| db := set_rows t (rows t (db w) ++ [complete t rec]) (db w);
               cache := cache w;
               ticks := S (ticks w);
               draws := if truthy (jget data "id") then draws w else S (draws w) |}.
Proof.
  intros Hrun.
  destruct (bind_object (DatabaseManager.insert_record (JObj data)
                           (clock (ticks w)) (chosen_id data w))) as [rec|] eqn:Eb.
  - destruct (accepts t (db w) rec) eqn:Ea.
    + rewrite (insert_object t data w rec Eb Ea) in Hrun.
      injection Hrun as <- <-. exists rec. repeat split; assumption.
    + exfalso. revert Hrun. unfold chosen_id in Eb.
      unfold DatabaseManager.insert, bind, Date_now, DatabaseManager.lift,
        DatabaseManager.read_id, ret, randomUUID.
      cbn [db cache ticks draws].
      destruct (truthy (jget data "id")); cbn [db cache ticks draws];
        rewrite Eb; unfold or_throw, ret, get_db; cbn [db cache ticks draws];
        unfold engine_insert; rewrite Ea; discriminate.
  - exfalso. revert Hrun. unfold chosen_id in Eb.
    unfold DatabaseManager.insert, bind, Date_now, DatabaseManager.lift,
      DatabaseManager.read_id, ret, randomUUID.
    cbn [db cache ticks draws].
    destruct (truthy (jget data "id")); cbn [db cache ticks draws];
      rewrite Eb; discriminate.
Qed.
End Insert.




(** ** C6: a read after an update *)

Lemma map_has_delete {V} (m : jsmap V) k : map_has (map_delete m k) k = false.
Proof.
  unfold map_has, has_prop. induction m as [|[k' v'] m IH]; simpl; [reflexivity|].
  destruct (String.eqb k' k) eqn:E; [exact IH|]. simpl. now rewrite E.
Qed.

Lemma prop_assign (r sets : row) k x :
  has_prop r k = true -> prop sets k = Some x -> prop (assign r sets) k = Some x.
Proof.
  unfold has_prop, assign. intros Hr Hs.
  induction r as [|[k' v'] r IH]; simpl in *; [discriminate|].
  destruct (String.eqb k' k) eqn:E.
  - apply String.eqb_eq in E. subst k'. now rewrite Hs.
  - now apply IH.
Qed.

Lemma keys_assign (r sets : row) : keys (assign r sets) = keys r.
Proof. unfold keys, assign. rewrite map_map. reflexivity. Qed.

(** The rows an accepted UPDATE leaves in its table. *)
Lemma engine_update_rows t sets sel d d' n :
  engine_update t sets sel d = Some (d', n) ->
  d' = set_rows t (map (fun r => if sel r then assign r sets else r) (rows t d)) d.
Proof.
  unfold engine_update.
  repeat match goal with
         | |- (if ?b then _ else _) = _ -> _ => destruct b; [discriminate|]
         end.
  now intros [= <- _].
Qed.

Lemma find_map_if {A} (p sel : A -> bool) (f : A -> A) l x :
  (forall a, sel a = false -> p a = false) ->
  find p (map (fun a => if sel a then f a else a) l) = Some x ->
  exists a, In a l /\ sel a = true /\ x = f a.
Proof.
  intros Hsel. induction l as [|a l IH]; simpl; [discriminate|].
  destruct (sel a) eqn:Es.
  - destruct (p (f a)).
    + intros [= <-]. exists a. auto.
    + intros Hf. destruct (IH Hf) as [a' [Hin [Hs Hx]]]. exists a'. auto.
  - rewrite (Hsel a Es). intros Hf.
    destruct (IH Hf) as [a' [Hin [Hs Hx]]]. exists a'. auto.
Qed.

Section ReadAfterUpdate.
Context {H : Host}.

(** [update(table, { id }, data)], step by step. *)
Lemma update_by_id t id data w :
  is_column t "id" = true ->
  DatabaseManager.update t [("id", JStr id)] data w
  = let w' := {| db := db w; cache := cache w; ticks := S (ticks w);
                 draws := draws w |} in
    match bind_object (set_prop data "updated_at" (JNum (clock (ticks w)))) with
    | None =>
        (Throw "SQLite3 can only bind numbers, strings, bigints, buffers, and null",
         w')
    | Some sets =>
        match engine_update t sets
                (fun r => sql_eq (field r "id") (SText id) && true) (db w) with
        | None => (Throw "constraint failed", w')
        | Some (d', n) => (Ok n, with_db d' w')
        end
    end.
Proof.
  intros Hcol.
  unfold DatabaseManager.update, bind, Date_now, DatabaseManager.lift, ret.
  cbn [DatabaseManager._buildWhereClause app DatabaseManager.selector
       DatabaseManager.cond_column DatabaseManager.cond_values
       DatabaseManager.bind_values bind_value].
  rewrite Hcol. cbn [negb].
  destruct (bind_object _) as [sets|]; cbn [or_throw ret throw]; [|reflexivity].
  unfold get_db, put_db. cbn [db].
  destruct (engine_update t sets _ (db w)) as [[d' k]|];
    cbn [or_throw ret throw fst snd]; reflexivity.
Qed.

(** What a successful [updateCharacterState] leaves behind. *)
Lemma updateCharacterState_done cid updates w n w1 :
  StateManager.updateCharacterState cid updates w = (Ok n, w1) ->
  exists sets,
    bind_object (set_prop (StateManager.character_updateData updates)
                   "updated_at" (JNum (clock (ticks w)))) = Some sets
    /\ db w1 = set_rows Characters
                 (map (fun r => if sql_eq (field r "id") (SText cid) && true
                                then assign r sets else r)
                      (characters (db w))) (db w)
    /\ cache_characters (cache w1)
       = map_delete (cache_characters (cache w)) cid.
Proof.
  unfold StateManager.updateCharacterState, bind.
  rewrite update_by_id by reflexivity. cbv zeta.
  destruct (bind_object _) as [sets|] eqn:Eb; [|discriminate].
  destruct (engine_update Characters sets _ (db w)) as [[d' k]|] eqn:Eu;
    [|discriminate].
  unfold StateManager.forget_character, bind, get_cache, put_cache, ret.
  cbn [db cache ticks draws with_db with_cache].
  intros [= <- <-]. exists sets.
  apply engine_update_rows in Eu. subst d'.
  repeat split; reflexivity.
Qed.

(** With no entry for the id in the characters bucket, [getCharacterState]
    returns the stored row. *)
Lemma getCharacterState_uncached o cid w :
  map_has (cache_characters (cache w)) cid = false ->
  exists w', StateManager.getCharacterState o cid w
             = (Ok (option_map row_object (stored_character cid (db w))), w').
Proof.
  intros Hmiss.
  unfold StateManager.getCharacterState, bind, get_cache, StateManager.cached.
  cbv beta iota. rewrite Hmiss, andb_false_r. cbn [ret].
  rewrite get_character.
  destruct (stored_character cid (db w)) as [r|]; cbn [option_map].
  - destruct (StateManager.enableCache o); cbn; eexists; reflexivity.
  - eexists; reflexivity.
Qed.
End ReadAfterUpdate.

(** C6.  For every host, every cache configuration, every character id and
    every world (whatever its characters bucket holds and whatever the clock
    reads, so also inside the TTL window of an earlier cached read): once
    [updateCharacterState] has succeeded, the characters bucket has no entry
    for the id, and the very next [getCharacterState] for that id returns
    the row the store now holds for the character.  In that row every column
    that the update assigned a value of the column's declared type (a number
    for an INTEGER column, a string for a TEXT column, or [null]; other than
    the serialized [personality] and [metadata] and the stamp [updated_at])
    reads as the new value. *)
Theorem C6_read_after_update_returns_the_update :
  forall {H : Host} (o : StateManager.options) (characterId : string)
         (updates : jsobject) (w w1 : World) (n : Z),
    StateManager.updateCharacterState characterId updates w = (Ok n, w1) ->
    map_has (cache_characters (cache w1)) characterId = false
    /\ exists w2,
         StateManager.getCharacterState o characterId w1
         = (Ok (option_map row_object (stored_character characterId (db w1))),
            w2)
         /\ forall r,
              stored_character characterId (db w1) = Some r ->
              forall k v,
                prop updates k = Some v ->
                k <> "personality" -> k <> "metadata" -> k <> "updated_at" ->
                has_prop r k = true ->
                fits k v = true ->
                jget (row_object r) k = v.
Proof.
  intros H o characterId updates w w1 n Hupd.
  destruct (updateCharacterState_done _ _ _ _ _ Hupd) as [sets [Hsets [Hdb Hcache]]].
  assert (Hmiss : map_has (cache_characters (cache w1)) characterId = false).
  { rewrite Hcache. apply map_has_delete. }
  split; [exact Hmiss|].
  destruct (getCharacterState_uncached o characterId w1 Hmiss) as [w2 Hget].
  exists w2. split; [exact Hget|].
  intros r Hr k v Hv Hk1 Hk2 Hk3 Hhas Hfit.
  assert (Hread : jget (row_object r) k = unbind_value (field r k)).
  { rewrite jget_row_object. unfold field, has_prop in *.
    now destruct (prop r k). }
  rewrite Hread.
  unfold stored_character in Hr. rewrite Hdb in Hr. cbn [characters set_rows] in Hr.
  apply find_map_if in Hr.
  2: { intros a Ha. now rewrite andb_true_r in Ha. }
  destruct Hr as [r0 [_ [_ ->]]].
  assert (Hud : prop (set_prop (StateManager.character_updateData updates)
                        "updated_at" (JNum (clock (ticks w)))) k = Some v).
  { rewrite prop_set_prop_other by congruence.
    unfold StateManager.character_updateData.
    destruct (truthy (jget updates "metadata"));
      destruct (truthy (jget updates "personality"));
      rewrite ?prop_set_prop_other by congruence; exact Hv. }
  pose proof (bind_object_prop _ _ k Hsets) as Hb. rewrite Hud in Hb.
  assert (Hfield : forall x, bind_value v = Some x ->
                             field (assign r0 sets) k = x).
  { intros x Hx. rewrite Hx in Hb. unfold field.
    rewrite (prop_assign r0 sets k x); [reflexivity | | exact Hb].
    apply has_prop_keys. rewrite <- (keys_assign r0 sets).
    now apply has_prop_keys. }
  destruct v; cbn [fits] in Hfit; try discriminate Hfit;
    rewrite (Hfield _ eq_refl); reflexivity.
Qed.

Lemma C6_read_after_update_returns_the_update_witness :
  let o := StateManager.default_options in
  let cached_world :=
    snd (StateManager.getCharacterState (H := Demo.host) o "alice" Demo.alice_world) in
  let w1 :=
    snd (StateManager.updateCharacterState (H := Demo.host) "alice"
           [("affection", JNum 60)] cached_world) in
  map_has (cache_characters (cache cached_world)) "alice" = true
  /\ option_map (fun r => jget (row_object r) "affection")
       (stored_character "alice" (db w1)) = Some (JNum 60)
  /\ map_has (cache_characters (cache w1)) "alice" = false
  /\ exists w2,
       StateManager.getCharacterState (H := Demo.host) o "alice" w1
       = (Ok (option_map row_object (stored_character "alice" (db w1))), w2)
       /\ forall r,
            stored_character "alice" (db w1) = Some r ->
            forall k v,
              prop [("affection", JNum 60)] k = Some v ->
              k <> "personality" -> k <> "metadata" -> k <> "updated_at" ->
              has_prop r k = true ->
              fits k v = true ->
              jget (row_object r) k = v.
Proof.
  intros o cached_world w1. split; [reflexivity|]. split; [reflexivity|].
  apply (C6_read_after_update_returns_the_update (H := Demo.host) o "alice"
           [("affection", JNum 60)] cached_world w1 1).
  vm_compute. reflexivity.
Defined.

(** ** C8: scenario A *)

Lemma field_assign_other (r sets : row) k :
  prop sets k = None -> field (assign r sets) k = field r k.
Proof.
  unfold field, assign. intros Hs.
  induction r as [|[k' v'] r IH]; simpl; [reflexivity|].
  destruct (String.eqb k' k) eqn:E; [|exact IH].
  apply String.eqb_eq in E. subst k'. now rewrite Hs.
Qed.

Lemma find_map_assign (p : row -> bool) (f : row -> row) l :
  (forall a, p (f a) = p a) ->
  find p (map (fun a => if p a && true then f a else a) l)
  = option_map f (find p l).
Proof.
  intros Hp. induction l as [|a l IH]; simpl; [reflexivity|].
  rewrite andb_true_r.
  destruct (p a) eqn:E.
  - now rewrite Hp, E.
  - now rewrite E.
Qed.

(** A shaped row of the characters table, column by column. *)
Lemma shaped_character r :
  shaped Characters r = true ->
  exists v1 v2 v3 v4 v5 v6 v7 v8 v9,
    r = [("id", v1); ("name", v2); ("affection", v3); ("emotion", v4);
         ("personality", v5); ("current_location", v6); ("metadata", v7);
         ("created_at", v8); ("updated_at", v9)].
Proof.
  unfold shaped. intros Hs. apply same_names_eq in Hs.
  cbn in Hs.
  repeat (destruct r as [|[? ?] r]; [discriminate|];
          cbn in Hs; injection Hs as -> Hs).
  destruct r; [|discriminate].
  repeat eexists.
Qed.

Lemma row_ok_after_affection r v now :
  shaped Characters r = true ->
  row_ok Characters r = true ->
  0 <= v <= 100 ->
  row_ok Characters (assign r [("affection", SInt v); ("updated_at", SInt now)])
  = true.
Proof.
  intros Hs Hok Hv.
  destruct (shaped_character r Hs)
    as (v1 & v2 & v3 & v4 & v5 & v6 & v7 & v8 & v9 & ->).
  unfold row_ok, not_null_ok, checks_ok in *. cbn in Hok |- *.
  apply andb_true_iff in Hok as [Hnn _].
  repeat (apply andb_true_iff in Hnn as [? Hnn]).
  repeat (apply andb_true_iff; split); try assumption; try reflexivity.
  all: unfold check_range, sql_ge, sql_le; cbn;
    try destruct (Z.compare_spec v 0); try destruct (Z.compare_spec v 100);
    try reflexivity; lia.
Qed.

Lemma forallb_map_filter {A} (p q : A -> bool) (f : A -> A) (sel : A -> bool) l :
  forallb p l = true ->
  (forall a, p a = true -> q (f a) = true) ->
  forallb q (map f (filter sel l)) = true.
Proof.
  intros Hp Hq. induction l as [|a l IH]; simpl in *; [reflexivity|].
  apply andb_true_iff in Hp as [Ha Hl].
  destruct (sel a); simpl; [rewrite (Hq a Ha)|]; now apply IH.
Qed.

(** The engine takes an in-range affection for the rows of a well stored
    characters table. *)
Lemma engine_update_affection v now sel d :
  well_stored Characters d = true ->
  0 <= v <= 100 ->
  exists n,
    engine_update Characters [("affection", SInt v); ("updated_at", SInt now)]
      sel d
    = Some (set_rows Characters
              (map (fun r => if sel r
                             then assign r [("affection", SInt v);
                                            ("updated_at", SInt now)]
                             else r) (characters d)) d, n).
Proof.
  intros Hw Hv. unfold engine_update.
  replace (known_columns Characters
             (keys [("affection", SInt v); ("updated_at", SInt now)]))
    with true by reflexivity.
  cbn [negb rows].
  rewrite (forallb_map_filter (fun r => shaped Characters r && row_ok Characters r)
             (row_ok Characters)).
  - cbn. eexists. reflexivity.
  - exact Hw.
  - intros a Ha. apply andb_true_iff in Ha as [Hs Hok].
    now apply row_ok_after_affection.
Qed.

(** What the extractors find in the text of the scenario. *)
Lemma scenario_A_affection :
  StateExtractor.affection_of (JNum 50) (Text.units "好感度增加了10点")
  = Some {| StateExtractor.delta_of := JNum 10;
            StateExtractor.newValue := JNum 60;
            StateExtractor.currentValue := JNum 50 |}.
Proof. vm_compute. reflexivity. Qed.

Lemma scenario_A_first_pattern :
  option_map (fun pv => StateExtractor.regex_of (fst pv))
    (StateExtractor.first_affection (Text.units "好感度增加了10点")
       StateExtractor.affectionPatterns)
  = option_map StateExtractor.regex_of (hd_error StateExtractor.affectionPatterns).
Proof. vm_compute. reflexivity. Qed.

Lemma scenario_A_nothing_else cid :
  StateExtractor.extractEmotion "好感度增加了10点" = None
  /\ StateExtractor.extractLocationChange "好感度增加了10点" = None
  /\ StateExtractor.extractInventoryChanges cid "好感度增加了10点" = []
  /\ StateExtractor.importance_of "好感度增加了10点" = 1
  /\ StateExtractor.participants_of "好感度增加了10点" = [].
Proof. repeat split; vm_compute; reflexivity. Qed.

Section ScenarioA.
Context {H : Host}.

(** A cache lookup does not throw, leaves the store alone, and only ever
    returns the data of the entry the bucket holds for the id. *)
Lemma cached_result o m id w :
  exists hit w0,
    StateManager.cached o m id w = (Ok hit, w0)
    /\ db w0 = db w
    /\ forall d, hit = Some d -> exists e, map_get m id = Some e /\ d = data e.
Proof.
  unfold StateManager.cached.
  destruct (StateManager.enableCache o && map_has m id).
  - destruct (map_get m id) as [e|].
    + unfold bind, Date_now. cbv beta iota.
      destruct (_ <? _); do 2 eexists; (split; [reflexivity|]);
        (split; [reflexivity|]); intros d [= <-] || intros d [=].
      now exists e.
    + do 2 eexists. split; [reflexivity|]. split; [reflexivity|]. intros d [=].
  - do 2 eexists. split; [reflexivity|]. split; [reflexivity|]. intros d [=].
Qed.

(** A character read through the cache shows the affection 50 when the
    store and whatever the cache holds for the id agree on it. *)
Lemma getCharacterState_sees_affection o cid w r :
  stored_character cid (db w) = Some r ->
  field r "affection" = SInt 50 ->
  has_prop r "affection" = true ->
  (forall e, map_get (cache_characters (cache w)) cid = Some e ->
             jget (data e) "affection" = JNum 50) ->
  exists ch w1,
    StateManager.getCharacterState o cid w = (Ok (Some ch), w1)
    /\ jget ch "affection" = JNum 50
    /\ db w1 = db w.
Proof.
  intros Hrow Haff Hhas Hcache.
  assert (Hget : exists ch w1,
             StateManager.getCharacterState o cid w = (Ok (Some ch), w1)
             /\ jget ch "affection" = JNum 50).
  { unfold StateManager.getCharacterState, bind, get_cache. cbv beta iota.
    destruct (cached_result o (cache_characters (cache w)) cid w)
      as (hit & w0 & Hc & Hdb0 & Hhit).
    rewrite Hc. destruct hit as [d|].
    - destruct (Hhit d eq_refl) as (e & He & ->).
      do 2 eexists. split; [reflexivity | now apply Hcache].
    - rewrite get_character, Hdb0, Hrow. cbn [option_map].
      assert (Hj : jget (row_object r) "affection" = JNum 50).
      { rewrite jget_row_object. unfold field, has_prop in *.
        destruct (prop r "affection"); [now subst | discriminate]. }
      destruct (StateManager.enableCache o); cbn;
        do 2 eexists; (split; [reflexivity | exact Hj]). }
  destruct Hget as (ch & w1 & Hget & Hch).
  exists ch, w1. repeat split; try assumption.
  pose proof (keeps_getCharacterState o cid w) as K.
  now rewrite Hget in K.
Qed.

(** The extraction of the scenario. *)
Lemma scenario_A_extraction o cid w r :
  stored_character cid (db w) = Some r ->
  field r "affection" = SInt 50 ->
  has_prop r "affection" = true ->
  (forall e, map_get (cache_characters (cache w)) cid = Some e ->
             jget (data e) "affection" = JNum 50) ->
  exists w1,
    StateExtractor.extractAllStates o cid "好感度增加了10点" w
    = (Ok {| StateExtractor.affection :=
               Some {| StateExtractor.delta_of := JNum 10;
                       StateExtractor.newValue := JNum 60;
                       StateExtractor.currentValue := JNum 50 |};
             StateExtractor.emotion_of := None;
             StateExtractor.location_of := None;
             StateExtractor.inventory_of := [];
             StateExtractor.events := [] |}, w1)
    /\ db w1 = db w.
Proof.
  intros Hrow Haff Hhas Hcache.
  destruct (getCharacterState_sees_affection o cid w r Hrow Haff Hhas Hcache)
    as (ch & w1 & Hget & Hch & Hdb).
  destruct (scenario_A_nothing_else cid) as (He & Hl & Hi & Himp & Hpart).
  exists w1. split; [|exact Hdb].
  unfold StateExtractor.extractAllStates, StateExtractor.extractAffectionChange,
    StateExtractor.extractEvents, bind, try_catch.
  rewrite Hget. cbn [ret]. rewrite Hch. cbn [js_or truthy negb Z.eqb].
  rewrite scenario_A_affection, He, Hl, Hi, Himp, Hpart.
  reflexivity.
Qed.
End ScenarioA.

(** C8.  For every host, every configuration with [autoApply] on, and every
    world in which the characters table is well stored, the character's
    stored affection is 50 and the cache holds nothing else for it:
    [processMessage] on the text "好感度增加了10点", not as a dry run,
    extracts [{ delta: 10, newValue: 60 }] (with [currentValue: 50]) through
    the first pattern of the list, records the applied affection update, and
    leaves the stored affection at 60. *)
Theorem C8_scenario_A_affection_goes_from_50_to_60 :
  forall {H : Host} (m : StateManager.options) (strict : bool)
         (characterId : string) (w : World) (r : row),
    well_stored Characters (db w) = true ->
    stored_character characterId (db w) = Some r ->
    field r "affection" = SInt 50 ->
    (forall e, map_get (cache_characters (cache w)) characterId = Some e ->
               jget (data e) "affection" = JNum 50) ->
    exists res w' r',
      StateIntegrator.processMessage
        {| StateIntegrator.autoApply := true;
           StateIntegrator.strictMode := strict;
           StateIntegrator.manager := m |}
        characterId "好感度增加了10点" false w
      = (Ok res, w')
      /\ StateExtractor.affection (StateIntegrator.extracted res)
         = Some {| StateExtractor.delta_of := JNum 10;
                   StateExtractor.newValue := JNum 60;
                   StateExtractor.currentValue := JNum 50 |}
      /\ map (fun u => (StateIntegrator.type u,
                        StateIntegrator.applied (StateIntegrator.outcome_of u)))
             (StateIntegrator.updates res)
         = [("affection", true)]
      /\ StateIntegrator.all_errors res = []
      /\ stored_character characterId (db w') = Some r'
      /\ field r' "affection" = SInt 60.
Proof.
  intros H m strict characterId w r Hw Hrow Haff Hcache.
  assert (Hshape : shaped Characters r = true /\ row_ok Characters r = true).
  { unfold well_stored in Hw. rewrite forallb_forall in Hw.
    apply andb_true_iff. apply Hw. unfold stored_character in Hrow.
    apply find_some in Hrow. apply Hrow. }
  destruct Hshape as [Hshape Hok].
  assert (Hhas : has_prop r "affection" = true).
  { destruct (shaped_character r Hshape)
      as (v1 & v2 & v3 & v4 & v5 & v6 & v7 & v8 & v9 & ->). reflexivity. }
  destruct (scenario_A_extraction m characterId w r Hrow Haff Hhas Hcache)
    as (w1 & Hex & Hdb1).
  assert (Hprop : prop r "affection" = Some (SInt 50)).
  { unfold field, has_prop in *. destruct (prop r "affection"); [now subst | discriminate]. }
  assert (Hrow1 : stored_character characterId (db w1) = Some r) by now rewrite Hdb1.
  pose proof (affection_small_step_passes characterId w1 r 50 60 Hrow1 Hprop
                ltac:(lia) ltac:(simpl; lia)) as Hval.
  destruct (engine_update_affection 60 (clock (ticks w1))
              (fun r => sql_eq (field r "id") (SText characterId) && true)
              (db w1)) as [n Hupd]; [now rewrite Hdb1 | lia |].
  unfold StateIntegrator.processMessage, bind.
  cbn [StateIntegrator.manager].
  rewrite Hex. cbn [StateExtractor.affection StateExtractor.emotion_of
                     StateExtractor.location_of StateExtractor.inventory_of
                     StateExtractor.events].
  unfold StateIntegrator._processAffection, StateIntegrator.attempt, bind.
  cbn [StateExtractor.newValue].
  rewrite Hval.
  cbn [StateValidator.passed negb andb StateIntegrator.autoApply].
  unfold StateManager.updateCharacterState, bind.
  rewrite update_by_id by reflexivity.
  replace (bind_object
             (set_prop (StateManager.character_updateData [("affection", JNum 60)])
                "updated_at" (JNum (clock (ticks w1)))))
    with (Some [("affection", SInt 60); ("updated_at", SInt (clock (ticks w1)))])
    by reflexivity.
  cbv zeta. rewrite Hupd.
  unfold StateManager.forget_character, bind, get_cache, put_cache, ret.
  cbn [StateIntegrator.process_each StateIntegrator.record
       StateIntegrator.validated StateIntegrator.applied ret].
  eexists. eexists.
  exists (assign r [("affection", SInt 60); ("updated_at", SInt (clock (ticks w1)))]).
  split; [reflexivity|].
  split; [reflexivity|].
  split; [reflexivity|].
  split; [reflexivity|].
  split.
  - unfold stored_character. cbn [db with_db with_cache characters set_rows].
    rewrite (find_map_assign
               (fun r => sql_eq (field r "id") (SText characterId))).
    + unfold stored_character in Hrow1. now rewrite Hrow1.
    + intros a. now rewrite field_assign_other.
  - unfold field. now rewrite (prop_assign r _ "affection" (SInt 60)).
Qed.

Lemma C8_scenario_A_affection_goes_from_50_to_60_witness :
  exists res w' r',
    StateIntegrator.processMessage (H := Demo.host)
      {| StateIntegrator.autoApply := true;
         StateIntegrator.strictMode := true;
         StateIntegrator.manager := StateManager.default_options |}
      "alice" "好感度增加了10点" false Demo.alice_world
    = (Ok res, w')
    /\ StateExtractor.affection (StateIntegrator.extracted res)
       = Some {| StateExtractor.delta_of := JNum 10;
                 StateExtractor.newValue := JNum 60;
                 StateExtractor.currentValue := JNum 50 |}
    /\ map (fun u => (StateIntegrator.type u,
                      StateIntegrator.applied (StateIntegrator.outcome_of u)))
           (StateIntegrator.updates res)
       = [("affection", true)]
    /\ StateIntegrator.all_errors res = []
    /\ stored_character "alice" (db w') = Some r'
    /\ field r' "affection" = SInt 60.
Proof.
  apply (C8_scenario_A_affection_goes_from_50_to_60 (H := Demo.host)
           StateManager.default_options true "alice" Demo.alice_world
           (Demo.alice "neutral")).
  - reflexivity.
  - reflexivity.
  - reflexivity.
  - intros e He. discriminate He.
Defined.

(** ** C4: restoring is all or nothing *)

Lemma filter_none {A} (l : list A) : filter (fun _ => false) l = [].
Proof. induction l; simpl; auto. Qed.

Lemma filter_all {A} (l : list A) : filter (fun _ => true) l = l.
Proof. induction l; simpl; [reflexivity | now f_equal]. Qed.

Section Restore.
Context {H : Host}.

(** [get('state_snapshots', { id })] returns the stored snapshot. *)
Lemma get_snapshot id w :
  DatabaseManager.get StateSnapshots [("id", JStr id)] w
  = (Ok (option_map row_object (stored_snapshot id (db w))), w).
Proof.
  unfold DatabaseManager.get, bind, DatabaseManager.lift, get_db, ret.
  simpl. unfold stored_snapshot. f_equal. f_equal. f_equal.
  apply find_ext. intros r. unfold DatabaseManager.holds. simpl.
  apply andb_true_r.
Qed.

(** Parsing a stored value does not touch the world. *)
Lemma parse_value_pure v w : snd (StateManager.parse_value v w) = w.
Proof.
  unfold StateManager.parse_value.
  destruct v; try reflexivity.
  destruct (JSON_parse s); reflexivity.
Qed.

(** [DELETE FROM t] always goes through: no row stays behind that could
    still refer to a deleted one. *)
Lemma raw_delete_all t w :
  exists d',
    DatabaseManager.raw (DatabaseManager.DeleteFrom t) w
    = (Ok (Z.of_nat (List.length (rows t (db w)))), with_db d' w)
    /\ rows t d' = []
    /\ (forall t', t' <> t -> t' <> Inventory -> t' <> Memories ->
                   rows t' d' = rows t' (db w))
    /\ (t <> Characters -> forall t', t' <> t -> rows t' d' = rows t' (db w)).
Proof.
  unfold DatabaseManager.raw, bind, get_db, put_db, ret, engine_delete.
  cbn [negb]. rewrite filter_none, filter_all.
  destruct t; simpl; eexists; (split; [reflexivity|]);
    (split; [reflexivity|]);
    (split; [intros t' H1 H2 H3; destruct t'; try reflexivity; contradiction
            | intros Hc t' H1; destruct t'; try reflexivity; contradiction]).
Qed.

Lemma replace_state_after_deletes state w :
  StateManager.replace_state state w
  = (StateManager.reinsert Characters state "characters" ;;;
     StateManager.reinsert Timeline state "timeline" ;;;
     StateManager.reinsert Locations state "locations" ;;;
     StateManager.reinsert Inventory state "inventory" ;;;
     StateManager.reinsert Memories state "memories")
      (with_db (cleared (db w)) w).
Proof.
  unfold StateManager.replace_state.
  unfold bind at 1.
  destruct (raw_delete_all Characters w) as (d1 & -> & E1 & K1 & _).
  unfold bind at 1.
  destruct (raw_delete_all Timeline (with_db d1 w)) as (d2 & -> & E2 & _ & K2).
  unfold bind at 1.
  destruct (raw_delete_all Locations (with_db d2 (with_db d1 w)))
    as (d3 & -> & E3 & _ & K3).
  unfold bind at 1.
  destruct (raw_delete_all Inventory (with_db d3 (with_db d2 (with_db d1 w))))
    as (d4 & -> & E4 & _ & K4).
  unfold bind at 1.
  destruct (raw_delete_all Memories
              (with_db d4 (with_db d3 (with_db d2 (with_db d1 w)))))
    as (d5 & -> & E5 & _ & K5).
  cbn [db with_db] in *.
  replace (with_db d5 (with_db d4 (with_db d3 (with_db d2 (with_db d1 w)))))
    with (with_db (cleared (db w)) w); [reflexivity|].
  unfold with_db. cbn [cache ticks draws]. f_equal.
  specialize (K2 ltac:(discriminate)). specialize (K3 ltac:(discriminate)).
  specialize (K4 ltac:(discriminate)). specialize (K5 ltac:(discriminate)).
  assert (Hc : rows Characters d5 = []).
  { rewrite K5, K4, K3, K2 by discriminate. exact E1. }
  assert (Ht : rows Timeline d5 = []).
  { rewrite K5, K4, K3 by discriminate. exact E2. }
  assert (Hl : rows Locations d5 = []).
  { rewrite K5, K4 by discriminate. exact E3. }
  assert (Hi : rows Inventory d5 = []).
  { rewrite K5 by discriminate. exact E4. }
  assert (Hs : rows StateSnapshots d5 = rows StateSnapshots (db w)).
  { rewrite K5, K4, K3, K2, K1 by discriminate. reflexivity. }
  assert (Hv : rows ValidationLogs d5 = rows ValidationLogs (db w)).
  { rewrite K5, K4, K3, K2, K1 by discriminate. reflexivity. }
  unfold cleared. clear K1 K2 K3 K4 K5 E1 E2 E3 E4.
  destruct d5. simpl in *. f_equal; symmetry; assumption.
Qed.

(** One accepted [insert]: one more row in its table, the stored form of
    the item, and nothing else in the store moves. *)
Lemma insert_effect t x w res w' :
  DatabaseManager.insert t x w = (Ok res, w') ->
  exists r,
    stored_as t x r
    /\ rows t (db w') = (rows t (db w) ++ [r])%list
    /\ forall t', t' <> t -> rows t' (db w') = rows t' (db w).
Proof.
  unfold DatabaseManager.insert, bind, Date_now, DatabaseManager.lift, ret.
  destruct (DatabaseManager.read_id x) as [given|e]; [|discriminate].
  cbn [throw ret].
  assert (Hgo : forall id w0,
    (let (o, w1) :=
       or_throw (bind_object (DatabaseManager.insert_record x (clock (ticks w)) id))
         "SQLite3 can only bind numbers, strings, bigints, buffers, and null" w0 in
     match o with
     | Ok r =>
         (d <- get_db ;;
          d' <- or_throw (engine_insert t r d) "constraint failed" ;;
          put_db d' ;;; ret {| DatabaseManager.inserted_id := id;
                               DatabaseManager.inserted_changes := 1 |}) w1
     | Throw e => (Throw e, w1)
     end) = (Ok res, w') ->
    db w0 = db w ->
    exists r,
      stored_as t x r
      /\ rows t (db w') = (rows t (db w) ++ [r])%list
      /\ forall t', t' <> t -> rows t' (db w') = rows t' (db w)).
  { intros id w0.
    destruct (bind_object _) as [rec|] eqn:Eb; cbn [or_throw ret throw];
      [|discriminate].
    unfold bind, get_db, put_db, ret, engine_insert.
    destruct (accepts t (db w0) rec); cbn [or_throw ret throw]; [|discriminate].
    intros [= <- <-] Hdb. cbn [db with_db]. rewrite Hdb.
    exists (complete t rec). split.
    - exists (clock (ticks w)), id, rec. now split.
    - split; [apply rows_set_rows_same|].
      intros t' Hne. apply rows_set_rows_other. congruence. }
  destruct (truthy given).
  - intros Hrun. apply (Hgo given _ Hrun). reflexivity.
  - unfold randomUUID. cbn [db cache ticks draws].
    intros Hrun. apply (Hgo _ _ Hrun). reflexivity.
Qed.

Lemma for_each_insert_effect t items w w' :
  for_each items (fun x => DatabaseManager.insert t x ;;; ret tt) w = (Ok tt, w') ->
  exists l,
    Forall2 (stored_as t) items l
    /\ rows t (db w') = (rows t (db w) ++ l)%list
    /\ forall t', t' <> t -> rows t' (db w') = rows t' (db w).
Proof.
  revert w. induction items as [|x items IH]; intros w; simpl.
  - intros [= <-]. exists []. split; [constructor|].
    split; [now rewrite app_nil_r | reflexivity].
  - unfold bind at 1. unfold bind at 1.
    destruct (DatabaseManager.insert t x w) as [[res|e] w1] eqn:Ei;
      [|discriminate].
    cbn [ret]. intros Hrest.
    destruct (insert_effect _ _ _ _ _ Ei) as (r & Hr & Hrows & Hother).
    destruct (IH _ Hrest) as (l & Hl & Hrows' & Hother').
    exists (r :: l). split; [now constructor|].
    split.
    + rewrite Hrows', Hrows, <- app_assoc. reflexivity.
    + intros t' Hne. rewrite Hother', Hother; auto.
Qed.

Lemma reinsert_effect t state w w' :
  StateManager.reinsert t state (table_name t) w = (Ok tt, w') ->
  exists items l,
    snapshot_items state t = Ok items
    /\ Forall2 (stored_as t) items l
    /\ rows t (db w') = (rows t (db w) ++ l)%list
    /\ forall t', t' <> t -> rows t' (db w') = rows t' (db w).
Proof.
  unfold StateManager.reinsert, bind, DatabaseManager.lift, snapshot_items.
  destruct (match StateManager.member state (table_name t) with
            | Ok v => StateManager.iterate v
            | Throw e => Throw e
            end) as [items|e]; cbn [ret throw]; [|discriminate].
  intros Hrun.
  destruct (for_each_insert_effect _ _ _ _ Hrun) as (l & Hl & Hrows & Hother).
  exists items, l. auto.
Qed.

(** A restore that goes through refills each state table with the stored
    forms of the document's items and leaves the other tables alone. *)
Lemma replace_state_effect state w w' :
  StateManager.replace_state state w = (Ok tt, w') ->
  (forall t, In t state_tables ->
     exists items,
       snapshot_items state t = Ok items
       /\ Forall2 (stored_as t) items (rows t (db w')))
  /\ state_snapshots (db w') = state_snapshots (db w)
  /\ validation_logs (db w') = validation_logs (db w).
Proof.
  rewrite replace_state_after_deletes.
  set (w0 := with_db (cleared (db w)) w).
  unfold bind.
  destruct (StateManager.reinsert Characters state "characters" w0)
    as [[[]|e] w1] eqn:E1; [|discriminate].
  destruct (StateManager.reinsert Timeline state "timeline" w1)
    as [[[]|e] w2] eqn:E2; [|discriminate].
  destruct (StateManager.reinsert Locations state "locations" w2)
    as [[[]|e] w3] eqn:E3; [|discriminate].
  destruct (StateManager.reinsert Inventory state "inventory" w3)
    as [[[]|e] w4] eqn:E4; [|discriminate].
  intros E5.
  destruct (reinsert_effect Characters _ _ _ E1) as (i1 & l1 & S1 & F1 & R1 & O1).
  destruct (reinsert_effect Timeline _ _ _ E2) as (i2 & l2 & S2 & F2 & R2 & O2).
  destruct (reinsert_effect Locations _ _ _ E3) as (i3 & l3 & S3 & F3 & R3 & O3).
  destruct (reinsert_effect Inventory _ _ _ E4) as (i4 & l4 & S4 & F4 & R4 & O4).
  destruct (reinsert_effect Memories _ _ _ E5) as (i5 & l5 & S5 & F5 & R5 & O5).
  assert (Hc : rows Characters (db w') = l1).
  { rewrite (O5 Characters), (O4 Characters), (O3 Characters), (O2 Characters), R1
      by discriminate. reflexivity. }
  assert (Ht : rows Timeline (db w') = l2).
  { rewrite (O5 Timeline), (O4 Timeline), (O3 Timeline), R2, (O1 Timeline)
      by discriminate. reflexivity. }
  assert (Hl : rows Locations (db w') = l3).
  { rewrite (O5 Locations), (O4 Locations), R3, (O2 Locations), (O1 Locations)
      by discriminate. reflexivity. }
  assert (Hi : rows Inventory (db w') = l4).
  { rewrite (O5 Inventory), R4, (O3 Inventory), (O2 Inventory), (O1 Inventory)
      by discriminate. reflexivity. }
  assert (Hm : rows Memories (db w') = l5).
  { rewrite R5, (O4 Memories), (O3 Memories), (O2 Memories), (O1 Memories)
      by discriminate. reflexivity. }
  split.
  - intros t Ht'. simpl in Ht'.
    destruct Ht' as [<-|[<-|[<-|[<-|[<-|[]]]]]].
    + exists i1. now rewrite Hc.
    + exists i2. now rewrite Ht.
    + exists i3. now rewrite Hl.
    + exists i4. now rewrite Hi.
    + exists i5. now rewrite Hm.
  - split.
    + change (rows StateSnapshots (db w') = rows StateSnapshots (db w)).
      rewrite (O5 StateSnapshots), (O4 StateSnapshots), (O3 StateSnapshots),
        (O2 StateSnapshots), (O1 StateSnapshots) by discriminate. reflexivity.
    + change (rows ValidationLogs (db w') = rows ValidationLogs (db w)).
      rewrite (O5 ValidationLogs), (O4 ValidationLogs), (O3 ValidationLogs),
        (O2 ValidationLogs), (O1 ValidationLogs) by discriminate. reflexivity.
Qed.

(** [restoreSnapshot], step by step. *)
Lemma restoreSnapshot_run id w :
  StateManager.restoreSnapshot id w
  = match stored_snapshot id (db w) with
    | None => (Throw ("Snapshot not found: " ++ id), w)
    | Some snap =>
        match StateManager.parse_value (jget (row_object snap) "state_data") w with
        | (Throw e, _) => (Throw e, w)
        | (Ok state, _) =>
            match StateManager.replace_state state w with
            | (Throw e, w') => (Throw e, with_db (db w) w')
            | (Ok _, w') => (Ok true, with_cache empty_cache w')
            end
        end
    end.
Proof.
  unfold StateManager.restoreSnapshot, bind. rewrite get_snapshot.
  destruct (stored_snapshot id (db w)) as [snap|]; cbn [option_map]; [|reflexivity].
  pose proof (parse_value_pure (jget (row_object snap) "state_data") w) as Hp.
  destruct (StateManager.parse_value _ w) as [[state|e] w0]; cbn [snd] in Hp;
    subst w0; [|reflexivity].
  unfold DatabaseManager.transaction.
  destruct (StateManager.replace_state state w) as [[[]|e] w']; reflexivity.
Qed.
End Restore.

(** C4.  For every host, snapshot id and world, [restoreSnapshot] ends in one
    of two ways.  Either it throws, and then the database (all five state
    tables, and the other two) is exactly what it was before the call; this
    covers the missing snapshot, a document that does not parse, and every
    error inside the transaction.  Or it returns [{ success: true }], and
    then the snapshot exists, its document parsed, and each of the five state
    tables holds exactly the stored forms of the document's items for that
    table, in order, while the snapshots and the validation log are
    untouched. *)
Theorem C4_restoreSnapshot_is_atomic :
  forall {H : Host} (snapshotId : string) (w : World),
    match StateManager.restoreSnapshot snapshotId w with
    | (Throw _, w') => db w' = db w
    | (Ok success, w') =>
        success = true
        /\ exists snap state,
             stored_snapshot snapshotId (db w) = Some snap
             /\ fst (StateManager.parse_value
                       (jget (row_object snap) "state_data") w) = Ok state
             /\ (forall t, In t state_tables ->
                   exists items,
                     snapshot_items state t = Ok items
                     /\ Forall2 (stored_as t) items (rows t (db w')))
             /\ state_snapshots (db w') = state_snapshots (db w)
             /\ validation_logs (db w') = validation_logs (db w)
    end.
Proof.
  intros H snapshotId w. rewrite restoreSnapshot_run.
  destruct (stored_snapshot snapshotId (db w)) as [snap|] eqn:Es; [|reflexivity].
  destruct (StateManager.parse_value (jget (row_object snap) "state_data") w)
    as [[state|e] w0] eqn:Ep; [|reflexivity].
  destruct (StateManager.replace_state state w) as [[[]|e] w'] eqn:Er;
    [|reflexivity].
  split; [reflexivity|].
  exists snap, state. split; [reflexivity|]. split; [now rewrite Ep|].
  destruct (replace_state_effect state w w' Er) as (Hrows & Hsnap & Hlog).
  cbn [db with_cache]. auto.
Qed.

(** ** C3: a snapshot restored at once *)

Lemma sql_eq_sym a b : sql_eq a b = sql_eq b a.
Proof.
  unfold sql_eq, sql_compare. destruct a as [|x|x], b as [|y|y]; try reflexivity.
  - destruct (Z.compare_spec x y), (Z.compare_spec y x); try reflexivity; lia.
  - rewrite (String.compare_antisym x y). now destruct (String.compare y x).
Qed.

Lemma sql_eq_text_refl s : sql_eq (SText s) (SText s) = true.
Proof.
  unfold sql_eq, sql_compare.
  pose proof (String.compare_antisym s s) as E.
  destruct (String.compare s s); try reflexivity; discriminate.
Qed.

Lemma bind_unbind v : bind_value (unbind_value v) = Some v.
Proof. now destruct v. Qed.

Lemma bind_object_row_object (r : row) : bind_object (row_object r) = Some r.
Proof.
  unfold row_object. induction r as [|[k v] r IH]; simpl; [reflexivity|].
  now rewrite bind_unbind, IH.
Qed.

Lemma bind_object_set_prop (o : jsobject) (r : row) k v x :
  bind_object o = Some r -> bind_value v = Some x ->
  bind_object (set_prop o k v) = Some (set_prop r k x).
Proof.
  revert r. induction o as [|[k' v'] o IH]; intros r; simpl.
  - intros [= <-] Hv. simpl. now rewrite Hv.
  - destruct (bind_value v') as [x'|] eqn:Ev'; [|discriminate].
    destruct (bind_object o) as [r'|] eqn:Eo; [|discriminate].
    intros [= <-] Hv. simpl.
    destruct (String.eqb k' k); simpl.
    + now rewrite Hv, Eo.
    + now rewrite Ev', (IH r' eq_refl Hv).
Qed.

(** The fields of a restamped row: the two stamps are new, all else stays. *)
Lemma field_restamp_stamp now r :
  field (restamp now r) "created_at" = SInt now
  /\ field (restamp now r) "updated_at" = SInt now.
Proof.
  unfold restamp. split.
  - rewrite field_set_prop_other by discriminate. apply field_set_prop_same.
  - apply field_set_prop_same.
Qed.

Lemma field_restamp_other now r k :
  k <> "created_at" -> k <> "updated_at" ->
  field (restamp now r) k = field r k.
Proof.
  intros H1 H2. unfold restamp.
  rewrite !field_set_prop_other by congruence. reflexivity.
Qed.

Lemma common_columns t :
  In "id" (column_names t) /\ In "created_at" (column_names t)
  /\ In "updated_at" (column_names t).
Proof. destruct t; simpl; tauto. Qed.

Lemma shaped_keys t r : shaped t r = true -> keys r = column_names t.
Proof. apply same_names_eq. Qed.

Lemma keys_restamp t now r : shaped t r = true -> keys (restamp now r) = keys r.
Proof.
  intros Hs. pose proof (shaped_keys t r Hs) as Hk.
  destruct (common_columns t) as (_ & Hc & Hu).
  unfold restamp.
  rewrite keys_set_prop_present.
  - apply keys_set_prop_present. apply has_prop_keys. now rewrite Hk.
  - apply has_prop_set_prop. apply has_prop_keys. now rewrite Hk.
Qed.

Lemma shaped_restamp t now r : shaped t r = true -> shaped t (restamp now r) = true.
Proof.
  intros Hs. unfold shaped. rewrite (keys_restamp t now r Hs). exact Hs.
Qed.

Lemma distinct_columns t : distinct_names (column_names t) = true.
Proof. destruct t; reflexivity. Qed.

Lemma known_columns_self t : known_columns t (column_names t) = true.
Proof. destruct t; reflexivity. Qed.

(** A shaped row is stored as it is: no DEFAULT applies. *)
Lemma complete_rebuilds (cs : list column) (r : row) :
  map col_name cs = keys r ->
  distinct_names (keys r) = true ->
  map (fun c => (col_name c,
                 match prop r (col_name c) with
                 | Some v => v
                 | None => col_default c
                 end)) cs = r.
Proof.
  revert r. induction cs as [|c cs IH]; intros [|[k v] r]; simpl;
    try discriminate; [reflexivity|].
  intros [= Hk Hks] Hd. apply andb_true_iff in Hd as [Hnot Hd].
  rewrite Hk, String.eqb_refl. f_equal.
  etransitivity; [|exact (IH r Hks Hd)].
  apply map_ext_in. intros c' Hin.
  destruct (String.eqb k (col_name c')) eqn:E; [|reflexivity].
  apply String.eqb_eq in E. exfalso.
  apply negb_true_iff in Hnot.
  assert (Hm : mem_string k (keys r) = true).
  { apply mem_string_In. rewrite <- Hks, E. now apply in_map. }
  congruence.
Qed.

Lemma complete_shaped t r : shaped t r = true -> complete t r = r.
Proof.
  intros Hs. pose proof (shaped_keys t r Hs) as Hk. unfold complete.
  apply complete_rebuilds.
  - now rewrite Hk.
  - rewrite Hk. apply distinct_columns.
Qed.

Lemma row_ok_restamp t now r :
  row_ok t r = true -> row_ok t (restamp now r) = true.
Proof.
  unfold row_ok. intros Hok. apply andb_true_iff in Hok as [Hnn Hck].
  apply andb_true_iff. split.
  - unfold not_null_ok in *. rewrite forallb_forall in *. intros c Hc.
    specialize (Hnn c Hc).
    destruct (string_dec (col_name c) "created_at") as [E|E1].
    { rewrite E, (proj1 (field_restamp_stamp now r)). apply orb_true_r. }
    destruct (string_dec (col_name c) "updated_at") as [E|E2].
    { rewrite E, (proj2 (field_restamp_stamp now r)). apply orb_true_r. }
    now rewrite field_restamp_other.
  - unfold checks_ok in *.
    destruct t; rewrite ?field_restamp_other by discriminate; exact Hck.
Qed.

Lemma keys_free_same t d d' now r :
  In t state_tables -> same_keys d d' ->
  keys_free t d' (restamp now r) = keys_free t d r.
Proof.
  intros Ht Hsame. unfold keys_free.
  rewrite !field_restamp_other by discriminate.
  destruct (Hsame t Ht) as [Hids _]. rewrite Hids.
  destruct (Hsame Locations ltac:(simpl; tauto)) as [_ Hnames].
  cbn [rows] in Hnames. now rewrite Hnames.
Qed.

Lemma references_ok_same t d d' now r :
  same_keys d d' ->
  references_ok t d' (restamp now r) = references_ok t d r.
Proof.
  intros Hsame. unfold references_ok.
  destruct (Hsame Characters ltac:(simpl; tauto)) as [Hc _].
  destruct (Hsame Locations ltac:(simpl; tauto)) as [Hl _].
  cbn [rows] in Hc, Hl.
  destruct t; rewrite ?field_restamp_other by discriminate;
    rewrite ?Hc, ?Hl; reflexivity.
Qed.

Lemma same_keys_refl d : same_keys d d.
Proof. intros t _. now split. Qed.

Lemma column_values_app k l l' :
  column_values k (l ++ l') = (column_values k l ++ column_values k l')%list.
Proof. unfold column_values. apply map_app. Qed.

(** Appending a row and its restamped form keeps two databases alike. *)
Lemma same_keys_append t d d' now r :
  same_keys d d' ->
  same_keys (set_rows t (rows t d ++ [r]) d)
            (set_rows t (rows t d' ++ [restamp now r]) d').
Proof.
  intros Hsame t' Ht'. destruct (Hsame t' Ht') as [Hi Hn].
  destruct (table_eq_dec t t') as [<-|Hne].
  - rewrite !rows_set_rows_same. unfold ids in *.
    rewrite !column_values_app, Hi, Hn. cbn.
    now rewrite !field_restamp_other by discriminate.
  - rewrite !rows_set_rows_other by assumption. now split.
Qed.

Lemma prop_row_object (r : row) k :
  prop (row_object r) k = option_map unbind_value (prop r k).
Proof.
  unfold row_object. induction r as [|[k' v'] r IH]; simpl; [reflexivity|].
  destruct (String.eqb k' k); [reflexivity | exact IH].
Qed.

Lemma find_app_fresh {A} (p : A -> bool) l x :
  (forall a, In a l -> p a = false) -> p x = true ->
  find p (l ++ [x]) = Some x.
Proof.
  intros Hl Hx. induction l as [|a l IH]; simpl.
  - now rewrite Hx.
  - rewrite (Hl a (or_introl eq_refl)). apply IH. intros b Hb. apply Hl. now right.
Qed.

Section RoundTrip.
Context {H : Host}.

Lemma restamp_from_length k l : List.length (restamp_from k l) = List.length l.
Proof. revert k. induction l; intros k; simpl; [reflexivity | now rewrite IHl]. Qed.

(** Re-inserting a stored row: the row comes back with fresh stamps, under
    its own id. *)
Lemma insert_stored_row t r w d0 :
  In t state_tables -> same_keys d0 (db w) -> admissible t d0 r = true ->
  DatabaseManager.insert t (JObj (row_object r)) w
  = (Ok {| DatabaseManager.inserted_id := unbind_value (field r "id");
           DatabaseManager.inserted_changes := 1 |},
     {| db := set_rows t (rows t (db w) ++ [restamp (clock (ticks w)) r]) (db w);
        cache := cache w; ticks := S (ticks w); draws := draws w |}).
Proof.
  intros Ht Hsame Hadm. unfold admissible in Hadm.
  apply andb_true_iff in Hadm as [Hadm Href].
  apply andb_true_iff in Hadm as [Hadm Hkf].
  apply andb_true_iff in Hadm as [Hadm Hok].
  apply andb_true_iff in Hadm as [Hs Hid].
  assert (Hpid : prop r "id" = Some (field r "id")).
  { assert (Hh : has_prop r "id" = true).
    { apply has_prop_keys. rewrite (shaped_keys t r Hs).
      apply (common_columns t). }
    unfold has_prop, field in *. now destruct (prop r "id"). }
  assert (Hj : jget (row_object r) "id" = unbind_value (field r "id")).
  { rewrite jget_row_object. now rewrite Hpid. }
  assert (Hch : chosen_id (row_object r) w = unbind_value (field r "id")).
  { unfold chosen_id. now rewrite Hj, Hid. }
  assert (Hbind : bind_object
                    (DatabaseManager.insert_record (JObj (row_object r))
                       (clock (ticks w)) (chosen_id (row_object r) w))
                  = Some (restamp (clock (ticks w)) r)).
  { rewrite Hch. unfold DatabaseManager.insert_record, restamp.
    cbn [DatabaseManager.own_props].
    rewrite (set_prop_same_value (row_object r) "id").
    2: { rewrite prop_row_object, Hpid. reflexivity. }
    apply bind_object_set_prop; [|reflexivity].
    apply bind_object_set_prop; [|reflexivity].
    apply bind_object_row_object. }
  assert (Hacc : accepts t (db w) (restamp (clock (ticks w)) r) = true).
  { unfold accepts.
    rewrite (complete_shaped t _ (shaped_restamp t _ r Hs)).
    rewrite (keys_restamp t _ r Hs), (shaped_keys t r Hs), known_columns_self.
    rewrite (row_ok_restamp t _ r Hok).
    rewrite (keys_free_same t d0 (db w) _ r Ht Hsame), Hkf.
    rewrite (references_ok_same t d0 (db w) _ r Hsame), Href.
    reflexivity. }
  rewrite (insert_object t (row_object r) w _ Hbind Hacc).
  rewrite Hch, Hj, Hid.
  now rewrite (complete_shaped t _ (shaped_restamp t _ r Hs)).
Qed.

(** Re-inserting the rows of a table one after the other. *)
Lemma reinsert_rows t l : forall w d0,
  In t state_tables -> same_keys d0 (db w) -> insertable t d0 l = true ->
  for_each (map (fun r => JObj (row_object r)) l)
    (fun x => DatabaseManager.insert t x ;;; ret tt) w
  = (Ok tt,
     {| db := set_rows t (rows t (db w) ++ restamp_from (ticks w) l) (db w);
        cache := cache w;
        ticks := ticks w + List.length l;
        draws := draws w |})
  /\ same_keys (set_rows t (rows t d0 ++ l) d0)
               (set_rows t (rows t (db w) ++ restamp_from (ticks w) l) (db w)).
Proof.
  induction l as [|r l IH]; intros w d0 Ht Hsame Hins.
  - cbn [map for_each restamp_from List.length ret].
    rewrite !app_nil_r, !set_rows_rows, Nat.add_0_r.
    split; [now destruct w | exact Hsame].
  - cbn [insertable] in Hins. apply andb_true_iff in Hins as [Hadm Hins].
    cbn [map for_each restamp_from List.length].
    unfold bind at 1. unfold bind at 1.
    rewrite (insert_stored_row t r w d0 Ht Hsame Hadm). cbn [ret].
    set (w1 := {| db := set_rows t (rows t (db w) ++ [restamp (clock (ticks w)) r])
                          (db w);
                  cache := cache w; ticks := S (ticks w); draws := draws w |}).
    destruct (IH w1 (set_rows t (rows t d0 ++ [r]) d0) Ht) as [Hrun Hkeys].
    { apply same_keys_append. exact Hsame. }
    { exact Hins. }
    rewrite Hrun. subst w1. cbn [db cache ticks draws] in *.
    rewrite !rows_set_rows_same, !set_rows_twice, <- !app_assoc in *.
    cbn [app] in *.
    split; [|exact Hkeys].
    f_equal. f_equal. lia.
Qed.

(** [createSnapshot], when the id it draws is new. *)
Lemma createSnapshot_run description w :
  uuid (draws w) <> "" ->
  mem_val (SText (uuid (draws w))) (ids (state_snapshots (db w))) = false ->
  StateManager.createSnapshot (JStr description) w
  = (Ok (uuid (draws w)),
     {| db := set_rows StateSnapshots
                (state_snapshots (db w) ++ [snapshot_row description w]) (db w);
        cache := cache w;
        ticks := S (S (ticks w));
        draws := S (draws w) |}).
Proof.
  intros Hne Hfresh.
  unfold StateManager.createSnapshot, bind at 1, randomUUID.
  cbv beta iota.
  unfold bind at 1. rewrite getAll_all.
  unfold bind at 1. rewrite getAll_all.
  unfold bind at 1. rewrite getAll_all.
  unfold bind at 1. rewrite getAll_all.
  unfold bind at 1. rewrite getAll_all.
  unfold bind at 1, Date_now. cbv beta iota. cbn [db cache ticks draws rows].
  unfold bind.
  set (w1 := {| db := db w; cache := cache w; ticks := S (ticks w);
                draws := S (draws w) |}).
  set (data := [("id", JStr (uuid (draws w)));
                ("snapshot_time", JNum (clock (ticks w)));
                ("state_data", JStr (JSON_stringify _));
                ("description", JStr description)]).
  assert (Htruthy : truthy (jget data "id") = true).
  { cbn. apply negb_true_iff. now apply String.eqb_neq. }
  assert (Hch : chosen_id data w1 = JStr (uuid (draws w))).
  { unfold chosen_id. now rewrite Htruthy. }
  assert (Hbind : bind_object
                    (DatabaseManager.insert_record (JObj data)
                       (clock (ticks w1)) (chosen_id data w1))
                  = Some (snapshot_row description w)).
  { rewrite Hch. reflexivity. }
  assert (Hacc : accepts StateSnapshots (db w1) (snapshot_row description w) = true).
  { unfold accepts, keys_free. cbn [db w1 rows].
    rewrite (complete_shaped StateSnapshots) by reflexivity.
    replace (field (snapshot_row description w) "id")
      with (SText (uuid (draws w))) by reflexivity.
    rewrite Hfresh. reflexivity. }
  rewrite (insert_object StateSnapshots data w1 _ Hbind Hacc).
  rewrite Htruthy.
  rewrite (complete_shaped StateSnapshots) by reflexivity.
  reflexivity.
Qed.

(** What a restore reads from the document of a snapshot, table by table. *)
Lemma reinsert_snapshot t d w :
  In t state_tables ->
  StateManager.reinsert t (snapshot_of d) (table_name t) w
  = for_each (map (fun r => JObj (row_object r)) (rows t d))
      (fun x => DatabaseManager.insert t x ;;; ret tt) w.
Proof.
  intros Ht. unfold StateManager.reinsert, bind, DatabaseManager.lift.
  simpl in Ht.
  destruct Ht as [<-|[<-|[<-|[<-|[<-|[]]]]]]; cbn; rewrite map_map; reflexivity.
Qed.
End RoundTrip.

Lemma insertable_shaped t l : forall d,
  insertable t d l = true -> forallb (shaped t) l = true.
Proof.
  induction l as [|r l IH]; intros d; simpl; [reflexivity|].
  intros Hi. apply andb_true_iff in Hi as [Ha Hi].
  unfold admissible in Ha. repeat (apply andb_true_iff in Ha as [Ha _]).
  rewrite Ha. simpl. now apply (IH _ Hi).
Qed.

Lemma consistent_shaped d t :
  consistent d = true -> In t state_tables -> forallb (shaped t) (rows t d) = true.
Proof.
  unfold consistent. intros Hc Ht.
  apply andb_true_iff in Hc as [Hc Hm].
  apply andb_true_iff in Hc as [Hc Hi].
  apply andb_true_iff in Hc as [Hc Hl].
  apply andb_true_iff in Hc as [Hc Htl].
  simpl in Ht.
  destruct Ht as [<-|[<-|[<-|[<-|[<-|[]]]]]]; eapply insertable_shaped; eassumption.
Qed.

Section RoundTripTheorem.
Context {H : Host}.

(** What restamping does to each row. *)
Lemma restamp_from_rows t k l :
  forallb (shaped t) l = true ->
  Forall2 (fun r r' =>
             field r' "id" = field r "id"
             /\ keys r' = keys r
             /\ (forall c, c <> "created_at" -> c <> "updated_at" ->
                           field r' c = field r c)
             /\ exists now, field r' "created_at" = SInt now
                            /\ field r' "updated_at" = SInt now)
    l (restamp_from k l).
Proof.
  revert k. induction l as [|r l IH]; intros k; simpl; intros Hs; constructor.
  - apply andb_true_iff in Hs as [Hr _].
    split; [apply field_restamp_other; discriminate|].
    split; [now apply (keys_restamp t)|].
    split; [intros c H1 H2; now apply field_restamp_other|].
    exists (clock k). apply field_restamp_stamp.
  - apply andb_true_iff in Hs as [_ Hl]. now apply IH.
Qed.

Lemma restamp_from_spec k l :
  Forall2 (fun r r' => exists now, r' = restamp now r) l (restamp_from k l).
Proof.
  revert k. induction l as [|r l IH]; intros k; simpl; constructor.
  - now exists (clock k).
  - apply IH.
Qed.

(** The snapshot just taken is the one its id finds, and its document
    parses back when the JSON codec round-trips it. *)
Lemma fresh_snapshot_found description w :
  mem_val (SText (uuid (draws w))) (ids (state_snapshots (db w))) = false ->
  find (fun r => sql_eq (field r "id") (SText (uuid (draws w))))
    (state_snapshots (db w) ++ [snapshot_row description w])
  = Some (snapshot_row description w).
Proof.
  intros Hfresh. apply find_app_fresh.
  - intros a Ha. unfold mem_val, ids, column_values in Hfresh.
    rewrite sql_eq_sym.
    destruct (sql_eq (SText (uuid (draws w))) (field a "id")) eqn:E;
      [|reflexivity].
    assert (Hex : existsb (sql_eq (SText (uuid (draws w))))
                    (map (fun r => field r "id") (state_snapshots (db w))) = true).
    { apply existsb_exists. exists (field a "id"). split; [|exact E].
      exact (in_map (fun r => field r "id") _ a Ha). }
    congruence.
  - apply sql_eq_text_refl.
Qed.

Lemma restore_fresh_snapshot description w :
  consistent (db w) = true ->
  JSON_parse (JSON_stringify (snapshot_of (db w))) = Some (snapshot_of (db w)) ->
  mem_val (SText (uuid (draws w))) (ids (state_snapshots (db w))) = false ->
  forall w1,
    db w1 = set_rows StateSnapshots
              (state_snapshots (db w) ++ [snapshot_row description w]) (db w) ->
    exists w2,
      StateManager.restoreSnapshot (uuid (draws w)) w1 = (Ok true, w2)
      /\ forall t, In t state_tables ->
           exists k, rows t (db w2) = restamp_from k (rows t (db w)).
Proof.
  intros Hcons Hjson Hfresh w1 Hdb1.
  unfold consistent in Hcons.
  apply andb_true_iff in Hcons as [Hcons Hm].
  apply andb_true_iff in Hcons as [Hcons Hi].
  apply andb_true_iff in Hcons as [Hcons Hl].
  apply andb_true_iff in Hcons as [Hc Ht].
  rewrite restoreSnapshot_run.
  unfold stored_snapshot. rewrite Hdb1. cbn [state_snapshots set_rows].
  rewrite (fresh_snapshot_found description w Hfresh).
  replace (jget (row_object (snapshot_row description w)) "state_data")
    with (JStr (JSON_stringify (snapshot_of (db w)))) by reflexivity.
  cbn [StateManager.parse_value]. rewrite Hjson. cbn [or_throw ret].
  rewrite replace_state_after_deletes.
  set (w0 := with_db (cleared (db w1)) w1).
  assert (Hsame0 : same_keys empty_database (db w0)).
  { intros t Hin. simpl in Hin.
    destruct Hin as [<-|[<-|[<-|[<-|[<-|[]]]]]]; now split. }
  (* characters *)
  unfold bind at 1.
  change "characters" with (table_name Characters).
  rewrite reinsert_snapshot by (simpl; tauto).
  destruct (reinsert_rows Characters (rows Characters (db w)) w0 empty_database
              ltac:(simpl; tauto) Hsame0 Hc) as [Hrun1 Hkeys1].
  match type of Hrun1 with _ = (_, ?x) => set (wA := x) in * end.
  rewrite Hrun1. clear Hrun1.
  (* timeline *)
  unfold bind at 1.
  change "timeline" with (table_name Timeline).
  rewrite reinsert_snapshot by (simpl; tauto).
  destruct (reinsert_rows Timeline (rows Timeline (db w)) wA _
              ltac:(simpl; tauto) Hkeys1 Ht) as [Hrun2 Hkeys2].
  match type of Hrun2 with _ = (_, ?x) => set (wB := x) in * end.
  rewrite Hrun2. clear Hrun2.
  (* locations *)
  unfold bind at 1.
  change "locations" with (table_name Locations).
  rewrite reinsert_snapshot by (simpl; tauto).
  destruct (reinsert_rows Locations (rows Locations (db w)) wB _
              ltac:(simpl; tauto) Hkeys2 Hl) as [Hrun3 Hkeys3].
  match type of Hrun3 with _ = (_, ?x) => set (wC := x) in * end.
  rewrite Hrun3. clear Hrun3.
  (* inventory *)
  unfold bind at 1.
  change "inventory" with (table_name Inventory).
  rewrite reinsert_snapshot by (simpl; tauto).
  destruct (reinsert_rows Inventory (rows Inventory (db w)) wC _
              ltac:(simpl; tauto) Hkeys3 Hi) as [Hrun4 Hkeys4].
  match type of Hrun4 with _ = (_, ?x) => set (wD := x) in * end.
  rewrite Hrun4. clear Hrun4.
  (* memories *)
  change "memories" with (table_name Memories).
  rewrite reinsert_snapshot by (simpl; tauto).
  destruct (reinsert_rows Memories (rows Memories (db w)) wD _
              ltac:(simpl; tauto) Hkeys4 Hm) as [Hrun5 _].
  rewrite Hrun5. clear Hrun5.
  eexists. split; [reflexivity|].
  intros t Hin. cbn [db with_cache].
  simpl in Hin.
  destruct Hin as [<-|[<-|[<-|[<-|[<-|[]]]]]].
  - exists (ticks w0). reflexivity.
  - exists (ticks wA). reflexivity.
  - exists (ticks wB). reflexivity.
  - exists (ticks wC). reflexivity.
  - exists (ticks wD). reflexivity.
Qed.
End RoundTripTheorem.

(** C3.  The round trip does not give the rows back as they were: a
    snapshot of a world with one character, restored at once, puts the
    character back with [created_at] and [updated_at] set to the time of the
    restore (the row was stamped 1 when it was created), so the characters
    table is not what it was.  [restoreSnapshot] hands the rows of the
    snapshot to [insert], which stamps whatever it stores. *)
Lemma C3_restored_rows_are_restamped :
  exists id w1 w2 restored,
    StateManager.createSnapshot (H := Demo.host) (JStr "before") Demo.alice_world
    = (Ok id, w1)
    /\ StateManager.restoreSnapshot (H := Demo.host) id w1 = (Ok true, w2)
    /\ rows Characters (db Demo.alice_world) = [Demo.alice "neutral"]
    /\ rows Characters (db w2) = [restored]
    /\ field (Demo.alice "neutral") "created_at" = SInt 1
    /\ field restored "created_at" = SInt 1700000000002
    /\ rows Characters (db w2) <> rows Characters (db Demo.alice_world).
Proof.
  do 4 eexists.
  split; [vm_compute; reflexivity|].
  split; [vm_compute; reflexivity|].
  split; [reflexivity|].
  split; [vm_compute; reflexivity|].
  split; [reflexivity|].
  split; [reflexivity|].
  vm_compute. discriminate.
Qed.

(** What the round trip keeps.  For every host and every world whose five
    state tables obey the schema, whose dump the JSON codec round-trips, and
    for which the UUID drawn for the snapshot is a new, non-empty id:
    [createSnapshot] followed at once by [restoreSnapshot] of the id it
    returned succeeds, and each of the five state tables (characters,
    timeline, locations, inventory, memories) then holds the same rows in
    the same order, with their ids and every field as before, except that
    [created_at] and [updated_at] of each row hold the clock value read when
    the row was re-inserted: the stamps are all that is lost. *)
Theorem snapshot_round_trip_up_to_stamps :
  forall {H : Host} (description : string) (w : World),
    consistent (db w) = true ->
    JSON_parse (JSON_stringify (snapshot_of (db w))) = Some (snapshot_of (db w)) ->
    uuid (draws w) <> "" ->
    mem_val (SText (uuid (draws w))) (ids (state_snapshots (db w))) = false ->
    exists w1 w2,
      StateManager.createSnapshot (JStr description) w = (Ok (uuid (draws w)), w1)
      /\ StateManager.restoreSnapshot (uuid (draws w)) w1 = (Ok true, w2)
      /\ forall t, In t state_tables ->
           exists k,
             rows t (db w2) = restamp_from k (rows t (db w))
             /\ Forall2 (fun r r' =>
                           field r' "id" = field r "id"
                           /\ keys r' = keys r
                           /\ (forall c, c <> "created_at" -> c <> "updated_at" ->
                                         field r' c = field r c)
                           /\ exists now, field r' "created_at" = SInt now
                                          /\ field r' "updated_at" = SInt now)
                  (rows t (db w)) (rows t (db w2)).
Proof.
  intros H description w Hcons Hjson Hne Hfresh.
  eexists. 
  destruct (restore_fresh_snapshot description w Hcons Hjson Hfresh
              {| db := set_rows StateSnapshots
                         (state_snapshots (db w) ++ [snapshot_row description w])
                         (db w);
                 cache := cache w; ticks := S (S (ticks w));
                 draws := S (draws w) |} eq_refl) as (w2 & Hrestore & Hrows).
  exists w2.
  split; [now apply createSnapshot_run|].
  split; [exact Hrestore|].
  intros t Ht. destruct (Hrows t Ht) as [k Hk]. exists k.
  split; [exact Hk|]. rewrite Hk.
  apply (restamp_from_rows t). now apply consistent_shaped.
Qed.

Lemma snapshot_round_trip_up_to_stamps_example :
  let w := Demo.town_world in
  exists w1 w2,
    StateManager.createSnapshot (H := Demo.host) (JStr "before") w
    = (Ok (uuid (Host := Demo.host) (draws w)), w1)
    /\ StateManager.restoreSnapshot (H := Demo.host)
         (uuid (Host := Demo.host) (draws w)) w1 = (Ok true, w2)
    /\ forall t, In t state_tables ->
         exists k,
           rows t (db w2) = restamp_from (H := Demo.host) k (rows t (db w))
           /\ Forall2 (fun r r' =>
                         field r' "id" = field r "id"
                         /\ keys r' = keys r
                         /\ (forall c, c <> "created_at" -> c <> "updated_at" ->
                                       field r' c = field r c)
                         /\ exists now, field r' "created_at" = SInt now
                                        /\ field r' "updated_at" = SInt now)
                (rows t (db w)) (rows t (db w2)).
Proof.
  intros w.
  apply (snapshot_round_trip_up_to_stamps (H := Demo.host) "before" w).
  - vm_compute. reflexivity.
  - vm_compute. reflexivity.
  - discriminate.
  - reflexivity.
Defined.

(** ** What the validators report *)

Lemma of_level_cases (f : StateValidator.finding) (l : list StateValidator.finding) :
  StateValidator.of_level StateValidator.ERROR (f :: l) <> []
  \/ StateValidator.of_level StateValidator.WARNING (f :: l) <> []
  \/ StateValidator.of_level StateValidator.INFO (f :: l) <> [].
Proof.
  unfold StateValidator.of_level. simpl.
  destruct (StateValidator.level f); simpl;
    [left | right; left | right; right]; discriminate.
Qed.

Lemma buildResult_passed (l : list StateValidator.finding) :
  let res := StateValidator._buildResult (Nat.eqb (List.length l) 0) l [] in
  StateValidator.passed res = true
  <-> StateValidator.errors res = [] /\ StateValidator.warnings res = []
      /\ StateValidator.info res = [].
Proof.
  destruct l as [|f l]; simpl.
  - split; [intros _; repeat split; reflexivity | reflexivity].
  - split; [discriminate|].
    intros (He & Hw & Hi).
    destruct (of_level_cases f l) as [C|[C|C]]; contradiction.
Qed.

Section ValidatorFacts.
Context {H : Host}.

Lemma validateCharacterUpdate_result cid updates w res w' :
  StateValidator.validateCharacterUpdate cid updates w = (Ok res, w') ->
  exists l, l <> [] /\ res = StateValidator._buildResult false l []
            \/ res = StateValidator._buildResult (Nat.eqb (List.length l) 0) l [].
Proof.
  unfold StateValidator.validateCharacterUpdate, bind.
  destruct (DatabaseManager.get Characters _ w) as [[[cur|]|e] w0]; try discriminate.
  - destruct (if defined (jget updates "emotion") then _ else _) as [[em|e] w1];
      try discriminate.
    destruct (if defined (jget updates "current_location") then _ else _)
      as [[lo|e] w2]; try discriminate.
    unfold ret. intros E. injection E as <- <-.
    eexists. right. reflexivity.
  - unfold ret. intros E. injection E as <- <-.
    eexists. left. split; [|reflexivity]. discriminate.
Qed.

Lemma validateTimelineEvent_result event w res w' :
  StateValidator.validateTimelineEvent event w = (Ok res, w') ->
  exists l, res = StateValidator._buildResult (Nat.eqb (List.length l) 0) l [].
Proof.
  unfold StateValidator.validateTimelineEvent, bind.
  destruct (if defined (jget event "timestamp") then _ else _) as [[ts|e] w1];
    try discriminate.
  unfold ret. intros E. injection E as <- <-. eexists. reflexivity.
Qed.

Lemma validateInventoryItem_result cid item w res w' :
  StateValidator.validateInventoryItem cid item w = (Ok res, w') ->
  exists l, res = StateValidator._buildResult (Nat.eqb (List.length l) 0) l [].
Proof.
  unfold StateValidator.validateInventoryItem, bind.
  destruct (if truthy (jget item "equipped") && _ then _ else _) as [[eq|e] w1];
    try discriminate.
  unfold ret. intros E. injection E as <- <-. eexists. reflexivity.
Qed.

End ValidatorFacts.

(** X1.  In every result of [validateCharacterUpdate],
    [validateTimelineEvent] and [validateInventoryItem], [passed] is true
    exactly when the result reports nothing at all: no error, no warning and
    no info.  (So a finding of WARNING severity alone makes [passed] false.) *)
Theorem X1_passed_exactly_when_nothing_is_reported :
  forall {H : Host} (characterId : string) (updates event item : jsobject)
         (w : World),
    let nothing := fun res =>
      StateValidator.passed res = true
      <-> StateValidator.errors res = [] /\ StateValidator.warnings res = []
          /\ StateValidator.info res = [] in
    match fst (StateValidator.validateCharacterUpdate characterId updates w) with
    | Ok res => nothing res
    | Throw _ => True
    end
    /\ match fst (StateValidator.validateTimelineEvent event w) with
       | Ok res => nothing res
       | Throw _ => True
       end
    /\ match fst (StateValidator.validateInventoryItem characterId item w) with
       | Ok res => nothing res
       | Throw _ => True
       end.
Proof.
  intros H cid updates event item w nothing. unfold nothing.
  split; [|split].
  - destruct (StateValidator.validateCharacterUpdate cid updates w)
      as [[res|e] w'] eqn:E; [|exact I]. simpl.
    destruct (validateCharacterUpdate_result _ _ _ _ _ E) as [l [[Hne ->]| ->]].
    + destruct l as [|f l]; [contradiction|].
      split; [discriminate|]. intros (He & Hw & Hi).
      destruct (of_level_cases f l) as [C|[C|C]]; contradiction.
    + apply buildResult_passed.
  - destruct (StateValidator.validateTimelineEvent event w)
      as [[res|e] w'] eqn:E; [|exact I]. simpl.
    destruct (validateTimelineEvent_result _ _ _ _ E) as [l ->].
    apply buildResult_passed.
  - destruct (StateValidator.validateInventoryItem cid item w)
      as [[res|e] w'] eqn:E; [|exact I]. simpl.
    destruct (validateInventoryItem_result _ _ _ _ _ E) as [l ->].
    apply buildResult_passed.
Qed.
Lemma get_by_id t id w :
  DatabaseManager.get t [("id", JStr id)] w
  = (Ok (option_map row_object (stored_row t id (db w))), w).
Proof.
  unfold DatabaseManager.get, bind, stored_row.
  destruct t; cbn; unfold get_db, ret; cbn;
    (erewrite find_ext; [reflexivity|]); intros r; apply andb_true_r.
Qed.

(** X2.  A character id without a row in the characters table is refused
    whatever the update: [validateCharacterUpdate] returns (it does not
    throw), reads nothing else and reports the single ERROR
    "Character not found" on the field [id]. *)
Theorem X2_unknown_character_is_refused :
  forall {H : Host} (characterId : string) (updates : jsobject) (w : World),
    stored_character characterId (db w) = None ->
    StateValidator.validateCharacterUpdate characterId updates w
    = (Ok {| StateValidator.passed := false;
             StateValidator.errors :=
               [{| StateValidator.field_name := "id";
                   StateValidator.message := "Character not found: " ++ characterId;
                   StateValidator.level := StateValidator.ERROR;
                   StateValidator.details := [] |}];
             StateValidator.warnings := [];
             StateValidator.info := [] |}, w).
Proof.
  intros H cid updates w Hnone.
  unfold StateValidator.validateCharacterUpdate, bind.
  rewrite get_character, Hnone. reflexivity.
Qed.

Lemma X2_unknown_character_is_refused_witness :
  StateValidator.validateCharacterUpdate (H := Demo.host) "bob"
    [("affection", JNum 60)] Demo.alice_world
  = (Ok {| StateValidator.passed := false;
           StateValidator.errors :=
             [{| StateValidator.field_name := "id";
                 StateValidator.message := "Character not found: bob";
                 StateValidator.level := StateValidator.ERROR;
                 StateValidator.details := [] |}];
           StateValidator.warnings := [];
           StateValidator.info := [] |}, Demo.alice_world).
Proof.
  apply (X2_unknown_character_is_refused (H := Demo.host) "bob"
           [("affection", JNum 60)] Demo.alice_world).
  reflexivity.
Defined.

(** X3.  For a character whose stored affection is the number [c], an
    affection update to the number [v] is validated without touching the
    world, and it passes exactly when [0 <= v <= 100] and [|v - c| <= 20];
    it reports an ERROR exactly when [v] is outside [0, 100] and a WARNING
    exactly when [|v - c| > 20], all on the field [affection]. *)
Theorem X3_affection_update_passes_iff_in_range_and_small :
  forall {H : Host} (characterId : string) (w : World) (r : row) (c v : Z),
    stored_character characterId (db w) = Some r ->
    prop r "affection" = Some (SInt c) ->
    exists res,
      StateValidator.validateCharacterUpdate characterId [("affection", JNum v)] w
      = (Ok res, w)
      /\ (StateValidator.passed res = true <-> 0 <= v <= 100 /\ Z.abs (v - c) <= 20)
      /\ (StateValidator.errors res = [] <-> 0 <= v <= 100)
      /\ (StateValidator.warnings res = [] <-> Z.abs (v - c) <= 20)
      /\ Forall (fun f => StateValidator.field_name f = "affection"
                          /\ StateValidator.level f = StateValidator.ERROR)
           (StateValidator.errors res)
      /\ Forall (fun f => StateValidator.field_name f = "affection"
                          /\ StateValidator.level f = StateValidator.WARNING)
           (StateValidator.warnings res).
Proof.
  intros H cid w r c v Hrow Haff.
  unfold StateValidator.validateCharacterUpdate, bind.
  rewrite get_character, Hrow. simpl.
  rewrite jget_row_object, Haff. simpl.
  unfold StateValidator._validateAffection, num_lt, num_gt. simpl.
  unfold ret. eexists. split; [reflexivity|].
  destruct (v <? 0) eqn:E0; destruct (100 <? v) eqn:E1;
    destruct (20 <? Z.abs (v - c)) eqn:E2; simpl;
    try apply Z.ltb_lt in E0; try apply Z.ltb_ge in E0;
    try apply Z.ltb_lt in E1; try apply Z.ltb_ge in E1;
    try apply Z.ltb_lt in E2; try apply Z.ltb_ge in E2;
    repeat split; intros; try discriminate; try lia;
    repeat constructor.
Qed.

Lemma X3_affection_update_passes_iff_in_range_and_small_witness :
  exists res,
    StateValidator.validateCharacterUpdate (H := Demo.host) "alice"
      [("affection", JNum 65)] Demo.alice_world
    = (Ok res, Demo.alice_world)
    /\ (StateValidator.passed res = true <-> 0 <= 65 <= 100 /\ Z.abs (65 - 50) <= 20)
    /\ (StateValidator.errors res = [] <-> 0 <= 65 <= 100)
    /\ (StateValidator.warnings res = [] <-> Z.abs (65 - 50) <= 20)
    /\ Forall (fun f => StateValidator.field_name f = "affection"
                        /\ StateValidator.level f = StateValidator.ERROR)
         (StateValidator.errors res)
    /\ Forall (fun f => StateValidator.field_name f = "affection"
                        /\ StateValidator.level f = StateValidator.WARNING)
         (StateValidator.warnings res).
Proof.
  apply (X3_affection_update_passes_iff_in_range_and_small (H := Demo.host)
           "alice" Demo.alice_world (Demo.alice "neutral") 50 65);
    reflexivity.
Defined.
Lemma unlikely_discouraged cur new :
  mem_string cur StateValidator.inherited_keys = false ->
  StateValidator.unlikely (JStr cur) (JStr new) = Ok (discouraged cur new).
Proof.
  intros Hk. unfold StateValidator.unlikely, discouraged.
  cbn [to_text].
  destruct (prop StateValidator.invalidTransitions cur) as [l|]; [reflexivity|].
  now rewrite Hk.
Qed.

Lemma discouraged_empty new : discouraged "" new = false.
Proof. reflexivity. Qed.

(** X4.  For a character whose stored emotion is the string [current] (any
    string that is not the name of a property every object inherits, for
    which the validator's table lookup throws), an emotion update to the
    string [new] is validated without touching the world; it passes exactly
    when [new] is one of the ten valid emotions and the validator's table
    does not list the step from [current] to [new]; it reports an ERROR
    exactly when [new] is not a valid emotion, and a WARNING exactly when
    the step is listed. *)
Theorem X4_emotion_update_passes_iff_valid_and_likely :
  forall {H : Host} (characterId : string) (w : World) (r : row)
         (current new : string),
    stored_character characterId (db w) = Some r ->
    prop r "emotion" = Some (SText current) ->
    mem_string current StateValidator.inherited_keys = false ->
    exists res,
      StateValidator.validateCharacterUpdate characterId [("emotion", JStr new)] w
      = (Ok res, w)
      /\ StateValidator.passed res
         = mem_string new StateValidator.validEmotions
           && negb (discouraged current new)
      /\ (StateValidator.errors res = []
          <-> mem_string new StateValidator.validEmotions = true)
      /\ (StateValidator.warnings res = [] <-> discouraged current new = false)
      /\ Forall (fun f => StateValidator.field_name f = "emotion")
           (StateValidator.errors res ++ StateValidator.warnings res).
Proof.
  intros H cid w r cur new Hrow Hemo Hk.
  unfold StateValidator.validateCharacterUpdate, bind.
  rewrite get_character, Hrow.
  cbn [option_map jget prop String.eqb Ascii.eqb Bool.eqb defined].
  rewrite jget_row_object, Hemo.
  cbn [unbind_value].
  unfold StateValidator._validateEmotion.
  rewrite (unlikely_discouraged cur new Hk).
  cbn [StateValidator.includes truthy].
  assert (Hd : String.eqb cur "" = true -> discouraged cur new = false).
  { intros E. apply String.eqb_eq in E. subst cur. reflexivity. }
  destruct (String.eqb cur "") eqn:Ecur;
    destruct (mem_string new StateValidator.validEmotions) eqn:Ev;
    destruct (discouraged cur new) eqn:Ed;
    try (specialize (Hd eq_refl); discriminate);
    cbn; unfold ret; cbn;
    (eexists; split; [reflexivity|]);
    cbn; repeat split; intros; try discriminate; try reflexivity;
    repeat constructor.
Qed.
Lemma X4_emotion_update_passes_iff_valid_and_likely_witness :
  exists res,
    StateValidator.validateCharacterUpdate (H := Demo.host) "alice"
      [("emotion", JStr "sad")] Demo.happy_world
    = (Ok res, Demo.happy_world)
    /\ StateValidator.passed res
       = mem_string "sad" StateValidator.validEmotions
         && negb (discouraged "happy" "sad")
    /\ (StateValidator.errors res = []
        <-> mem_string "sad" StateValidator.validEmotions = true)
    /\ (StateValidator.warnings res = [] <-> discouraged "happy" "sad" = false)
    /\ Forall (fun f => StateValidator.field_name f = "emotion")
         (StateValidator.errors res ++ StateValidator.warnings res).
Proof.
  apply (X4_emotion_update_passes_iff_valid_and_likely (H := Demo.host)
           "alice" Demo.happy_world (Demo.alice "happy") "happy" "sad");
    reflexivity.
Defined.

(** X5.  For a character that is somewhere (its stored location is a
    non-empty string), a target location (a non-empty string) that is the
    id of no stored location is refused: the validator returns, without
    touching the world, the single ERROR "Location does not exist" on the
    field [current_location]. *)
Theorem X5_move_to_a_missing_location_is_refused :
  forall {H : Host} (characterId : string) (w : World) (r : row)
         (current target : string),
    stored_character characterId (db w) = Some r ->
    prop r "current_location" = Some (SText current) ->
    current <> "" -> target <> "" ->
    stored_row Locations target (db w) = None ->
    StateValidator.validateCharacterUpdate characterId
      [("current_location", JStr target)] w
    = (Ok {| StateValidator.passed := false;
             StateValidator.errors :=
               [{| StateValidator.field_name := "current_location";
                   StateValidator.message :=
                     "Location does not exist: " ++ target;
                   StateValidator.level := StateValidator.ERROR;
                   StateValidator.details := [] |}];
             StateValidator.warnings := [];
             StateValidator.info := [] |}, w).
Proof.
  intros H cid w r cur target Hrow Hcur Hne Hnt Hmissing.
  unfold StateValidator.validateCharacterUpdate, bind.
  rewrite get_character, Hrow.
  cbn [option_map jget prop String.eqb Ascii.eqb Bool.eqb defined].
  rewrite jget_row_object, Hcur.
  unfold StateValidator._validateLocationChange.
  cbn [unbind_value truthy].
  destruct (String.eqb cur "") eqn:E1; [apply String.eqb_eq in E1; contradiction|].
  destruct (String.eqb target "") eqn:E2; [apply String.eqb_eq in E2; contradiction|].
  cbn [negb orb]. unfold bind, ret. cbv beta iota.
  rewrite get_by_id, Hmissing. reflexivity.
Qed.

Lemma X5_move_to_a_missing_location_is_refused_witness :
  StateValidator.validateCharacterUpdate (H := Demo.host) "alice"
    [("current_location", JStr "loc-9")] Examples.square_world
  = (Ok {| StateValidator.passed := false;
           StateValidator.errors :=
             [{| StateValidator.field_name := "current_location";
                 StateValidator.message := "Location does not exist: loc-9";
                 StateValidator.level := StateValidator.ERROR;
                 StateValidator.details := [] |}];
           StateValidator.warnings := [];
           StateValidator.info := [] |}, Examples.square_world).
Proof.
  apply (X5_move_to_a_missing_location_is_refused (H := Demo.host) "alice"
           Examples.square_world (Examples.alice_at "loc-1") "loc-1" "loc-9");
    solve [reflexivity | discriminate].
Defined.

(** X6.  A character that is nowhere (its stored location is NULL or the
    empty string) may be moved to any value: the validator looks nothing up
    and reports nothing, whether a location with that id exists or not. *)
Theorem X6_move_from_nowhere_is_not_checked :
  forall {H : Host} (characterId : string) (w : World) (r : row) (target : json),
    stored_character characterId (db w) = Some r ->
    prop r "current_location" = Some SNull
    \/ prop r "current_location" = Some (SText "") ->
    defined target = true ->
    StateValidator.validateCharacterUpdate characterId
      [("current_location", target)] w
    = (Ok (StateValidator.Build_result true [] [] []), w).
Proof.
  intros H cid w r target Hrow Hcur Hdef.
  unfold StateValidator.validateCharacterUpdate, bind.
  rewrite get_character, Hrow.
  cbn [option_map jget prop String.eqb Ascii.eqb Bool.eqb defined].
  rewrite Hdef, jget_row_object.
  unfold StateValidator._validateLocationChange.
  destruct Hcur as [-> | ->]; reflexivity.
Qed.

Lemma X6_move_from_nowhere_is_not_checked_witness :
  stored_row Locations "no-such-place" (db Demo.town_world) = None
  /\ StateValidator.validateCharacterUpdate (H := Demo.host) "alice"
       [("current_location", JStr "no-such-place")] Demo.town_world
     = (Ok (StateValidator.Build_result true [] [] []), Demo.town_world).
Proof.
  split; [reflexivity|].
  apply (X6_move_from_nowhere_is_not_checked (H := Demo.host) "alice"
           Demo.town_world (Demo.alice "neutral") (JStr "no-such-place"));
    [reflexivity | left; reflexivity | reflexivity].
Defined.

(** X7.  Reachability.  For a character standing at a stored location whose
    [connected_to] column parses to an array, a move to another stored
    location passes exactly when the array holds an entry whose [id] is the
    target, or the target is the place where the character stands;
    otherwise the validator reports the single WARNING "not reachable" (and
    no ERROR), which makes [passed] false. *)
Theorem X7_move_is_warned_iff_not_reachable :
  forall {H : Host} (characterId : string) (w : World) (r here there : row)
         (current target s : string) (items : list json) (reachable : bool),
    stored_character characterId (db w) = Some r ->
    prop r "current_location" = Some (SText current) ->
    current <> "" -> target <> "" ->
    stored_row Locations target (db w) = Some there ->
    stored_row Locations current (db w) = Some here ->
    prop here "connected_to" = Some (SText s) ->
    s <> "" ->
    JSON_parse s = Some (JArr items) ->
    StateValidator.some_has_id items (JStr target) = Some reachable ->
    exists res,
      StateValidator.validateCharacterUpdate characterId
        [("current_location", JStr target)] w
      = (Ok res, w)
      /\ StateValidator.passed res = reachable || String.eqb current target
      /\ StateValidator.errors res = []
      /\ (StateValidator.warnings res = []
          <-> reachable = true \/ current = target)
      /\ Forall (fun f => StateValidator.field_name f = "current_location"
                          /\ StateValidator.level f = StateValidator.WARNING)
           (StateValidator.warnings res).
Proof.
  intros H cid w r here there cur target s items reachable
    Hrow Hcur Hne Hnt Hthere Hhere Hconn Hs Hparse Hsome.
  unfold StateValidator.validateCharacterUpdate, bind.
  rewrite get_character, Hrow.
  cbn [option_map jget prop String.eqb Ascii.eqb Bool.eqb defined].
  rewrite jget_row_object, Hcur.
  unfold StateValidator._validateLocationChange.
  cbn [unbind_value truthy].
  destruct (String.eqb cur "") eqn:E1; [apply String.eqb_eq in E1; contradiction|].
  destruct (String.eqb target "") eqn:E2; [apply String.eqb_eq in E2; contradiction|].
  cbn [negb orb]. unfold bind, ret. cbv beta iota.
  rewrite get_by_id, Hthere. cbn [option_map].
  rewrite get_by_id, Hhere. cbn [option_map].
  rewrite jget_row_object, Hconn. cbn [unbind_value truthy].
  destruct (String.eqb s "") eqn:E3; [apply String.eqb_eq in E3; contradiction|].
  cbn [negb]. rewrite Hparse, Hsome.
  cbn [strict_eq].
  destruct (String.eqb cur target) eqn:E4.
  - apply String.eqb_eq in E4.
    destruct reachable; cbn; (eexists; split; [reflexivity|]); cbn;
      repeat split; intros; try reflexivity; auto; constructor.
  - apply String.eqb_neq in E4.
    destruct reachable; cbn; (eexists; split; [reflexivity|]); cbn.
    + repeat split; intros; try reflexivity; auto; constructor.
    + repeat split; intros; try reflexivity; try discriminate.
      * destruct H0; [discriminate | contradiction].
      * repeat constructor.
Qed.

Lemma X7_move_is_warned_iff_not_reachable_witness :
  exists res,
    StateValidator.validateCharacterUpdate (H := Demo.host) "alice"
      [("current_location", JStr "loc-3")] Examples.square_world
    = (Ok res, Examples.square_world)
    /\ StateValidator.passed res = false || String.eqb "loc-1" "loc-3"
    /\ StateValidator.errors res = []
    /\ (StateValidator.warnings res = []
        <-> false = true \/ "loc-1" = "loc-3")
    /\ Forall (fun f => StateValidator.field_name f = "current_location"
                        /\ StateValidator.level f = StateValidator.WARNING)
         (StateValidator.warnings res).
Proof.
  apply (X7_move_is_warned_iff_not_reachable (H := Demo.host) "alice"
           Examples.square_world (Examples.alice_at "loc-1") Examples.square
           (Demo.place "loc-3" "Harbour") "loc-1" "loc-3"
           (Demo.stringify (JArr [JObj [("id", JStr "loc-2")]]))
           [JObj [("id", JStr "loc-2")]] false);
    solve [reflexivity | discriminate | vm_compute; discriminate].
Defined.

(** ** Round trips through the store *)

Section StoreFacts.
Context {H : Host}.

Lemma prop_insert_record (data : jsobject) now id k :
  k <> "id" -> k <> "created_at" -> k <> "updated_at" ->
  prop (DatabaseManager.insert_record (JObj data) now id) k = prop data k.
Proof.
  intros H1 H2 H3. unfold DatabaseManager.insert_record.
  cbn [DatabaseManager.own_props].
  rewrite !prop_set_prop_other by congruence. reflexivity.
Qed.

Lemma fits_unbind k v x : fits k v = true -> bind_value v = Some x -> unbind_value x = v.
Proof.
  destruct v; simpl; try discriminate; intros _ [= <-]; reflexivity.
Qed.

Lemma mem_val_false v l :
  mem_val v l = false -> forall x, In x l -> sql_eq v x = false.
Proof.
  unfold mem_val. intros Hm x Hin.
  destruct (sql_eq v x) eqn:E; [|reflexivity].
  assert (existsb (sql_eq v) l = true) by (apply existsb_exists; eauto).
  congruence.
Qed.

Lemma insert_then_get t (data : jsobject) w w' res id :
  DatabaseManager.insert t (JObj data) w = (Ok res, w') ->
  DatabaseManager.inserted_id res = JStr id ->
  exists rec,
    bind_object (DatabaseManager.insert_record (JObj data) (clock (ticks w))
                   (JStr id)) = Some rec
    /\ known_columns t (keys rec) = true
    /\ db w' = set_rows t (rows t (db w) ++ [complete t rec]) (db w)
    /\ cache w' = cache w
    /\ stored_row t id (db w') = Some (complete t rec)
    /\ jget (row_object (complete t rec)) "id" = JStr id
    /\ jget (row_object (complete t rec)) "created_at" = JNum (clock (ticks w))
    /\ jget (row_object (complete t rec)) "updated_at" = JNum (clock (ticks w))
    /\ forall k v,
         k <> "id" -> k <> "created_at" -> k <> "updated_at" ->
         prop data k = Some v -> fits k v = true ->
         jget (row_object (complete t rec)) k = v.
Proof.
  intros Hrun Hid.
  destruct (insert_inversion t data w res w' Hrun) as (rec & Hbind & Hacc & -> & ->).
  cbn [DatabaseManager.inserted_id] in Hid. rewrite Hid in Hbind.
  unfold accepts in Hacc.
  apply andb_true_iff in Hacc as [Hacc Href].
  apply andb_true_iff in Hacc as [Hacc Hfree].
  apply andb_true_iff in Hacc as [Hknown Hok].
  assert (Hrid : prop rec "id" = Some (SText id)).
  { rewrite (bind_object_prop _ _ "id" Hbind).
    unfold DatabaseManager.insert_record.
    rewrite !prop_set_prop_other by discriminate.
    rewrite prop_set_prop_same. reflexivity. }
  assert (Hfid : field (complete t rec) "id" = SText id).
  { now apply field_complete. }
  assert (Hstamp : forall k, k = "created_at" \/ k = "updated_at" ->
                             prop rec k = Some (SInt (clock (ticks w)))).
  { intros k Hk. rewrite (bind_object_prop _ _ k Hbind).
    unfold DatabaseManager.insert_record.
    destruct Hk as [-> | ->].
    - rewrite prop_set_prop_other by discriminate.
      now rewrite prop_set_prop_same.
    - now rewrite prop_set_prop_same. }
  assert (Hcol : forall k x, prop rec k = Some x ->
                             jget (row_object (complete t rec)) k = unbind_value x).
  { intros k x Hk. rewrite jget_row_object.
    assert (Hc : is_column t k = true).
    { apply (known_column t (keys rec)); [assumption|].
      apply has_prop_keys. unfold has_prop. now rewrite Hk. }
    now rewrite (prop_complete t rec k x Hc Hk). }
  exists rec. cbn [db cache].
  split; [exact Hbind|]. split; [exact Hknown|].
  split; [reflexivity|]. split; [reflexivity|].
  split.
  { unfold stored_row. rewrite rows_set_rows_same.
    apply find_app_fresh.
    - intros a Ha.
      unfold keys_free in Hfree. apply andb_true_iff in Hfree as [Hfree _].
      apply negb_true_iff in Hfree. rewrite Hfid in Hfree.
      rewrite sql_eq_sym. apply (mem_val_false _ _ Hfree).
      unfold ids, column_values.
      exact (in_map (fun r => field r "id") _ a Ha).
    - rewrite Hfid. apply sql_eq_text_refl. }
  split; [now rewrite (Hcol "id" _ Hrid)|].
  split; [now rewrite (Hcol "created_at" _ (Hstamp _ (or_introl eq_refl)))|].
  split; [now rewrite (Hcol "updated_at" _ (Hstamp _ (or_intror eq_refl)))|].
  intros k v H1 H2 H3 Hk Hfit.
  assert (Hb : exists x, bind_value v = Some x /\ prop rec k = Some x).
  { pose proof (bind_object_prop _ _ k Hbind) as Hp.
    rewrite prop_insert_record in Hp by assumption.
    rewrite Hk in Hp.
    destruct v; cbn [fits] in Hfit; try discriminate Hfit;
      cbn [bind_value] in Hp |- *; (eexists; split; [reflexivity | exact Hp]). }
  destruct Hb as (x & Hbx & Hpx).
  rewrite (Hcol k x Hpx). now apply (fits_unbind k).
Qed.

End StoreFacts.

(** X8.  Insert, then look up.  When [insert(table, data)] has succeeded
    and returned a string as the record's id, the very next
    [get(table, { id })] returns the stored record: its [id] is that
    string, [created_at] and [updated_at] are the time of the insertion,
    and every other property of [data] whose value has the declared type
    of its column (a number for an INTEGER column, a string for a TEXT
    column, or [null]) is read back as it was given. *)
Theorem X8_insert_then_get_returns_the_record :
  forall {H : Host} (t : table) (data : jsobject) (w w' : World)
         (res : DatabaseManager.inserted) (id : string),
    DatabaseManager.insert t (JObj data) w = (Ok res, w') ->
    DatabaseManager.inserted_id res = JStr id ->
    exists stored,
      DatabaseManager.get t [("id", JStr id)] w' = (Ok (Some stored), w')
      /\ jget stored "id" = JStr id
      /\ jget stored "created_at" = JNum (clock (ticks w))
      /\ jget stored "updated_at" = JNum (clock (ticks w))
      /\ forall k v,
           k <> "id" -> k <> "created_at" -> k <> "updated_at" ->
           prop data k = Some v -> fits k v = true ->
           jget stored k = v.
Proof.
  intros H t data w w' res id Hrun Hid.
  destruct (insert_then_get t data w w' res id Hrun Hid)
    as (rec & _ & _ & _ & _ & Hstored & Hi & Hc & Hu & Hrest).
  exists (row_object (complete t rec)).
  split; [rewrite get_by_id, Hstored; reflexivity|].
  repeat split; assumption.
Qed.

Lemma X8_insert_then_get_returns_the_record_witness :
  let data := [("id", JStr "bob"); ("name", JStr "Bob"); ("affection", JNum 70)] in
  let run := DatabaseManager.insert (H := Demo.host) Characters (JObj data)
               Demo.alice_world in
  exists stored,
    DatabaseManager.get Characters [("id", JStr "bob")] (snd run)
    = (Ok (Some stored), snd run)
    /\ jget stored "id" = JStr "bob"
    /\ jget stored "created_at"
       = JNum (clock (Host := Demo.host) (ticks Demo.alice_world))
    /\ jget stored "updated_at"
       = JNum (clock (Host := Demo.host) (ticks Demo.alice_world))
    /\ forall k v,
         k <> "id" -> k <> "created_at" -> k <> "updated_at" ->
         prop data k = Some v -> fits k v = true ->
         jget stored k = v.
Proof.
  intros data run.
  apply (X8_insert_then_get_returns_the_record (H := Demo.host) Characters data
           Demo.alice_world (snd run)
           {| DatabaseManager.inserted_id := JStr "bob";
              DatabaseManager.inserted_changes := 1 |} "bob");
    reflexivity.
Defined.
Lemma delete_by_id t id w :
  DatabaseManager.delete t [("id", JStr id)] w
  = match engine_delete t (fun r => sql_eq (field r "id") (SText id) && true)
            (db w) with
    | None => (Throw "FOREIGN KEY constraint failed", w)
    | Some (d', n) => (Ok n, with_db d' w)
    end.
Proof.
  assert (Hcol : is_column t "id" = true) by (destruct t; reflexivity).
  unfold DatabaseManager.delete, bind, DatabaseManager.write_filter,
    DatabaseManager.lift, ret.
  cbn [DatabaseManager._buildWhereClause app DatabaseManager.selector
       DatabaseManager.cond_column DatabaseManager.cond_values
       DatabaseManager.bind_values bind_value].
  rewrite Hcol. cbn [negb].
  unfold get_db, put_db. cbn [db].
  destruct (engine_delete t _ (db w)) as [[d' k]|];
    cbn [or_throw ret throw fst snd]; reflexivity.
Qed.

Lemma filter_ext_bool {A} (f g : A -> bool) l :
  (forall x, f x = g x) -> filter f l = filter g l.
Proof.
  intros E. induction l as [|a l IH]; simpl; [reflexivity|].
  rewrite E, IH. reflexivity.
Qed.

Lemma find_filter_negb {A} (p : A -> bool) l :
  find p (filter (fun x => negb (p x)) l) = None.
Proof.
  induction l as [|a l IH]; simpl; [reflexivity|].
  destruct (p a) eqn:E; simpl; [exact IH|]. now rewrite E.
Qed.

Lemma find_none_filter {A} (p : A -> bool) l :
  find p l = None -> filter p l = [] /\ filter (fun x => negb (p x)) l = l.
Proof.
  induction l as [|a l IH]; simpl; [now split|].
  destruct (p a) eqn:E; [discriminate|]. intros Hn.
  destruct (IH Hn) as [-> ->]. now split.
Qed.

Lemma engine_delete_rows t sel d d' n :
  engine_delete t sel d = Some (d', n) ->
  rows t d' = filter (fun r => negb (sel r)) (rows t d)
  /\ n = Z.of_nat (List.length (filter sel (rows t d)))
  /\ (t <> Characters -> forall t', t' <> t -> rows t' d' = rows t' d).
Proof.
  assert (Hplain : forall t0,
    Some (set_rows t0 (filter (fun r => negb (sel r)) (rows t0 d)) d,
          Z.of_nat (List.length (filter sel (rows t0 d)))) = Some (d', n) ->
    rows t0 d' = filter (fun r => negb (sel r)) (rows t0 d)
    /\ n = Z.of_nat (List.length (filter sel (rows t0 d)))
    /\ (t0 <> Characters -> forall t', t' <> t0 -> rows t' d' = rows t' d)).
  { intros t0 E. injection E as <- <-.
    split; [apply rows_set_rows_same|]. split; [reflexivity|].
    intros _ t' Hne. apply rows_set_rows_other. congruence. }
  unfold engine_delete. cbv zeta. destruct t; try apply Hplain.
  - intros E. injection E as <- <-.
    split; [reflexivity|]. split; [reflexivity|].
    intros Hc. contradiction.
  - destruct (existsb _ _); [discriminate|]. apply Hplain.
Qed.

Lemma engine_delete_nothing t sel d d' n :
  engine_delete t sel d = Some (d', n) ->
  filter sel (rows t d) = [] ->
  filter (fun r => negb (sel r)) (rows t d) = rows t d ->
  d' = d.
Proof.
  unfold engine_delete. cbv zeta. intros Hrun Hgone Hkept.
  rewrite Hgone, Hkept in Hrun. cbn [ids column_values map mem_val existsb] in Hrun.
  rewrite set_rows_rows in Hrun.
  destruct t; try (now injection Hrun as <- _).
  - rewrite !filter_all in Hrun.
    change (inventory d) with (rows Inventory d) in Hrun.
    rewrite set_rows_rows in Hrun.
    change (memories d) with (rows Memories d) in Hrun.
    rewrite set_rows_rows in Hrun. now injection Hrun as <- _.
  - destruct (existsb _ _); [discriminate|]. now injection Hrun as <- _.
Qed.

(** X9.  Delete by id.  When [delete(table, { id })] has succeeded, the
    table holds exactly the rows it held before whose id is not the given
    one, in their order; the number of changes it returns is the number of
    rows that had the id; the very next [get(table, { id })] returns
    [null]; for every table but characters (whose deletions cascade) no
    other table has changed; and when no row had the id, the call returns
    0 and the whole database is as it was. *)
Theorem X9_delete_by_id_removes_exactly_the_row :
  forall (t : table) (id : string) (w w' : World) (n : Z),
    DatabaseManager.delete t [("id", JStr id)] w = (Ok n, w') ->
    rows t (db w')
    = filter (fun r => negb (sql_eq (field r "id") (SText id))) (rows t (db w))
    /\ n = Z.of_nat (List.length
                       (filter (fun r => sql_eq (field r "id") (SText id))
                               (rows t (db w))))
    /\ DatabaseManager.get t [("id", JStr id)] w' = (Ok None, w')
    /\ (t <> Characters -> forall t', t' <> t -> rows t' (db w') = rows t' (db w))
    /\ (stored_row t id (db w) = None -> n = 0 /\ db w' = db w).
Proof.
  intros t id w w' n. rewrite delete_by_id.
  destruct (engine_delete t _ (db w)) as [[d' m]|] eqn:E; [|discriminate].
  intros [= <- <-].
  destruct (engine_delete_rows _ _ _ _ _ E) as (Hrows & Hn & Hother).
  assert (Hsel : forall r : row,
             sql_eq (field r "id") (SText id) && true
             = sql_eq (field r "id") (SText id)) by (intros; apply andb_true_r).
  assert (Hrows' : rows t d'
                   = filter (fun r => negb (sql_eq (field r "id") (SText id)))
                            (rows t (db w))).
  { rewrite Hrows. apply filter_ext_bool. intros r. now rewrite Hsel. }
  split; [exact Hrows'|].
  split; [rewrite Hn; f_equal; f_equal; now apply filter_ext_bool|].
  split.
  { rewrite get_by_id. unfold stored_row. cbn [db with_db].
    rewrite Hrows'.
    rewrite (find_filter_negb (fun r => sql_eq (field r "id") (SText id))).
    reflexivity. }
  split; [exact Hother|].
  intros Hnone. unfold stored_row in Hnone.
  destruct (find_none_filter _ _ Hnone) as [Hgone Hkept].
  split.
  - rewrite Hn.
    rewrite (filter_ext_bool _ (fun r => sql_eq (field r "id") (SText id)))
      by exact Hsel.
    now rewrite Hgone.
  - cbn [db with_db]. apply (engine_delete_nothing _ _ _ _ _ E).
    + rewrite (filter_ext_bool _ (fun r => sql_eq (field r "id") (SText id)))
        by exact Hsel. exact Hgone.
    + rewrite (filter_ext_bool _ (fun r => negb (sql_eq (field r "id") (SText id))));
        [exact Hkept|]. intros r. now rewrite Hsel.
Qed.

Lemma X9_delete_by_id_removes_exactly_the_row_witness :
  let run := DatabaseManager.delete Inventory [("id", JStr "item-1")]
               Demo.town_world in
  rows Inventory (db Demo.town_world) = [Demo.key_item]
  /\ rows Inventory (db (snd run)) = []
  /\ rows Inventory (db (snd run))
     = filter (fun r => negb (sql_eq (field r "id") (SText "item-1")))
         (rows Inventory (db Demo.town_world))
  /\ 1 = Z.of_nat (List.length
                     (filter (fun r => sql_eq (field r "id") (SText "item-1"))
                             (rows Inventory (db Demo.town_world))))
  /\ DatabaseManager.get Inventory [("id", JStr "item-1")] (snd run)
     = (Ok None, snd run)
  /\ (Inventory <> Characters ->
      forall t', t' <> Inventory ->
                 rows t' (db (snd run)) = rows t' (db Demo.town_world))
  /\ (stored_row Inventory "item-1" (db Demo.town_world) = None ->
      1 = 0 /\ db (snd run) = db Demo.town_world).
Proof.
  intros run.
  split; [reflexivity|]. split; [reflexivity|].
  apply (X9_delete_by_id_removes_exactly_the_row Inventory "item-1"
           Demo.town_world (snd run) 1).
  reflexivity.
Defined.
Lemma engine_update_count t sets sel d d' n :
  engine_update t sets sel d = Some (d', n) ->
  n = Z.of_nat (List.length (filter sel (rows t d))).
Proof.
  unfold engine_update.
  repeat match goal with
         | |- (if ?b then _ else _) = _ -> _ => destruct b; [discriminate|]
         end.
  intros [= _ <-]. now rewrite length_map.
Qed.

Lemma Forall2_map_same {A} (R : A -> A -> Prop) (f : A -> A) l :
  (forall a, R a (f a)) -> Forall2 R l (map f l).
Proof.
  intros HR. induction l; simpl; constructor; auto.
Qed.

Lemma bind_object_none_prop (o : jsobject) (r : row) k :
  bind_object o = Some r -> prop o k = None -> prop r k = None.
Proof.
  intros Hb Hn. rewrite (bind_object_prop _ _ k Hb), Hn. reflexivity.
Qed.

(** X10.  Update by id.  When [update(table, { id }, data)] has succeeded,
    the number of changes it returns is the number of rows with that id; no
    other table has changed; the table has the same rows in the same order,
    each with the columns it had; a row with another id is untouched; and in
    a row with the id, [updated_at] is the time of the call, every column
    named in [data] holds the given value (when the value has the declared
    type of the column), and every column not named is as it was. *)
Theorem X10_update_by_id_changes_only_what_is_named :
  forall {H : Host} (t : table) (id : string) (data : jsobject)
         (w w' : World) (n : Z),
    DatabaseManager.update t [("id", JStr id)] data w = (Ok n, w') ->
    n = Z.of_nat (List.length
                    (filter (fun r => sql_eq (field r "id") (SText id))
                            (rows t (db w))))
    /\ (forall t', t' <> t -> rows t' (db w') = rows t' (db w))
    /\ Forall2
         (fun r r' =>
            keys r' = keys r
            /\ if sql_eq (field r "id") (SText id)
               then (has_prop r "updated_at" = true ->
                     field r' "updated_at" = SInt (clock (ticks w)))
                    /\ (forall k v,
                          prop data k = Some v -> k <> "updated_at" ->
                          has_prop r k = true -> fits k v = true ->
                          unbind_value (field r' k) = v)
                    /\ (forall k,
                          has_prop data k = false -> k <> "updated_at" ->
                          field r' k = field r k)
               else r' = r)
         (rows t (db w)) (rows t (db w')).
Proof.
  intros H t id data w w' n.
  rewrite update_by_id by (destruct t; reflexivity). cbv zeta.
  destruct (bind_object _) as [sets|] eqn:Eb; [|discriminate].
  destruct (engine_update t sets _ (db w)) as [[d' m]|] eqn:Eu; [|discriminate].
  intros [= <- <-].
  pose proof (engine_update_rows _ _ _ _ _ _ Eu) as Hd.
  pose proof (engine_update_count _ _ _ _ _ _ Eu) as Hn.
  assert (Hsel : forall r : row,
             sql_eq (field r "id") (SText id) && true
             = sql_eq (field r "id") (SText id)) by (intros; apply andb_true_r).
  split.
  { rewrite Hn. f_equal. f_equal. now apply filter_ext_bool. }
  subst d'. cbn [db with_db]. split.
  { intros t' Hne. apply rows_set_rows_other. congruence. }
  rewrite rows_set_rows_same.
  apply Forall2_map_same. intros r. rewrite Hsel.
  destruct (sql_eq (field r "id") (SText id)); [|split; reflexivity].
  split; [apply keys_assign|].
  split; [|split].
  - intros Hhas. unfold field.
    rewrite (prop_assign r sets "updated_at" (SInt (clock (ticks w))) Hhas);
      [reflexivity|].
    rewrite (bind_object_prop _ _ "updated_at" Eb).
    now rewrite prop_set_prop_same.
  - intros k v Hk Hne Hhas Hfit.
    assert (Hs : exists x, bind_value v = Some x /\ prop sets k = Some x).
    { pose proof (bind_object_prop _ _ k Eb) as Hp.
      rewrite prop_set_prop_other in Hp by congruence. rewrite Hk in Hp.
      destruct v; cbn [fits] in Hfit; try discriminate Hfit;
        cbn [bind_value] in Hp |- *; (eexists; split; [reflexivity | exact Hp]). }
    destruct Hs as (x & Hbx & Hsx).
    unfold field. rewrite (prop_assign r sets k x Hhas Hsx).
    now apply (fits_unbind k).
  - intros k Hno Hne. apply field_assign_other.
    apply (bind_object_none_prop _ _ k Eb).
    rewrite prop_set_prop_other by congruence.
    unfold has_prop in Hno. destruct (prop data k); [discriminate|reflexivity].
Qed.

Lemma X10_update_by_id_changes_only_what_is_named_witness :
  let data := [("affection", JNum 60)] in
  let w := Demo.alice_world in
  let run := DatabaseManager.update (H := Demo.host) Characters
               [("id", JStr "alice")] data w in
  1 = Z.of_nat (List.length
                  (filter (fun r => sql_eq (field r "id") (SText "alice"))
                          (rows Characters (db w))))
  /\ (forall t', t' <> Characters -> rows t' (db (snd run)) = rows t' (db w))
  /\ Forall2
       (fun r r' =>
          keys r' = keys r
          /\ if sql_eq (field r "id") (SText "alice")
             then (has_prop r "updated_at" = true ->
                   field r' "updated_at"
                   = SInt (clock (Host := Demo.host) (ticks w)))
                  /\ (forall k v,
                        prop data k = Some v -> k <> "updated_at" ->
                        has_prop r k = true -> fits k v = true ->
                        unbind_value (field r' k) = v)
                  /\ (forall k,
                        has_prop data k = false -> k <> "updated_at" ->
                        field r' k = field r k)
             else r' = r)
       (rows Characters (db w)) (rows Characters (db (snd run))).
Proof.
  intros data w run.
  apply (X10_update_by_id_changes_only_what_is_named (H := Demo.host)
           Characters "alice" data w (snd run) 1).
  reflexivity.
Defined.
(** X11.  The empty condition.  [delete(table, {})] and
    [update(table, {}, data)] write a statement whose WHERE clause is
    empty, which the engine refuses: both throw and leave the database as
    it was, for every table, data and world; whereas [getAll(table)] with
    no condition or an empty one returns every row of the table, in order. *)
Theorem X11_writes_need_a_condition :
  forall {H : Host} (t : table) (data : jsobject) (w : World),
    (exists e, DatabaseManager.delete t [] w = (Throw e, w))
    /\ (exists e w', DatabaseManager.update t [] data w = (Throw e, w')
                     /\ db w' = db w)
    /\ DatabaseManager.getAll t DatabaseManager.all_rows w
       = (Ok (map row_object (rows t (db w))), w)
    /\ DatabaseManager.getAll t (DatabaseManager.where_only []) w
       = (Ok (map row_object (rows t (db w))), w).
Proof.
  intros H t data w. split; [|split; [|split]].
  - eexists. reflexivity.
  - unfold DatabaseManager.update, bind, Date_now, DatabaseManager.lift, ret.
    cbn [DatabaseManager._buildWhereClause].
    destruct (bind_object _); cbn [or_throw ret throw];
      do 2 eexists; (split; [reflexivity|]); reflexivity.
  - apply getAll_all.
  - unfold DatabaseManager.getAll, bind, DatabaseManager.where_only,
      DatabaseManager.lift, ret, get_db.
    cbn. now rewrite filter_all.
Qed.

(** ** Frames: what a call leaves as it was *)

#[export] Instance same_cache_stepwise : Stepwise same_cache.
Proof.
  split; unfold same_cache; [reflexivity | intros a b c Hab Hbc; congruence].
Qed.

#[export] Instance same_db_stepwise : Stepwise same_db.
Proof.
  split; unfold same_db; [reflexivity | intros a b c Hab Hbc; congruence].
Qed.

#[export] Instance only_tables_stepwise ts : Stepwise (only_tables ts).
Proof.
  split; unfold only_tables; [reflexivity|].
  intros a b c Hab Hbc t Ht. now rewrite Hbc, Hab.
Qed.

#[export] Instance keeps_bound_stepwise o : Stepwise (keeps_bound o).
Proof.
  split; unfold keeps_bound; auto.
Qed.

Section Preserving.
Context (R : World -> World -> Prop) {HR : Stepwise R}.

Lemma preserves_ret {A} (a : A) : preserves R (ret a).
Proof. intros w. apply stepwise_refl. Qed.

Lemma preserves_throw {A} e : preserves R (@throw A e).
Proof. intros w. apply stepwise_refl. Qed.

Lemma preserves_bind {A B} (m : M A) (k : A -> M B) :
  preserves R m -> (forall a, preserves R (k a)) -> preserves R (bind m k).
Proof.
  intros Hm Hk w. unfold bind. specialize (Hm w).
  destruct (m w) as [[a|e] w1]; cbn [snd] in *.
  - eapply stepwise_trans; [exact Hm | apply Hk].
  - exact Hm.
Qed.

Lemma preserves_try_catch {A} (m : M A) handler :
  preserves R m -> (forall e, preserves R (handler e)) ->
  preserves R (try_catch m handler).
Proof.
  intros Hm Hh w. unfold try_catch. specialize (Hm w).
  destruct (m w) as [[a|e] w1]; cbn [snd] in *.
  - exact Hm.
  - eapply stepwise_trans; [exact Hm | apply Hh].
Qed.

Lemma preserves_attempt {A} (m : M A) :
  preserves R m -> preserves R (StateIntegrator.attempt m).
Proof.
  intros Hm w. unfold StateIntegrator.attempt. specialize (Hm w).
  now destruct (m w).
Qed.

Lemma preserves_lift {A} (o : outcome A) : preserves R (DatabaseManager.lift o).
Proof. destruct o; [apply preserves_ret | apply preserves_throw]. Qed.

Lemma preserves_or_throw {A} (o : option A) e : preserves R (or_throw o e).
Proof. destruct o; [apply preserves_ret | apply preserves_throw]. Qed.

Lemma preserves_get t where_ : preserves R (DatabaseManager.get t where_).
Proof. intros w. rewrite get_pure. apply stepwise_refl. Qed.

Lemma preserves_getAll t q : preserves R (DatabaseManager.getAll t q).
Proof. intros w. rewrite getAll_pure. apply stepwise_refl. Qed.

Lemma preserves_get_db : preserves R get_db.
Proof. intros w. apply stepwise_refl. Qed.

Lemma preserves_get_cache : preserves R get_cache.
Proof. intros w. apply stepwise_refl. Qed.

Lemma preserves_for_each {A} (l : list A) (body : A -> M unit) :
  (forall a, preserves R (body a)) -> preserves R (for_each l body).
Proof.
  intros Hb. induction l as [|a l IH]; cbn [for_each].
  - apply preserves_ret.
  - apply preserves_bind; [apply Hb | intros _; exact IH].
Qed.

Lemma preserves_process_each {A} kind (run : A -> M StateIntegrator.step) l r :
  (forall x, preserves R (run x)) ->
  preserves R (StateIntegrator.process_each kind run l r).
Proof.
  intros Hr. revert r. induction l as [|x l IH]; intros r; cbn.
  - apply preserves_ret.
  - apply preserves_bind; [apply Hr | intros s; apply IH].
Qed.

End Preserving.

Create HintDb frames.

(** Splits a computation along its binds, branches and matches. *)
Ltac preserving :=
  repeat first
    [ solve [apply preserves_ret; exact _]
    | solve [apply preserves_throw; exact _]
    | solve [apply preserves_lift; exact _]
    | solve [apply preserves_or_throw; exact _]
    | solve [apply preserves_get; exact _]
    | solve [apply preserves_getAll; exact _]
    | solve [apply preserves_get_db; exact _]
    | solve [apply preserves_get_cache; exact _]
    | assumption
    | solve [auto with frames]
    | apply preserves_bind; [exact _ | | intros ?]
    | apply preserves_try_catch; [exact _ | | intros ?]
    | apply preserves_attempt
    | match goal with
      | |- preserves _ (if ?b then _ else _) => destruct b
      | |- preserves _ (match ?x with _ => _ end) => destruct x
      | |- preserves _ (let (_, _) := ?x in _) => destruct x
      end ].
#[export] Instance bucket_not_grown_stepwise : Stepwise bucket_not_grown.
Proof.
  split; unfold bucket_not_grown; intros; lia.
Qed.

Lemma same_cache_Date_now {H : Host} : preserves same_cache Date_now.
Proof. intros w. reflexivity. Qed.

#[export] Hint Resolve same_cache_Date_now : frames.

Lemma same_cache_randomUUID {H : Host} : preserves same_cache randomUUID.
Proof. intros w. reflexivity. Qed.

#[export] Hint Resolve same_cache_randomUUID : frames.

Lemma same_cache_put_db d : preserves same_cache (put_db d).
Proof. intros w. reflexivity. Qed.

#[export] Hint Resolve same_cache_put_db : frames.

Lemma same_cache_insert {H : Host} t x : preserves same_cache (DatabaseManager.insert t x).
Proof.
  unfold DatabaseManager.insert.
  preserving.
Qed.

#[export] Hint Resolve same_cache_insert : frames.

Lemma same_cache_update {H : Host} t where_ data :
  preserves same_cache (DatabaseManager.update t where_ data).
Proof.
  unfold DatabaseManager.update.
  preserving.
Qed.

#[export] Hint Resolve same_cache_update : frames.

Lemma same_cache_delete t where_ :
  preserves same_cache (DatabaseManager.delete t where_).
Proof.
  unfold DatabaseManager.delete. preserving.
Qed.

#[export] Hint Resolve same_cache_delete : frames.

Lemma same_cache_raw s : preserves same_cache (DatabaseManager.raw s).
Proof.
  destruct s. unfold DatabaseManager.raw. preserving.
Qed.

#[export] Hint Resolve same_cache_raw : frames.

Lemma same_cache_transaction {A} (m : M A) :
  preserves same_cache m -> preserves same_cache (DatabaseManager.transaction m).
Proof.
  intros Hm w. unfold DatabaseManager.transaction. specialize (Hm w).
  destruct (m w) as [[a|e] w']; exact Hm.
Qed.

#[export] Hint Resolve same_cache_transaction : frames.

Lemma same_cache_parse_or {H : Host} v fallback :
  preserves same_cache (StateManager.parse_or v fallback).
Proof. unfold StateManager.parse_or, StateManager.parse_value. preserving. Qed.

#[export] Hint Resolve same_cache_parse_or : frames.

Lemma same_cache_parse_columns {H : Host} a b l :
  preserves same_cache (StateManager.parse_columns a b l).
Proof.
  induction l as [|item l IH]; cbn [StateManager.parse_columns];
    preserving.
Qed.

#[export] Hint Resolve same_cache_parse_columns : frames.

Lemma same_cache_id_or_fresh {H : Host} v : preserves same_cache (StateManager.id_or_fresh v).
Proof. unfold StateManager.id_or_fresh. preserving. Qed.

#[export] Hint Resolve same_cache_id_or_fresh : frames.

Lemma same_cache_getTimeline {H : Host} opts :
  preserves same_cache (StateManager.getTimeline opts).
Proof. unfold StateManager.getTimeline. preserving. Qed.

#[export] Hint Resolve same_cache_getTimeline : frames.

Lemma same_cache_getMemories {H : Host} id opts :
  preserves same_cache (StateManager.getMemories id opts).
Proof. unfold StateManager.getMemories. preserving. Qed.

#[export] Hint Resolve same_cache_getMemories : frames.

Lemma same_cache_getInventory {H : Host} id opts :
  preserves same_cache (StateManager.getInventory id opts).
Proof.
  unfold StateManager.getInventory.
  apply preserves_bind; [exact _ | apply preserves_getAll; exact _ |].
  intros items. induction items as [|item items IH];
    preserving.
Qed.

#[export] Hint Resolve same_cache_getInventory : frames.

Lemma same_cache_listSnapshots limit :
  preserves same_cache (StateManager.listSnapshots limit).
Proof. unfold StateManager.listSnapshots. preserving. Qed.

#[export] Hint Resolve same_cache_listSnapshots : frames.

Lemma same_cache_addTimelineEvent {H : Host} e :
  preserves same_cache (StateManager.addTimelineEvent e).
Proof.
  unfold StateManager.addTimelineEvent.
  preserving.
Qed.

#[export] Hint Resolve same_cache_addTimelineEvent : frames.

Lemma same_cache_createLocation {H : Host} data :
  preserves same_cache (StateManager.createLocation data).
Proof.
  unfold StateManager.createLocation.
  preserving.
Qed.

#[export] Hint Resolve same_cache_createLocation : frames.

Lemma same_cache_addInventoryItem {H : Host} id item :
  preserves same_cache (StateManager.addInventoryItem id item).
Proof.
  unfold StateManager.addInventoryItem.
  preserving.
Qed.

#[export] Hint Resolve same_cache_addInventoryItem : frames.

Lemma same_cache_updateInventoryItem {H : Host} id updates :
  preserves same_cache (StateManager.updateInventoryItem id updates).
Proof. unfold StateManager.updateInventoryItem. apply same_cache_update. Qed.

#[export] Hint Resolve same_cache_updateInventoryItem : frames.

Lemma same_cache_deleteInventoryItem id :
  preserves same_cache (StateManager.deleteInventoryItem id).
Proof. unfold StateManager.deleteInventoryItem. apply same_cache_delete. Qed.

#[export] Hint Resolve same_cache_deleteInventoryItem : frames.

Lemma same_cache_addMemory {H : Host} id memory :
  preserves same_cache (StateManager.addMemory id memory).
Proof.
  unfold StateManager.addMemory.
  preserving.
Qed.

#[export] Hint Resolve same_cache_addMemory : frames.

Lemma same_cache_createSnapshot {H : Host} description :
  preserves same_cache (StateManager.createSnapshot description).
Proof.
  unfold StateManager.createSnapshot.
  preserving.
Qed.

#[export] Hint Resolve same_cache_createSnapshot : frames.

Lemma same_cache_reinsert {H : Host} t state key :
  preserves same_cache (StateManager.reinsert t state key).
Proof.
  unfold StateManager.reinsert. preserving.
  apply preserves_for_each; [exact _|]. intros x. preserving.
Qed.

#[export] Hint Resolve same_cache_reinsert : frames.

Lemma same_cache_replace_state {H : Host} state :
  preserves same_cache (StateManager.replace_state state).
Proof.
  unfold StateManager.replace_state.
  preserving.
Qed.

#[export] Hint Resolve same_cache_replace_state : frames.

Lemma preserves_weaken {A} (R R' : World -> World -> Prop) (m : M A) :
  (forall w w', R w w' -> R' w w') -> preserves R m -> preserves R' m.
Proof. intros Hsub Hm w. apply Hsub, Hm. Qed.

Lemma same_cache_not_grown w w' : same_cache w w' -> bucket_not_grown w w'.
Proof. unfold same_cache, bucket_not_grown. intros ->. lia. Qed.

Lemma not_grown_keeps_bound o w w' : bucket_not_grown w w' -> keeps_bound o w w'.
Proof. unfold bucket_not_grown, keeps_bound, characters_bounded. lia. Qed.

Lemma map_size_nonneg {V} (m : jsmap V) : 0 <= map_size m.
Proof. unfold map_size. lia. Qed.

Lemma forget_character_bucket id w :
  StateManager.forget_character id w
  = (Ok tt,
     match id with
     | JStr k =>
         with_cache (StateManager.set_characters
                       (map_delete (cache_characters (cache w)) k) (cache w)) w
     | _ => w
     end).
Proof. destruct id; reflexivity. Qed.

Lemma not_grown_forget_character id :
  preserves bucket_not_grown (StateManager.forget_character id).
Proof.
  intros w. rewrite forget_character_bucket. unfold bucket_not_grown.
  destruct id; cbn [snd]; try lia.
  cbn [cache with_cache StateManager.set_characters cache_characters].
  unfold map_size. pose proof (length_map_delete (cache_characters (cache w)) s). lia.
Qed.

#[export] Hint Resolve not_grown_forget_character : frames.

Section BucketFrame.
Context {H : Host}.

Lemma not_grown_createCharacter data :
  preserves bucket_not_grown (StateManager.createCharacter data).
Proof.
  unfold StateManager.createCharacter. preserving;
    apply (preserves_weaken same_cache); auto using same_cache_not_grown with frames.
Qed.

Lemma not_grown_updateCharacterState id updates :
  preserves bucket_not_grown (StateManager.updateCharacterState id updates).
Proof.
  unfold StateManager.updateCharacterState. preserving;
    apply (preserves_weaken same_cache); auto using same_cache_not_grown with frames.
Qed.

Lemma not_grown_deleteCharacter id :
  preserves bucket_not_grown (StateManager.deleteCharacter id).
Proof.
  unfold StateManager.deleteCharacter. preserving;
    apply (preserves_weaken same_cache); auto using same_cache_not_grown with frames.
Qed.

Lemma parse_or_pure v fallback w : snd (StateManager.parse_or v fallback w) = w.
Proof.
  unfold StateManager.parse_or. destruct (truthy v); [apply parse_value_pure|reflexivity].
Qed.

Lemma getLocation_characters o id w :
  cache_characters (cache (snd (StateManager.getLocation o id w)))
  = cache_characters (cache w).
Proof.
  unfold StateManager.getLocation, bind, get_cache.
  destruct (cached_keeps_store o (cache_locations (cache w)) id w) as [_ Hc].
  destruct (StateManager.cached o (cache_locations (cache w)) id w)
    as [[[d|]|e] w1]; cbn [snd ret] in *; try now rewrite Hc.
  rewrite get_by_id.
  destruct (stored_row Locations id (db w1)) as [loc|]; cbn [option_map snd ret];
    [|now rewrite Hc].
  pose proof (parse_or_pure (jget (row_object loc) "connected_to") (JArr []) w1) as P1.
  destruct (StateManager.parse_or (jget (row_object loc) "connected_to") (JArr []) w1)
    as [[c1|e1] w2]; cbn [snd] in P1; subst w2; [|cbn [snd]; now rewrite Hc].
  pose proof (parse_or_pure (jget (row_object loc) "metadata") (JObj []) w1) as P2.
  destruct (StateManager.parse_or (jget (row_object loc) "metadata") (JObj []) w1)
    as [[c2|e2] w2]; cbn [snd] in P2; subst w2; [|cbn [snd]; now rewrite Hc].
  destruct (StateManager.enableCache o); cbn; now rewrite Hc.
Qed.

Lemma restoreSnapshot_cache id w :
  match StateManager.restoreSnapshot id w with
  | (Ok _, w') => cache w' = empty_cache
  | (Throw _, w') => cache w' = cache w
  end.
Proof.
  rewrite restoreSnapshot_run.
  destruct (stored_snapshot id (db w)) as [snap|]; [|reflexivity].
  destruct (StateManager.parse_value _ w) as [[state|e] w0]; [|reflexivity].
  pose proof (same_cache_replace_state state w) as Hc. unfold same_cache in Hc.
  destruct (StateManager.replace_state state w) as [[[]|e] w']; cbn [snd] in Hc.
  - reflexivity.
  - exact Hc.
Qed.

Lemma after_keeps_bound o c w : keeps_bound o w (after o c w).
Proof.
  assert (Hsame : forall A (m : M A), preserves same_cache m ->
                                       keeps_bound o w (snd (m w))).
  { intros A m Hm. apply not_grown_keeps_bound, same_cache_not_grown, Hm. }
  assert (Hnot : forall A (m : M A), preserves bucket_not_grown m ->
                                      keeps_bound o w (snd (m w))).
  { intros A m Hm. apply not_grown_keeps_bound, Hm. }
  destruct c; cbn [after];
    try (apply Hsame; auto with frames; fail).
  - intros Hb. now apply character_bucket_stays_bounded.
  - apply Hnot, not_grown_createCharacter.
  - apply Hnot, not_grown_updateCharacterState.
  - apply Hnot, not_grown_deleteCharacter.
  - intros Hb. unfold characters_bounded in *. now rewrite getLocation_characters.
  - intros Hb. unfold characters_bounded in *.
    pose proof (restoreSnapshot_cache snapshotId w) as Hc.
    destruct (StateManager.restoreSnapshot snapshotId w) as [[r|e] w'];
      cbn [snd]; rewrite Hc; [|exact Hb].
    cbn. pose proof (map_size_nonneg (cache_characters (cache w))). lia.
  - intros Hb. unfold characters_bounded in *. cbn.
    pose proof (map_size_nonneg (cache_characters (cache w))). lia.
Qed.

End BucketFrame.

(** X12.  The cache after a restore.  When [restoreSnapshot] succeeds,
    the three buckets of the cache are empty afterwards, so the next
    [getCharacterState], for any id, answers from the restored database;
    when it throws, the cache is exactly what it was. *)
Theorem X12_restore_clears_the_cache_on_success_only :
  forall {H : Host} (o : StateManager.options) (snapshotId : string) (w : World),
    match StateManager.restoreSnapshot snapshotId w with
    | (Ok _, w') =>
        cache w' = empty_cache
        /\ forall characterId,
             fst (StateManager.getCharacterState o characterId w')
             = Ok (option_map row_object (stored_character characterId (db w')))
    | (Throw _, w') => cache w' = cache w
    end.
Proof.
  intros H o id w.
  pose proof (restoreSnapshot_cache id w) as Hc.
  destruct (StateManager.restoreSnapshot id w) as [[r|e] w']; [|exact Hc].
  split; [exact Hc|].
  intros cid.
  destruct (getCharacterState_uncached o cid w') as [w2 Hrun].
  - now rewrite Hc.
  - now rewrite Hrun.
Qed.

(** X13.  The characters bucket stays within its bound.  If the characters
    bucket of the cache holds at most [cacheSize] entries, it still does
    after any sequence of calls of the state manager, whatever they are and
    whether they return or throw. *)
Theorem X13_characters_bucket_is_bounded_by_every_call :
  forall {H : Host} (o : StateManager.options) (calls : list call) (w : World),
    characters_bounded o w ->
    characters_bounded o (after_all o calls w).
Proof.
  intros H o calls. unfold after_all.
  induction calls as [|c calls IH]; intros w Hb; cbn [fold_left].
  - exact Hb.
  - apply IH. now apply after_keeps_bound.
Qed.

Lemma X13_characters_bucket_is_bounded_by_every_call_witness :
  let o := StateManager.new_options None (Some 1) None in
  let calls := [CreateCharacter [("id", JStr "bob"); ("name", JStr "Bob")];
                GetCharacterState "alice"; GetCharacterState "bob";
                GetLocation "loc-1";
                UpdateCharacterState "bob" [("affection", JNum 10)]] in
  characters_bounded o Demo.town_world
  /\ characters_bounded o (after_all (H := Demo.host) o calls Demo.town_world).
Proof.
  intros o calls.
  assert (Hb : characters_bounded o Demo.town_world) by (vm_compute; discriminate).
  split; [exact Hb|].
  apply (X13_characters_bucket_is_bounded_by_every_call (H := Demo.host) o calls
           Demo.town_world Hb).
Defined.
(** ** The state manager: reading, deleting, creating *)

Lemma sql_eq_text a s : sql_eq a (SText s) = true -> a = SText s.
Proof.
  unfold sql_eq, sql_compare. destruct a as [|n|s']; try discriminate.
  destruct (String.compare s' s) eqn:E; try discriminate.
  intros _. apply String.compare_eq_iff in E. now subst.
Qed.

Lemma mem_val_same_ids v id (gone : list row) :
  gone <> [] ->
  (forall g, In g gone -> sql_eq (field g "id") (SText id) = true) ->
  mem_val v (ids gone) = sql_eq v (SText id).
Proof.
  intros Hne Hall. unfold mem_val, ids, column_values.
  induction gone as [|g gone IH]; [contradiction|].
  cbn [map existsb].
  rewrite (sql_eq_text _ _ (Hall g (or_introl eq_refl))).
  destruct (sql_eq v (SText id)) eqn:E; [reflexivity|].
  destruct gone as [|g' gone']; [reflexivity|].
  cbn [orb]. apply IH; [discriminate|].
  intros x Hx. apply Hall. now right.
Qed.

Lemma filter_filter_negb {A} (p : A -> bool) l :
  filter p (filter (fun x => negb (p x)) l) = [].
Proof.
  induction l as [|a l IH]; simpl; [reflexivity|].
  destruct (p a) eqn:E; simpl; [exact IH|]. now rewrite E.
Qed.

Lemma getAll_where_text t column value w :
  is_column t column = true ->
  DatabaseManager.getAll t (DatabaseManager.where_only [(column, JStr value)]) w
  = (Ok (map row_object
           (filter (fun r => sql_eq (field r column) (SText value) && true)
                   (rows t (db w)))), w).
Proof.
  intros Hcol.
  unfold DatabaseManager.getAll, bind, DatabaseManager.where_only,
    DatabaseManager.lift, DatabaseManager.select_filter, ret, get_db.
  cbn [DatabaseManager.q_where DatabaseManager.q_orderBy DatabaseManager.q_order
       DatabaseManager.q_limit DatabaseManager.q_offset
       DatabaseManager._buildWhereClause app DatabaseManager.selector
       DatabaseManager.cond_column DatabaseManager.cond_values
       DatabaseManager.bind_values bind_value].
  rewrite Hcol. reflexivity.
Qed.

Lemma engine_delete_characters sel d d' n :
  engine_delete Characters sel d = Some (d', n) ->
  characters d' = filter (fun r => negb (sel r)) (characters d)
  /\ inventory d'
     = filter (fun r => negb (mem_val (field r "character_id")
                                (ids (filter sel (characters d)))))
         (inventory d)
  /\ memories d'
     = filter (fun r => negb (mem_val (field r "character_id")
                                (ids (filter sel (characters d)))))
         (memories d)
  /\ timeline d' = timeline d /\ locations d' = locations d
  /\ state_snapshots d' = state_snapshots d
  /\ validation_logs d' = validation_logs d.
Proof.
  unfold engine_delete. cbv zeta. intros [= <- _]. repeat split.
Qed.

Section ManagerFacts.
Context {H : Host}.

Lemma deleteCharacter_run id w :
  StateManager.deleteCharacter id w
  = match engine_delete Characters
            (fun r => sql_eq (field r "id") (SText id) && true) (db w) with
    | None => (Throw "FOREIGN KEY constraint failed", w)
    | Some (d', n) =>
        (Ok n,
         with_cache (StateManager.set_characters
                       (map_delete (cache_characters (cache w)) id) (cache w))
           (with_db d' w))
    end.
Proof.
  unfold StateManager.deleteCharacter, bind. rewrite delete_by_id.
  destruct (engine_delete Characters _ (db w)) as [[d' n]|]; reflexivity.
Qed.

End ManagerFacts.

(** X14.  Deleting a character.  When [deleteCharacter(id)] has succeeded
    for a character that was stored, the character is gone, and so are
    exactly the inventory items and the memories whose [character_id] is
    that id (the cascade of the schema), while those of other characters and
    the other tables are as they were; the next [getCharacterState(id)]
    returns [null], whatever the cache held, and [getInventory(id)] returns
    the empty list. *)
Theorem X14_deleting_a_character_takes_its_items_and_memories :
  forall {H : Host} (o : StateManager.options) (characterId : string)
         (w w' : World) (n : Z) (c : row),
    StateManager.deleteCharacter characterId w = (Ok n, w') ->
    stored_character characterId (db w) = Some c ->
    stored_character characterId (db w') = None
    /\ inventory (db w')
       = filter (fun r => negb (sql_eq (field r "character_id") (SText characterId)))
           (inventory (db w))
    /\ memories (db w')
       = filter (fun r => negb (sql_eq (field r "character_id") (SText characterId)))
           (memories (db w))
    /\ (forall t, t <> Characters -> t <> Inventory -> t <> Memories ->
                  rows t (db w') = rows t (db w))
    /\ fst (StateManager.getCharacterState o characterId w') = Ok None
    /\ StateManager.getInventory characterId [] w' = (Ok [], w').
Proof.
  intros H o id w w' n c. rewrite deleteCharacter_run.
  destruct (engine_delete Characters _ (db w)) as [[d' m]|] eqn:E; [|discriminate].
  intros [= <- <-] Hstored.
  cbn [db with_cache with_db].
  set (sel := fun r : row => sql_eq (field r "id") (SText id) && true) in *.
  set (keep := fun r : row =>
                 negb (sql_eq (field r "character_id") (SText id))).
  assert (Hsel : forall r, sel r = sql_eq (field r "id") (SText id))
    by (intros; apply andb_true_r).
  assert (Hgone : filter sel (characters (db w)) <> []).
  { unfold stored_character in Hstored.
    apply find_some in Hstored as [Hin Hc].
    intros Hnil.
    assert (Hin' : In c (filter sel (characters (db w)))).
    { apply filter_In. split; [exact Hin | now rewrite Hsel]. }
    rewrite Hnil in Hin'. contradiction. }
  assert (Horphan : forall r,
             negb (mem_val (field r "character_id")
                     (ids (filter sel (characters (db w)))))
             = keep r).
  { intros r. unfold keep. f_equal. apply mem_val_same_ids; [exact Hgone|].
    intros g Hg. apply filter_In in Hg as [_ Hg]. now rewrite Hsel in Hg. }
  destruct (engine_delete_characters _ _ _ _ E)
    as (Hchars & Hinv & Hmem & Htl & Hloc & Hsnap & Hlog).
  assert (Hnone : stored_character id d' = None).
  { unfold stored_character. rewrite Hchars.
    rewrite (find_ext _ sel) by (intros; now rewrite Hsel).
    apply find_filter_negb. }
  split; [exact Hnone|].
  split.
  { rewrite Hinv. apply filter_ext_bool. exact Horphan. }
  split.
  { rewrite Hmem. apply filter_ext_bool. exact Horphan. }
  split.
  { intros t H1 H2 H3. destruct t; try contradiction; assumption. }
  split.
  { match goal with
    | |- fst (StateManager.getCharacterState o id ?w1) = _ =>
        destruct (getCharacterState_uncached o id w1) as [w2 Hrun]
    end.
    - cbn [cache with_cache with_db StateManager.set_characters cache_characters].
      apply map_has_delete.
    - rewrite Hrun. cbn [fst db with_cache with_db]. now rewrite Hnone. }
  unfold StateManager.getInventory.
  cbn [jget prop truthy defined]. unfold bind.
  rewrite getAll_where_text by reflexivity.
  cbn [db with_cache with_db rows]. rewrite Hinv.
  rewrite (filter_ext_bool _ keep (inventory (db w))) by exact Horphan.
  rewrite (filter_ext_bool (fun r => sql_eq (field r "character_id") (SText id) && true)
             (fun r => sql_eq (field r "character_id") (SText id)))
    by (intros; apply andb_true_r).
  unfold keep. rewrite filter_filter_negb. reflexivity.
Qed.

Lemma X14_deleting_a_character_takes_its_items_and_memories_witness :
  let o := StateManager.default_options in
  let w := Demo.town_world in
  let w' := snd (StateManager.deleteCharacter "alice" w) in
  inventory (db w) = [Demo.key_item]
  /\ inventory (db w') = []
  /\ stored_character "alice" (db w') = None
  /\ inventory (db w')
     = filter (fun r => negb (sql_eq (field r "character_id") (SText "alice")))
         (inventory (db w))
  /\ memories (db w')
     = filter (fun r => negb (sql_eq (field r "character_id") (SText "alice")))
         (memories (db w))
  /\ (forall t, t <> Characters -> t <> Inventory -> t <> Memories ->
                rows t (db w') = rows t (db w))
  /\ fst (StateManager.getCharacterState (H := Demo.host) o "alice" w') = Ok None
  /\ StateManager.getInventory (H := Demo.host) "alice" [] w' = (Ok [], w').
Proof.
  intros o w w'.
  split; [reflexivity|]. split; [reflexivity|].
  apply (X14_deleting_a_character_takes_its_items_and_memories (H := Demo.host)
           o "alice" w w' 1 (Demo.alice "neutral"));
    reflexivity.
Defined.
Section ManagerReads.
Context {H : Host}.

Lemma id_or_fresh_run (data : jsobject) w :
  StateManager.id_or_fresh (jget data "id") w
  = (Ok (chosen_id data w),
     {| db := db w; cache := cache w; ticks := ticks w;
        draws := if truthy (jget data "id") then draws w else S (draws w) |}).
Proof.
  unfold StateManager.id_or_fresh, chosen_id, bind, randomUUID, ret.
  destruct (truthy (jget data "id")); [destruct w|]; reflexivity.
Qed.

End ManagerReads.

(** X15.  Create, then read.  When [createCharacter(data)] has succeeded
    and the id of the new character (the caller's, or the UUID drawn when
    the caller gave none) is a non-empty string, the very next
    [getCharacterState(id)] returns the new character, whatever the cache
    held for that id: with the given name, with the given affection or 0
    when none (or 0) was given, and with the given emotion or "neutral"
    when none was given. *)
Theorem X15_a_created_character_is_read_back_with_its_defaults :
  forall {H : Host} (o : StateManager.options) (data : jsobject)
         (w w' : World) (res : DatabaseManager.inserted) (id : string),
    StateManager.createCharacter data w = (Ok res, w') ->
    chosen_id data w = JStr id ->
    id <> "" ->
    DatabaseManager.inserted_id res = JStr id
    /\ exists ch w2,
         StateManager.getCharacterState o id w' = (Ok (Some ch), w2)
         /\ jget ch "id" = JStr id
         /\ (forall name, jget data "name" = JStr name ->
                          jget ch "name" = JStr name)
         /\ (forall n, js_or (jget data "affection") (JNum 0) = JNum n ->
                       jget ch "affection" = JNum n)
         /\ (forall e, js_or (jget data "emotion") (JStr "neutral") = JStr e ->
                       jget ch "emotion" = JStr e).
Proof.
  intros H o data w w' res id Hrun Hid Hne.
  unfold StateManager.createCharacter in Hrun. unfold bind at 1 in Hrun.
  rewrite id_or_fresh_run, Hid in Hrun.
  unfold bind at 1 in Hrun.
  match type of Hrun with
  | context [DatabaseManager.insert Characters (JObj ?cd) ?wx] =>
      set (characterData := cd) in *; set (w0 := wx) in *
  end.
  destruct (DatabaseManager.insert Characters (JObj characterData) w0)
    as [[res0|e] w1] eqn:Eins; [|discriminate].
  unfold bind in Hrun. rewrite forget_character_bucket in Hrun.
  unfold ret in Hrun. injection Hrun as <- <-.
  assert (Hres : DatabaseManager.inserted_id res0 = JStr id).
  { destruct (insert_inversion _ _ _ _ _ Eins) as (rec & _ & _ & -> & _).
    cbn [DatabaseManager.inserted_id]. unfold chosen_id.
    cbn [characterData jget prop String.eqb Ascii.eqb Bool.eqb truthy].
    destruct (String.eqb id "") eqn:E; [apply String.eqb_eq in E; contradiction|].
    reflexivity. }
  split; [exact Hres|].
  destruct (insert_then_get _ _ _ _ _ _ Eins Hres)
    as (rec & _ & _ & _ & _ & Hstored & Hi & _ & _ & Hrest).
  match goal with
  | |- exists ch w2, StateManager.getCharacterState o id ?wf = _ /\ _ =>
      destruct (getCharacterState_uncached o id wf) as [w2 Hget]
  end.
  { cbn [cache with_cache StateManager.set_characters cache_characters].
    apply map_has_delete. }
  exists (row_object (complete Characters rec)), w2.
  split.
  { rewrite Hget. cbn [db with_cache].
    unfold stored_character. unfold stored_row in Hstored.
    cbn [rows] in Hstored. now rewrite Hstored. }
  split; [exact Hi|].
  split; [|split].
  - intros name Hname. apply Hrest; try discriminate.
    + cbn [characterData prop String.eqb Ascii.eqb Bool.eqb]. now rewrite Hname.
    + reflexivity.
  - intros n Hn. apply Hrest; try discriminate.
    + cbn [characterData prop String.eqb Ascii.eqb Bool.eqb]. now rewrite Hn.
    + reflexivity.
  - intros e He. apply Hrest; try discriminate.
    + cbn [characterData prop String.eqb Ascii.eqb Bool.eqb]. now rewrite He.
    + reflexivity.
Qed.

Lemma X15_a_created_character_is_read_back_with_its_defaults_witness :
  let o := StateManager.default_options in
  let data := [("id", JStr "bob"); ("name", JStr "Bob")] in
  let w := Demo.alice_world in
  let run := StateManager.createCharacter (H := Demo.host) data w in
  DatabaseManager.inserted_id
    {| DatabaseManager.inserted_id := JStr "bob";
       DatabaseManager.inserted_changes := 1 |} = JStr "bob"
  /\ exists ch w2,
       StateManager.getCharacterState (H := Demo.host) o "bob" (snd run)
       = (Ok (Some ch), w2)
       /\ jget ch "id" = JStr "bob"
       /\ (forall name, jget data "name" = JStr name -> jget ch "name" = JStr name)
       /\ (forall n, js_or (jget data "affection") (JNum 0) = JNum n ->
                     jget ch "affection" = JNum n)
       /\ (forall e, js_or (jget data "emotion") (JStr "neutral") = JStr e ->
                     jget ch "emotion" = JStr e).
Proof.
  intros o data w run.
  apply (X15_a_created_character_is_read_back_with_its_defaults (H := Demo.host)
           o data w (snd run)
           {| DatabaseManager.inserted_id := JStr "bob";
              DatabaseManager.inserted_changes := 1 |} "bob");
    solve [reflexivity | discriminate].
Defined.

(** X16.  The cache and its time to live.  With the cache enabled, a
    character entry of the cache that is younger than [cacheTTL] is what
    [getCharacterState] returns, without a look at the database (so a row
    changed behind the state manager is not seen); an entry as old as
    [cacheTTL] or older is ignored, and the call answers from the
    database. *)
Theorem X16_a_cached_character_is_served_until_it_expires :
  forall {H : Host} (o : StateManager.options) (characterId : string)
         (w : World) (entry : CacheEntry),
    StateManager.enableCache o = true ->
    map_get (cache_characters (cache w)) characterId = Some entry ->
    (clock (ticks w) - timestamp entry < StateManager.cacheTTL o ->
     StateManager.getCharacterState o characterId w
     = (Ok (Some (data entry)),
        {| db := db w; cache := cache w; ticks := S (ticks w);
           draws := draws w |}))
    /\ (StateManager.cacheTTL o <= clock (ticks w) - timestamp entry ->
        fst (StateManager.getCharacterState o characterId w)
        = Ok (option_map row_object (stored_character characterId (db w)))).
Proof.
  intros H o cid w entry Hen Hentry.
  assert (Hhas : map_has (cache_characters (cache w)) cid = true).
  { unfold map_has, has_prop. unfold map_get in Hentry. now rewrite Hentry. }
  split; intros Hage;
    unfold StateManager.getCharacterState, bind, get_cache, StateManager.cached;
    cbv beta iota; rewrite Hen, Hhas, Hentry; cbn [andb];
    unfold bind, Date_now; cbn [db cache ticks draws].
  - apply Z.ltb_lt in Hage. rewrite Hage. reflexivity.
  - apply Z.ltb_ge in Hage. rewrite Hage. cbn [ret].
    rewrite get_character. cbn [db].
    destruct (stored_character cid (db w)) as [r|]; reflexivity.
Qed.

Lemma X16_a_cached_character_is_served_until_it_expires_witness :
  let o := StateManager.default_options in
  let cached_world :=
    snd (StateManager.getCharacterState (H := Demo.host) o "alice"
           Demo.alice_world) in
  let w :=
    snd (DatabaseManager.update (H := Demo.host) Characters
           [("id", JStr "alice")] [("affection", JNum 60)] cached_world) in
  let entry := {| data := row_object (Demo.alice "neutral");
                  timestamp := 1700000000000 |} in
  option_map (fun r => field r "affection") (stored_character "alice" (db w))
  = Some (SInt 60)
  /\ jget (data entry) "affection" = JNum 50
  /\ (clock (Host := Demo.host) (ticks w) - timestamp entry
      < StateManager.cacheTTL o ->
      StateManager.getCharacterState (H := Demo.host) o "alice" w
      = (Ok (Some (data entry)),
         {| db := db w; cache := cache w; ticks := S (ticks w);
            draws := draws w |}))
  /\ (StateManager.cacheTTL o
      <= clock (Host := Demo.host) (ticks w) - timestamp entry ->
      fst (StateManager.getCharacterState (H := Demo.host) o "alice" w)
      = Ok (option_map row_object (stored_character "alice" (db w)))).
Proof.
  intros o cached_world w entry.
  split; [reflexivity|]. split; [reflexivity|].
  apply (X16_a_cached_character_is_served_until_it_expires (H := Demo.host)
           o "alice" w entry); reflexivity.
Defined.

Lemma textual_tokens m :
  textual m -> Conversation.tokens_of m = Ok (JNum (cost m)) /\ 0 <= cost m.
Proof.
  intros (fields & s & -> & Hc).
  unfold cost, Conversation.tokens_of, Conversation.member.
  rewrite Hc. cbn [Conversation.length_of Conversation.quarter
                   Conversation.number_of to_number].
  split; [reflexivity|].
  pose proof (Zle_0_nat (Text.length s)) as Hn.
  generalize dependent (Z.of_nat (Text.length s)). intros n Hn.
  assert ((- n) / 4 <= 0) by (apply Z.div_le_upper_bound; lia). lia.
Qed.

Lemma total_cost_app l1 l2 : total_cost (l1 ++ l2) = total_cost l1 + total_cost l2.
Proof. 
  induction l1 as [|m l1 IH]; [reflexivity|].
  unfold total_cost in *. cbn [app fold_right]. lia.
Qed.

Lemma total_cost_rev l : total_cost (rev l) = total_cost l.
Proof.
  induction l as [|m l IH]; [reflexivity|].
  cbn [rev]. rewrite total_cost_app, IH.
  unfold total_cost. cbn [fold_right]. lia.
Qed.

Lemma newest_rev {A} n (l : list A) : rev (firstn n (rev l)) = newest n l.
Proof. unfold newest. now rewrite firstn_rev, rev_involutive. Qed.

Lemma within_budget_textual (k : Z) (L : list json) :
  Forall textual L ->
  forall t filtered, t <= k ->
  exists j, (j <= List.length L)%nat
    /\ Conversation.within_budget L (JNum k) (JNum t) filtered
       = Ok (rev (firstn j L) ++ filtered)%list
    /\ t + total_cost (firstn j L) <= k
    /\ (j = List.length L \/ k < t + total_cost (firstn (S j) L)).
Proof.
  induction 1 as [|m L Hm HL IH]; intros t filtered Ht.
  - exists 0%nat. cbn. repeat split; try lia; now left.
  - destruct (textual_tokens m Hm) as [Htok Hpos].
    cbn [Conversation.within_budget]. rewrite Htok.
    cbn [js_add to_number Conversation.exceeds Conversation.number_of].
    destruct (k <? t + cost m) eqn:E.
    + apply Z.ltb_lt in E. exists 0%nat. cbn [firstn rev app total_cost fold_right List.length].
      repeat split; try lia; right; unfold total_cost; cbn [fold_right]; lia.
    + apply Z.ltb_ge in E.
      destruct (IH (t + cost m) (m :: filtered) E) as (j & Hj & Hrun & Hfit & Hmax).
      exists (S j). rewrite !firstn_cons. cbn [rev List.length]. rewrite <- app_assoc. cbn [app].
      repeat split; [lia | exact Hrun | | ].
      * change (total_cost (m :: firstn j L)) with (cost m + total_cost (firstn j L)). lia.
      * destruct Hmax as [-> | Hmax]; [now left | right].
        change (total_cost (m :: firstn (S j) L)) with (cost m + total_cost (firstn (S j) L)). lia.
Qed.
Lemma api_format_textual l :
  Forall textual l -> Conversation.api_format l = Ok (map sent l).
Proof.
  induction 1 as [|m l (fields & s & -> & Hc) Hl IH]; [reflexivity|].
  cbn [Conversation.api_format Conversation.member map sent]. now rewrite IH.
Qed.

Lemma textual_skipn n l : Forall textual l -> Forall textual (skipn n l).
Proof.
  intros Hl. apply Forall_forall. intros m Hm.
  rewrite Forall_forall in Hl. apply Hl.
  rewrite <- (firstn_skipn n l). apply in_or_app. now right.
Qed.

Lemma total_cost_nonneg l : Forall textual l -> 0 <= total_cost l.
Proof.
  induction 1 as [|m l Hm Hl IH]; [cbn; lia|].
  destruct (textual_tokens m Hm) as [_ Hpos].
  unfold total_cost in *. cbn [fold_right]. lia.
Qed.

Lemma total_cost_newest n l :
  Forall textual l -> total_cost (newest n l) <= total_cost l.
Proof.
  intros Hl. unfold newest.
  assert (Hsplit : total_cost l
                   = total_cost (firstn (List.length l - n) l)
                     + total_cost (skipn (List.length l - n) l))
    by now rewrite <- total_cost_app, firstn_skipn.
  assert (0 <= total_cost (firstn (List.length l - n) l)); [|lia].
  apply total_cost_nonneg. apply Forall_forall. intros m Hm.
  rewrite Forall_forall in Hl. apply Hl.
  rewrite <- (firstn_skipn (List.length l - n) l). apply in_or_app. now left.
Qed.

Lemma newest_all {A} n (l : list A) : (List.length l <= n)%nat -> newest n l = l.
Proof. intros Hn. unfold newest. replace (List.length l - n)%nat with 0%nat by lia. reflexivity. Qed.

Lemma newest_length {A} n (l : list A) :
  List.length (newest n l) = Nat.min n (List.length l).
Proof. unfold newest. rewrite length_skipn. lia. Qed.

Lemma getMessages_budget c items k :
  Conversation.messages c = JArr items ->
  Forall textual items ->
  0 < k ->
  exists n, (n <= List.length items)%nat
    /\ Conversation.getMessages [("maxTokens", JNum k)] c
       = Ok (map sent (newest n items))
    /\ total_cost (newest n items) <= k
    /\ (n = List.length items \/ k < total_cost (newest (S n) items)).
Proof.
  intros Hm Hitems Hk.
  assert (Hrev : Forall textual (rev items)).
  { apply Forall_forall. intros m Hin. rewrite Forall_forall in Hitems.
    apply Hitems. now apply in_rev. }
  destruct (within_budget_textual k (rev items) Hrev 0 [] ltac:(lia))
    as (j & Hj & Hrun & Hfit & Hmax).
  rewrite length_rev in Hj, Hmax.
  exists j. split; [exact Hj|].
  unfold Conversation.getMessages. rewrite Hm.
  cbn [Conversation.spread_items].
  change (jget [("maxTokens", JNum k)] "maxMessages") with JUndefined.
  change (jget [("maxTokens", JNum k)] "maxTokens") with (JNum k).
  cbn [truthy]. replace (k =? 0) with false by (symmetry; apply Z.eqb_neq; lia).
  cbn [negb]. rewrite Hrun, app_nil_r, newest_rev.
  split; [apply api_format_textual, textual_skipn, Hitems|].
  split.
  - rewrite <- newest_rev, total_cost_rev. lia.
  - destruct Hmax as [-> | Hmax]; [now left | right].
    rewrite <- newest_rev, total_cost_rev. lia.
Qed.

(** X17. [getMessages({ maxTokens: k })] with a positive budget, on messages
    whose content is text, returns the longest run of newest messages whose
    estimated tokens (a quarter of the content length, rounded up) fit in
    the budget together, oldest first, as role and content only: the total
    never exceeds the budget, and either every message is returned or the
    next older one would not have fitted.  A budget of 0 is no budget: every
    message is returned. *)
Theorem X17_a_token_budget_keeps_the_newest_messages_that_fit
    (c : Conversation.conversation) (items : list json) (k : Z) :
  Conversation.messages c = JArr items ->
  Forall textual items ->
  0 < k ->
  (exists n, (n <= List.length items)%nat
     /\ Conversation.getMessages [("maxTokens", JNum k)] c
        = Ok (map sent (newest n items))
     /\ total_cost (newest n items) <= k
     /\ (n = List.length items \/ k < total_cost (newest (S n) items)))
  /\ Conversation.getMessages [("maxTokens", JNum 0)] c = Ok (map sent items).
Proof.
  intros Hm Hitems Hk. split; [now apply getMessages_budget|].
  unfold Conversation.getMessages. rewrite Hm.
  cbn [Conversation.spread_items].
  change (jget [("maxTokens", JNum 0)] "maxMessages") with JUndefined.
  change (jget [("maxTokens", JNum 0)] "maxTokens") with (JNum 0).
  cbn [truthy Z.eqb negb]. now apply api_format_textual.
Qed.
Lemma textual_exchange : Forall textual exchange.
Proof. repeat constructor; eexists _, _; split; reflexivity. Qed.

Lemma X17_a_token_budget_keeps_the_newest_messages_that_fit_witness :
  Conversation.messages chat = JArr exchange
  /\ 0 < 6
  /\ (exists n, (n <= List.length exchange)%nat
        /\ Conversation.getMessages [("maxTokens", JNum 6)] chat
           = Ok (map sent (newest n exchange))
        /\ total_cost (newest n exchange) <= 6
        /\ (n = List.length exchange \/ 6 < total_cost (newest (S n) exchange)))
  /\ Conversation.getMessages [("maxTokens", JNum 0)] chat
     = Ok (map sent exchange).
Proof.
  split; [reflexivity|]. split; [lia|].
  apply (X17_a_token_budget_keeps_the_newest_messages_that_fit chat exchange 6);
    [reflexivity | exact textual_exchange | lia].
Defined.

(** X18. [getLastMessages(n)] and [getMessages({ maxMessages: n })] return
    the last [n] messages for a positive [n] (all of them when there are
    fewer); for [n = 0] they return every message, not none; for a negative
    [n] they drop the [-n] oldest messages. *)
Theorem X18_the_last_n_messages_and_the_edge_at_zero
    (c : Conversation.conversation) (items : list json) (n : Z) :
  Conversation.messages c = JArr items ->
  Forall textual items ->
  (0 < n ->
     Conversation.getLastMessages (JNum n) c
     = Ok (JArr (newest (Z.to_nat n) items))
     /\ Conversation.getMessages [("maxMessages", JNum n)] c
        = Ok (map sent (newest (Z.to_nat n) items))
     /\ List.length (newest (Z.to_nat n) items)
        = Nat.min (Z.to_nat n) (List.length items))
  /\ (n = 0 ->
      Conversation.getLastMessages (JNum n) c = Ok (JArr items)
      /\ Conversation.getMessages [("maxMessages", JNum n)] c
         = Ok (map sent items))
  /\ (n < 0 ->
      Conversation.getLastMessages (JNum n) c
      = Ok (JArr (skipn (Z.to_nat (- n)) items))
      /\ Conversation.getMessages [("maxMessages", JNum n)] c
         = Ok (map sent (skipn (Z.to_nat (- n)) items))).
Proof.
  intros Hm Hitems.
  unfold Conversation.getLastMessages, Conversation.getMessages. rewrite Hm.
  cbn [Conversation.spread_items].
  change (jget [("maxMessages", JNum n)] "maxMessages") with (JNum n).
  change (jget [("maxMessages", JNum n)] "maxTokens") with JUndefined.
  cbn [truthy Conversation.number_of to_number option_map Conversation.slice_from].
  split; [|split].
  - intros Hn.
    replace (n =? 0) with false by (symmetry; apply Z.eqb_neq; lia).
    replace (- n <? 0) with true by (symmetry; apply Z.ltb_lt; lia).
    cbn [negb].
    replace (Z.to_nat (Z.of_nat (List.length items) + - n))
      with (List.length items - Z.to_nat n)%nat by lia.
    fold (newest (Z.to_nat n) items).
    split; [reflexivity|]. split; [|apply newest_length].
    apply api_format_textual, textual_skipn, Hitems.
  - intros ->. cbn. split; [reflexivity|]. now apply api_format_textual.
  - intros Hn.
    replace (n =? 0) with false by (symmetry; apply Z.eqb_neq; lia).
    replace (- n <? 0) with false by (symmetry; apply Z.ltb_ge; lia).
    cbn [negb]. split; [reflexivity|].
    apply api_format_textual, textual_skipn, Hitems.
Qed.

Lemma X18_the_last_n_messages_and_the_edge_at_zero_witness :
  Conversation.messages chat = JArr exchange
  /\ Conversation.getLastMessages (JNum 2) chat
     = Ok (JArr (newest 2 exchange))
  /\ List.length (newest 2 exchange) = 2%nat
  /\ Conversation.getLastMessages (JNum 0) chat = Ok (JArr exchange).
Proof.
  split; [reflexivity|].
  pose proof (X18_the_last_n_messages_and_the_edge_at_zero chat exchange 2
                eq_refl textual_exchange) as [Hpos _].
  pose proof (X18_the_last_n_messages_and_the_edge_at_zero chat exchange 0
                eq_refl textual_exchange) as [_ [Hzero _]].
  destruct (Hpos ltac:(lia)) as (Hlast & _ & Hlen).
  destruct (Hzero eq_refl) as [Hall _].
  repeat split; assumption.
Defined.
Lemma well_formed_textual m : well_formed m -> textual m.
Proof. intros (fields & role & s & -> & _ & _ & Hc & _). now exists fields, s. Qed.

Lemma well_formed_all_textual l : Forall well_formed l -> Forall textual l.
Proof. intros Hl. eapply Forall_impl; [|exact Hl]. apply well_formed_textual. Qed.

Lemma tallied_constructor {H : Host} options w :
  truthy (jget options "messages") = false ->
  exists c w', Conversation.constructor options w = (Ok c, w') /\ tallied c.
Proof.
  intros Hm. unfold Conversation.constructor, bind, ret, Date_now, js_or.
  rewrite Hm.
  destruct (truthy (jget options "updatedAt"));
    (eexists _, _; split; [reflexivity|]; exists []; repeat split; constructor).
Qed.

Lemma includes_user_assistant v :
  StateValidator.includes ["user"; "assistant"] v = true ->
  exists role, v = JStr role /\ (role = "user" \/ role = "assistant").
Proof.
  destruct v; cbn; try discriminate. intros Hin. exists s. split; [reflexivity|].
  unfold mem_string in Hin. cbn in Hin.
  destruct (String.eqb s "user") eqn:E1; [apply String.eqb_eq in E1; now left|].
  destruct (String.eqb s "assistant") eqn:E2; [apply String.eqb_eq in E2; now right|].
  discriminate.
Qed.

Lemma tallied_addMessage {H : Host} fields c w :
  jget fields "content" = JUndefined
  \/ (exists s, jget fields "content" = JStr s) ->
  tallied c ->
  match Conversation.addMessage (JObj fields) c w with
  | (Ok (_, c'), _) => tallied c'
  | (Throw _, _) => True
  end.
Proof.
  intros Hcontent (items & Hm & Hwf & Htok).
  cbv beta iota zeta delta [Conversation.addMessage bind ret throw
    DatabaseManager.lift Conversation.member randomUUID Date_now].
  destruct (truthy (jget fields "role")) eqn:Hrole; cbn [negb orb]; [|exact I].
  destruct (truthy (jget fields "content")) eqn:Htruthy; cbn [negb]; [|exact I].
  destruct (StateValidator.includes ["user"; "assistant"] (jget fields "role"))
    eqn:Hin; cbn [negb]; [|exact I].
  destruct Hcontent as [Hc | [s Hc]]; [rewrite Hc in Htruthy; discriminate|].
  rewrite Hm, Hc. cbn [Conversation.length_of db cache ticks draws].
  destruct (includes_user_assistant _ Hin) as (role & Hr & Hrole').
  assert (Hs : s <> "").
  { intros ->. rewrite Hc in Htruthy. discriminate. }
  set (msg := JObj _).
  assert (Hmsg : well_formed msg).
  { eexists _, role, s. split; [reflexivity|]. repeat split; try assumption. }
  exists (items ++ [msg])%list. split; [reflexivity|]. split.
  - apply Forall_app. split; [exact Hwf | now constructor].
  - cbn [Conversation.estimatedTokens]. rewrite Htok, total_cost_app.
    assert (Hcost : total_cost [msg] = - (- Z.of_nat (Text.length s) / 4))
      by (unfold total_cost; cbn [fold_right]; rewrite Z.add_0_r; reflexivity).
    rewrite Hcost.
    reflexivity.
Qed.

Lemma tallied_after {H : Host} k s :
  says_text k -> tallied (fst s) -> tallied (fst (conversation_after k s)).
Proof.
  destruct s as [c w]. destruct k as [message|]; cbn [conversation_after fst snd].
  - intros Hsays Hc. destruct message; try contradiction.
    pose proof (tallied_addMessage fields c w Hsays Hc) as Hrun.
    destruct (Conversation.addMessage (JObj fields) c w) as [[[msg c']|e] w'];
      cbn [fst]; assumption.
  - intros _ _. unfold Conversation.clear, bind, ret, Date_now. cbn [fst].
    exists []. repeat split; constructor.
Qed.

Lemma tallied_after_all {H : Host} calls :
  Forall says_text calls ->
  forall s, tallied (fst s) -> tallied (fst (conversation_after_all calls s)).
Proof.
  unfold conversation_after_all.
  induction 1 as [|k calls Hk Hcalls IH]; intros s Hs; [exact Hs|].
  cbn [fold_left]. apply IH. now apply tallied_after.
Qed.

Lemma count_roles items :
  Forall well_formed items ->
  exists users assistants,
    Conversation.count_role "user" items = Ok users
    /\ Conversation.count_role "assistant" items = Ok assistants
    /\ users + assistants = Z.of_nat (List.length items).
Proof.
  induction 1 as [|m items (fields & role & s & -> & Hr & Hrole & _) Hitems IH].
  - exists 0, 0. repeat split.
  - destruct IH as (u & a & Hu & Ha & Hsum).
    cbn [Conversation.count_role Conversation.member]. rewrite Hu, Ha, Hr.
    cbn [strict_eq].
    destruct Hrole as [-> | ->]; cbn [String.eqb Ascii.eqb Bool.eqb andb];
      eexists _, _; (split; [reflexivity|]); (split; [reflexivity|]);
      cbn [List.length]; lia.
Qed.

Lemma tallied_stats c :
  tallied c ->
  exists items st,
    Conversation.messages c = JArr items
    /\ Forall well_formed items
    /\ Conversation.getStats c = Ok st
    /\ Conversation.totalMessages st = Z.of_nat (List.length items)
    /\ Conversation.userMessages st + Conversation.assistantMessages st
       = Conversation.totalMessages st
    /\ Conversation.stats_estimatedTokens st = JNum (total_cost items).
Proof.
  intros (items & Hm & Hwf & Htok).
  destruct (count_roles items Hwf) as (u & a & Hu & Ha & Hsum).
  exists items. eexists. split; [exact Hm|]. split; [exact Hwf|].
  unfold Conversation.getStats. rewrite Hm, Hu, Ha.
  split; [reflexivity|]. cbn. repeat split; assumption.
Qed.

Lemma tallied_budget c :
  tallied c ->
  exists items,
    Conversation.messages c = JArr items
    /\ Conversation.getMessages [("maxTokens", Conversation.estimatedTokens c)] c
       = Ok (map sent items).
Proof.
  intros (items & Hm & Hwf & Htok).
  exists items. split; [exact Hm|]. rewrite Htok.
  pose proof (well_formed_all_textual _ Hwf) as Htext.
  pose proof (total_cost_nonneg _ Htext) as Hpos.
  destruct (Z.eq_dec (total_cost items) 0) as [E | E].
  - rewrite E. unfold Conversation.getMessages. rewrite Hm.
    cbn [Conversation.spread_items].
    change (jget [("maxTokens", JNum 0)] "maxMessages") with JUndefined.
    change (jget [("maxTokens", JNum 0)] "maxTokens") with (JNum 0).
    cbn [truthy Z.eqb negb]. now apply api_format_textual.
  - destruct (getMessages_budget c items (total_cost items) Hm Htext ltac:(lia))
      as (n & Hn & Hrun & Hfit & Hmax).
    rewrite Hrun. destruct Hmax as [-> | Hmax].
    + now rewrite newest_all.
    + pose proof (total_cost_newest (S n) items Htext). lia.
Qed.
(** X19. A conversation made by [new Conversation(options)] without
    messages, after any sequence of [addMessage] calls (with objects whose
    content is text or missing; accepted or refused) and [clear] calls:
    every stored message has role user or assistant and a non-empty
    content, [getStats] returns, its [userMessages] and [assistantMessages]
    add up to [totalMessages], and its [estimatedTokens] is the sum of the
    estimates of the stored messages. *)
Theorem X19_the_statistics_of_a_conversation_add_up {H : Host}
    (options : jsobject) (calls : list conversation_call) (w : World) :
  truthy (jget options "messages") = false ->
  Forall says_text calls ->
  exists c0 w0,
    Conversation.constructor options w = (Ok c0, w0)
    /\ let c := fst (conversation_after_all calls (c0, w0)) in
       exists items st,
         Conversation.messages c = JArr items
         /\ Forall well_formed items
         /\ Conversation.getStats c = Ok st
         /\ Conversation.totalMessages st = Z.of_nat (List.length items)
         /\ Conversation.userMessages st + Conversation.assistantMessages st
            = Conversation.totalMessages st
         /\ Conversation.stats_estimatedTokens st = JNum (total_cost items).
Proof.
  intros Hm Hcalls.
  destruct (tallied_constructor options w Hm) as (c0 & w0 & Hrun & Hc0).
  exists c0, w0. split; [exact Hrun|]. cbv zeta.
  apply tallied_stats. now apply (tallied_after_all calls Hcalls (c0, w0)).
Qed.

(** X20. For such a conversation, [getMessages] with the conversation's own
    [estimatedTokens] as [maxTokens] returns every message: the estimate
    kept by [addMessage] and [clear] and the count made by [getMessages]
    agree. *)
Theorem X20_the_estimate_as_budget_returns_every_message {H : Host}
    (options : jsobject) (calls : list conversation_call) (w : World) :
  truthy (jget options "messages") = false ->
  Forall says_text calls ->
  exists c0 w0,
    Conversation.constructor options w = (Ok c0, w0)
    /\ let c := fst (conversation_after_all calls (c0, w0)) in
       exists items,
         Conversation.messages c = JArr items
         /\ Conversation.getMessages
              [("maxTokens", Conversation.estimatedTokens c)] c
            = Ok (map sent items).
Proof.
  intros Hm Hcalls.
  destruct (tallied_constructor options w Hm) as (c0 & w0 & Hrun & Hc0).
  exists c0, w0. split; [exact Hrun|]. cbv zeta.
  apply tallied_budget. now apply (tallied_after_all calls Hcalls (c0, w0)).
Qed.

(** X21. [Conversation.fromJSON(c.toJSON())], for a conversation with a
    truthy [updatedAt], [customData] and [messages], reads no clock and
    gives back the same id, title, character name, custom data, dates and
    messages, but its [estimatedTokens] is 0 whatever the original's was. *)
Theorem X21_a_reloaded_conversation_has_lost_its_estimate {H : Host}
    (c : Conversation.conversation) (w : World) :
  truthy (Conversation.updatedAt c) = true ->
  truthy (Conversation.customData c) = true ->
  truthy (Conversation.messages c) = true ->
  Conversation.fromJSON (JObj (Conversation.toJSON c)) w
  = (Ok (without_estimate c), w).
Proof.
  intros Hu Hd Hm.
  unfold Conversation.fromJSON, Conversation.toJSON, Conversation.constructor,
    without_estimate, bind, ret, js_or.
  cbn [jget prop String.eqb Ascii.eqb Bool.eqb].
  now rewrite Hu, Hd, Hm.
Qed.

Lemma X19_the_statistics_of_a_conversation_add_up_witness :
  truthy (jget new_chat "messages") = false
  /\ exists c0 w0,
       Conversation.constructor (H := Demo.host) new_chat Demo.alice_world
       = (Ok c0, w0)
       /\ let c := fst (conversation_after_all (H := Demo.host) greetings
                          (c0, w0)) in
          exists items st,
            Conversation.messages c = JArr items
            /\ Forall well_formed items
            /\ Conversation.getStats c = Ok st
            /\ Conversation.totalMessages st = Z.of_nat (List.length items)
            /\ Conversation.userMessages st + Conversation.assistantMessages st
               = Conversation.totalMessages st
            /\ Conversation.stats_estimatedTokens st = JNum (total_cost items).
Proof.
  split; [reflexivity|].
  apply (X19_the_statistics_of_a_conversation_add_up (H := Demo.host)
           new_chat greetings Demo.alice_world); [reflexivity|].
  repeat (apply Forall_cons; [right; eexists; reflexivity|]).
  apply Forall_nil.
Defined.

Lemma X20_the_estimate_as_budget_returns_every_message_witness :
  truthy (jget new_chat "messages") = false
  /\ exists c0 w0,
       Conversation.constructor (H := Demo.host) new_chat Demo.alice_world
       = (Ok c0, w0)
       /\ let c := fst (conversation_after_all (H := Demo.host) greetings
                          (c0, w0)) in
          exists items,
            Conversation.messages c = JArr items
            /\ Conversation.getMessages
                 [("maxTokens", Conversation.estimatedTokens c)] c
               = Ok (map sent items).
Proof.
  split; [reflexivity|].
  apply (X20_the_estimate_as_budget_returns_every_message (H := Demo.host)
           new_chat greetings Demo.alice_world); [reflexivity|].
  repeat (apply Forall_cons; [right; eexists; reflexivity|]).
  apply Forall_nil.
Defined.

Lemma X21_a_reloaded_conversation_has_lost_its_estimate_witness :
  Conversation.estimatedTokens chat = JNum 9
  /\ Conversation.fromJSON (H := Demo.host) (JObj (Conversation.toJSON chat))
       Demo.alice_world
     = (Ok (without_estimate chat), Demo.alice_world).
Proof.
  split; [reflexivity|].
  apply (X21_a_reloaded_conversation_has_lost_its_estimate (H := Demo.host)
           chat Demo.alice_world); reflexivity.
Defined.

(** ** Sorting *)




Section Sorting.
Variable le : row -> row -> bool.
Hypothesis le_total : forall a b, le a b = false -> le b a = true.
Hypothesis le_trans : forall a b c, le a b = true -> le b c = true -> le a c = true.

Lemma insert_sorted_perm r l :
  Permutation (DatabaseManager.insert_sorted le r l) (r :: l).
Proof.
  induction l as [|x l IH]; cbn; [reflexivity|].
  destruct (le r x); [reflexivity|].
  rewrite IH. apply perm_swap.
Qed.

Lemma sort_rows_perm l : Permutation (DatabaseManager.sort_rows le l) l.
Proof.
  unfold DatabaseManager.sort_rows.
  induction l as [|x l IH]; cbn [fold_right]; [reflexivity|].
  rewrite insert_sorted_perm. now constructor.
Qed.


End Sorting.


Lemma insert_refused {H : Host} t x w e w' :
  DatabaseManager.insert t x w = (Throw e, w') -> db w' = db w.
Proof.
  unfold DatabaseManager.insert, bind, Date_now, DatabaseManager.lift, ret,
    throw, randomUUID.
  destruct (DatabaseManager.read_id x) as [given|e0];
    [|intros [= _ <-]; reflexivity].
  destruct (truthy given); cbn [db cache ticks draws];
    (destruct (bind_object _) as [rec|]; cbn [or_throw ret throw];
     [|intros [= _ <-]; reflexivity]);
    unfold get_db, put_db, engine_insert; cbn [db cache ticks draws];
    (destruct (accepts t _ rec); cbn [or_throw ret throw];
     [discriminate | intros [= _ <-]; reflexivity]).
Qed.

(** X23. [createSnapshot] never overwrites and never touches the state it
    records.  When it returns, it returns the id it drew, the snapshots
    table has exactly one more row, at the end, whose id was not yet used
    (and is the returned id when that is not empty), whose document is the
    serialisation of the five state tables as they were at the call and
    whose time is the time of the call, and no other table has changed;
    when it throws, the database is unchanged.  The cache is untouched in
    both cases. *)
Theorem X23_a_snapshot_is_appended_or_nothing_changes {H : Host}
    (description : json) (w : World) :
  let run := StateManager.createSnapshot description w in
  cache (snd run) = cache w
  /\ match fst run with
     | Ok id =>
         id = uuid (draws w)
         /\ exists r,
              state_snapshots (db (snd run))
              = (state_snapshots (db w) ++ [r])%list
              /\ field r "state_data"
                 = SText (JSON_stringify (snapshot_of (db w)))
              /\ field r "snapshot_time" = SInt (clock (ticks w))
              /\ mem_val (field r "id") (ids (state_snapshots (db w))) = false
              /\ (id <> "" -> field r "id" = SText id)
              /\ forall t, t <> StateSnapshots ->
                           rows t (db (snd run)) = rows t (db w)
     | Throw _ => db (snd run) = db w
     end.
Proof.
  intros run. split; [apply same_cache_createSnapshot|].
  set (w1 := {| db := db w; cache := cache w; ticks := S (ticks w);
                draws := S (draws w) |}).
  set (desc := match description with JUndefined => JStr "" | _ => description end).
  set (data := [("id", JStr (uuid (draws w)));
                ("snapshot_time", JNum (clock (ticks w)));
                ("state_data", JStr (JSON_stringify (snapshot_of (db w))));
                ("description", desc)]).
  assert (Hrun : StateManager.createSnapshot description w
                 = match DatabaseManager.insert StateSnapshots (JObj data) w1 with
                   | (Ok _, w2) => (Ok (uuid (draws w)), w2)
                   | (Throw e, w2) => (Throw e, w2)
                   end).
  { unfold StateManager.createSnapshot, bind at 1, randomUUID.
    cbv beta iota.
    unfold bind at 1. rewrite getAll_all.
    unfold bind at 1. rewrite getAll_all.
    unfold bind at 1. rewrite getAll_all.
    unfold bind at 1. rewrite getAll_all.
    unfold bind at 1. rewrite getAll_all.
    unfold bind at 1, Date_now. cbv beta iota. cbn [db cache ticks draws rows].
    unfold bind, ret. reflexivity. }
  subst run. rewrite Hrun. clear Hrun.
  destruct (DatabaseManager.insert StateSnapshots (JObj data) w1)
    as [[res|e] w2] eqn:Hins; cbn [fst snd].
  - destruct (insert_inversion _ _ _ _ _ Hins) as (rec & Hbind & Hacc & _ & ->).
    cbn [db]. split; [reflexivity|].
    exists (complete StateSnapshots rec).
    unfold accepts in Hacc.
    apply andb_true_iff in Hacc. destruct Hacc as [Hacc _].
    apply andb_true_iff in Hacc. destruct Hacc as [Hacc Hfree].
    apply andb_true_iff in Hacc. destruct Hacc as [Hknown _].
    assert (Hprop : forall k v x,
               k <> "id" -> k <> "created_at" -> k <> "updated_at" ->
               prop data k = Some v -> bind_value v = Some x ->
               field (complete StateSnapshots rec) k = x).
    { intros k v x H1 H2 H3 Hk Hv.
      apply (field_complete _ _ _ _ Hknown).
      rewrite (bind_object_prop _ _ k Hbind), prop_insert_record by assumption.
      now rewrite Hk. }
    split; [exact (rows_set_rows_same StateSnapshots _ (db w1))|].
    split; [eapply Hprop; try discriminate; reflexivity|].
    split; [eapply Hprop; try discriminate; reflexivity|].
    split.
    { unfold keys_free in Hfree. apply andb_true_iff in Hfree.
      destruct Hfree as [Hfree _]. apply negb_true_iff in Hfree.
      exact Hfree. }
    split.
    { intros Hne.
      apply (field_complete _ _ _ _ Hknown).
      rewrite (bind_object_prop _ _ "id" Hbind).
      unfold DatabaseManager.insert_record.
      rewrite !prop_set_prop_other by discriminate.
      rewrite prop_set_prop_same. unfold chosen_id.
      change (jget data "id") with (JStr (uuid (draws w))).
      cbn [truthy]. replace (String.eqb (uuid (draws w)) "") with false
        by (symmetry; now apply String.eqb_neq).
      reflexivity. }
    intros t Ht. apply rows_set_rows_other. congruence.
  - apply (insert_refused _ _ _ _ _ Hins).
Qed.

Lemma X23_a_snapshot_is_appended_or_nothing_changes_witness :
  let run := StateManager.createSnapshot (H := Demo.host)
               (JStr "before the duel") Demo.town_world in
  fst run = Ok "uuid-0"
  /\ cache (snd run) = cache Demo.town_world
  /\ match fst run with
     | Ok id =>
         id = uuid (Host := Demo.host) (draws Demo.town_world)
         /\ exists r,
              state_snapshots (db (snd run))
              = (state_snapshots (db Demo.town_world) ++ [r])%list
              /\ field r "state_data"
                 = SText (JSON_stringify (Host := Demo.host)
                            (snapshot_of (db Demo.town_world)))
              /\ field r "snapshot_time"
                 = SInt (clock (Host := Demo.host) (ticks Demo.town_world))
              /\ mem_val (field r "id")
                   (ids (state_snapshots (db Demo.town_world))) = false
              /\ (id <> "" -> field r "id" = SText id)
              /\ forall t, t <> StateSnapshots ->
                           rows t (db (snd run)) = rows t (db Demo.town_world)
     | Throw _ => db (snd run) = db Demo.town_world
     end.
Proof.
  intros run. split; [reflexivity|].
  apply (X23_a_snapshot_is_appended_or_nothing_changes (H := Demo.host)
           (JStr "before the duel") Demo.town_world).
Defined.
Lemma bind_object_binds (o : jsobject) (r : row) k v :
  bind_object o = Some r -> prop o k = Some v ->
  exists x, bind_value v = Some x.
Proof.
  revert r. induction o as [|[k' v'] o IH]; intros r; cbn [bind_object prop].
  - discriminate.
  - destruct (bind_value v') as [x'|] eqn:Ev; [|discriminate].
    destruct (bind_object o) as [r'|]; [|discriminate].
    intros _. destruct (String.eqb k' k).
    + intros [= <-]. now exists x'.
    + intros Hk. now apply (IH r').
Qed.

(** X24. [logValidation] never throws and touches nothing but the log: the
    cache and every table other than validation_logs are unchanged, and the
    log is either unchanged (the write failed and the failure was swallowed)
    or has exactly one more row, at the end, with [passed] stored as 1 or 0,
    the serialised details, the time of the call and, when the validation
    type is a string, that string as its type.  Only a string or a number
    can be logged as the type: with any other validation type ([undefined],
    [null], [NaN], a boolean, an array, an object) nothing is logged. *)
Theorem X24_logging_a_validation_never_throws {H : Host}
    (validationType passed details : json) (w : World) :
  let run := StateValidator.logValidation validationType passed details w in
  let logged := match details with JUndefined => JObj [] | _ => details end in
  fst run = Ok tt
  /\ cache (snd run) = cache w
  /\ (forall t, t <> ValidationLogs -> rows t (db (snd run)) = rows t (db w))
  /\ (validation_logs (db (snd run)) = validation_logs (db w)
      \/ exists r,
           validation_logs (db (snd run))
           = (validation_logs (db w) ++ [r])%list
           /\ (forall s, validationType = JStr s ->
                         field r "validation_type" = SText s)
           /\ field r "passed" = SInt (if truthy passed then 1 else 0)
           /\ field r "details" = SText (JSON_stringify logged)
           /\ field r "timestamp" = SInt (clock (ticks w)))
  /\ match validationType with
     | JStr _ | JNum _ => True
     | _ => db (snd run) = db w
     end.
Proof.
  intros run logged.
  set (w1 := {| db := db w; cache := cache w; ticks := S (ticks w);
                draws := draws w |}).
  set (data := [("timestamp", JNum (clock (ticks w)));
                ("validation_type", validationType);
                ("passed", JNum (if truthy passed then 1 else 0));
                ("details", JStr (JSON_stringify logged))]).
  assert (Hrun : run
                 = (Ok tt, snd (DatabaseManager.insert ValidationLogs
                                  (JObj data) w1))).
  { subst run. unfold StateValidator.logValidation, try_catch, bind, ret,
      Date_now. fold logged. fold w1. fold data.
    destruct (DatabaseManager.insert ValidationLogs (JObj data) w1)
      as [[res|e] w2]; reflexivity. }
  rewrite Hrun. cbn [fst snd]. split; [reflexivity|].
  destruct (DatabaseManager.insert ValidationLogs (JObj data) w1)
    as [[res|e] w2] eqn:Hins; cbn [snd].
  - destruct (insert_inversion _ _ _ _ _ Hins) as (rec & Hbind & Hacc & _ & ->).
    cbn [db cache]. split; [reflexivity|].
    unfold accepts in Hacc.
    apply andb_true_iff in Hacc. destruct Hacc as [Hacc _].
    apply andb_true_iff in Hacc. destruct Hacc as [Hacc _].
    apply andb_true_iff in Hacc. destruct Hacc as [Hknown Hrow].
    assert (Hprop : forall k v,
               k <> "id" -> k <> "created_at" -> k <> "updated_at" ->
               prop data k = Some v ->
               bind_value v = Some (field (complete ValidationLogs rec) k)).
    { intros k v H1 H2 H3 Hk.
      pose proof (bind_object_prop _ _ k Hbind) as Hrec.
      rewrite prop_insert_record, Hk in Hrec by assumption.
      destruct (bind_object_binds _ _ k v Hbind) as [x Hx].
      { now rewrite prop_insert_record. }
      rewrite Hx in Hrec |- *.
      now rewrite (field_complete _ _ _ _ Hknown Hrec). }
    pose proof (Hprop "validation_type" _ ltac:(discriminate)
                  ltac:(discriminate) ltac:(discriminate) eq_refl) as Htype.
    pose proof (Hprop "passed" _ ltac:(discriminate)
                  ltac:(discriminate) ltac:(discriminate) eq_refl) as Hpassed.
    pose proof (Hprop "details" _ ltac:(discriminate)
                  ltac:(discriminate) ltac:(discriminate) eq_refl) as Hdetails.
    pose proof (Hprop "timestamp" _ ltac:(discriminate)
                  ltac:(discriminate) ltac:(discriminate) eq_refl) as Htime.
    cbn [bind_value] in Hpassed, Hdetails, Htime.
    assert (Hnn : is_null (field (complete ValidationLogs rec)
                             "validation_type") = false).
    { unfold row_ok in Hrow. apply andb_true_iff in Hrow.
      destruct Hrow as [Hnn _]. unfold not_null_ok in Hnn.
      rewrite forallb_forall in Hnn.
      specialize (Hnn (col_nn "validation_type")
                      ltac:(cbn; intuition reflexivity)).
      cbn [col_nn col_notnull col_name negb orb] in Hnn.
      now apply negb_true_iff in Hnn. }
    split; [intros t Ht; apply rows_set_rows_other; congruence|].
    split.
    + right. exists (complete ValidationLogs rec).
      split; [exact (rows_set_rows_same ValidationLogs _ (db w1))|].
      split; [intros s ->; cbn [bind_value] in Htype; congruence|].
      split; [congruence|]. split; congruence.
    + destruct validationType; try exact I; exfalso;
        cbn [bind_value] in Htype; try discriminate Htype;
        injection Htype as Htype; rewrite <- Htype in Hnn; discriminate Hnn.
  - pose proof (insert_refused _ _ _ _ _ Hins) as Hdb.
    pose proof (same_cache_insert ValidationLogs (JObj data) w1) as Hc.
    unfold preserves, same_cache in Hc. rewrite Hins in Hc. cbn [snd] in Hc.
    change (db w1) with (db w) in Hdb. change (cache w1) with (cache w) in Hc.
    split; [exact Hc|].
    split; [intros t _; now rewrite Hdb|].
    split; [left; now rewrite Hdb|].
    destruct validationType; try exact I; exact Hdb.
Qed.

Lemma X24_logging_a_validation_never_throws_witness :
  let details := JObj [("affection", JNum 60)] in
  let run := StateValidator.logValidation (H := Demo.host)
               (JStr "character_update") (JBool true) details
               Demo.alice_world in
  map (fun r => field r "validation_type") (validation_logs (db (snd run)))
  = [SText "character_update"]
  /\ fst run = Ok tt
  /\ cache (snd run) = cache Demo.alice_world
  /\ (forall t, t <> ValidationLogs ->
                rows t (db (snd run)) = rows t (db Demo.alice_world))
  /\ (validation_logs (db (snd run)) = validation_logs (db Demo.alice_world)
      \/ exists r,
           validation_logs (db (snd run))
           = (validation_logs (db Demo.alice_world) ++ [r])%list
           /\ (forall s, JStr "character_update" = JStr s ->
                         field r "validation_type" = SText s)
           /\ field r "passed" = SInt (if truthy (JBool true) then 1 else 0)
           /\ field r "details"
              = SText (JSON_stringify (Host := Demo.host) details)
           /\ field r "timestamp"
              = SInt (clock (Host := Demo.host) (ticks Demo.alice_world)))
  /\ True.
Proof.
  intros details run. split; [reflexivity|].
  apply (X24_logging_a_validation_never_throws (H := Demo.host)
           (JStr "character_update") (JBool true) details Demo.alice_world).
Defined.

Section Settling.
Context {H : Host}.
Variable o : StateIntegrator.options.
Variable dryRun : bool.

Lemma guard_closed passed :
  may_apply o dryRun = false ->
  passed && negb dryRun && StateIntegrator.autoApply o = false.
Proof.
  unfold may_apply. intros Hm. rewrite <- andb_assoc, Hm. apply andb_false_r.
Qed.

(** The shape every step has: a validation, then perhaps a write. *)
Lemma settles_checked (validate : M StateValidator.result) {A} (write : M A)
    (field : string) (d : StateIntegrator.payload)
    (done : StateValidator.result -> A -> StateIntegrator.step)
    (otherwise : StateValidator.result -> M StateIntegrator.step) :
  keeps_db validate ->
  (forall v w, exists s,
      otherwise v w = (Ok s, w) /\ StateIntegrator.applied s = false) ->
  settles (may_apply o dryRun)
    (checked <- StateIntegrator.attempt validate ;;
     match checked with
     | Throw e => ret (StateIntegrator.thrown field e d)
     | Ok validation =>
         if StateValidator.passed validation && negb dryRun
            && StateIntegrator.autoApply o
         then
           finished <- StateIntegrator.attempt write ;;
           match finished with
           | Ok a => ret (done validation a)
           | Throw e =>
               ret (StateIntegrator.validated false validation
                      [StateIntegrator.Caught field e] d)
           end
         else otherwise validation
     end).
Proof.
  intros Hkeeps Hother w.
  unfold bind, StateIntegrator.attempt, ret.
  pose proof (Hkeeps w) as Hdb.
  destruct (validate w) as [[v|e] w1]; cbn [snd] in Hdb.
  - destruct (StateValidator.passed v && negb dryRun
              && StateIntegrator.autoApply o) eqn:Hguard.
    + destruct (write w1) as [[a|e] w2]; eexists; (split; [reflexivity|]);
        intros Hm; rewrite (guard_closed _ Hm) in Hguard; discriminate.
    + destruct (Hother v w1) as (s & Hs & Happlied). rewrite Hs.
      exists s. split; [reflexivity|]. intros _. split; [exact Happlied | exact Hdb].
  - eexists. split; [reflexivity|]. intros _. split; [reflexivity | exact Hdb].
Qed.

Lemma settles__processAffection id a :
  settles (may_apply o dryRun) (StateIntegrator._processAffection o id a dryRun).
Proof.
  unfold StateIntegrator._processAffection.
  apply (settles_checked _ _ "affection" (StateIntegrator.AffectionData a)
           (fun v _ => StateIntegrator.validated true v []
                         (StateIntegrator.AffectionData a))
           _ (keeps_validateCharacterUpdate _ _)).
  intros v w.
  destruct (negb (StateValidator.passed v) && StateIntegrator.strictMode o);
    eexists; split; reflexivity.
Qed.

Lemma settles__processEmotion id e :
  settles (may_apply o dryRun) (StateIntegrator._processEmotion o id e dryRun).
Proof.
  unfold StateIntegrator._processEmotion.
  apply (settles_checked _ _ "emotion" (StateIntegrator.EmotionData e)
           (fun v _ => StateIntegrator.validated true v []
                         (StateIntegrator.EmotionData e))
           _ (keeps_validateCharacterUpdate _ _)).
  intros v w. eexists. split; reflexivity.
Qed.

Lemma settles__processInventory id c :
  settles (may_apply o dryRun) (StateIntegrator._processInventory o id c dryRun).
Proof.
  unfold StateIntegrator._processInventory.
  apply (settles_checked _ _ "inventory" (StateIntegrator.InventoryData c)
           (fun v is_applied => StateIntegrator.validated is_applied v []
                                  (StateIntegrator.InventoryData c))
           _ (keeps_validateInventoryItem _ _)).
  intros v w. eexists. split; reflexivity.
Qed.

Lemma settles__processEvent e :
  settles (may_apply o dryRun) (StateIntegrator._processEvent o e dryRun).
Proof.
  unfold StateIntegrator._processEvent.
  apply (settles_checked _ _ "event" (StateIntegrator.EventData e)
           (fun v _ => StateIntegrator.validated true v []
                         (StateIntegrator.EventData e))
           _ (keeps_validateTimelineEvent _)).
  intros v w. eexists. split; reflexivity.
Qed.
End Settling.
Section Growing.
Context {H : Host}.
Variable o : StateIntegrator.options.
Variable dryRun : bool.

Lemma settles_find_or_create name w :
  may_apply o dryRun = false ->
  db (snd (StateIntegrator.find_or_create o name dryRun w)) = db w.
Proof.
  unfold may_apply. intros Hm. revert w.
  change (keeps_db (StateIntegrator.find_or_create o name dryRun)).
  unfold StateIntegrator.find_or_create. rewrite Hm.
  apply keeps_bind; [apply keeps_get|]. intros [loc|]; apply keeps_ret.
Qed.

Lemma settles__processLocation id l :
  settles (may_apply o dryRun) (StateIntegrator._processLocation o id l dryRun).
Proof.
  intros w.
  set (d := StateIntegrator.LocationData l).
  set (checking := fun locationId : json =>
    checked <- StateIntegrator.attempt
                 (StateValidator.validateCharacterUpdate id
                    [("current_location", locationId)]) ;;
    match checked with
    | Throw e => ret (StateIntegrator.thrown "location" e d)
    | Ok validation =>
        if StateValidator.passed validation && negb dryRun
           && StateIntegrator.autoApply o
        then
          finished <- StateIntegrator.attempt
                        (StateManager.updateCharacterState id
                           [("current_location", locationId)]) ;;
          match finished with
          | Ok _ => ret (StateIntegrator.validated true validation [] d)
          | Throw e =>
              ret (StateIntegrator.validated false validation
                     [StateIntegrator.Caught "location" e] d)
          end
        else ret (StateIntegrator.validated false validation [] d)
    end).
  assert (Hrun : StateIntegrator._processLocation o id l dryRun w
                 = match StateIntegrator.find_or_create o
                           (StateExtractor.location l) dryRun w with
                   | (Ok locationId, w1) =>
                       if truthy locationId then checking locationId w1
                       else (Ok {| StateIntegrator.applied := false;
                                   StateIntegrator.errors := [];
                                   StateIntegrator.warnings := [];
                                   StateIntegrator.data := d |}, w1)
                   | (Throw e, w1) =>
                       (Ok (StateIntegrator.thrown "location" e d), w1)
                   end).
  { unfold StateIntegrator._processLocation.
    unfold bind at 1. unfold StateIntegrator.attempt at 1.
    destruct (StateIntegrator.find_or_create o (StateExtractor.location l)
                dryRun w) as [[locationId|e] w1]; [|reflexivity].
    destruct (truthy locationId); reflexivity. }
  rewrite Hrun. clear Hrun.
  pose proof (settles_find_or_create (StateExtractor.location l) w) as Hfind.
  destruct (StateIntegrator.find_or_create o (StateExtractor.location l)
              dryRun w) as [[locationId|e] w1]; cbn [snd] in Hfind.
  - destruct (truthy locationId).
    + destruct (settles_checked o dryRun
                  (StateValidator.validateCharacterUpdate id
                     [("current_location", locationId)])
                  (StateManager.updateCharacterState id
                     [("current_location", locationId)])
                  "location" d
                  (fun v _ => StateIntegrator.validated true v [] d)
                  (fun v => ret (StateIntegrator.validated false v [] d))
                  (keeps_validateCharacterUpdate _ _)
                  (fun v w => ex_intro _ _ (conj eq_refl eq_refl)) w1)
        as (s & Hs & Hq).
      exists s. split; [exact Hs|]. intros Hm.
      destruct (Hq Hm) as [Ha Hdb]. split; [exact Ha|].
      transitivity (db w1); [exact Hdb | now apply Hfind].
    + eexists. split; [reflexivity|]. intros Hm. split; [reflexivity|].
      now apply Hfind.
  - eexists. split; [reflexivity|]. intros Hm. split; [reflexivity|].
    now apply Hfind.
Qed.

Lemma grows_ret r : grows (may_apply o dryRun) r (ret r).
Proof.
  intros w. exists r, []. rewrite app_nil_r.
  repeat split; constructor.
Qed.

Lemma grows_record kind (m : M StateIntegrator.step) r :
  settles (may_apply o dryRun) m ->
  grows (may_apply o dryRun) r
    (s <- m ;; ret (StateIntegrator.record kind s r)).
Proof.
  intros Hm w. unfold bind, ret.
  destruct (Hm w) as (s & Hs & Hq).
  destruct (m w) as [[s'|e] w1]; cbn [fst snd] in *; [|discriminate].
  injection Hs as ->.
  exists (StateIntegrator.record kind s r).
  destruct (StateIntegrator.applied s) eqn:Ha.
  - exists [{| StateIntegrator.type := kind; StateIntegrator.outcome_of := s |}].
    split; [reflexivity|]. unfold StateIntegrator.record. rewrite Ha.
    split; [reflexivity|]. split; [constructor; [exact Ha | constructor]|].
    intros Hmode. destruct (Hq Hmode) as [Hno _]. congruence.
  - exists []. split; [reflexivity|]. unfold StateIntegrator.record.
    rewrite Ha, app_nil_r. split; [reflexivity|]. split; [constructor|].
    intros Hmode. destruct (Hq Hmode) as [_ Hdb]. now split.
Qed.

Lemma grows_bind r (c : M StateIntegrator.processed)
    (k : StateIntegrator.processed -> M StateIntegrator.processed) :
  grows (may_apply o dryRun) r c ->
  (forall r', grows (may_apply o dryRun) r' (k r')) ->
  grows (may_apply o dryRun) r (r' <- c ;; k r').
Proof.
  intros Hc Hk w. unfold bind.
  destruct (Hc w) as (r1 & extra1 & Hr1 & Hu1 & Ha1 & Hq1).
  destruct (c w) as [[r1'|e] w1]; cbn [fst snd] in *; [|discriminate].
  injection Hr1 as ->.
  destruct (Hk r1 w1) as (r2 & extra2 & Hr2 & Hu2 & Ha2 & Hq2).
  exists r2, (extra1 ++ extra2)%list. split; [exact Hr2|].
  split; [rewrite Hu2, Hu1; now rewrite app_assoc|].
  split; [now apply Forall_app|].
  intros Hmode. destruct (Hq1 Hmode) as [-> Hdb1].
  destruct (Hq2 Hmode) as [-> Hdb2]. split; [reflexivity | congruence].
Qed.

Lemma grows_process_each {A} kind (run : A -> M StateIntegrator.step) l :
  (forall x, settles (may_apply o dryRun) (run x)) ->
  forall r,
    grows (may_apply o dryRun) r (StateIntegrator.process_each kind run l r).
Proof.
  intros Hrun. induction l as [|x l IH]; intros r;
    cbn [StateIntegrator.process_each].
  - apply grows_ret.
  - intros w. unfold bind.
    destruct (grows_record kind (run x) r (Hrun x) w)
      as (r1 & extra1 & Hr1 & Hu1 & Ha1 & Hq1).
    unfold bind, ret in Hr1, Hq1.
    destruct (run x w) as [[s|e] w1]; cbn [fst snd] in *; [|discriminate].
    injection Hr1 as <-.
    destruct (IH (StateIntegrator.record kind s r) w1)
      as (r2 & extra2 & Hr2 & Hu2 & Ha2 & Hq2).
    exists r2, (extra1 ++ extra2)%list. split; [exact Hr2|].
    split; [rewrite Hu2, Hu1; now rewrite app_assoc|].
    split; [now apply Forall_app|].
    intros Hmode. destruct (Hq1 Hmode) as [-> Hdb1].
    destruct (Hq2 Hmode) as [-> Hdb2]. split; [reflexivity | congruence].
Qed.

Lemma extractAllStates_returns id text w :
  exists ex,
    fst (StateExtractor.extractAllStates (StateIntegrator.manager o) id text w)
    = Ok ex.
Proof.
  unfold StateExtractor.extractAllStates, StateExtractor.extractAffectionChange,
    StateExtractor.extractEvents, bind, try_catch, ret, Date_now.
  destruct (StateManager.getCharacterState _ id w) as [[[ch|]|e] w1];
    destruct (_ || _); eexists; reflexivity.
Qed.
End Growing.

(** X25. [processMessage] never throws: whatever the character, the text,
    the options and the state, it returns a result.  Every entry of
    [updates] is a step that was applied.  In a dry run, or with
    [autoApply] off, [updates] is empty (the result does not tell what would
    have been applied) and the database is unchanged. *)
Theorem X25_processMessage_never_throws_and_lists_what_it_applied {H : Host}
    (o : StateIntegrator.options) (characterId text : string) (dryRun : bool)
    (w : World) :
  let run := StateIntegrator.processMessage o characterId text dryRun w in
  exists r,
    fst run = Ok r
    /\ Forall was_applied (StateIntegrator.updates r)
    /\ (may_apply o dryRun = false ->
        StateIntegrator.updates r = [] /\ db (snd run) = db w).
Proof.
  intros run.
  destruct (extractAllStates_returns o characterId text w) as [ex Hex].
  pose proof (keeps_extractAllStates (StateIntegrator.manager o) characterId
                text w) as Hdb0.
  destruct (StateExtractor.extractAllStates _ characterId text w)
    as [[ex'|e] w0] eqn:Hext; cbn [fst snd] in *; [|discriminate].
  injection Hex as ->.
  set (r0 := {| StateIntegrator.extracted := ex;
                StateIntegrator.updates := [];
                StateIntegrator.all_errors := [];
                StateIntegrator.all_warnings := [] |}).
  assert (Hrun : exists c, run = c w0 /\ grows (may_apply o dryRun) r0 c).
  { eexists. split.
    - subst run. unfold StateIntegrator.processMessage. unfold bind at 1.
      rewrite Hext. reflexivity.
    - apply grows_bind.
      { destruct (StateExtractor.affection ex);
          [apply grows_record, settles__processAffection | apply grows_ret]. }
      intros r1. apply grows_bind.
      { destruct (StateExtractor.emotion_of ex);
          [apply grows_record, settles__processEmotion | apply grows_ret]. }
      intros r2. apply grows_bind.
      { destruct (StateExtractor.location_of ex);
          [apply grows_record, settles__processLocation | apply grows_ret]. }
      intros r3. apply grows_bind.
      { apply grows_process_each. intros c. apply settles__processInventory. }
      intros r4. apply grows_process_each. intros e.
      apply settles__processEvent. }
  destruct Hrun as (c & -> & Hgrows).
  destruct (Hgrows w0) as (r & extra & Hr & Hu & Ha & Hq).
  exists r. split; [exact Hr|]. cbn [StateIntegrator.updates r0 app] in Hu.
  rewrite Hu. split; [exact Ha|].
  intros Hmode. destruct (Hq Hmode) as [-> Hdb]. split; [reflexivity|].
  transitivity (db w0); [exact Hdb | exact Hdb0].
Qed.

Lemma X25_processMessage_never_throws_and_lists_what_it_applied_witness :
  let o := StateIntegrator.new_options [("autoApply", JBool false)]
             StateManager.default_options in
  let run := StateIntegrator.processMessage (H := Demo.host) o "alice"
               "affection increased by 10" false Demo.alice_world in
  may_apply o false = false
  /\ exists r,
       fst run = Ok r
       /\ Forall was_applied (StateIntegrator.updates r)
       /\ (may_apply o false = false ->
           StateIntegrator.updates r = [] /\ db (snd run) = db Demo.alice_world).
Proof.
  intros o run. split; [reflexivity|].
  apply (X25_processMessage_never_throws_and_lists_what_it_applied
           (H := Demo.host) o "alice" "affection increased by 10" false
           Demo.alice_world).
Defined.

(** ** The extractor *)

Lemma insert_by_score_perm e l :
  Permutation (StateExtractor.insert_by_score e l) (e :: l).
Proof.
  induction l as [|x l IH]; cbn; [reflexivity|].
  destruct (snd x <? snd e); [reflexivity|].
  rewrite IH. apply perm_swap.
Qed.

Lemma sort_by_score_perm_acc l acc :
  Permutation (fold_left (fun acc e => StateExtractor.insert_by_score e acc) l acc)
              (l ++ acc).
Proof.
  revert acc. induction l as [|e l IH]; intros acc; cbn [fold_left app];
    [reflexivity|].
  rewrite IH, insert_by_score_perm. symmetry. apply Permutation_middle.
Qed.

Lemma sort_by_score_perm l : Permutation (StateExtractor.sort_by_score l) l.
Proof.
  unfold StateExtractor.sort_by_score.
  rewrite sort_by_score_perm_acc. now rewrite app_nil_r.
Qed.

Lemma insert_by_score_sorted e l :
  StronglySorted falling l ->
  StronglySorted falling (StateExtractor.insert_by_score e l).
Proof.
  induction 1 as [|x l Hl IH Hx]; cbn.
  - repeat constructor.
  - destruct (snd x <? snd e) eqn:E.
    + apply Z.ltb_lt in E. constructor; [now constructor|].
      constructor; [unfold falling; lia|].
      eapply Forall_impl; [|exact Hx]. unfold falling. intros a Ha. lia.
    + apply Z.ltb_ge in E. constructor; [exact IH|].
      eapply Permutation_Forall; [symmetry; apply insert_by_score_perm|].
      constructor; [exact E | exact Hx].
Qed.

Lemma sort_by_score_sorted l :
  StronglySorted falling (StateExtractor.sort_by_score l).
Proof.
  unfold StateExtractor.sort_by_score.
  assert (Hacc : forall acc, StronglySorted falling acc ->
            StronglySorted falling
              (fold_left (fun acc e => StateExtractor.insert_by_score e acc) l acc)).
  { induction l as [|e l IH]; intros acc Hacc; cbn [fold_left]; [exact Hacc|].
    apply IH. now apply insert_by_score_sorted. }
  apply Hacc. constructor.
Qed.
Lemma prop_in {V} (o : list (string * V)) k v : prop o k = Some v -> In (k, v) o.
Proof.
  induction o as [|[k' v'] o IH]; cbn [prop]; [discriminate|].
  destruct (String.eqb k' k) eqn:E.
  - apply String.eqb_eq in E. intros [= ->]. subst. now left.
  - intros Hp. right. now apply IH.
Qed.

Lemma in_prop {V} (o : list (string * V)) k v :
  NoDup (map fst o) -> In (k, v) o -> prop o k = Some v.
Proof.
  induction o as [|[k' v'] o IH]; cbn [prop map fst]; [intros _ []|].
  intros Hnd [Hin | Hin]; apply NoDup_cons_iff in Hnd; destruct Hnd as [Hk Hnd].
  - injection Hin as -> ->. now rewrite String.eqb_refl.
  - destruct (String.eqb k' k) eqn:E; [|now apply IH].
    apply String.eqb_eq in E. subst k'. exfalso. apply Hk.
    apply in_map_iff. now exists (k, v).
Qed.

Lemma emotionKeywords_distinct :
  NoDup (map fst StateExtractor.emotionKeywords).
Proof.
  cbn. repeat (constructor; [cbn; intuition discriminate|]). constructor.
Qed.

Lemma keyword_score_nonneg text keywords :
  0 <= StateExtractor.keyword_score text keywords.
Proof.
  unfold StateExtractor.keyword_score.
  assert (Hacc : forall (acc : Z), 0 <= acc ->
            0 <= fold_left
                   (fun score keyword =>
                      score + Z.of_nat (List.length
                                (Regex.matchAll true text
                                   (StateExtractor.str keyword))))
                   keywords acc).
  { induction keywords as [|k keywords IH]; intros acc Hacc; cbn [fold_left];
      [exact Hacc|]. apply IH. lia. }
  apply Hacc. lia.
Qed.

Lemma emotion_score_nonneg text e : 0 <= emotion_score text e.
Proof.
  unfold emotion_score. destruct (prop _ e); [apply keyword_score_nonneg | lia].
Qed.

(** The scored emotions are the emotions of the table with a hit. *)
Lemma emotionScores_spec text e s :
  In (e, s) (StateExtractor.emotionScores (Text.units text))
  <-> In e (map fst StateExtractor.emotionKeywords)
      /\ s = emotion_score text e /\ 0 < s.
Proof.
  unfold StateExtractor.emotionScores. rewrite filter_In, in_map_iff.
  cbn [snd]. rewrite Z.ltb_lt. split.
  - intros [([e0 kws] & [= <- <-] & Hin) Hs]. cbn [fst snd] in *.
    split; [apply in_map_iff; now exists (e0, kws)|].
    split; [|exact Hs]. unfold emotion_score.
    now rewrite (in_prop _ _ _ emotionKeywords_distinct Hin).
  - intros (Hin & -> & Hs). split; [|exact Hs].
    apply in_map_iff in Hin. destruct Hin as ([e0 kws] & <- & Hin).
    exists (e0, kws). split; [|exact Hin]. cbn [fst snd].
    unfold emotion_score.
    now rewrite (in_prop _ _ _ emotionKeywords_distinct Hin).
Qed.

Lemma emotionScores_distinct text :
  NoDup (map fst (StateExtractor.emotionScores (Text.units text))).
Proof.
  unfold StateExtractor.emotionScores.
  assert (Hgen : forall (entries : list (string * list string)),
            NoDup (map fst entries) ->
            NoDup (map fst
                     (filter (fun e : string * Z => 0 <? snd e)
                        (map (fun e => (fst e,
                                        StateExtractor.keyword_score
                                          (Text.units text) (snd e)))
                             entries)))).
  { induction entries as [|[k kws] entries IH]; cbn [map filter fst snd];
      [constructor|].
    intros Hnd. apply NoDup_cons_iff in Hnd. destruct Hnd as [Hk Hnd].
    destruct (0 <? _); [|now apply IH].
    cbn [map fst]. constructor; [|now apply IH].
    intros Hin. apply Hk. apply in_map_iff in Hin.
    destruct Hin as ([k' s'] & Hk' & Hin). cbn [fst] in Hk'. subst k'.
    apply filter_In in Hin. destruct Hin as [Hin _].
    apply in_map_iff in Hin. destruct Hin as ([k2 kws2] & [= <- _] & Hin).
    apply in_map_iff. now exists (k2, kws2). }
  apply Hgen, emotionKeywords_distinct.
Qed.

Lemma emotions_are_valid e :
  In e (map fst StateExtractor.emotionKeywords) ->
  StateValidator.includes StateValidator.validEmotions (JStr e) = true.
Proof.
  cbn [map fst StateExtractor.emotionKeywords In].
  intros Hin.
  repeat (destruct Hin as [<- | Hin]; [reflexivity|]). destruct Hin.
Qed.

Lemma confidence_of_proper s : 0 < s -> proper (StateExtractor.confidence_of s).
Proof.
  intros Hs. unfold proper, StateExtractor.confidence_of.
  destruct (3 <=? s) eqn:E; cbn; [lia|]. apply Z.leb_gt in E. lia.
Qed.

Lemma confidence_of_mono a b :
  0 < a -> a <= b ->
  ratio_le (StateExtractor.confidence_of a) (StateExtractor.confidence_of b).
Proof.
  intros Ha Hab. unfold ratio_le, StateExtractor.confidence_of.
  destruct (3 <=? a) eqn:E1, (3 <=? b) eqn:E2; cbn;
    try apply Z.leb_le in E1; try apply Z.leb_le in E2;
    try apply Z.leb_gt in E1; try apply Z.leb_gt in E2; lia.
Qed.

(** X26. Whatever [extractEmotion] finds is an emotion the validator
    accepts as valid.  It is an emotion of the keyword table with at least
    one keyword hit in the text and with no fewer hits than any other
    emotion; its confidence is a third of its hits capped at 1, so it lies
    in (0, 1]; there are at most two alternatives, all other emotions, each
    with a confidence in (0, 1] that does not exceed the confidence of the
    emotion found.  Nothing is found exactly when no keyword of the table
    occurs in the text. *)
Theorem X26_the_emotion_found_is_valid_and_scores_best (text : string) :
  match StateExtractor.extractEmotion text with
  | Some f =>
      let e := StateExtractor.emotion f in
      StateValidator.includes StateValidator.validEmotions (JStr e) = true
      /\ 0 < emotion_score text e
      /\ (forall e', emotion_score text e' <= emotion_score text e)
      /\ StateExtractor.confidence f
         = StateExtractor.confidence_of (emotion_score text e)
      /\ proper (StateExtractor.confidence f)
      /\ (List.length (StateExtractor.alternatives f) <= 2)%nat
      /\ Forall (fun a => fst a <> e
                          /\ proper (snd a)
                          /\ ratio_le (snd a) (StateExtractor.confidence f))
                (StateExtractor.alternatives f)
  | None => forall e', emotion_score text e' = 0
  end.
Proof.
  unfold StateExtractor.extractEmotion.
  set (scores := StateExtractor.emotionScores (Text.units text)).
  pose proof (sort_by_score_perm scores) as Hperm.
  pose proof (sort_by_score_sorted scores) as Hsorted.
  pose proof (emotionScores_distinct text) as Hnd. fold scores in Hnd.
  assert (Hbest : forall e' s, In (e', s) (StateExtractor.sort_by_score scores)
                               <-> In e' (map fst StateExtractor.emotionKeywords)
                                   /\ s = emotion_score text e' /\ 0 < s).
  { intros e' s. rewrite <- emotionScores_spec. fold scores.
    split; apply Permutation_in; [exact Hperm | now symmetry]. }
  assert (Hzero : forall e', ~ In e' (map fst StateExtractor.emotionKeywords) ->
                             emotion_score text e' = 0).
  { intros e' Hout. unfold emotion_score.
    destruct (prop StateExtractor.emotionKeywords e') as [kws|] eqn:Ep;
      [|reflexivity].
    exfalso. apply Hout. apply in_map_iff. exists (e', kws).
    split; [reflexivity | now apply prop_in]. }
  assert (Hdec : forall e', In e' (map fst StateExtractor.emotionKeywords)
                            \/ ~ In e' (map fst StateExtractor.emotionKeywords)).
  { intros e'. destruct (in_dec string_dec e'
                           (map fst StateExtractor.emotionKeywords)); auto. }
  destruct (StateExtractor.sort_by_score scores) as [|[e s] others] eqn:Es.
  - intros e'. destruct (Hdec e') as [Hin | Hout]; [|now apply Hzero].
    pose proof (emotion_score_nonneg text e') as Hpos.
    destruct (Z.eq_dec (emotion_score text e') 0) as [E | E]; [exact E|].
    exfalso. apply (proj2 (Hbest e' (emotion_score text e'))).
    repeat split; [exact Hin | lia].
  - cbn [StateExtractor.emotion StateExtractor.confidence
         StateExtractor.alternatives].
    destruct (proj1 (Hbest e s) (or_introl eq_refl)) as (Hin & Hs & Hpos).
    apply StronglySorted_inv in Hsorted. destruct Hsorted as [Hothers Hall].
    rewrite Forall_forall in Hall.
    assert (Hnd' : NoDup (map fst ((e, s) :: others))).
    { eapply Permutation_NoDup; [|exact Hnd].
      apply Permutation_map. now symmetry. }
    cbn [map fst] in Hnd'. apply NoDup_cons_iff in Hnd'.
    destruct Hnd' as [Hfresh _].
    split; [now apply emotions_are_valid|].
    split; [now rewrite <- Hs|].
    split.
    { intros e'. rewrite <- Hs.
      destruct (Hdec e') as [Hin' | Hout];
        [|rewrite (Hzero e' Hout); lia].
      pose proof (emotion_score_nonneg text e') as Hpos'.
      destruct (Z.eq_dec (emotion_score text e') 0) as [E | E]; [lia|].
      destruct (proj2 (Hbest e' (emotion_score text e'))) as [Hhead | Htail].
      { repeat split; [exact Hin' | lia]. }
      - injection Hhead as _ <-. lia.
      - apply (Hall _ Htail). }
    split; [now rewrite <- Hs|].
    split; [now apply confidence_of_proper|].
    split; [rewrite length_map, length_firstn; lia|].
    apply Forall_forall. intros a Ha.
    apply in_map_iff in Ha. destruct Ha as ([e' s'] & <- & Ha).
    cbn [fst snd].
    assert (Hin' : In (e', s') others).
    { rewrite <- (firstn_skipn 2 others). apply in_or_app. now left. }
    destruct (proj1 (Hbest e' s') (or_intror Hin')) as (_ & _ & Hpos').
    split.
    { intros ->. apply Hfresh. apply in_map_iff. now exists (e, s'). }
    split; [now apply confidence_of_proper|].
    apply confidence_of_mono; [exact Hpos'|]. apply (Hall _ Hin').
Qed.
Lemma importance_of_bounds text : 1 <= StateExtractor.importance_of text <= 5.
Proof.
  unfold StateExtractor.importance_of.
  cbn [fold_left StateExtractor.importanceKeywords fst snd].
  repeat match goal with
         | |- context [if ?b then _ else _] => destruct b
         end; lia.
Qed.

Lemma dedupe_spec l :
  forall seen,
    NoDup (StateExtractor.dedupe l seen)
    /\ (forall x, In x (StateExtractor.dedupe l seen)
                  <-> In x l /\ ~ In x seen).
Proof.
  induction l as [|x l IH]; intros seen; cbn [StateExtractor.dedupe].
  - split; [constructor|]. intros y. cbn. tauto.
  - unfold mem_string. destruct (existsb (String.eqb x) seen) eqn:E.
    + destruct (IH seen) as [Hnd Hin]. split; [exact Hnd|].
      intros y. rewrite Hin. cbn [In]. split; [tauto|].
      intros [[<- | Hy] Hout]; [|tauto].
      exfalso. apply Hout. apply existsb_exists in E.
      destruct E as (z & Hz & Ez). apply String.eqb_eq in Ez. now subst z.
    + destruct (IH (x :: seen)) as [Hnd Hin].
      assert (Hx : ~ In x seen).
      { intros Hx. assert (existsb (String.eqb x) seen = true); [|congruence].
        apply existsb_exists. exists x. split; [exact Hx|].
        apply String.eqb_refl. }
      split.
      * constructor; [|exact Hnd]. rewrite Hin. cbn [In]. tauto.
      * intros y. cbn [In]. rewrite Hin. cbn [In].
        destruct (string_dec x y) as [<- | Hne]; tauto.
Qed.

(** X27. [extractEvents] never throws, touches neither the database nor the
    cache, and returns at most one event.  The event has type general, an
    importance between 1 and 5, the names found in the text as participants,
    each once, the time of the call and the first 200 code units of the text
    as its description.  No event is returned exactly when the text has no
    importance keyword above level 1 and no name is found in it. *)
Theorem X27_at_most_one_event_of_importance_1_to_5 {H : Host}
    (text : string) (w : World) :
  let run := StateExtractor.extractEvents text w in
  exists evs,
    fst run = Ok evs
    /\ db (snd run) = db w /\ cache (snd run) = cache w
    /\ (List.length evs <= 1)%nat
    /\ Forall (fun ev =>
                 StateExtractor.event_type ev = "general"
                 /\ 1 <= StateExtractor.importance ev <= 5
                 /\ StateExtractor.importance ev
                    = StateExtractor.importance_of text
                 /\ NoDup (StateExtractor.participants ev)
                 /\ (forall name,
                       In name (StateExtractor.participants ev)
                       <-> In name (StateExtractor.participants_of text))
                 /\ StateExtractor.event_timestamp ev = clock (ticks w)
                 /\ StateExtractor.description ev = Text.slice0 200 text)
              evs
    /\ (evs = [] <-> StateExtractor.importance_of text = 1
                     /\ StateExtractor.participants_of text = []).
Proof.
  intros run. subst run. unfold StateExtractor.extractEvents.
  pose proof (importance_of_bounds text) as Himp.
  destruct (dedupe_spec (StateExtractor.participants_of text) [])
    as [Hnd Hin].
  destruct ((2 <=? StateExtractor.importance_of text)
            || negb (Nat.eqb (List.length (StateExtractor.participants_of text)) 0))
    eqn:Hcond.
  - unfold bind, ret, Date_now. cbn [fst snd db cache].
    eexists. split; [reflexivity|].
    split; [reflexivity|]. split; [reflexivity|].
    split; [cbn; lia|]. split.
    + constructor; [|constructor].
      cbn [StateExtractor.event_type StateExtractor.importance
           StateExtractor.participants StateExtractor.event_timestamp
           StateExtractor.description].
      split; [reflexivity|]. split; [exact Himp|]. split; [reflexivity|].
      split; [exact Hnd|]. split; [|split; reflexivity].
      intros name. rewrite Hin. cbn [In]. tauto.
    + split; [discriminate|]. intros [Hone Hnone]. exfalso.
      rewrite Hone, Hnone in Hcond. discriminate.
  - exists []. cbn [ret fst snd].
    split; [reflexivity|]. split; [reflexivity|]. split; [reflexivity|].
    split; [cbn; lia|]. split; [constructor|].
    split; [|reflexivity]. intros _.
    apply orb_false_iff in Hcond. destruct Hcond as [Hlow Hnone].
    apply Z.leb_gt in Hlow. apply negb_false_iff, Nat.eqb_eq in Hnone.
    split; [lia|].
    destruct (StateExtractor.participants_of text); [reflexivity | discriminate].
Qed.

Section Stranger.
Context {H : Host}.
Variable o : StateIntegrator.options.
Variable dryRun : bool.
Variable id : string.

Lemma stranger_moves w w' :
  stranger id (db w) -> only_tables [Locations; Timeline] w w' ->
  stranger id (db w').
Proof.
  intros [Hnone Hitems] Hframe. unfold stranger, stored_character.
  change (characters (db w')) with (rows Characters (db w')).
  change (inventory (db w')) with (rows Inventory (db w')).
  rewrite (Hframe Characters), (Hframe Inventory)
    by (cbn; intuition discriminate).
  split; [exact Hnone | exact Hitems].
Qed.

Lemma same_db_aside (w w' : World) :
  db w' = db w -> only_tables [Locations; Timeline] w w'.
Proof. intros Hdb t _. now rewrite Hdb. Qed.

Lemma only_table_aside (t0 : table) (w w' : World) :
  In t0 [Locations; Timeline] ->
  (forall t, t <> t0 -> rows t (db w') = rows t (db w)) ->
  only_tables [Locations; Timeline] w w'.
Proof.
  intros Hin Hrows t Ht. apply Hrows. intros ->. now apply Ht.
Qed.

Lemma validate_stranger updates w :
  stranger id (db w) ->
  exists v,
    StateValidator.validateCharacterUpdate id updates w = (Ok v, w)
    /\ StateValidator.passed v = false.
Proof.
  intros [Hnone _].
  unfold StateValidator.validateCharacterUpdate, bind.
  rewrite get_character, Hnone. eexists. split; reflexivity.
Qed.

Lemma aside__processAffection a :
  step_aside id false (StateIntegrator._processAffection o id a dryRun).
Proof.
  intros w Hs.
  destruct (validate_stranger [("affection", StateExtractor.newValue a)] w Hs)
    as (v & Hv & Hp).
  unfold StateIntegrator._processAffection, bind, StateIntegrator.attempt.
  rewrite Hv, Hp. cbn [andb negb].
  destruct (StateIntegrator.strictMode o); unfold ret;
    (eexists _, _; split; [reflexivity|];
     split; [reflexivity | now apply same_db_aside]).
Qed.

Lemma aside__processEmotion e :
  step_aside id false (StateIntegrator._processEmotion o id e dryRun).
Proof.
  intros w Hs.
  destruct (validate_stranger
              [("emotion", JStr (StateExtractor.emotion e))] w Hs)
    as (v & Hv & Hp).
  unfold StateIntegrator._processEmotion, bind, StateIntegrator.attempt.
  rewrite Hv, Hp. cbn [andb negb]. unfold ret.
  eexists _, _. split; [reflexivity|].
  split; [reflexivity | now apply same_db_aside].
Qed.

Lemma insert_aside t0 x w :
  forall t, t <> t0 ->
            rows t (db (snd (DatabaseManager.insert t0 x w))) = rows t (db w).
Proof.
  intros t Ht.
  destruct (DatabaseManager.insert t0 x w) as [[res|e] w'] eqn:Hins;
    cbn [snd].
  - destruct (insert_effect _ _ _ _ _ Hins) as (r & _ & _ & Hother).
    now apply Hother.
  - now rewrite (insert_refused _ _ _ _ _ Hins).
Qed.

Lemma find_or_create_aside name w :
  forall t, t <> Locations ->
            rows t (db (snd (StateIntegrator.find_or_create o name dryRun w)))
            = rows t (db w).
Proof.
  intros t Ht. unfold StateIntegrator.find_or_create, bind.
  pose proof (get_pure Locations [("name", JStr name)] w) as Hget.
  destruct (DatabaseManager.get Locations [("name", JStr name)] w)
    as [[[loc|]|e] w0]; cbn [snd] in Hget; subst w0; try reflexivity.
  destruct (negb dryRun && StateIntegrator.autoApply o); [|reflexivity].
  unfold StateManager.createLocation, bind.
  set (data := [("name", JStr name); ("type", JStr "unknown")]).
  rewrite (id_or_fresh_run data w).
  match goal with
  | |- context [DatabaseManager.insert Locations ?x ?w1] =>
      pose proof (insert_aside Locations x w1 t Ht) as Hins;
      destruct (DatabaseManager.insert Locations x w1) as [[res|e] w2]
  end; cbn [snd db] in *; exact Hins.
Qed.

Lemma aside__processLocation l :
  step_aside id false (StateIntegrator._processLocation o id l dryRun).
Proof.
  intros w Hs.
  pose proof (find_or_create_aside (StateExtractor.location l) w) as Hfind.
  unfold StateIntegrator._processLocation.
  unfold bind at 1. unfold StateIntegrator.attempt at 1.
  destruct (StateIntegrator.find_or_create o (StateExtractor.location l)
              dryRun w) as [[locationId|e] w1]; cbn [snd] in Hfind.
  - assert (Hframe : only_tables [Locations; Timeline] w w1).
    { apply (only_table_aside Locations); [now left | exact Hfind]. }
    destruct (truthy locationId).
    + destruct (validate_stranger [("current_location", locationId)] w1
                  (stranger_moves _ _ Hs Hframe)) as (v & Hv & Hp).
      unfold bind, StateIntegrator.attempt. rewrite Hv, Hp.
      cbn [andb negb]. unfold ret.
      eexists _, _. split; [reflexivity|]. split; [reflexivity | exact Hframe].
    + eexists _, _. split; [reflexivity|]. split; [reflexivity | exact Hframe].
  - eexists _, _. split; [reflexivity|]. split; [reflexivity|].
    apply (only_table_aside Locations); [now left | exact Hfind].
Qed.

Lemma getInventory_stranger w :
  stranger id (db w) -> StateManager.getInventory id [] w = (Ok [], w).
Proof.
  intros [_ Hitems]. unfold StateManager.getInventory.
  change (jget [] "itemType") with JUndefined.
  change (jget [] "equipped") with JUndefined.
  cbn [truthy defined]. unfold bind.
  rewrite (getAll_where_text Inventory "character_id" id w eq_refl).
  replace (filter _ (rows Inventory (db w))) with (@nil row); [reflexivity|].
  symmetry. change (rows Inventory (db w)) with (inventory (db w)).
  induction (inventory (db w)) as [|r l IH]; [reflexivity|].
  cbn [filter]. rewrite (Hitems r (or_introl eq_refl)). cbn [andb].
  apply IH. intros r' Hr'. apply Hitems. now right.
Qed.

Lemma addInventoryItem_stranger item w :
  stranger id (db w) ->
  exists e w',
    StateManager.addInventoryItem id item w = (Throw e, w') /\ db w' = db w.
Proof.
  intros [Hnone _]. unfold StateManager.addInventoryItem, bind.
  rewrite (id_or_fresh_run item w).
  set (w1 := {| db := db w; cache := cache w; ticks := ticks w;
                draws := _ |}).
  match goal with
  | |- context [DatabaseManager.insert Inventory (JObj ?d) w1] =>
      set (data := d)
  end.
  destruct (DatabaseManager.insert Inventory (JObj data) w1)
    as [[res|e] w2] eqn:Hins.
  - exfalso.
    destruct (insert_inversion _ _ _ _ _ Hins) as (rec & Hbind & Hacc & _ & _).
    unfold accepts in Hacc.
    apply andb_true_iff in Hacc. destruct Hacc as [Hacc Href].
    apply andb_true_iff in Hacc. destruct Hacc as [Hacc _].
    apply andb_true_iff in Hacc. destruct Hacc as [Hknown _].
    assert (Hfield : field (complete Inventory rec) "character_id" = SText id).
    { apply (field_complete _ _ _ _ Hknown).
      rewrite (bind_object_prop _ _ "character_id" Hbind).
      rewrite prop_insert_record by discriminate. reflexivity. }
    unfold references_ok in Href. rewrite Hfield in Href.
    cbn [is_null orb] in Href. unfold mem_val, ids, column_values in Href.
    apply existsb_exists in Href. destruct Href as (x & Hx & Heq).
    apply in_map_iff in Hx. destruct Hx as (r & <- & Hr).
    unfold stored_character in Hnone.
    pose proof (find_none _ _ Hnone r Hr) as Hno. cbn beta in Hno.
    rewrite sql_eq_sym in Heq. congruence.
  - eexists _, _. split; [reflexivity|].
    now rewrite (insert_refused _ _ _ _ _ Hins).
Qed.

Lemma aside__processInventory c :
  step_aside id false (StateIntegrator._processInventory o id c dryRun).
Proof.
  intros w Hs.
  unfold StateIntegrator._processInventory.
  unfold bind at 1. unfold StateIntegrator.attempt at 1.
  pose proof (keeps_validateInventoryItem id
                [("item_name", JStr (StateExtractor.item_name c));
                 ("quantity", StateExtractor.quantity c)] w) as Hkeep.
  destruct (StateValidator.validateInventoryItem id _ w) as [[v|e] w1];
    cbn [snd] in Hkeep.
  - assert (Hframe : only_tables [Locations; Timeline] w w1)
      by now apply same_db_aside.
    pose proof (stranger_moves _ _ Hs Hframe) as Hs1.
    destruct (StateValidator.passed v && negb dryRun
              && StateIntegrator.autoApply o).
    + unfold bind, StateIntegrator.attempt, StateIntegrator.apply_inventory.
      destruct (StateExtractor.action c).
      * destruct (addInventoryItem_stranger
                    [("item_name", JStr (StateExtractor.item_name c));
                     ("quantity", StateExtractor.quantity c)] w1 Hs1)
          as (e & w2 & Hrun & Hdb).
        unfold bind. rewrite Hrun. unfold ret.
        eexists _, _. split; [reflexivity|]. split; [reflexivity|].
        apply same_db_aside. congruence.
      * unfold bind. rewrite (getInventory_stranger w1 Hs1).
        cbn [DatabaseManager.lift StateIntegrator.find_item]. unfold ret.
        eexists _, _. split; [reflexivity|]. split; [reflexivity|].
        exact Hframe.
    + unfold ret. eexists _, _. split; [reflexivity|].
      split; [reflexivity | exact Hframe].
  - unfold ret. eexists _, _. split; [reflexivity|]. split; [reflexivity|].
    now apply same_db_aside.
Qed.

Lemma addTimelineEvent_aside event w :
  forall t, t <> Timeline ->
            rows t (db (snd (StateManager.addTimelineEvent event w)))
            = rows t (db w).
Proof.
  intros t Ht. unfold StateManager.addTimelineEvent, bind.
  rewrite (id_or_fresh_run event w).
  destruct (truthy (jget event "timestamp")); unfold ret, Date_now, bind;
    match goal with
    | |- context [DatabaseManager.insert Timeline ?x ?w1] =>
        exact (insert_aside Timeline x w1 t Ht)
    end.
Qed.

Lemma aside__processEvent e :
  step_aside id true (StateIntegrator._processEvent o e dryRun).
Proof.
  intros w Hs.
  unfold StateIntegrator._processEvent.
  unfold bind at 1. unfold StateIntegrator.attempt at 1.
  pose proof (keeps_validateTimelineEvent (StateIntegrator.event_object e) w)
    as Hkeep.
  destruct (StateValidator.validateTimelineEvent _ w) as [[v|err] w1];
    cbn [snd] in Hkeep.
  - destruct (StateValidator.passed v && negb dryRun
              && StateIntegrator.autoApply o).
    + unfold bind, StateIntegrator.attempt.
      pose proof (addTimelineEvent_aside (StateIntegrator.event_object e) w1)
        as Hadd.
      destruct (StateManager.addTimelineEvent _ w1) as [[res|err] w2];
        cbn [snd] in Hadd; unfold ret;
        (eexists _, _; split; [reflexivity|]; split; [discriminate|];
         apply (only_table_aside Timeline); [right; now left|];
         intros t Ht; rewrite (Hadd t Ht); now rewrite Hkeep).
    + unfold ret. eexists _, _. split; [reflexivity|].
      split; [discriminate | now apply same_db_aside].
  - unfold ret. eexists _, _. split; [reflexivity|].
    split; [discriminate | now apply same_db_aside].
Qed.

Lemma aside_ret r : aside id r (ret r).
Proof.
  intros w _. exists r, w, []. rewrite app_nil_r.
  split; [reflexivity|]. split; [reflexivity|].
  split; [constructor | intros t _; reflexivity].
Qed.

Lemma aside_record kind on_timeline (m : M StateIntegrator.step) r :
  (on_timeline = true -> kind = "event") ->
  step_aside id on_timeline m ->
  aside id r (s <- m ;; ret (StateIntegrator.record kind s r)).
Proof.
  intros Hkind Hm w Hs. unfold bind, ret.
  destruct (Hm w Hs) as (s & w1 & Hrun & Hq & Hframe). rewrite Hrun.
  exists (StateIntegrator.record kind s r), w1.
  destruct (StateIntegrator.applied s) eqn:Ha.
  - exists [{| StateIntegrator.type := kind; StateIntegrator.outcome_of := s |}].
    split; [reflexivity|]. unfold StateIntegrator.record. rewrite Ha.
    split; [reflexivity|]. split; [|exact Hframe].
    constructor; [|constructor]. cbn [StateIntegrator.type].
    destruct on_timeline; [now apply Hkind|].
    pose proof (Hq eq_refl) as Hno. discriminate.
  - exists []. split; [reflexivity|]. unfold StateIntegrator.record.
    rewrite Ha, app_nil_r. split; [reflexivity|].
    split; [constructor | exact Hframe].
Qed.

Lemma aside_bind r (c : M StateIntegrator.processed)
    (k : StateIntegrator.processed -> M StateIntegrator.processed) :
  aside id r c -> (forall r', aside id r' (k r')) ->
  aside id r (r' <- c ;; k r').
Proof.
  intros Hc Hk w Hs. unfold bind.
  destruct (Hc w Hs) as (r1 & w1 & extra1 & Hrun1 & Hu1 & He1 & Hf1).
  rewrite Hrun1.
  destruct (Hk r1 w1 (stranger_moves _ _ Hs Hf1))
    as (r2 & w2 & extra2 & Hrun2 & Hu2 & He2 & Hf2).
  exists r2, w2, (extra1 ++ extra2)%list. split; [exact Hrun2|].
  split; [rewrite Hu2, Hu1; now rewrite app_assoc|].
  split; [now apply Forall_app|].
  intros t Ht. rewrite (Hf2 t Ht). now apply Hf1.
Qed.

Lemma aside_process_each {A} kind on_timeline
    (run : A -> M StateIntegrator.step) l :
  (on_timeline = true -> kind = "event") ->
  (forall x, step_aside id on_timeline (run x)) ->
  forall r, aside id r (StateIntegrator.process_each kind run l r).
Proof.
  intros Hkind Hrun. induction l as [|x l IH]; intros r;
    cbn [StateIntegrator.process_each].
  - apply aside_ret.
  - intros w Hs. unfold bind.
    destruct (aside_record kind on_timeline (run x) r Hkind (Hrun x) w Hs)
      as (r1 & w1 & extra1 & Hrun1 & Hu1 & He1 & Hf1).
    unfold bind, ret in Hrun1.
    destruct (run x w) as [[s|e] w1']; [|discriminate].
    injection Hrun1 as <- <-.
    destruct (IH (StateIntegrator.record kind s r) w1'
                (stranger_moves _ _ Hs Hf1))
      as (r2 & w2 & extra2 & Hrun2 & Hu2 & He2 & Hf2).
    exists r2, w2, (extra1 ++ extra2)%list. split; [exact Hrun2|].
    split; [rewrite Hu2, Hu1; now rewrite app_assoc|].
    split; [now apply Forall_app|].
    intros t Ht. rewrite (Hf2 t Ht). now apply Hf1.
Qed.
End Stranger.

(** X28. Processing a message for a character id that has no row (and no
    inventory item in its name) never throws, and whatever the text and the
    options it changes no table other than locations and timeline: the
    character is not created, it gets no item and no memory.  The only
    updates the result can list are timeline events; an affection, emotion,
    location or inventory change that was extracted is never applied,
    although a location named in the text may have been created. *)
Theorem X28_an_unknown_character_gets_no_update {H : Host}
    (o : StateIntegrator.options) (characterId text : string) (dryRun : bool)
    (w : World) :
  stranger characterId (db w) ->
  exists r w',
    StateIntegrator.processMessage o characterId text dryRun w = (Ok r, w')
    /\ Forall (fun u => StateIntegrator.type u = "event")
         (StateIntegrator.updates r)
    /\ forall t, t <> Locations -> t <> Timeline ->
                 rows t (db w') = rows t (db w).
Proof.
  intros Hs.
  destruct (extractAllStates_returns o characterId text w) as [ex Hex].
  pose proof (keeps_extractAllStates (StateIntegrator.manager o) characterId
                text w) as Hdb0.
  destruct (StateExtractor.extractAllStates _ characterId text w)
    as [[ex'|e] w0] eqn:Hext; cbn [fst snd] in *; [|discriminate].
  injection Hex as ->.
  assert (Hs0 : stranger characterId (db w0)) by now rewrite Hdb0.
  set (r0 := {| StateIntegrator.extracted := ex;
                StateIntegrator.updates := [];
                StateIntegrator.all_errors := [];
                StateIntegrator.all_warnings := [] |}).
  assert (Hrun : exists c,
             StateIntegrator.processMessage o characterId text dryRun w = c w0
             /\ aside characterId r0 c).
  { eexists. split.
    - unfold StateIntegrator.processMessage. unfold bind at 1.
      rewrite Hext. reflexivity.
    - apply aside_bind.
      { destruct (StateExtractor.affection ex); [|apply aside_ret].
        apply (aside_record characterId "affection" false);
          [discriminate | apply aside__processAffection]. }
      intros r1. apply aside_bind.
      { destruct (StateExtractor.emotion_of ex); [|apply aside_ret].
        apply (aside_record characterId "emotion" false);
          [discriminate | apply aside__processEmotion]. }
      intros r2. apply aside_bind.
      { destruct (StateExtractor.location_of ex); [|apply aside_ret].
        apply (aside_record characterId "location" false);
          [discriminate | apply aside__processLocation]. }
      intros r3. apply aside_bind.
      { apply (aside_process_each characterId "inventory" false);
          [discriminate | intros c; apply aside__processInventory]. }
      intros r4.
      apply (aside_process_each characterId "event" true);
        [reflexivity | intros e; apply aside__processEvent]. }
  destruct Hrun as (c & -> & Haside).
  destruct (Haside w0 Hs0) as (r & w' & extra & Hr & Hu & He & Hf).
  exists r, w'. split; [exact Hr|]. cbn [StateIntegrator.updates r0 app] in Hu.
  rewrite Hu. split; [exact He|].
  intros t Ht1 Ht2. rewrite (Hf t), Hdb0; [reflexivity|].
  cbn. intuition congruence.
Qed.

Lemma X28_an_unknown_character_gets_no_update_witness :
  let o := StateIntegrator.new_options [] StateManager.default_options in
  stranger "bob" (db Demo.alice_world)
  /\ exists r w',
       StateIntegrator.processMessage (H := Demo.host) o "bob"
         "Bob went to the old library" false Demo.alice_world
       = (Ok r, w')
       /\ Forall (fun u => StateIntegrator.type u = "event")
            (StateIntegrator.updates r)
       /\ forall t, t <> Locations -> t <> Timeline ->
                    rows t (db w') = rows t (db Demo.alice_world).
Proof.
  intros o.
  assert (Hs : stranger "bob" (db Demo.alice_world))
    by (split; [reflexivity | intros r []]).
  split; [exact Hs|].
  apply (X28_an_unknown_character_gets_no_update (H := Demo.host) o "bob"
           "Bob went to the old library" false Demo.alice_world Hs).
Defined.

Section Queries.
Context {H : Host}.

Lemma order_rows_incl t orderBy order l l' :
  DatabaseManager.order_rows t orderBy order l = Ok l' -> incl l' l.
Proof.
  unfold DatabaseManager.order_rows.
  destruct orderBy as [c|]; [|intros [= <-]; apply incl_refl].
  destruct (String.eqb c "") eqn:Ec.
  - apply String.eqb_eq in Ec. subst c. intros [= <-]. apply incl_refl.
  - destruct c as [|a c]; [discriminate|].
    destruct (negb (is_column t (String a c))); [discriminate|].
    cbv zeta.
    destruct (String.eqb _ "ASC");
      [|destruct (String.eqb _ "DESC"); [|discriminate]];
      intros [= <-]; intros r Hr;
      (eapply Permutation_in; [apply sort_rows_perm | exact Hr]).
Qed.

Lemma limit_rows_incl limit offset (l : list row) :
  incl (DatabaseManager.limit_rows limit offset l) l.
Proof.
  assert (Hfirst : forall n (l0 : list row), incl (firstn n l0) l0).
  { intros n l0 r Hr. rewrite <- (firstn_skipn n l0). apply in_or_app. now left. }
  assert (Hskip : forall n (l0 : list row), incl (skipn n l0) l0).
  { intros n l0 r Hr. rewrite <- (firstn_skipn n l0). apply in_or_app. now right. }
  unfold DatabaseManager.limit_rows.
  destruct limit as [[|n|n]|]; try apply incl_refl;
    destruct offset as [[|m|m]|]; cbn [Z.ltb Z.compare];
    try apply incl_refl; try apply Hfirst; try apply Hskip;
    (eapply incl_tran; [apply Hfirst | apply Hskip]).
Qed.

Lemma limit_rows_length n offset (l : list row) :
  0 < n ->
  (List.length (DatabaseManager.limit_rows (Some n) offset l) <= Z.to_nat n)%nat.
Proof.
  intros Hn. unfold DatabaseManager.limit_rows.
  destruct n as [|n|n]; try lia.
  replace (Z.pos n <? 0) with false by reflexivity.
  rewrite length_firstn. lia.
Qed.

(** What [getAll] returns: stored rows that pass the filter, at most
    [limit] of them. *)
Lemma getAll_selects t q w l w' :
  DatabaseManager.getAll t q w = (Ok l, w') ->
  w' = w
  /\ exists sel picked,
       DatabaseManager.select_filter t
         (match DatabaseManager.q_where q with Some x => x | None => [] end)
       = Ok sel
       /\ l = map row_object picked
       /\ Forall (fun r => In r (rows t (db w)) /\ sel r = true) picked
       /\ (forall n, DatabaseManager.q_limit q = Some n -> 0 < n ->
                     (List.length picked <= Z.to_nat n)%nat).
Proof.
  unfold DatabaseManager.getAll, bind, DatabaseManager.lift, get_db, ret, throw.
  destruct (DatabaseManager.select_filter t _) as [sel|e]; [|discriminate].
  destruct (DatabaseManager.order_rows t _ _ _) as [sorted|e] eqn:Eo;
    [|discriminate].
  intros [= <- <-]. split; [reflexivity|].
  exists sel, (DatabaseManager.limit_rows (DatabaseManager.q_limit q)
                 (DatabaseManager.q_offset q) sorted).
  split; [reflexivity|]. split; [reflexivity|]. split.
  - apply Forall_forall. intros r Hr.
    apply limit_rows_incl in Hr. apply (order_rows_incl _ _ _ _ _ Eo) in Hr.
    apply filter_In in Hr. exact Hr.
  - intros n -> Hn. now apply limit_rows_length.
Qed.

Lemma parse_columns_shows a b items w l w' :
  StateManager.parse_columns a b items w = (Ok l, w') ->
  Forall2 (fun m item => forall k, k <> a -> k <> b -> jget m k = jget item k)
          l items.
Proof.
  revert w l w'. induction items as [|item items IH]; intros w l w';
    cbn [StateManager.parse_columns].
  - unfold ret. intros [= <- _]. constructor.
  - unfold bind.
    destruct (StateManager.parse_or (jget item a) (JArr []) w)
      as [[first|e] w1]; [|discriminate].
    destruct (StateManager.parse_or (jget item b) (JObj []) w1)
      as [[second|e] w2]; [|discriminate].
    destruct (StateManager.parse_columns a b items w2) as [[rest|e] w3] eqn:Er;
      [|discriminate].
    unfold ret. intros [= <- _]. constructor; [|now apply (IH w2 rest w3)].
    intros k Ha Hb. unfold jget.
    rewrite !prop_set_prop_other by congruence. reflexivity.
Qed.

Lemma keeps_parse_columns a b items :
  keeps_db (StateManager.parse_columns a b items).
Proof.
  induction items as [|item items IH]; cbn [StateManager.parse_columns].
  - apply keeps_ret.
  - apply keeps_bind; [apply keeps_parse_or|]. intros first.
    apply keeps_bind; [apply keeps_parse_or|]. intros second.
    apply keeps_bind; [exact IH|]. intros rest. apply keeps_ret.
Qed.
End Queries.
Lemma shows_rows a b l picked :
  Forall2 (fun m item => forall k, k <> a -> k <> b -> jget m k = jget item k)
          l (map row_object picked) ->
  Forall2 (shows a b) l picked.
Proof.
  revert l. induction picked as [|r picked IH]; intros l Hl;
    inversion Hl; subst; constructor; [assumption | now apply IH].
Qed.

(** X29. [getMemories(characterId, options)] only reads: the database and
    the cache are unchanged.  Whatever it returns are stored memories of
    that character (shown with their columns, [tags] and [metadata]
    parsed): never a memory of another character, never one whose
    importance is below a numeric, non-zero [minImportance], and never more
    than a positive [limit]. *)
Theorem X29_getMemories_returns_only_the_memories_asked_for {H : Host}
    (characterId : string) (opts : StateManager.memory_options) (w : World) :
  let run := StateManager.getMemories characterId opts w in
  db (snd run) = db w
  /\ cache (snd run) = cache w
  /\ match fst run with
     | Ok l =>
         exists picked,
           Forall2 (shows "tags" "metadata") l picked
           /\ Forall (fun r =>
                In r (memories (db w))
                /\ field r "character_id" = SText characterId
                /\ (forall n,
                      StateManager.memory_minImportance opts = JNum n ->
                      n <> 0 ->
                      sql_ge (field r "importance") (SInt n) = true))
              picked
           /\ (forall n, StateManager.memory_limit opts = Some n -> 0 < n ->
                         (List.length l <= Z.to_nat n)%nat)
     | Throw _ => True
     end.
Proof.
  intros run. split; [|split].
  - subst run. unfold StateManager.getMemories.
    apply keeps_bind; [apply keeps_getAll | intros l; apply keeps_parse_columns].
  - subst run. apply same_cache_getMemories.
  - subst run. unfold StateManager.getMemories, bind.
    match goal with
    | |- context [DatabaseManager.getAll Memories ?q w] => set (query := q)
    end.
    destruct (DatabaseManager.getAll Memories query w) as [[items|e] w1] eqn:Eg;
      [|exact I].
    destruct (getAll_selects _ _ _ _ _ Eg) as (-> & sel & picked & Hsel & -> & Hpicked & Hlimit).
    cbv beta iota.
    destruct (StateManager.parse_columns "tags" "metadata"
                (map row_object picked) w) as [[l|e] w2] eqn:Ep;
      cbn [fst]; [|exact I].
    pose proof (parse_columns_shows _ _ _ _ _ _ Ep) as Hshows.
    exists picked. split; [now apply shows_rows|]. split.
    + eapply Forall_impl; [|exact Hpicked]. cbv beta.
      intros r [Hin Hr]. split; [exact Hin|].
      subst query. cbn [DatabaseManager.q_where] in Hsel.
      destruct (truthy (StateManager.memory_minImportance opts)) eqn:Et.
      * cbn in Hsel.
        destruct (bind_value (StateManager.memory_minImportance opts))
          as [x|] eqn:Ex; [|discriminate].
        injection Hsel as <-. cbn in Hr.
        apply andb_true_iff in Hr. destruct Hr as [Hid Hr].
        apply andb_true_iff in Hr. destruct Hr as [Himp _].
        split; [now apply sql_eq_text|].
        intros n Hn _. rewrite Hn in Ex. injection Ex as <-. exact Himp.
      * cbn in Hsel. injection Hsel as <-. cbn in Hr.
        apply andb_true_iff in Hr. destruct Hr as [Hid _].
        split; [now apply sql_eq_text|].
        intros n Hn Hne. rewrite Hn in Et. cbn in Et.
        apply negb_false_iff, Z.eqb_eq in Et. contradiction.
    + intros n Hn Hpos.
      rewrite (Forall2_length Hshows), length_map.
      apply (Hlimit n); [exact Hn | exact Hpos].
Qed.

Lemma X29_getMemories_returns_only_the_memories_asked_for_witness :
  let opts := {| StateManager.memory_minImportance := JNum 4;
                 StateManager.memory_orderBy := None;
                 StateManager.memory_order := None;
                 StateManager.memory_limit := Some 5 |} in
  let run := StateManager.getMemories (H := Demo.host) "alice" opts
               diary_world in
  option_map (map (fun m => jget m "id"))
    (match fst run with Ok l => Some l | Throw _ => None end)
  = Some [JStr "m3"]
  /\ db (snd run) = db diary_world
  /\ cache (snd run) = cache diary_world
  /\ match fst run with
     | Ok l =>
         exists picked,
           Forall2 (shows "tags" "metadata") l picked
           /\ Forall (fun r =>
                In r (memories (db diary_world))
                /\ field r "character_id" = SText "alice"
                /\ (forall n,
                      StateManager.memory_minImportance opts = JNum n ->
                      n <> 0 ->
                      sql_ge (field r "importance") (SInt n) = true))
              picked
           /\ (forall n, StateManager.memory_limit opts = Some n -> 0 < n ->
                         (List.length l <= Z.to_nat n)%nat)
     | Throw _ => True
     end.
Proof.
  intros opts run. split; [reflexivity|].
  apply (X29_getMemories_returns_only_the_memories_asked_for (H := Demo.host)
           "alice" opts diary_world).
Defined.
Lemma in_set_prop_same {V} (o : list (string * V)) k v :
  In (k, v) (set_prop o k v).
Proof.
  induction o as [|[k' v'] o IH]; cbn [set_prop]; [now left|].
  destruct (String.eqb k' k); [now left | now right].
Qed.

Lemma in_set_prop_other {V} (o : list (string * V)) k v k' v' :
  k' <> k -> In (k', v') o -> In (k', v') (set_prop o k v).
Proof.
  intros Hne. induction o as [|[k0 v0] o IH]; cbn [set_prop]; [intros []|].
  intros [Hin | Hin].
  - injection Hin as -> ->.
    destruct (String.eqb k' k) eqn:E;
      [apply String.eqb_eq in E; contradiction | now left].
  - destruct (String.eqb k0 k); right; [exact Hin | now apply IH].
Qed.

Lemma operator_conditions_bound key ops cs op val :
  DatabaseManager.operator_conditions key ops = Ok cs ->
  In (op, val) ops ->
  (op = "gte" ->
   In (DatabaseManager.Build_condition key DatabaseManager.OpGte [val]) cs)
  /\ (op = "lte" ->
      In (DatabaseManager.Build_condition key DatabaseManager.OpLte [val]) cs).
Proof.
  revert cs. induction ops as [|[op0 val0] ops IH]; intros cs;
    cbn [DatabaseManager.operator_conditions]; [intros _ []|].
  intros Hcs Hin.
  assert (Hrest : forall c, (match DatabaseManager.operator_conditions key ops with
                             | Ok l => Ok (c :: l)
                             | Throw e => Throw e
                             end) = Ok cs ->
                            exists l, DatabaseManager.operator_conditions key ops = Ok l
                                      /\ cs = c :: l).
  { intros c. destruct (DatabaseManager.operator_conditions key ops) as [l|e];
      [|discriminate]. intros [= <-]. now exists l. }
  assert (Htail : forall c l,
             DatabaseManager.operator_conditions key ops = Ok l ->
             cs = c :: l -> In (op, val) ops ->
             (op = "gte" ->
              In (DatabaseManager.Build_condition key DatabaseManager.OpGte [val]) cs)
             /\ (op = "lte" ->
                 In (DatabaseManager.Build_condition key DatabaseManager.OpLte [val]) cs)).
  { intros c l Hl -> Hin'. destruct (IH l Hl Hin') as [Hg Hl'].
    split; intros Hop; right; auto. }
  destruct (String.eqb op0 "gt") eqn:E1.
  { destruct (Hrest _ Hcs) as (l & Hl & Hc).
    destruct Hin as [Hin | Hin]; [|eapply Htail; eassumption].
    injection Hin as -> ->. apply String.eqb_eq in E1.
    split; intros ->; discriminate. }
  destruct (String.eqb op0 "gte") eqn:E2.
  { destruct (Hrest _ Hcs) as (l & Hl & Hc).
    destruct Hin as [Hin | Hin]; [|eapply Htail; eassumption].
    injection Hin as -> ->. apply String.eqb_eq in E2. subst cs.
    split; intros Hop; [now left | congruence]. }
  destruct (String.eqb op0 "lt") eqn:E3.
  { destruct (Hrest _ Hcs) as (l & Hl & Hc).
    destruct Hin as [Hin | Hin]; [|eapply Htail; eassumption].
    injection Hin as -> ->. apply String.eqb_eq in E3.
    split; intros ->; discriminate. }
  destruct (String.eqb op0 "lte") eqn:E4.
  { destruct (Hrest _ Hcs) as (l & Hl & Hc).
    destruct Hin as [Hin | Hin]; [|eapply Htail; eassumption].
    injection Hin as -> ->. apply String.eqb_eq in E4. subst cs.
    split; intros Hop; [congruence | now left]. }
  destruct (String.eqb op0 "like") eqn:E5.
  { destruct (Hrest _ Hcs) as (l & Hl & Hc).
    destruct Hin as [Hin | Hin]; [|eapply Htail; eassumption].
    injection Hin as -> ->. apply String.eqb_eq in E5.
    split; intros ->; discriminate. }
  destruct (String.eqb op0 "in") eqn:E6; [|discriminate].
  destruct val0; try discriminate.
  destruct (Hrest _ Hcs) as (l & Hl & Hc).
  destruct Hin as [Hin | Hin]; [|eapply Htail; eassumption].
  injection Hin as Hop Hval. apply String.eqb_eq in E6. subst op0 op.
  split; discriminate.
Qed.

Lemma buildWhere_operators where_ conds key ops :
  DatabaseManager._buildWhereClause where_ = Ok conds ->
  In (key, JObj ops) where_ ->
  exists cs, DatabaseManager.operator_conditions key ops = Ok cs /\ incl cs conds.
Proof.
  revert conds. induction where_ as [|[k v] rest IH]; intros conds;
    cbn [DatabaseManager._buildWhereClause]; [intros _ []|].
  intros Hb Hin.
  destruct (match v with
            | JObj ops0 => DatabaseManager.operator_conditions k ops0
            | JArr items =>
                DatabaseManager.operator_conditions k
                  (DatabaseManager.indexed 0 items)
            | _ => Ok [DatabaseManager.Build_condition k DatabaseManager.OpEq [v]]
            end) as [here|e] eqn:Ehere; [|discriminate].
  destruct (DatabaseManager._buildWhereClause rest) as [l'|e]; [|discriminate].
  injection Hb as <-.
  destruct Hin as [Hin | Hin].
  - injection Hin as -> ->. exists here. split; [exact Ehere|].
    intros c Hc. apply in_or_app. now left.
  - destruct (IH l' eq_refl Hin) as (cs & Hcs & Hincl).
    exists cs. split; [exact Hcs|]. intros c Hc. apply in_or_app. right.
    now apply Hincl.
Qed.

Lemma buildWhere_equality where_ conds key s :
  DatabaseManager._buildWhereClause where_ = Ok conds ->
  In (key, JStr s) where_ ->
  In (DatabaseManager.Build_condition key DatabaseManager.OpEq [JStr s]) conds.
Proof.
  revert conds. induction where_ as [|[k v] rest IH]; intros conds;
    cbn [DatabaseManager._buildWhereClause]; [intros _ []|].
  intros Hb Hin.
  destruct (match v with
            | JObj ops0 => DatabaseManager.operator_conditions k ops0
            | JArr items =>
                DatabaseManager.operator_conditions k
                  (DatabaseManager.indexed 0 items)
            | _ => Ok [DatabaseManager.Build_condition k DatabaseManager.OpEq [v]]
            end) as [here|e] eqn:Ehere; [|discriminate].
  destruct (DatabaseManager._buildWhereClause rest) as [l'|e]; [|discriminate].
  injection Hb as <-. apply in_or_app.
  destruct Hin as [Hin | Hin].
  - injection Hin as -> ->. injection Ehere as <-. left. now left.
  - right. now apply (IH l' eq_refl).
Qed.

Lemma selector_holds t conds sel r :
  DatabaseManager.selector t conds = Ok sel -> sel r = true ->
  forall c, In c conds ->
            exists xs, DatabaseManager.bind_values (DatabaseManager.cond_values c)
                       = Some xs
                       /\ DatabaseManager.holds c xs r = true.
Proof.
  revert sel. induction conds as [|c0 conds IH]; intros sel;
    cbn [DatabaseManager.selector]; [intros _ _ c []|].
  destruct (negb (is_column t (DatabaseManager.cond_column c0)));
    [discriminate|].
  destruct (DatabaseManager.bind_values (DatabaseManager.cond_values c0))
    as [xs|] eqn:Exs; [|discriminate].
  destruct (DatabaseManager.selector t conds) as [f|e]; [|discriminate].
  intros [= <-] Hr c [<- | Hin].
  - apply andb_true_iff in Hr. exists xs. now split.
  - apply andb_true_iff in Hr. now apply (IH f eq_refl (proj2 Hr)).
Qed.

(** What a row that passes the filter of a WHERE object satisfies. *)
Lemma select_filter_sound t where_ sel r :
  DatabaseManager.select_filter t where_ = Ok sel -> sel r = true ->
  (forall key ops op n,
      In (key, JObj ops) where_ -> In (op, JNum n) ops ->
      (op = "gte" -> sql_ge (field r key) (SInt n) = true)
      /\ (op = "lte" -> sql_le (field r key) (SInt n) = true))
  /\ (forall key s, In (key, JStr s) where_ -> field r key = SText s).
Proof.
  unfold DatabaseManager.select_filter. intros Hsel Hr.
  destruct where_ as [|entry rest]; [split; intros; contradiction|].
  set (where_ := entry :: rest) in *.
  destruct (DatabaseManager._buildWhereClause where_) as [conds|e] eqn:Eb;
    [|discriminate].
  assert (Hconds : DatabaseManager.selector t conds = Ok sel)
    by (destruct conds; [discriminate | exact Hsel]).
  pose proof (selector_holds _ _ _ _ Hconds Hr) as Hall.
  split.
  - intros key ops op n Hkey Hop.
    destruct (buildWhere_operators _ _ _ _ Eb Hkey) as (cs & Hcs & Hincl).
    destruct (operator_conditions_bound _ _ _ _ _ Hcs Hop) as [Hg Hl].
    split; intros Hname.
    + destruct (Hall _ (Hincl _ (Hg Hname))) as (xs & Hxs & Hholds).
      cbn in Hxs. injection Hxs as <-. exact Hholds.
    + destruct (Hall _ (Hincl _ (Hl Hname))) as (xs & Hxs & Hholds).
      cbn in Hxs. injection Hxs as <-. exact Hholds.
  - intros key s Hkey.
    destruct (Hall _ (buildWhere_equality _ _ _ _ Eb Hkey)) as (xs & Hxs & Hholds).
    cbn in Hxs. injection Hxs as <-. cbn in Hholds. now apply sql_eq_text.
Qed.
(** What the [where] object of [getTimeline] holds. *)
Lemma timeline_where_entries opts :
  (forall a, StateManager.startTime opts = JNum a -> a <> 0 ->
             exists ops, In ("timestamp", JObj ops) (StateManager.timeline_where opts)
                         /\ In ("gte", JNum a) ops)
  /\ (forall b, StateManager.endTime opts = JNum b -> b <> 0 ->
                exists ops, In ("timestamp", JObj ops) (StateManager.timeline_where opts)
                            /\ In ("lte", JNum b) ops)
  /\ (forall s, StateManager.eventType opts = JStr s -> s <> "" ->
                In ("event_type", JStr s) (StateManager.timeline_where opts))
  /\ (forall n, StateManager.minImportance opts = JNum n -> n <> 0 ->
                exists ops, In ("importance", JObj ops) (StateManager.timeline_where opts)
                            /\ In ("gte", JNum n) ops).
Proof.
  assert (Hnum : forall n, n <> 0 -> truthy (JNum n) = true).
  { intros n Hn. cbn. apply negb_true_iff. now apply Z.eqb_neq. }
  assert (Hstr : forall s, s <> "" -> truthy (JStr s) = true).
  { intros s Hs. cbn. apply negb_true_iff. now apply String.eqb_neq. }
  unfold StateManager.timeline_where.
  set (stamped :=
         if truthy (StateManager.startTime opts)
            && truthy (StateManager.endTime opts)
         then set_prop [] "timestamp"
                (JObj [("gte", StateManager.startTime opts);
                       ("lte", StateManager.endTime opts)])
         else if truthy (StateManager.startTime opts)
         then set_prop [] "timestamp"
                (JObj [("gte", StateManager.startTime opts)])
         else if truthy (StateManager.endTime opts)
         then set_prop [] "timestamp"
                (JObj [("lte", StateManager.endTime opts)])
         else []).
  set (typed := if truthy (StateManager.eventType opts)
                then set_prop stamped "event_type" (StateManager.eventType opts)
                else stamped).
  assert (Hup1 : forall k v, k <> "event_type" -> In (k, v) stamped ->
                             In (k, v) typed).
  { intros k v Hk Hin. subst typed.
    destruct (truthy (StateManager.eventType opts)); [|exact Hin].
    now apply in_set_prop_other. }
  assert (Hup2 : forall k v, k <> "importance" -> In (k, v) typed ->
                             In (k, v)
                               (if truthy (StateManager.minImportance opts)
                                then set_prop typed "importance"
                                       (JObj [("gte", StateManager.minImportance opts)])
                                else typed)).
  { intros k v Hk Hin.
    destruct (truthy (StateManager.minImportance opts)); [|exact Hin].
    now apply in_set_prop_other. }
  split; [|split; [|split]].
  - intros a Ha Hne. pose proof (Hnum a Hne) as Ht. rewrite <- Ha in Ht.
    destruct (truthy (StateManager.endTime opts)) eqn:Eb.
    + exists [("gte", StateManager.startTime opts);
              ("lte", StateManager.endTime opts)].
      split; [|left; now rewrite Ha].
      apply Hup2; [discriminate|]. apply Hup1; [discriminate|].
      subst stamped. rewrite ?Ht, ?Eb. now left.
    + exists [("gte", StateManager.startTime opts)].
      split; [|left; now rewrite Ha].
      apply Hup2; [discriminate|]. apply Hup1; [discriminate|].
      subst stamped. rewrite ?Ht, ?Eb. now left.
  - intros b Hb Hne. pose proof (Hnum b Hne) as Ht. rewrite <- Hb in Ht.
    destruct (truthy (StateManager.startTime opts)) eqn:Ea.
    + exists [("gte", StateManager.startTime opts);
              ("lte", StateManager.endTime opts)].
      split; [|right; left; now rewrite Hb].
      apply Hup2; [discriminate|]. apply Hup1; [discriminate|].
      subst stamped. rewrite ?Ht, ?Ea. now left.
    + exists [("lte", StateManager.endTime opts)].
      split; [|left; now rewrite Hb].
      apply Hup2; [discriminate|]. apply Hup1; [discriminate|].
      subst stamped. rewrite ?Ht, ?Ea. now left.
  - intros s Hs Hne. pose proof (Hstr s Hne) as Ht. rewrite <- Hs in Ht.
    apply Hup2; [discriminate|]. subst typed. rewrite Ht, Hs.
    apply in_set_prop_same.
  - intros n Hn Hne. pose proof (Hnum n Hne) as Ht. rewrite <- Hn in Ht.
    rewrite Ht. exists [("gte", StateManager.minImportance opts)].
    split; [apply in_set_prop_same | left; now rewrite Hn].
Qed.

(** X30. [getTimeline(options)] only reads: the database and the cache are
    unchanged.  Whatever it returns are stored events (shown with their
    columns, [participants] and [metadata] parsed) that lie in the window
    asked for: not before a numeric, non-zero [startTime], not after a
    numeric, non-zero [endTime], of the given non-empty [eventType], not
    below a numeric, non-zero [minImportance], and never more than a
    positive [limit]. *)
Theorem X30_getTimeline_returns_only_the_events_asked_for {H : Host}
    (opts : StateManager.timeline_options) (w : World) :
  let run := StateManager.getTimeline opts w in
  db (snd run) = db w
  /\ cache (snd run) = cache w
  /\ match fst run with
     | Ok l =>
         exists picked,
           Forall2 (shows "participants" "metadata") l picked
           /\ Forall (fun r =>
                In r (timeline (db w))
                /\ (forall a, StateManager.startTime opts = JNum a -> a <> 0 ->
                              sql_ge (field r "timestamp") (SInt a) = true)
                /\ (forall b, StateManager.endTime opts = JNum b -> b <> 0 ->
                              sql_le (field r "timestamp") (SInt b) = true)
                /\ (forall s, StateManager.eventType opts = JStr s -> s <> "" ->
                              field r "event_type" = SText s)
                /\ (forall n, StateManager.minImportance opts = JNum n ->
                              n <> 0 ->
                              sql_ge (field r "importance") (SInt n) = true))
              picked
           /\ (forall n, StateManager.timeline_limit opts = Some n -> 0 < n ->
                         (List.length l <= Z.to_nat n)%nat)
     | Throw _ => True
     end.
Proof.
  intros run. split; [|split].
  - subst run. unfold StateManager.getTimeline.
    apply keeps_bind; [apply keeps_getAll | intros l; apply keeps_parse_columns].
  - subst run. apply same_cache_getTimeline.
  - subst run. unfold StateManager.getTimeline, bind.
    match goal with
    | |- context [DatabaseManager.getAll Timeline ?q w] => set (query := q)
    end.
    destruct (DatabaseManager.getAll Timeline query w) as [[items|e] w1] eqn:Eg;
      [|exact I].
    destruct (getAll_selects _ _ _ _ _ Eg)
      as (-> & sel & picked & Hsel & -> & Hpicked & Hlimit).
    cbv beta iota.
    destruct (StateManager.parse_columns "participants" "metadata"
                (map row_object picked) w) as [[l|e] w2] eqn:Ep;
      cbn [fst]; [|exact I].
    pose proof (parse_columns_shows _ _ _ _ _ _ Ep) as Hshows.
    exists picked. split; [now apply shows_rows|]. split.
    + eapply Forall_impl; [|exact Hpicked]. cbv beta.
      intros r [Hin Hr]. split; [exact Hin|].
      subst query. cbn [DatabaseManager.q_where] in Hsel.
      destruct (select_filter_sound _ _ _ _ Hsel Hr) as [Hops Heq].
      destruct (timeline_where_entries opts) as (Ha & Hb & Hs & Hn).
      split; [|split; [|split]].
      * intros a Hstart Hne. destruct (Ha a Hstart Hne) as (ops & Hw & Hop).
        now apply (Hops "timestamp" ops "gte" a Hw Hop).
      * intros b Hend Hne. destruct (Hb b Hend Hne) as (ops & Hw & Hop).
        now apply (Hops "timestamp" ops "lte" b Hw Hop).
      * intros s Htype Hne. apply Heq. now apply Hs.
      * intros n Hmin Hne. destruct (Hn n Hmin Hne) as (ops & Hw & Hop).
        now apply (Hops "importance" ops "gte" n Hw Hop).
    + intros n Hn Hpos.
      rewrite (Forall2_length Hshows), length_map.
      apply (Hlimit n); [exact Hn | exact Hpos].
Qed.

Lemma X30_getTimeline_returns_only_the_events_asked_for_witness :
  let opts := {| StateManager.startTime := JNum 150;
                 StateManager.endTime := JNum 400;
                 StateManager.eventType := JStr "general";
                 StateManager.minImportance := JNum 2;
                 StateManager.timeline_order := None;
                 StateManager.timeline_limit := Some 10 |} in
  let run := StateManager.getTimeline (H := Demo.host) opts diary_world in
  option_map (map (fun m => jget m "id"))
    (match fst run with Ok l => Some l | Throw _ => None end)
  = Some [JStr "e3"]
  /\ db (snd run) = db diary_world
  /\ cache (snd run) = cache diary_world
  /\ match fst run with
     | Ok l =>
         exists picked,
           Forall2 (shows "participants" "metadata") l picked
           /\ Forall (fun r =>
                In r (timeline (db diary_world))
                /\ (forall a, StateManager.startTime opts = JNum a -> a <> 0 ->
                              sql_ge (field r "timestamp") (SInt a) = true)
                /\ (forall b, StateManager.endTime opts = JNum b -> b <> 0 ->
                              sql_le (field r "timestamp") (SInt b) = true)
                /\ (forall s, StateManager.eventType opts = JStr s -> s <> "" ->
                              field r "event_type" = SText s)
                /\ (forall n, StateManager.minImportance opts = JNum n ->
                              n <> 0 ->
                              sql_ge (field r "importance") (SInt n) = true))
              picked
           /\ (forall n, StateManager.timeline_limit opts = Some n -> 0 < n ->
                         (List.length l <= Z.to_nat n)%nat)
     | Throw _ => True
     end.
Proof.
  intros opts run. split; [reflexivity|].
  apply (X30_getTimeline_returns_only_the_events_asked_for (H := Demo.host)
           opts diary_world).
Defined.
